(* ===== verification/_CoqProject ===== *)
-Q . S2P
Prelude.v
GoNet.v
Stream.v
Types.v
Mux.v
NPChain.v
Socks5Udp.v
Obfs.v
ProxyProto.v
Sniffer.v
Limits.v
Relay.v
FakeIP.v
Outbound.v
Router.v
Dns.v
Config.v
Inbound.v
UdpSession.v
UdpRange.v
Transport.v
Agent.v
HttpProxy.v
Control.v
Npctl.v
Listener.v
OrigDst.v
Quic.v
DnsUpstream.v
GeoIP.v
Datagrams.v
Serve.v
Assoc.v
ChainNode.v
Bandwidth.v
Setup.v
Running.v
Deployment.v
