(* ===== verification/Prelude.v ===== *)
(** * NodePro: a verification development

    NodePro is a proxy node written in Go.  Clients reach a node through
    inbounds (SOCKS5, HTTP, port forwarders, transparent proxies, UDP
    forwarders); the node routes each session by rules to an outbound, which
    connects directly or through a chain of other nodes; the two connections
    are then relayed under quotas and rate limits.  A resolver answers DNS
    queries and may hand out fake addresses that routing turns back into
    names.  An agent assembles these parts from a configuration, applies new
    configurations and policies while it runs, takes commands from a
    controller and answers an administration interface, for which [npctl] is
    the client.  This development models those parts from their source under
    src/ and proves what makes them correct, and exhibits where they are not.

    ** The parts, their files and how they fit together

    Shared by all files:
    - [Prelude.v] (this file): bytes, fixed-width integers with their wrap
      around, Go errors and panics ([res]), slices, list and integer lemmas,
      the tactics of the development.
    - [GoNet.v]: what the sources use of [strings], [strconv] and [net]:
      splitting, decimal numbers, host:port, addresses and networks.
    - [Stream.v]: connections as sequences of segments and errors, [io] and
      [bufio]; the classes [GoReader] (a [Read] method), [ReaderSpec] (its
      contract as a byte stream) and [ReadBounded].  Decoders are proved
      against [ReaderSpec]; plain, buffered and WebSocket connections
      ([Stream.v], [Transport.v]) are instances.
    - [Types.v]: [SessionMeta], [RoutingRule] (internal/common/types.go) and
      the interface of the third-party uuid package.

    Protocols and connection wrappers:
    - [NPChain.v]: the chain header (internal/protocol/npchain/codec.go), its
      datagrams (udp.go) and the node that relays by it (HandleRelay of
      internal/inbound/npchain.go).  [journey] runs a byte stream through as
      many nodes as it asks for, each given what the one before sends on; its
      fuel is the length of the chain.
    - [ChainNode.v]: HandleRelay in full, with the node's router, outbounds
      and obfuscation; [travel] follows a stream over the links the code has:
      a chain outbound leads to another node, a direct outbound to a plain
      server at the dialed address.
    - [Socks5Udp.v]: internal/protocol/socks5/udp.go.
    - [Obfs.v]: internal/common/obfs.go; [Mux.v]: internal/mux, in the modules
      [Flow], [Agg] and [Reas]; [ProxyProto.v]: internal/common/proxyproto.go;
      [Sniffer.v]: internal/common/sniffer.go; [Transport.v]:
      internal/transport (generic.go, cert_manager.go, pool.go); [Quic.v]:
      quic.go and quic_server.go of the same directory.

    Sessions:
    - [Limits.v]: quota.go, ratelimit.go, metrics.go and pool.go of
      internal/common, in the modules [Quota], [Rate], [Metrics] and [Pool].
    - [Relay.v]: Relay and DualRelay of internal/common/utils.go;
      [Bandwidth.v]: many sessions under the limiters of ratelimit.go, in time,
      over the laws of a token bucket ([TokenBucketLaws]).
    - [Listener.v]: Listen of the same file and the accept loop the TCP
      inbounds run (socks5.go, Start and Stop); [Serve.v]: Start, Stop and
      Addr of every inbound behind the record [InboundHandler] with its laws
      ([InboundLaws]), the loop of the HTTP inbound, the receive loops of the
      UDP inbounds, and [Accept] composed with a handler; [Assoc.v]: the life
      of a SOCKS5 UDP association with its two goroutines.
    - [Inbound.v]: the connection handlers of socks5.go, tcp_forward.go,
      redirect.go, tproxy_linux.go and tcp_balance.go, in a monad for the code
      that talks to a client; [HttpProxy.v]: http_proxy.go; [UdpSession.v]:
      udp_session.go and the packets it is given; [UdpRange.v]: udp_range.go;
      [OrigDst.v]: original_dst_linux.go and the stubs for other systems.
    - [Datagrams.v]: the UDP inbounds, the agent's session registry and the
      datagram callback of its QUIC server, interleaved.

    Routing and names:
    - [Outbound.v]: internal/outbound, the class [OutboundHandler] the router
      is written against, and its instances; [Router.v]: internal/routing
      (router.go, generator.go, matching of geoip.go); [GeoIP.v]: fetching and
      opening the databases; [FakeIP.v], [Dns.v] and [DnsUpstream.v] (the
      exchanges with the upstreams): internal/routing/dns.go.

    The node:
    - [Config.v]: config.go and config_manager.go of internal/common.
    - [Agent.v]: internal/agent, and the configuration cmd/npctl generates;
      [Running.v]: the inbounds the agent has started, with the goroutines
      that bind and serve, while configurations come and go.
    - [Control.v]: internal/control/client.go and the callbacks the agent
      installs; [Npctl.v]: the agent's HTTP routes and cmd/npctl/main.go.
    - [Setup.v]: internal/observability and internal/transport/acme.go.
    - [Deployment.v]: configuration, agent, router, inbound, outbound and chain
      composed.

    Each file holds the definitions first and a module of theorems
    ([...Thms]) behind them, with concrete runs at its end.  Goroutines that
    share state are step relations whose steps are the critical sections of
    the code; loops are functions over the events of the outside world, or
    have fuel.  Every fuel is the number of bytes still to come or one more
    (each turn of the loop in question consumes a byte or ends), and the
    theorems about such loops state that they return.

    ** What the theorems show

    Each theorem's comment states the conditions it needs; the faults below
    show where they are needed.

    - The whole: every configuration of a proxy node, with certificate files
      that load, yields a node that serves its clients through the chain
      ([configured_node_proxies]).
    - From client to target: a chain header decodes, over any reader and any
      segmentation, to what was encoded ([decode_encode], also over WebSocket
      messages, [ws_carries_header]); processed by node after node, a stream
      headed by it visits the hops of the chain and arrives unchanged
      ([journey_chain]); a node with its router and a direct outbound dials
      the first hop and sends the rest ([node_forwards]); a SOCKS5 client's
      session arrives at the end of the chain ([socks5_over_chain]), also from
      behind a load balancer that announces it by the PROXY protocol
      ([proxied_socks5_over_chain]); a CONNECT request is the same session as
      a SOCKS5 CONNECT, but for the bytes the HTTP server has buffered
      ([http_connect_like_socks5]); handlers give the right answer on every
      branch ([socks5_serves], [plain_forwards], [range_mapping]); every
      inbound serves all its clients ([inbound_serves_all]); the balancer
      follows the health of its targets ([balance_follows_health]);
      redirected clients get their destination ([original_dst],
      [redirect_restores]).
    - Between nodes: the QUIC server accepts streams and datagrams in order,
      hands out each of them once, the streams on goroutines of their own, and
      can always hand out all of them ([quic_dispatch], [quic_serves]); a
      reply reaches the client of its session and nobody
      else ([reply_delivered]).
    - Authentication and isolation: no session without accepted credentials
      ([socks5_authenticated], [http_authenticated]); UDP clients never see
      each other's datagrams ([udp_isolation]).
    - Integrity of data: [dual_relay_prefix], [reassembly_prefix],
      [aggregate_roundtrip], [obfs_roundtrip], [sniff_preserves],
      [v2_roundtrip].
    - Limits: [quota_enforced], [dual_relay_quota], [policy_applied]; all
      sessions of a limiter together stay within its rate, in every interval
      and every interleaving ([bandwidth_bounded]), and lose nothing by it
      ([limited_relay_delivers]).
    - Routing and names: [Route] refines a contract that does not depend on
      the order of Go's map iteration ([route_refines]); address rules are
      prefix tests ([ip_rule_prefix]); fake addresses and names correspond
      one to one ([fakeip_bijective]) and route alike ([fake_query_routes]);
      answers are fresh or fake ([dns_answers], [query_cached]); one good upstream is
      enough ([lookup_resolves]); databases are fetched once
      ([geoip_fetched_once]).
    - The node: [agent_lifecycle], [sync_inbounds_exact], [config_delivery],
      [reconnect_schedule], [heartbeat_applies], [remote_config_applies],
      [npctl_controls], [kick_reports]; the inbounds that run are those of the
      agent's table ([inbounds_tracked], [running_refines_agent]); a UDP
      association ends with its control connection ([association_lifetime]);
      loggers and the audit log record what they are given ([logger_tees],
      [audit_complete]).
    - Robustness: [decode_robust], [socks5_no_panic]; a reader of obfuscated
      frames returns with the first data frame and not before
      ([obfs_read_skips], [obfs_read_returns]).
    - Faults: [padding_breaks_relay], [relay_over_chain_lost],
      [datagrams_unmarked], [http_one_client_stops], [early_stop_leaks], and
      in the files [policy_misses_sessions], [stop_spins], [udp_stop_spins],
      [init_config_routes], [dot_needs_port], [sniff_sticky_timeout],
      [redirect_proxy_refuses], [config_exposes_users],
      [transparent_lost_in_chain], [udp_lost_in_chain],
      [relay_over_obfs_fails], [default_chunk_lost], [shutdown_still_serves],
      [silent_client_blocks], [reload_keeps_old_settings],
      [config_stale_apply], [save_drops_errors], [fakeip_exhausted],
      [route_ipv6_panics], [health_inversion], [geo_rules_inert],
      [npctl_not_escaped], [pool_leaks], [cert_reload] and others state what
      the code does where it does not do what it means to.

    ** What is an argument of the model

    Third-party code and the outside world: the files on the disk (the
    certificates the agent loads among them), dialed connections and their
    results, the DNS and HTTP clients and quic-go, gRPC answers, [bcrypt],
    [yaml], [uuid] (with its parse and print laws), the token bucket of
    golang.org/x/time/rate (its answers in [Relay.v], its documented laws in
    [Bandwidth.v]), the level names of zap, the exporters of OpenTelemetry,
    GeoIP databases, randomness, clocks, bound ports and the order of map
    iteration.  Where laws are assumed an instance shows that they hold of a
    concrete function.

    ** Not modelled

    - TLS handshakes, certificate issuing (autocert), the contents of log and
      trace output, the Prometheus collectors beside the counters of
      metrics.go: third-party packages that are handed parameters.
    - api/proto, which is generated.
    - Socket options (SetupTCP, the control functions of tproxy_linux.go
      beyond their results), deadlines other than the sniffer's, and the
      effect of closing one side of a connection on the other.
    - The interfaces of types.go have no code; their methods are the classes
      and records named above.

    What is left of the sources under internal/ and cmd/ without a definition
    is imports, interface and collector declarations, and methods that pass a
    call through to a third-party connection. *)

From Stdlib Require Import Strings.Byte.
From Stdlib Require Export ZArith Lia.
From stdpp Require Export base countable strings gmap list.
#[global] Open Scope Z_scope.

(** ** Bytes, slices and strings

    A Go [byte] is Rocq's 256-constructor [byte]; a Go [[]byte] and a Go
    [string] (an immutable byte sequence) are both [list byte].  String
    literals are read at that type through a coercion. *)

Abbreviation byte := Byte.byte.
Abbreviation bytes := (list byte).
Coercion String.list_byte_of_string : string >-> list.

#[export] Instance byte_eq_dec : EqDecision byte := Byte.byte_eq_dec.

#[export] Instance byte_countable : Countable byte.
Proof. refine (inj_countable Byte.to_N Byte.of_N _); intros b; apply Byte.of_to_N. Defined.

#[export] Instance byte_inhabited : Inhabited byte := populate Byte.x00.

(** The numeric value of a byte and Go's conversion [byte(z)]. *)
Definition b2z (b : byte) : Z := Z.of_N (Byte.to_N b).

Definition z2b (z : Z) : byte :=
  default Byte.x00 (Byte.of_N (Z.to_N (z mod 256))).

(** ** Fixed-width integers: conversions wrap around *)

Definition u8 (z : Z) : Z := z mod 2 ^ 8.

Definition u16 (z : Z) : Z := z mod 2 ^ 16.

Definition u32 (z : Z) : Z := z mod 2 ^ 32.

Definition u64 (z : Z) : Z := z mod 2 ^ 64.

Definition i32 (z : Z) : Z := (z + 2 ^ 31) mod 2 ^ 32 - 2 ^ 31.

Definition i64 (z : Z) : Z := (z + 2 ^ 63) mod 2 ^ 64 - 2 ^ 63.

(** [encoding/binary]'s big-endian layout. *)
Fixpoint be_put (n : nat) (z : Z) : bytes :=
  match n with
  | O => []
  | S n' => be_put n' (z / 256) ++ [z2b z]
  end.

Definition be_get (bs : bytes) : Z :=
  fold_left (λ acc b, acc * 256 + b2z b) bs 0.

(** ** Errors and panics

    The sentinel errors the sources compare or return, [Errorf] for the ones
    that are only a message; [Panic] is a run-time panic (index or slice out
    of range, integer division by zero, assignment to a nil map). *)

Inductive goerr :=
| EOF
| ErrUnexpectedEOF
| ErrShortBuffer
| ErrBufferFull
| ErrNoProgress
| ErrTimeout
| ErrClosed
| ErrNoAvailableOutbound
| Errorf (msg : string).

#[export] Instance goerr_eq_dec : EqDecision goerr.
Proof. solve_decision. Defined.

Inductive res (A : Type) :=
| Ok (a : A)
| Fail (e : goerr)
| Panic.
Arguments Ok {A} _.
Arguments Fail {A} _.
Arguments Panic {A}.

#[export] Instance Ok_inj {A} : Inj (=) (=) (@Ok A).
Proof. congruence. Qed.

Definition res_bind {A B} (m : res A) (k : A → res B) : res B :=
  match m with
  | Ok a => k a
  | Fail e => Fail e
  | Panic => Panic
  end.

Declare Scope go_scope.
Delimit Scope go_scope with go.
Notation "'let!' x ':=' m 'in' k" := (res_bind m (λ x, k))
  (at level 10, x pattern, m at level 100, k at level 200) : go_scope.
#[global] Open Scope go_scope.

(** Go's [b[i]], [b[lo:hi]] and [b[lo:]], which panic out of range. *)
Definition index (b : bytes) (i : nat) : res byte :=
  match b !! i with Some x => Ok x | None => Panic end.

Definition slice (b : bytes) (lo hi : nat) : res bytes :=
  if bool_decide (lo ≤ hi ∧ hi ≤ length b)%nat then Ok (take (hi - lo) (drop lo b)) else Panic.

Definition slice_from (b : bytes) (lo : nat) : res bytes := slice b lo (length b).

(** Go's [copy(dst, src)] as the new contents of [dst]. *)
Definition copy_into (dst src : bytes) : bytes :=
  take (length dst) src ++ drop (length src) dst.

(** The prefix test of [bytes.HasPrefix] and [strings.HasPrefix]. *)
Definition has_prefix (s p : bytes) : bool := bool_decide (take (length p) s = p).

Definition has_suffix (s p : bytes) : bool :=
  bool_decide ((length p ≤ length s)%nat ∧ drop (length s - length p) s = p).

(** ** Lemmas on bytes and integers *)

Lemma b2z_range b : 0 ≤ b2z b < 256.
Proof. unfold b2z. pose proof (Byte.to_N_bounded b). lia. Qed.

Lemma b2z_z2b z : b2z (z2b z) = z mod 256.
Proof.
  unfold b2z, z2b. pose proof (Z.mod_pos_bound z 256 ltac:(lia)) as Hb.
  destruct (Byte.of_N (Z.to_N (z mod 256))) as [b|] eqn:E; simpl.
  - apply Byte.to_of_N in E. rewrite E. lia.
  - exfalso. pose proof (Byte.to_of_N_option_map (Z.to_N (z mod 256))) as H.
    rewrite E in H. simpl in H. case_match eqn:Hle; [done|]. apply N.leb_gt in Hle. lia.
Qed.

Lemma z2b_b2z b : z2b (b2z b) = b.
Proof.
  unfold z2b. rewrite Z.mod_small by apply b2z_range.
  unfold b2z. by rewrite N2Z.id, Byte.of_to_N.
Qed.

Lemma b2z_inj b b' : b2z b = b2z b' → b = b'.
Proof. intros E. by rewrite <-(z2b_b2z b), E, z2b_b2z. Qed.

Lemma z2b_mod z z' : z mod 256 = z' mod 256 → z2b z = z2b z'.
Proof. intros E. apply b2z_inj. by rewrite !b2z_z2b. Qed.

Lemma length_be_put n z : length (be_put n z) = n.
Proof. revert z. induction n; intros z; simpl; [done|]. rewrite length_app, IHn. simpl. lia. Qed.

Lemma be_get_snoc bs b : be_get (bs ++ [b]) = be_get bs * 256 + b2z b.
Proof. unfold be_get. by rewrite fold_left_app. Qed.

Lemma be_get_range bs : 0 ≤ be_get bs < 256 ^ Z.of_nat (length bs).
Proof.
  induction bs as [|b bs IH] using rev_ind; [done|].
  rewrite be_get_snoc, length_app, Nat.add_1_r, Nat2Z.inj_succ, Z.pow_succ_r by lia.
  pose proof (b2z_range b). lia.
Qed.

Lemma be_get_put n z : be_get (be_put n z) = z mod 256 ^ Z.of_nat n.
Proof.
  revert z. induction n as [|n IH]; intros z; [by rewrite Z.mod_1_r|].
  cbn [be_put]. rewrite be_get_snoc, IH, b2z_z2b, Nat2Z.inj_succ, Z.pow_succ_r by lia.
  rewrite Z.rem_mul_r by lia. lia.
Qed.

Lemma be_put_get bs : be_put (length bs) (be_get bs) = bs.
Proof.
  induction bs as [|b bs IH] using rev_ind; [done|].
  rewrite length_app, Nat.add_1_r. cbn [be_put]. pose proof (b2z_range b).
  rewrite be_get_snoc, (Z.mul_comm _ 256), Z.add_comm, Z.mul_comm, Z.div_add, Z.div_small by lia.
  rewrite Z.add_0_l, IH. f_equal. f_equal.
  rewrite <-(z2b_b2z b) at 2. apply z2b_mod. by rewrite Z.mod_add.
Qed.

Lemma be_put_get' n bs : length bs = n → be_put n (be_get bs) = bs.
Proof. intros <-. apply be_put_get. Qed.

Lemma i64_id z : - 2 ^ 63 ≤ z < 2 ^ 63 → i64 z = z.
Proof. intros H. unfold i64. rewrite Z.mod_small; lia. Qed.

Lemma i64_range z : - 2 ^ 63 ≤ i64 z < 2 ^ 63.
Proof. unfold i64. pose proof (Z.mod_pos_bound (z + 2 ^ 63) (2 ^ 64)). lia. Qed.

Lemma i64_add_l a b : i64 (i64 a + b) = i64 (a + b).
Proof.
  unfold i64. f_equal.
  replace ((a + 2 ^ 63) mod 2 ^ 64 - 2 ^ 63 + b + 2 ^ 63) with ((a + 2 ^ 63) mod 2 ^ 64 + b) by lia.
  rewrite Zplus_mod_idemp_l. f_equal. lia.
Qed.

Lemma u32_id z : 0 ≤ z < 2 ^ 32 → u32 z = z.
Proof. intros H. unfold u32. by rewrite Z.mod_small. Qed.

Lemma u16_id z : 0 ≤ z < 2 ^ 16 → u16 z = z.
Proof. intros H. unfold u16. by rewrite Z.mod_small. Qed.

(** ** Lemmas on slices *)

Lemma slice_ok b lo hi :
  (lo ≤ hi)%nat → (hi ≤ length b)%nat → slice b lo hi = Ok (take (hi - lo) (drop lo b)).
Proof. intros. unfold slice. by rewrite bool_decide_true by done. Qed.

Lemma slice_from_ok b lo : (lo ≤ length b)%nat → slice_from b lo = Ok (drop lo b).
Proof.
  intros. unfold slice_from. rewrite slice_ok by lia. f_equal.
  apply take_ge. rewrite length_drop. lia.
Qed.

Lemma index_ok b i : (i < length b)%nat → ∃ x, index b i = Ok x ∧ b !! i = Some x.
Proof. intros H. unfold index. destruct (lookup_lt_is_Some_2 b i H) as [x Hx]. rewrite Hx. eauto. Qed.

(** Slicing a concatenation whose pieces have known lengths. *)
Lemma take_drop_app_mid {A} (a m r : list A) i n :
  length a = i → length m = n → take n (drop i (a ++ m ++ r)) = m.
Proof. intros <- <-. by rewrite drop_app_length, take_app_length. Qed.

Lemma drop_app_mid {A} (a r : list A) i : length a = i → drop i (a ++ r) = r.
Proof. intros <-. apply drop_app_length. Qed.

Lemma take_app_mid {A} (a r : list A) i : length a = i → take i (a ++ r) = a.
Proof. intros <-. apply take_app_length. Qed.

(** Go's [n := copy(p, c); rest := c[n:]]. *)
Lemma take_drop_length {A} n (c : list A) : take n c ++ drop (length (take n c)) c = c.
Proof.
  rewrite length_take. destruct (decide (n ≤ length c)%nat).
  - by rewrite Nat.min_l, take_drop.
  - by rewrite Nat.min_r, take_ge, drop_all, app_nil_r by lia.
Qed.

(** A cursor: [r] is what is left of [b] from position [i] on. *)
Definition at_pos (b : bytes) (i : nat) (r : bytes) : Prop := (i + length r = length b)%nat ∧ drop i b = r.

Lemma at_pos_start b : at_pos b 0 b.
Proof. done. Qed.

Lemma at_pos_app b i a r n : at_pos b i (a ++ r) → length a = n → at_pos b (i + n) r.
Proof.
  intros [Hl Hd] <-. split; [rewrite length_app in Hl; lia|].
  by rewrite <-drop_drop, Hd, drop_app_length.
Qed.

Lemma at_pos_slice b i a r n : at_pos b i (a ++ r) → length a = n → slice b i (i + n) = Ok a.
Proof.
  intros [Hl Hd] <-. rewrite length_app in Hl. rewrite slice_ok by lia.
  replace (i + length a - i)%nat with (length a) by lia. by rewrite Hd, take_app_length.
Qed.

Lemma at_pos_index b i x r : at_pos b i (x :: r) → index b i = Ok x.
Proof.
  intros [Hl Hd]. unfold index. rewrite <-(Nat.add_0_r i), <-lookup_drop, Hd. done.
Qed.

Lemma at_pos_length b i r : at_pos b i r → (i + length r = length b)%nat.
Proof. by intros []. Qed.

Lemma has_prefix_app p s : has_prefix (p ++ s) p = true.
Proof. unfold has_prefix. apply bool_decide_eq_true_2, take_app_length. Qed.

Lemma has_suffix_app p s : has_suffix (p ++ s) s = true.
Proof.
  unfold has_suffix. apply bool_decide_eq_true_2. rewrite length_app. split; [lia|].
  apply drop_app_mid. lia.
Qed.

Lemma has_suffix_spec s p : has_suffix s p = true ↔ ∃ q, s = q ++ p.
Proof.
  split; [|intros [q ->]; apply has_suffix_app].
  unfold has_suffix. rewrite bool_decide_eq_true. intros [Hl Hd].
  exists (take (length s - length p) s). by rewrite <-Hd at 2; rewrite take_drop.
Qed.

(** ** Automation

    [go_len] collects the length equations of the constructions above and
    [go_db] their range facts; [len] normalises lengths and calls [lia];
    [go_step] peels one monadic operation whose bounds [len] decides. *)

Create HintDb go_db.
Create Rewrite HintDb go_len.
#[export] Hint Rewrite @length_app length_be_put @length_take @length_drop @length_cons
  @length_nil @length_replicate : go_len.
#[export] Hint Resolve b2z_range be_get_range i64_range : go_db.

Ltac len := simpl in *; autorewrite with go_len in *; simpl in *; lia.

Ltac go_step :=
  first
    [ rewrite slice_ok by len
    | rewrite slice_from_ok by len
    | match goal with
      | |- context [index ?b ?i] =>
          let x := fresh "x" in let Hi := fresh "Hi" in
          destruct (index_ok b i) as (x & Hi & ?); [len | rewrite Hi; clear Hi]
      end ]; simpl.

(** ** Bit masks *)

Lemma land_mod_pow2 a b k : 0 ≤ k → Z.land a b mod 2 ^ k = Z.land (a mod 2 ^ k) (b mod 2 ^ k).
Proof.
  intros Hk. rewrite <-!Z.land_ones by done. apply Z.bits_inj'. intros i Hi. rewrite !Z.land_spec.
  by destruct (Z.testbit a i), (Z.testbit b i), (Z.testbit (Z.ones k) i).
Qed.

Lemma land_bytes a b x y :
  0 ≤ x < 256 → 0 ≤ y < 256 → Z.land (a * 256 + x) (b * 256 + y) = Z.land a b * 256 + Z.land x y.
Proof.
  intros Hx Hy. set (r := Z.land _ _) at 1.
  assert (∀ c z, 0 ≤ z < 256 → (c * 256 + z) mod 2 ^ 8 = z ∧ Z.shiftr (c * 256 + z) 8 = c) as Hs.
  { intros c z Hz. rewrite Z.shiftr_div_pow2 by lia. change (2 ^ 8) with 256.
    split; [rewrite Z.add_comm, Z.mod_add by lia; by apply Z.mod_small|].
    rewrite Z.div_add_l, Z.div_small by lia. lia. }
  destruct (Hs a x Hx) as [Ha1 Ha2]. destruct (Hs b y Hy) as [Hb1 Hb2].
  assert (r mod 2 ^ 8 = Z.land x y) as H1 by (unfold r; rewrite land_mod_pow2 by lia; by rewrite Ha1, Hb1).
  assert (r / 2 ^ 8 = Z.land a b) as H2
    by (rewrite <-Z.shiftr_div_pow2 by lia; unfold r; by rewrite Z.shiftr_land, Ha2, Hb2).
  rewrite (Z.div_mod r (2 ^ 8)), H1, H2 by lia. lia.
Qed.

Lemma land_le x y : 0 ≤ x → Z.land x y ≤ x.
Proof.
  intros Hx. pose proof (Z.add_lor_land (Z.ldiff x y) (Z.land x y)) as E. rewrite Z.lor_ldiff_and in E.
  assert (Z.land (Z.ldiff x y) (Z.land x y) = 0) as H0.
  { apply Z.bits_inj'. intros i Hi. rewrite !Z.land_spec, Z.ldiff_spec, Z.bits_0.
    by destruct (Z.testbit x i), (Z.testbit y i). }
  assert (0 ≤ Z.ldiff x y) by (apply Z.ldiff_nonneg; lia). lia.
Qed.

(** A prefix mask clears the low bits, and filling them adds. *)
Lemma prefix_mask_div x k : 0 ≤ x < 2 ^ 32 → 0 ≤ k ≤ 32 → Z.land x (2 ^ 32 - 2 ^ k) = 2 ^ k * (x / 2 ^ k).
Proof.
  intros Hx Hk. assert (0 < 2 ^ k) by (apply Z.pow_pos_nonneg; lia).
  assert (2 ^ 32 = 2 ^ k * 2 ^ (32 - k)) as Hp by (rewrite <-Z.pow_add_r by lia; f_equal; lia).
  assert (2 ^ 32 - 2 ^ k = Z.shiftl (Z.ones (32 - k)) k) as ->.
  { rewrite Z.shiftl_mul_pow2, Z.ones_equiv by lia. lia. }
  rewrite (Z.mul_comm (2 ^ k)), <-Z.shiftr_div_pow2, <-Z.shiftl_mul_pow2 by lia.
  apply Z.bits_inj'. intros n Hn. rewrite !Z.land_spec, !Z.shiftl_spec by lia.
  destruct (decide (n < k)); [by rewrite !(Z.testbit_neg_r _ (n - k)), andb_false_r by lia|].
  rewrite Z.shiftr_spec by lia. replace (n - k + k) with n by lia.
  destruct (decide (n < 32)); [rewrite Z.ones_spec_low by lia; apply andb_true_r|].
  rewrite Z.ones_spec_high, andb_false_r by lia. symmetry. apply Z.testbit_false; [lia|].
  rewrite Z.div_small; [done|]. split; [lia|]. apply Z.lt_le_trans with (2 ^ 32); [lia|]. apply Z.pow_le_mono_r; lia.
Qed.

Lemma lor_low_ones a k : 0 ≤ k → a mod 2 ^ k = 0 → Z.lor a (2 ^ k - 1) = a + (2 ^ k - 1).
Proof.
  intros Hk Ha. rewrite <-(Z.add_lor_land a (2 ^ k - 1)).
  replace (2 ^ k - 1) with (Z.ones k) by (rewrite Z.ones_equiv; lia). rewrite Z.land_ones, Ha by done. lia.
Qed.

(** A property every step preserves holds of every reachable state. *)
Lemma rtc_invariant {A} (R : A → A → Prop) (x y : A) (P : A → Prop) :
  (∀ u v, P u → R u v → P v) → rtc R x y → P x → P y.
Proof. intros Hstep. induction 1; eauto. Qed.
