(* ===== verification/GoNet.v ===== *)
(** * The parts of Go's standard library the sources call

    [strings], [strconv] and [net]: searching and splitting strings, decimal
    conversion, host:port splitting and joining, textual IP addresses and
    CIDR networks.  Every function is total and executable; a function whose
    Go version returns an error returns [res] or [option]. *)

From S2P Require Import Prelude.

(** ** Byte-string search *)

Fixpoint index_byte (c : byte) (s : bytes) : option nat :=
  match s with
  | [] => None
  | x :: s' => if bool_decide (x = c) then Some O else S <$> index_byte c s'
  end.

Fixpoint last_index_byte (c : byte) (s : bytes) : option nat :=
  match s with
  | [] => None
  | x :: s' =>
      match last_index_byte c s' with
      | Some i => Some (S i)
      | None => if bool_decide (x = c) then Some O else None
      end
  end.

Definition contains_byte (c : byte) (s : bytes) : bool :=
  match index_byte c s with Some _ => true | None => false end.

(** [strings.SplitN(s, sep, 2)]. *)
Definition SplitN2 (sep : byte) (s : bytes) : list bytes :=
  match index_byte sep s with Some i => [take i s; drop (S i) s] | None => [s] end.

(** [strings.Split(s, sep)] for a one-byte separator. *)
Fixpoint split_byte (sep : byte) (s : bytes) : list bytes :=
  match s with
  | [] => [[]]
  | x :: s' =>
      if bool_decide (x = sep) then [] :: split_byte sep s'
      else match split_byte sep s' with
           | w :: ws => (x :: w) :: ws
           | [] => [[x]]
           end
  end.

(** [strings.TrimPrefix] and [strings.TrimSuffix]. *)
Definition trim_prefix (s p : bytes) : bytes := if has_prefix s p then drop (length p) s else s.

Definition trim_suffix (s p : bytes) : bytes :=
  if has_suffix s p then take (length s - length p) s else s.

Definition lf : byte := Byte.x0a.
Definition cr : byte := Byte.x0d.
Definition sp : byte := Byte.x20.

(** [strings.TrimSpace]: the UTF-8 encodings of Unicode's white space. *)
Definition spaces : list bytes :=
  [[Byte.x09]; [Byte.x0a]; [Byte.x0b]; [Byte.x0c]; [Byte.x0d]; [Byte.x20];
   [Byte.xc2; Byte.x85]; [Byte.xc2; Byte.xa0]; [Byte.xe1; Byte.x9a; Byte.x80];
   [Byte.xe2; Byte.x80; Byte.x80]; [Byte.xe2; Byte.x80; Byte.x81]; [Byte.xe2; Byte.x80; Byte.x82];
   [Byte.xe2; Byte.x80; Byte.x83]; [Byte.xe2; Byte.x80; Byte.x84]; [Byte.xe2; Byte.x80; Byte.x85];
   [Byte.xe2; Byte.x80; Byte.x86]; [Byte.xe2; Byte.x80; Byte.x87]; [Byte.xe2; Byte.x80; Byte.x88];
   [Byte.xe2; Byte.x80; Byte.x89]; [Byte.xe2; Byte.x80; Byte.x8a]; [Byte.xe2; Byte.x80; Byte.xa8];
   [Byte.xe2; Byte.x80; Byte.xa9]; [Byte.xe2; Byte.x80; Byte.xaf]; [Byte.xe2; Byte.x81; Byte.x9f];
   [Byte.xe3; Byte.x80; Byte.x80]].

Fixpoint trim_left (fuel : nat) (s : bytes) : bytes :=
  match fuel with
  | O => s
  | S f => match List.find (has_prefix s) spaces with
           | Some w => trim_left f (drop (length w) s)
           | None => s
           end
  end.

Fixpoint trim_right (fuel : nat) (s : bytes) : bytes :=
  match fuel with
  | O => s
  | S f => match List.find (has_suffix s) spaces with
           | Some w => trim_right f (take (length s - length w) s)
           | None => s
           end
  end.

Definition TrimSpace (s : bytes) : bytes := trim_right (length s) (trim_left (length s) s).

(** ** Decimal conversion: [strconv.Itoa], [strconv.Atoi] *)

Definition is_digit (c : byte) : bool := bool_decide (48 ≤ b2z c ∧ b2z c ≤ 57).

Definition digit (d : Z) : byte := z2b (48 + d).

(** Twenty digits cover every 64-bit integer. *)
Fixpoint dec_digits (fuel : nat) (n : Z) (acc : bytes) : bytes :=
  match fuel with
  | O => acc
  | S f =>
      let acc' := digit (n mod 10) :: acc in
      if bool_decide (n / 10 = 0) then acc' else dec_digits f (n / 10) acc'
  end.

Definition Itoa (z : Z) : bytes :=
  if bool_decide (z < 0) then ("-" : bytes) ++ dec_digits 20 (- z) [] else dec_digits 20 z [].

Inductive numerr := ErrSyntax | ErrRange.

(** [strconv.ParseUint(s, 10, 64)] after the sign: stops at the first
    character that is no digit or at the first overflow. *)
Fixpoint parse_uint (s : bytes) (n : Z) : Z * option numerr :=
  match s with
  | [] => (n, None)
  | c :: s' =>
      if is_digit c then
        let n' := n * 10 + (b2z c - 48) in
        if bool_decide (2 ^ 64 ≤ n') then (2 ^ 64 - 1, Some ErrRange) else parse_uint s' n'
      else (0, Some ErrSyntax)
  end.

(** [strconv.Atoi]: the value is meaningful even with [ErrRange] (clamped),
    and 0 with [ErrSyntax]; the sources use it with the error dropped. *)
Definition Atoi (s : bytes) : Z * option numerr :=
  let '(neg, s') :=
    match s with
    | c :: r => if bool_decide (b2z c = 43) then (false, r)
                else if bool_decide (b2z c = 45) then (true, r) else (false, s)
    | [] => (false, s)
    end in
  match s' with
  | [] => (0, Some ErrSyntax)
  | _ =>
      match parse_uint s' 0 with
      | (_, Some ErrSyntax) => (0, Some ErrSyntax)
      | (un, _) =>
          if negb neg && bool_decide (2 ^ 63 ≤ un) then (2 ^ 63 - 1, Some ErrRange)
          else if neg && bool_decide (2 ^ 63 < un) then (- 2 ^ 63, Some ErrRange)
          else (if neg then - un else un, None)
      end
  end.

(** [net.parsePort]: [None] when the service name needs a table lookup. *)
Fixpoint port_digits (s : bytes) (n : Z) : option Z :=
  match s with
  | [] => Some n
  | c :: s' =>
      if is_digit c then
        if bool_decide (2 ^ 30 ≤ n) then Some (2 ^ 32 - 1)
        else
          let n10 := u32 (n * 10) in
          let nn := u32 (n10 + (b2z c - 48)) in
          if bool_decide (nn < n10) then Some (2 ^ 32 - 1) else port_digits s' nn
      else None
  end.

Definition parsePort (s : bytes) : option Z :=
  match s with
  | [] => Some 0
  | c :: r =>
      let '(neg, ds) :=
        if bool_decide (b2z c = 43) then (false, r)
        else if bool_decide (b2z c = 45) then (true, r) else (false, s) in
      n ← port_digits ds 0;
      let p := if negb neg && bool_decide (2 ^ 30 ≤ n) then 2 ^ 30 - 1
               else if neg && bool_decide (2 ^ 30 < n) then 2 ^ 30 else n in
      Some (if neg then - p else p)
  end.

(** [net.LookupPort]: [services] is the host's service table. *)
Definition LookupPort (services : bytes → option Z) (s : bytes) : res Z :=
  match (match parsePort s with Some p => Some p | None => services s end) with
  | None => Fail (Errorf "unknown port")
  | Some p => if bool_decide (0 ≤ p ≤ 65535) then Ok p else Fail (Errorf "invalid port")
  end.

(** ** host:port strings *)

Definition colon : byte := Byte.x3a.
Definition lbrack : byte := Byte.x5b.
Definition rbrack : byte := Byte.x5d.
Definition dot : byte := Byte.x2e.
Definition percent : byte := Byte.x25.

Definition SplitHostPort (hp : bytes) : res (bytes * bytes) :=
  match last_index_byte colon hp with
  | None => Fail (Errorf "missing port in address")
  | Some i =>
      let finish (host : bytes) (j k : nat) :=
        if contains_byte lbrack (drop j hp) then Fail (Errorf "unexpected '[' in address")
        else if contains_byte rbrack (drop k hp) then Fail (Errorf "unexpected ']' in address")
        else Ok (host, drop (S i) hp) in
      if bool_decide (hp !! 0%nat = Some lbrack) then
        match index_byte rbrack hp with
        | None => Fail (Errorf "missing ']' in address")
        | Some e =>
            if bool_decide (S e = length hp) then Fail (Errorf "missing port in address")
            else if bool_decide (S e = i) then finish (take (e - 1) (drop 1 hp)) 1%nat (S e)
            else if bool_decide (hp !! S e = Some colon)
                 then Fail (Errorf "too many colons in address")
                 else Fail (Errorf "missing port in address")
        end
      else
        let host := take i hp in
        if contains_byte colon host then Fail (Errorf "too many colons in address")
        else finish host 0%nat 0%nat
  end.

Definition JoinHostPort (host port : bytes) : bytes :=
  if contains_byte colon host
  then lbrack :: host ++ rbrack :: colon :: port
  else host ++ colon :: port.

(** The results with the error dropped, as in [h, _, _ := SplitHostPort(s)]. *)
Definition host_of (hp : bytes) : bytes :=
  match SplitHostPort hp with Ok (h, _) => h | _ => [] end.

Definition port_of (hp : bytes) : bytes :=
  match SplitHostPort hp with Ok (_, p) => p | _ => [] end.

(** ** IP addresses: [net.IP] is a slice, [nil] the empty one *)

Definition v4InV6Prefix : bytes := replicate 10 Byte.x00 ++ [Byte.xff; Byte.xff].

Definition To4 (ip : bytes) : option bytes :=
  if bool_decide (length ip = 4%nat) then Some ip
  else if bool_decide (length ip = 16%nat ∧ take 12 ip = v4InV6Prefix) then Some (drop 12 ip)
  else None.

Definition To16 (ip : bytes) : option bytes :=
  if bool_decide (length ip = 4%nat) then Some (v4InV6Prefix ++ ip)
  else if bool_decide (length ip = 16%nat) then Some ip
  else None.

(** [netip]'s [parseIPv4Fields]. *)
Fixpoint v4_fields (s : bytes) (first prevdot : bool) (val digLen : Z) (acc : bytes) : option bytes :=
  match s with
  | [] => if bool_decide (length acc < 3)%nat then None else Some (acc ++ [z2b val])
  | c :: s' =>
      if is_digit c then
        if bool_decide (digLen = 1 ∧ val = 0) then None
        else
          let val' := val * 10 + (b2z c - 48) in
          if bool_decide (255 < val') then None
          else v4_fields s' false false val' (digLen + 1) acc
      else if bool_decide (c = dot) then
        if first || bool_decide (s' = []) || prevdot then None
        else if bool_decide (length acc = 3%nat) then None
        else v4_fields s' false true 0 0 (acc ++ [z2b val])
      else None
  end.

Definition parseIPv4 (s : bytes) : option bytes := v4_fields s true false 0 0 [].

Definition hex_val (c : byte) : option Z :=
  let z := b2z c in
  if bool_decide (48 ≤ z ∧ z ≤ 57) then Some (z - 48)
  else if bool_decide (97 ≤ z ∧ z ≤ 102) then Some (z - 87)
  else if bool_decide (65 ≤ z ∧ z ≤ 70) then Some (z - 55)
  else None.

(** One group of hex digits: count, value, rest; [None] past four digits. *)
Fixpoint hex_run (s : bytes) (off : nat) (acc : Z) : option (nat * Z * bytes) :=
  match s with
  | [] => Some (off, acc, [])
  | c :: s' =>
      match hex_val c with
      | None => Some (off, acc, s)
      | Some d => if bool_decide (3 < off)%nat then None else hex_run s' (S off) (acc * 16 + d)
      end
  end.

(** The loop of [netip]'s [parseIPv6]: [ip] is what has been written so far.
    Each round writes at least two of the 16 bytes, so eight rounds suffice. *)
Fixpoint v6_loop (fuel : nat) (s ip : bytes) (ell : option nat) : option (bytes * bytes * option nat) :=
  match fuel with
  | O => Some (s, ip, ell)
  | S f =>
      match hex_run s 0 0 with
      | None | Some (O, _, _) => None
      | Some (_, acc, rest) =>
          if bool_decide (rest !! 0%nat = Some dot) then
            if bool_decide (ell = None ∧ length ip ≠ 12%nat) then None
            else if bool_decide (16 < length ip + 4)%nat then None
            else f4 ← parseIPv4 s; Some ([], ip ++ f4, ell)
          else
            let ip' := ip ++ [z2b (Z.shiftr acc 8); z2b acc] in
            match rest with
            | [] => Some ([], ip', ell)
            | c :: r =>
                if negb (bool_decide (c = colon)) then None
                else match r with
                     | [] => None
                     | c2 :: r2 =>
                         if bool_decide (c2 = colon) then
                           match ell with
                           | Some _ => None
                           | None =>
                               match r2 with
                               | [] => Some ([], ip', Some (length ip'))
                               | _ => v6_loop f r2 ip' (Some (length ip'))
                               end
                           end
                         else v6_loop f r ip' ell
                     end
            end
      end
  end.

Definition parseIPv6 (s : bytes) : option bytes :=
  let '(ell, s') :=
    if has_prefix s [colon; colon] then (Some 0%nat, drop 2 s) else (None, s) in
  if bool_decide (ell = Some 0%nat ∧ s' = []) then Some (replicate 16 Byte.x00)
  else
    '(rest, ip, ell) ← v6_loop 8 s' [] ell;
    if negb (bool_decide (rest = [])) then None
    else if bool_decide (length ip < 16)%nat then
      e ← ell;
      Some (take e ip ++ replicate (16 - length ip) Byte.x00 ++ drop e ip)
    else match ell with Some _ => None | None => Some ip end.

(** [netip.ParseAddr], zones excluded ([net.ParseIP] and [net.ParseCIDR]
    refuse them): [inl] a 4-byte and [inr] a 16-byte address. *)
Fixpoint first_sep (s : bytes) : option byte :=
  match s with
  | [] => None
  | c :: s' => if bool_decide (c = dot ∨ c = colon ∨ c = percent) then Some c else first_sep s'
  end.

Definition ParseAddr (s : bytes) : option (bytes + bytes) :=
  match first_sep s with
  | None => None
  | Some c =>
      if bool_decide (c = dot) then inl <$> parseIPv4 s
      else if bool_decide (c = colon) then
        if contains_byte percent s then None else inr <$> parseIPv6 s
      else None
  end.

(** [net.ParseIP]: always the 16-byte form. *)
Definition ParseIP (s : bytes) : option bytes :=
  match ParseAddr s with
  | Some (inl ip4) => Some (v4InV6Prefix ++ ip4)
  | Some (inr ip6) => Some ip6
  | None => None
  end.

Definition hex_digit (d : Z) : byte := if bool_decide (d < 10) then z2b (48 + d) else z2b (87 + d).

(** [netip]'s [appendHex]: no leading zeros. *)
Definition append_hex (x : Z) : bytes :=
  (if bool_decide (4096 ≤ x) then [hex_digit (x / 4096)] else []) ++
  (if bool_decide (256 ≤ x) then [hex_digit (x / 256 mod 16)] else []) ++
  (if bool_decide (16 ≤ x) then [hex_digit (x / 16 mod 16)] else []) ++
  [hex_digit (x mod 16)].

Fixpoint groups (ip : bytes) : list Z :=
  match ip with
  | a :: b :: r => (b2z a * 256 + b2z b) :: groups r
  | _ => []
  end.

Fixpoint zero_run (gs : list Z) : nat :=
  match gs with
  | g :: r => if bool_decide (g = 0) then S (zero_run r) else O
  | [] => O
  end.

(** The longest run of at least two zero groups, the first one on a tie. *)
Definition best_run (gs : list Z) : option (nat * nat) :=
  fold_left (λ best i,
    let l := zero_run (drop i gs) in
    if bool_decide (2 ≤ l ∧ (match best with Some (_, bl) => bl | None => 0 end) < l)%nat
    then Some (i, l) else best) (seq 0 (length gs)) None.

Fixpoint join_groups (gs : list Z) : bytes :=
  match gs with
  | [] => []
  | [g] => append_hex g
  | g :: r => append_hex g ++ colon :: join_groups r
  end.

Definition string6 (ip : bytes) : bytes :=
  let gs := groups ip in
  match best_run gs with
  | None => join_groups gs
  | Some (i, l) => join_groups (take i gs) ++ colon :: colon :: join_groups (drop (i + l) gs)
  end.

Definition dec_byte (b : byte) : bytes := dec_digits 3 (b2z b) [].

Definition string4 (ip : bytes) : bytes :=
  match ip with
  | [a; b; c; d] => dec_byte a ++ dot :: dec_byte b ++ dot :: dec_byte c ++ dot :: dec_byte d
  | _ => []
  end.

Definition hex_string (ip : bytes) : bytes :=
  flat_map (λ b, [hex_digit (b2z b / 16); hex_digit (b2z b mod 16)]) ip.

(** [net.IP.String]. *)
Definition IPString (ip : bytes) : bytes :=
  if bool_decide (ip = []) then "<nil>" : bytes
  else match To4 ip with
       | Some ip4 => string4 ip4
       | None => if bool_decide (length ip = 16%nat) then string6 ip
                 else ("?" : bytes) ++ hex_string ip
       end.

(** ** CIDR networks *)

Record IPNet := { net_ip : bytes; net_mask : bytes }.

Definition CIDRMask (ones bits : nat) : bytes :=
  be_put (bits / 8) (2 ^ Z.of_nat bits - 2 ^ Z.of_nat (bits - ones)).

Definition mask_and (ip m : bytes) : bytes :=
  zip_with (λ a b, z2b (Z.land (b2z a) (b2z b))) ip m.

(** [net.dtoi] on the whole string: [None] unless all digits, at least one,
    and below 0xFFFFFF. *)
Fixpoint dtoi (s : bytes) (n : Z) : option Z :=
  match s with
  | [] => Some n
  | c :: s' =>
      if is_digit c then
        let n' := n * 10 + (b2z c - 48) in
        if bool_decide (16777215 ≤ n') then None else dtoi s' n'
      else None
  end.

(** [net.ParseCIDR]: the network, with the prefix length [Mask.Size] reports. *)
Definition ParseCIDR (s : bytes) : option (IPNet * nat) :=
  i ← index_byte Byte.x2f s;
  addr ← ParseAddr (take i s);
  let m := drop (S i) s in
  n ← (if bool_decide (m = []) then None else dtoi m 0);
  let '(ip, bits) := match addr with inl a => (a, 32%nat) | inr a => (a, 128%nat) end in
  if bool_decide (Z.of_nat bits < n) then None
  else
    let mask := CIDRMask (Z.to_nat n) bits in
    Some ({| net_ip := mask_and ip mask; net_mask := mask |}, Z.to_nat n).

(** [IPNet.Contains]; a nil address is the empty slice. *)
Definition Contains (n : IPNet) (ip : bytes) : bool :=
  let '(nn, m) :=
    match To4 (net_ip n) with
    | Some nn => (nn, if bool_decide (length (net_mask n) = 16%nat) then drop 12 (net_mask n)
                      else net_mask n)
    | None => (net_ip n, net_mask n)
    end in
  let ip' := default ip (To4 ip) in
  bool_decide (length ip' = length nn ∧ mask_and nn m = mask_and ip' m).

Example ParseIP_ex1 : IPString <$> ParseIP "2001:db8::1" = Some ("2001:db8::1" : bytes).
Proof. vm_compute. reflexivity. Qed.

Example ParseIP_ex2 : ParseIP "::ffff:1.2.3.4" = ParseIP "1.2.3.4".
Proof. vm_compute. reflexivity. Qed.

Example ParseIP_ex3 : ParseIP "1.2.3.04" = None ∧ ParseIP "1::2::3" = None ∧ ParseIP "fe80::1%eth0" = None.
Proof. vm_compute. done. Qed.

Example ParseCIDR_ex :
  match ParseCIDR "198.18.0.0/16" with
  | Some (n, k) => k = 16%nat ∧ Contains n (default [] (ParseIP "198.18.3.4")) = true ∧
                   Contains n (default [] (ParseIP "198.19.3.4")) = false ∧ Contains n [] = false
  | None => False
  end.
Proof. vm_compute. done. Qed.

Example Atoi_ex : Atoi "65535" = (65535, None) ∧ Atoi "-7" = (-7, None) ∧ Atoi "http" = (0, Some ErrSyntax).
Proof. vm_compute. done. Qed.

(** ** Lemmas: search *)

Lemma index_byte_None c s : index_byte c s = None ↔ c ∉ s.
Proof.
  induction s as [|x s IH]; simpl; [set_solver|].
  case_bool_decide; [set_solver|]. rewrite fmap_None, IH. set_solver.
Qed.

Lemma contains_byte_false c s : contains_byte c s = false ↔ c ∉ s.
Proof. unfold contains_byte. rewrite <-index_byte_None. by destruct (index_byte c s). Qed.

Lemma contains_byte_true c s : contains_byte c s = true ↔ c ∈ s.
Proof.
  destruct (contains_byte c s) eqn:E; [|by apply contains_byte_false in E].
  split; [|done]. intros _. destruct (decide (c ∈ s)) as [|Hn]; [done|].
  apply contains_byte_false in Hn. congruence.
Qed.

Lemma index_byte_app c a r : c ∉ a → index_byte c (a ++ c :: r) = Some (length a).
Proof.
  induction a as [|x a IH]; simpl; intros Hn; [by rewrite bool_decide_true|].
  rewrite bool_decide_false by set_solver. rewrite IH by set_solver. done.
Qed.

Lemma SplitN2_sep sep a b : sep ∉ a → SplitN2 sep (a ++ sep :: b) = [a; b].
Proof.
  intros Ha. unfold SplitN2. rewrite index_byte_app, take_app_length by done.
  by rewrite drop_app_ge, Nat.sub_succ_l, Nat.sub_diag by lia.
Qed.

Lemma SplitN2_two sep s a b : SplitN2 sep s = [a; b] → s = a ++ sep :: b.
Proof.
  unfold SplitN2. destruct (index_byte sep s) as [i|] eqn:E; [|done]. intros [= <- <-].
  revert i E. induction s as [|x s IH]; intros i E; [done|]. cbn in E. case_bool_decide as Hx.
  - injection E as <-. by subst.
  - destruct (index_byte sep s) as [j|]; [|done]. injection E as <-. cbn. by rewrite <-(IH j eq_refl).
Qed.

Lemma last_index_byte_None c s : c ∉ s → last_index_byte c s = None.
Proof.
  induction s as [|x s IH]; simpl; intros Hn; [done|].
  rewrite IH by set_solver. by rewrite bool_decide_false by set_solver.
Qed.

Lemma last_index_byte_app c a r : c ∉ r → last_index_byte c (a ++ c :: r) = Some (length a).
Proof.
  intros Hn. induction a as [|x a IH]; simpl.
  - by rewrite last_index_byte_None, bool_decide_true.
  - by rewrite IH.
Qed.

Lemma trim_prefix_app p s : trim_prefix (p ++ s) p = s.
Proof. unfold trim_prefix. by rewrite has_prefix_app, drop_app_length. Qed.

(** ** Lemmas: host:port *)

Lemma SplitHostPort_bracketed host port :
  lbrack ∉ host → rbrack ∉ host → colon ∉ port → lbrack ∉ port → rbrack ∉ port →
  SplitHostPort (lbrack :: host ++ rbrack :: colon :: port) = Ok (host, port).
Proof.
  intros Hl Hr Hpc Hpl Hpr. unfold SplitHostPort.
  replace (last_index_byte colon (lbrack :: host ++ rbrack :: colon :: port))
    with (Some (length (lbrack :: host ++ [rbrack])))
    by (rewrite <-(last_index_byte_app colon _ port) by done; f_equal; simpl; by rewrite <-app_assoc).
  rewrite bool_decide_true by done.
  replace (index_byte rbrack (lbrack :: host ++ rbrack :: colon :: port))
    with (Some (length (lbrack :: host)))
    by (symmetry; apply (index_byte_app rbrack (lbrack :: host)); set_solver).
  rewrite bool_decide_false by len. rewrite bool_decide_true by len.
  rewrite (proj2 (contains_byte_false lbrack _)) by (simpl; set_solver).
  rewrite (proj2 (contains_byte_false rbrack _)).
  2:{ simpl. rewrite drop_app_ge by lia.
      replace (S (length host) - length host)%nat with 1%nat by lia. simpl. set_solver. }
  f_equal. f_equal; simpl.
  - rewrite Nat.sub_0_r. by apply take_app_mid.
  - change (rbrack :: colon :: port) with ([rbrack; colon] ++ port).
    rewrite app_assoc. apply drop_app_mid. len.
Qed.

Lemma SplitHostPort_plain host port :
  colon ∉ host → lbrack ∉ host → rbrack ∉ host → colon ∉ port → lbrack ∉ port → rbrack ∉ port →
  SplitHostPort (host ++ colon :: port) = Ok (host, port).
Proof.
  intros Hc Hl Hr Hpc Hpl Hpr. unfold SplitHostPort. rewrite last_index_byte_app by done.
  rewrite bool_decide_false by (destruct host; simpl; intros [=]; set_solver).
  rewrite take_app_length, (proj2 (contains_byte_false colon host)) by done.
  rewrite !drop_0, (proj2 (contains_byte_false lbrack _)) by set_solver.
  rewrite (proj2 (contains_byte_false rbrack _)) by set_solver.
  f_equal. f_equal. rewrite cons_middle, app_assoc. apply drop_app_mid. len.
Qed.

(** [SplitHostPort] undoes [JoinHostPort] for every host without brackets and
    every port without brackets and colons. *)
Lemma SplitHostPort_JoinHostPort host port :
  lbrack ∉ host → rbrack ∉ host → colon ∉ port → lbrack ∉ port → rbrack ∉ port →
  SplitHostPort (JoinHostPort host port) = Ok (host, port).
Proof.
  intros Hl Hr Hpc Hpl Hpr. unfold JoinHostPort. destruct (contains_byte colon host) eqn:E.
  - by apply SplitHostPort_bracketed.
  - apply contains_byte_false in E. by apply SplitHostPort_plain.
Qed.

(** ** Lemmas: decimal conversion *)

Lemma is_digit_digit d : 0 ≤ d < 10 → is_digit (digit d) = true ∧ b2z (digit d) - 48 = d.
Proof.
  intros H. unfold is_digit, digit. rewrite b2z_z2b, Z.mod_small by lia.
  split; [apply bool_decide_eq_true_2|]; lia.
Qed.

Lemma dec_digits_digits f n acc :
  Forall (λ c, is_digit c = true) acc → Forall (λ c, is_digit c = true) (dec_digits f n acc).
Proof.
  revert n acc. induction f as [|f IH]; intros n acc Ha; simpl; [done|].
  assert (Forall (λ c, is_digit c = true) (digit (n mod 10) :: acc)).
  { constructor; [|done]. apply is_digit_digit. pose proof (Z.mod_pos_bound n 10). lia. }
  case_bool_decide; auto.
Qed.

Lemma not_digit_not_in c s : is_digit c = false → Forall (λ c, is_digit c = true) s → c ∉ s.
Proof. intros Hc Hs Hin%list_elem_of_In. rewrite List.Forall_forall in Hs. specialize (Hs c Hin). congruence. Qed.

Lemma dec_digits_not_in c f n : is_digit c = false → c ∉ dec_digits f n [].
Proof. intros H. by apply not_digit_not_in, dec_digits_digits. Qed.

Lemma Itoa_nonneg z : 0 ≤ z → Itoa z = dec_digits 20 z [].
Proof. intros. unfold Itoa. by rewrite bool_decide_false by lia. Qed.

Lemma Itoa_not_in c z : 0 ≤ z → is_digit c = false → c ∉ Itoa z.
Proof. intros Hz Hc. rewrite Itoa_nonneg by done. by apply dec_digits_not_in. Qed.

Lemma dec_digits_nonempty f n acc : dec_digits (S f) n acc ≠ [].
Proof.
  assert (∀ f n acc, acc ≠ [] → dec_digits f n acc ≠ []) as H.
  { clear. induction f as [|f IH]; intros n acc Ha; simpl; [done|]. case_bool_decide; [done|by apply IH]. }
  simpl. case_bool_decide; [done|]. by apply H.
Qed.

Lemma parse_uint_dec f n acc :
  0 ≤ n < 2 ^ 64 → n < 10 ^ Z.of_nat f → (0 < f)%nat →
  parse_uint (dec_digits f n acc) 0 = parse_uint acc n.
Proof.
  revert n acc. induction f as [|f IH]; intros n acc Hn Hf Hpos; [lia|].
  cbn [dec_digits]. pose proof (Z.mod_pos_bound n 10 ltac:(lia)) as Hm.
  destruct (is_digit_digit (n mod 10) ltac:(lia)) as [Hd Hv].
  pose proof (Z.div_mod n 10 ltac:(lia)) as Hdm.
  rewrite Nat2Z.inj_succ, Z.pow_succ_r in Hf by lia.
  case_bool_decide as H0.
  - cbn [parse_uint]. rewrite Hd, Hv. rewrite bool_decide_false by lia. f_equal. lia.
  - assert (0 < n / 10) by (pose proof (Z.div_pos n 10); lia).
    rewrite IH; [|lia|lia|destruct f; [simpl in Hf; lia|lia]].
    cbn [parse_uint]. rewrite Hd, Hv. rewrite bool_decide_false by lia. f_equal. lia.
Qed.

Lemma digit_head_unsigned s :
  s ≠ [] → Forall (λ c, is_digit c = true) s →
  ∃ c r, s = c :: r ∧ b2z c ≠ 43 ∧ b2z c ≠ 45.
Proof.
  destruct s as [|c r]; [done|]. intros _ Hs. apply List.Forall_cons_iff in Hs as [Hc _]. exists c, r.
  unfold is_digit in Hc. apply bool_decide_eq_true in Hc. repeat split; lia.
Qed.

Lemma Atoi_Itoa z : 0 ≤ z < 2 ^ 63 → Atoi (Itoa z) = (z, None).
Proof.
  intros Hz. rewrite Itoa_nonneg by lia.
  destruct (digit_head_unsigned (dec_digits 20 z [])) as (c & r & Es & H1 & H2);
    [apply dec_digits_nonempty|by apply dec_digits_digits|].
  pose proof (parse_uint_dec 20 z [] ltac:(lia) ltac:(lia) ltac:(lia)) as Hp.
  unfold Atoi. rewrite Es in *. rewrite !bool_decide_false by done.
  rewrite Hp. cbn [parse_uint negb andb]. by rewrite bool_decide_false by lia.
Qed.

Lemma port_digits_dec f n acc :
  0 ≤ n < 65536 → n < 10 ^ Z.of_nat f → (0 < f)%nat →
  port_digits (dec_digits f n acc) 0 = port_digits acc n.
Proof.
  revert n acc. induction f as [|f IH]; intros n acc Hn Hf Hpos; [lia|].
  cbn [dec_digits]. pose proof (Z.mod_pos_bound n 10 ltac:(lia)) as Hm.
  destruct (is_digit_digit (n mod 10) ltac:(lia)) as [Hd Hv].
  pose proof (Z.div_mod n 10 ltac:(lia)) as Hdm.
  rewrite Nat2Z.inj_succ, Z.pow_succ_r in Hf by lia.
  case_bool_decide as H0.
  - cbn [port_digits]. rewrite Hd, Hv, bool_decide_false by lia.
    rewrite !u32_id by (rewrite ?u32_id; lia). rewrite bool_decide_false by lia. f_equal. lia.
  - assert (0 < n / 10) by (pose proof (Z.div_pos n 10); lia).
    rewrite IH; [|lia|lia|destruct f; [simpl in Hf; lia|lia]].
    cbn [port_digits]. rewrite Hd, Hv, bool_decide_false by lia.
    rewrite !u32_id by (rewrite ?u32_id; lia). rewrite bool_decide_false by lia. f_equal. lia.
Qed.

Lemma LookupPort_Itoa svc p : 0 ≤ p < 65536 → LookupPort svc (Itoa p) = Ok p.
Proof.
  intros Hp. rewrite Itoa_nonneg by lia. unfold LookupPort, parsePort.
  destruct (digit_head_unsigned (dec_digits 20 p [])) as (c & r & Es & H1 & H2);
    [apply dec_digits_nonempty|by apply dec_digits_digits|].
  pose proof (port_digits_dec 20 p [] ltac:(lia) ltac:(lia) ltac:(lia)) as Hd.
  rewrite Es in *. rewrite !bool_decide_false by done. rewrite Hd. cbn [port_digits mbind option_bind negb andb].
  rewrite (bool_decide_false (2 ^ 30 ≤ p)) by lia. by rewrite bool_decide_true by lia.
Qed.

(** ** Lemmas: IPv4 text *)

Lemma v4_fields_dec_byte b r fst pd acc :
  v4_fields (dec_byte b ++ dot :: r) fst pd 0 0 acc =
  (if bool_decide (r = []) then None
   else if bool_decide (length acc = 3%nat) then None
   else v4_fields r false true 0 0 (acc ++ [b])).
Proof. destruct b; vm_compute dec_byte; cbn; by rewrite ?orb_false_r. Qed.

Lemma v4_fields_last b fst pd acc :
  v4_fields (dec_byte b) fst pd 0 0 acc =
  (if bool_decide (length acc < 3)%nat then None else Some (acc ++ [b])).
Proof. destruct b; reflexivity. Qed.

Lemma first_sep_dec_byte b r : first_sep (dec_byte b ++ dot :: r) = Some dot.
Proof. destruct b; reflexivity. Qed.

Lemma dec_byte_nonempty b : dec_byte b ≠ [].
Proof. destruct b; done. Qed.

Lemma parseIPv4_string4 a b c d : parseIPv4 (string4 [a; b; c; d]) = Some [a; b; c; d].
Proof.
  unfold parseIPv4, string4. rewrite v4_fields_dec_byte, bool_decide_false by (by destruct b).
  simpl length. rewrite bool_decide_false by done. simpl app at 3.
  rewrite v4_fields_dec_byte, bool_decide_false by (by destruct c).
  rewrite bool_decide_false by done. simpl app at 2.
  rewrite v4_fields_dec_byte, bool_decide_false by apply dec_byte_nonempty.
  rewrite bool_decide_false by done. simpl app. by rewrite v4_fields_last.
Qed.

Lemma ParseIP_string4 a b c d :
  ParseIP (string4 [a; b; c; d]) = Some (v4InV6Prefix ++ [a; b; c; d]).
Proof.
  unfold ParseIP, ParseAddr. unfold string4 at 1. rewrite first_sep_dec_byte.
  rewrite bool_decide_true by done. by rewrite parseIPv4_string4.
Qed.

Lemma length4_inv (ip : bytes) : length ip = 4%nat → ∃ a b c d, ip = [a; b; c; d].
Proof. destruct ip as [|a [|b [|c [|d [|]]]]]; try done. eauto. Qed.

Lemma IPString_v4 ip : length ip = 4%nat → IPString ip = string4 ip.
Proof.
  intros (a & b & c & d & ->)%length4_inv. reflexivity.
Qed.

Lemma ParseIP_IPString_v4 ip :
  length ip = 4%nat → ParseIP (IPString ip) = Some (v4InV6Prefix ++ ip).
Proof. intros (a & b & c & d & ->)%length4_inv. rewrite IPString_v4 by done. apply ParseIP_string4. Qed.

Lemma To4_mapped ip : length ip = 4%nat → To4 (v4InV6Prefix ++ ip) = Some ip.
Proof. intros (a & b & c & d & ->)%length4_inv. reflexivity. Qed.

Lemma string4_not_in x a b c d : is_digit x = false → x ≠ dot → x ∉ string4 [a; b; c; d].
Proof.
  intros Hx Hd. unfold string4, dec_byte.
  pose proof (dec_digits_not_in x 3 (b2z a) Hx). pose proof (dec_digits_not_in x 3 (b2z b) Hx).
  pose proof (dec_digits_not_in x 3 (b2z c) Hx). pose proof (dec_digits_not_in x 3 (b2z d) Hx).
  set_solver.
Qed.

(** ** Lemmas: the length of a parsed address *)

Lemma v4_fields_length s fst pd v d acc ip :
  (length acc ≤ 3)%nat → v4_fields s fst pd v d acc = Some ip → length ip = 4%nat.
Proof.
  revert fst pd v d acc. induction s as [|c s IH]; intros fst pd v d acc Hl; simpl.
  - case_bool_decide; [done|]. intros [= <-]. len.
  - destruct (is_digit c).
    + repeat (case_bool_decide; [done|]). by apply IH.
    + case_bool_decide; [|done]. destruct (fst || _ || pd); [done|]. case_bool_decide; [done|].
      apply IH. len.
Qed.

Lemma parseIPv4_length s ip : parseIPv4 s = Some ip → length ip = 4%nat.
Proof. apply v4_fields_length. simpl. lia. Qed.

Lemma v6_loop_length f s ip ell s' ip' ell' :
  (length ip + 2 * f ≤ 16)%nat → v6_loop f s ip ell = Some (s', ip', ell') → (length ip' ≤ 16)%nat.
Proof.
  revert s ip ell. induction f as [|f IH]; intros s ip ell Hl; simpl; [intros [= _ <- _]; lia|].
  destruct (hex_run s 0 0) as [[[[|n] acc] rest]|]; [done| |done].
  case_bool_decide.
  - repeat (case_bool_decide; [done|]). destruct (parseIPv4 s) as [f4|] eqn:E4; [|done]. simpl.
    apply parseIPv4_length in E4. intros [= _ <- _]. len.
  - destruct rest as [|c r]; [intros [= _ <- _]; len|]. destruct (negb _); [done|].
    destruct r as [|c2 r2]; [done|]. case_bool_decide; [|apply IH; len].
    destruct ell; [done|]. destruct r2; [intros [= _ <- _]; len|]. apply IH. len.
Qed.

Lemma ParseIP_length s ip : ParseIP s = Some ip → length ip = 16%nat.
Proof.
  unfold ParseIP, ParseAddr. destruct (first_sep s); [|done]. case_bool_decide.
  - destruct (parseIPv4 s) eqn:E; [|done]. intros [= <-]. apply parseIPv4_length in E. len.
  - case_bool_decide; [|done]. destruct (contains_byte percent s); [done|].
    destruct (parseIPv6 s) as [ip6|] eqn:E; [|done]. simpl. intros [= <-]. unfold parseIPv6 in E.
    destruct (if has_prefix s [colon; colon] then _ else _) as [ell s']. case_bool_decide; [by simplify_eq|].
    destruct (v6_loop 8 s' [] ell) as [[[rest ip1] ell1]|] eqn:E6; [|done]. simpl in E.
    apply v6_loop_length in E6; [|simpl; lia].
    destruct (negb _); [done|]. case_bool_decide.
    + destruct ell1; simpl in E; [|done]. simplify_eq. len.
    + destruct ell1; simplify_eq. lia.
Qed.

Lemma To4_length ip ip4 : To4 ip = Some ip4 → length ip4 = 4%nat.
Proof. unfold To4. repeat case_bool_decide; intros; simplify_eq; [done|]. rewrite length_drop. lia. Qed.

Lemma To16_id ip : length ip = 16%nat → To16 ip = Some ip.
Proof. intros Hl. unfold To16. by rewrite bool_decide_false, bool_decide_true by lia. Qed.

(** A 16-byte address prints as its 4-byte form where it has one. *)
Lemma IPString_To4 ip ip4 : To4 ip = Some ip4 → IPString ip = IPString ip4.
Proof.
  intros E. pose proof (To4_length _ _ E) as Hl. rewrite (IPString_v4 ip4) by done.
  unfold IPString. rewrite E. rewrite bool_decide_false; [done|]. intros ->. done.
Qed.

(** ** Lemmas: splitting *)

Lemma split_byte_none sep a : sep ∉ a → split_byte sep a = [a].
Proof.
  induction a as [|x a IH]; intros Hn; [done|]. simpl.
  rewrite bool_decide_false by set_solver. by rewrite IH by set_solver.
Qed.

Lemma split_byte_app sep a r : sep ∉ a → split_byte sep (a ++ sep :: r) = a :: split_byte sep r.
Proof.
  induction a as [|x a IH]; intros Hn; simpl; [by rewrite bool_decide_true|].
  rewrite bool_decide_false by set_solver. by rewrite IH by set_solver.
Qed.

(** ** Lemmas: trimming *)

Lemma has_suffix_last (s w : bytes) b :
  w ≠ [] → (last w = Some b → w = [b]) → has_suffix (s ++ [b]) w = bool_decide (w = [b]).
Proof.
  intros Hw Hl. case_bool_decide as E; [subst; apply has_suffix_app|].
  apply not_true_is_false. intros [q Hq]%has_suffix_spec.
  destruct (exists_last Hw) as (w' & x & ->). rewrite app_assoc in Hq. apply app_inj_tail in Hq as [_ <-].
  apply E, Hl. by rewrite last_snoc.
Qed.

Lemma find_suffix (s : bytes) b l :
  Forall (λ w, w ≠ [] ∧ (last w = Some b → w = [b])) l →
  List.find (has_suffix (s ++ [b])) l = List.find (λ w, bool_decide (w = [b])) l.
Proof. induction 1 as [|w l [Hw Hl] _ IH]; [done|]. simpl. by rewrite has_suffix_last, IH. Qed.

Lemma trim_right_drop f s b :
  Forall (λ w, w ≠ [] ∧ (last w = Some b → w = [b])) spaces →
  List.find (λ w, bool_decide (w = [b])) spaces = Some [b] →
  trim_right (S f) (s ++ [b]) = trim_right f s.
Proof.
  intros HF Hf. cbn [trim_right]. rewrite find_suffix, Hf by done. f_equal.
  apply take_app_mid. len.
Qed.

Lemma trim_right_keep f s b :
  Forall (λ w, w ≠ [] ∧ (last w = Some b → w = [b])) spaces →
  List.find (λ w, bool_decide (w = [b])) spaces = None →
  trim_right f (s ++ [b]) = s ++ [b].
Proof. intros HF Hf. destruct f; [done|]. cbn [trim_right]. by rewrite find_suffix, Hf. Qed.

Lemma spaces_last b :
  b ≠ Byte.x85 → b ≠ Byte.xa0 → b ≠ Byte.x80 → b ≠ Byte.x81 → b ≠ Byte.x82 → b ≠ Byte.x83 → b ≠ Byte.x84 →
  b ≠ Byte.x86 → b ≠ Byte.x87 → b ≠ Byte.x88 → b ≠ Byte.x89 → b ≠ Byte.x8a → b ≠ Byte.xa8 → b ≠ Byte.xa9 →
  b ≠ Byte.xaf → b ≠ Byte.x9f →
  Forall (λ w, w ≠ [] ∧ (last w = Some b → w = [b])) spaces.
Proof. intros. repeat constructor; try done; cbn; intros [=]; subst; done. Qed.

(** ** Lemmas: networks *)

Lemma length_mask_and a m : length a = length m → length (mask_and a m) = length a.
Proof. intros Hl. unfold mask_and. rewrite length_zip_with. lia. Qed.

Lemma be_get_mask_and a m : length a = length m → be_get (mask_and a m) = Z.land (be_get a) (be_get m).
Proof.
  revert m. induction a as [|x a IH] using rev_ind; intros m Hl; [by destruct m|].
  destruct (exists_last (l := m)) as (m' & y & ->); [by destruct m; [rewrite length_app in Hl; simpl in Hl; lia|]|].
  rewrite !length_app in Hl. simpl in Hl. unfold mask_and in *. rewrite zip_with_app by lia. cbn [zip_with].
  rewrite !be_get_snoc, IH, b2z_z2b by lia. pose proof (b2z_range x). pose proof (b2z_range y).
  rewrite land_bytes by lia. f_equal. apply Z.mod_small. split; [apply Z.land_nonneg; lia|].
  apply Z.le_lt_trans with (b2z x); [|lia]. apply land_le. lia.
Qed.

(** What [ParseCIDR] returns for an IPv4 network. *)
Lemma ParseCIDR_shape s n ones :
  ParseCIDR s = Some (n, ones) → length (net_ip n) = 4%nat →
  (ones ≤ 32)%nat ∧ ∃ ip, length ip = 4%nat ∧ n = {| net_ip := mask_and ip (CIDRMask ones 32); net_mask := CIDRMask ones 32 |}.
Proof.
  unfold ParseCIDR. destruct (index_byte Byte.x2f s) as [i|]; [|done]. cbn [mbind option_bind].
  destruct (ParseAddr (take i s)) as [addr|] eqn:Ea; [|done]. cbn [mbind option_bind].
  destruct (if bool_decide (drop (S i) s = []) then _ else _) as [k|] eqn:Ek; [|done]. cbn [mbind option_bind].
  destruct addr as [ip|ip].
  - destruct (bool_decide (Z.of_nat 32 < k)) eqn:Hk; [done|]. apply bool_decide_eq_false in Hk.
    intros [= <- <-] Hl. split; [lia|]. exists ip. split; [|done].
    clear Ek Hk. unfold ParseAddr in Ea. destruct (first_sep (take i s)); [|done]. case_bool_decide.
    + destruct (parseIPv4 (take i s)) eqn:E4; simpl in Ea; [|done]. by simplify_eq; eapply parseIPv4_length.
    + case_bool_decide; [|done]. destruct (contains_byte percent (take i s)); [done|].
      by destruct (parseIPv6 (take i s)).
  - destruct (bool_decide (Z.of_nat 128 < k)) eqn:Hk; [done|]. intros [= <- <-] Hl. cbn [net_ip] in *. exfalso.
    assert (length ip = 16%nat) as Hip.
    { apply (ParseIP_length (take i s)). unfold ParseIP. by rewrite Ea. }
    rewrite length_mask_and, Hip in Hl; [done|]. unfold CIDRMask. rewrite length_be_put. done.
Qed.

(** Masking clears the low bits. *)
Lemma be_get_masked (a : bytes) (ones : nat) :
  length a = 4%nat → (ones ≤ 32)%nat →
  be_get (mask_and a (CIDRMask ones 32)) = 2 ^ (32 - Z.of_nat ones) * (be_get a / 2 ^ (32 - Z.of_nat ones)).
Proof.
  intros Hl Ho. pose proof (be_get_range a) as Hr. rewrite Hl in Hr. change (256 ^ Z.of_nat 4) with (2 ^ 32) in Hr.
  rewrite be_get_mask_and by (unfold CIDRMask; rewrite length_be_put; done).
  unfold CIDRMask. rewrite be_get_put. change (256 ^ Z.of_nat (32 / 8)) with (2 ^ 32). change (Z.of_nat 32) with 32.
  replace (Z.of_nat (32 - ones)) with (32 - Z.of_nat ones) by lia. set (k := 32 - Z.of_nat ones).
  destruct (decide (ones = 0%nat)) as [->|H0].
  { change k with 32. by rewrite Z.sub_diag, Z.mod_0_l, Z.land_0_r, (Z.div_small (be_get a) (2 ^ 32)), Z.mul_0_r by lia. }
  assert (0 < 2 ^ k) by (apply Z.pow_pos_nonneg; lia). assert (2 ^ k < 2 ^ 32) by (apply Z.pow_lt_mono_r; lia).
  rewrite (Z.mod_small (2 ^ 32 - 2 ^ k)) by lia. apply prefix_mask_div; lia.
Qed.

Lemma ParseCIDR_v4 s n ones :
  ParseCIDR s = Some (n, ones) → length (net_ip n) = 4%nat →
  (ones ≤ 32)%nat ∧ 0 ≤ be_get (net_ip n) < 2 ^ 32 ∧ be_get (net_ip n) mod 2 ^ (32 - Z.of_nat ones) = 0.
Proof.
  intros Hp Hl. destruct (ParseCIDR_shape s n ones Hp Hl) as (Ho & ip & Hip & ->). cbn [net_ip] in *. split; [done|].
  split; [pose proof (be_get_range (mask_and ip (CIDRMask ones 32))) as Hr; by rewrite Hl in Hr|].
  rewrite be_get_masked by done. rewrite Z.mul_comm. apply Z.mod_mul.
  assert (0 < 2 ^ (32 - Z.of_nat ones)) by (apply Z.pow_pos_nonneg; lia). lia.
Qed.

Lemma be_get_inj a b : length a = length b → be_get a = be_get b → a = b.
Proof. intros Hl He. by rewrite <-(be_put_get a), <-(be_put_get b), Hl, He. Qed.

(** An IPv4 address lies in an IPv4 network when it agrees with it on the
    prefix. *)
Lemma Contains_v4 s n ones ip a :
  ParseCIDR s = Some (n, ones) → length (net_ip n) = 4%nat → To4 ip = Some a →
  Contains n ip = bool_decide (be_get a / 2 ^ (32 - Z.of_nat ones) = be_get (net_ip n) / 2 ^ (32 - Z.of_nat ones)).
Proof.
  intros Hp Hl Ha. pose proof (To4_length _ _ Ha) as Hla.
  destruct (ParseCIDR_shape s n ones Hp Hl) as (Ho & ip0 & Hip & ->). cbn [net_ip net_mask] in *.
  set (k := 32 - Z.of_nat ones). assert (0 < 2 ^ k) as Hk by (apply Z.pow_pos_nonneg; lia).
  assert (length (CIDRMask ones 32) = 4%nat) as Hm by (unfold CIDRMask; by rewrite length_be_put).
  unfold Contains. cbn [net_ip net_mask]. unfold To4 at 1. rewrite bool_decide_true by done.
  rewrite Hm, (bool_decide_false (4 = 16)%nat) by done. rewrite Ha. change (default ip (Some a)) with a.
  apply bool_decide_ext. rewrite Hla, Hl. set (n0 := mask_and ip0 _) in *. split.
  - intros [_ He%(f_equal be_get)]. rewrite !(be_get_masked _ ones) in He by done. fold k in He.
    apply Z.mul_cancel_l in He; [done|lia].
  - intros He. split; [done|]. apply be_get_inj; [rewrite !length_mask_and by congruence; congruence|].
    rewrite !(be_get_masked _ ones) by done. fold k. by rewrite He.
Qed.
