(* ===== verification/Stream.v ===== *)
(** * Readers, connections and buffered readers

    The model of Go's [io.Reader]: a reader is a state with a [Read] that is
    given the length of the buffer and returns the bytes it stored, an error
    and the new state ([GoReader]).  [ReaderSpec] is the contract a
    well-behaved byte stream offers to its clients; [io.ReadFull] and
    [io.CopyN] are defined for every [GoReader] and specified for every
    [ReaderSpec], so a protocol decoder is verified once for all of them.
    [stream] is a network connection's receiving side: the segments and the
    transient errors (an expired read deadline) in the order in which [Read]
    meets them, and the error that ends it.  [bufio] is [bufio.Reader]. *)

From S2P Require Import Prelude.

(** ** Readers *)

Class GoReader (R : Type) := go_read : nat → R → bytes * option goerr * R.

(** The read loop of [io.ReadAtLeast(r, buf, len(buf))].  A [Read] that
    returns neither data nor an error makes no progress; the loop is given
    one round per byte, which is enough for a reader that always progresses. *)
Fixpoint read_loop `{GoReader R} (fuel n : nat) (r : R) : bytes * option goerr * R :=
  match n, fuel with
  | O, _ => ([], None, r)
  | S _, O => ([], Some ErrNoProgress, r)
  | S _, S f =>
      let '(got, e, r1) := go_read n r in
      if bool_decide (n ≤ length got)%nat then (got, None, r1)
      else match e with
           | Some e => (got, Some e, r1)
           | None => let '(got2, e2, r2) := read_loop f (n - length got) r1 in
                     (got ++ got2, e2, r2)
           end
  end.

(** [io.ReadFull]: an EOF after some bytes is [ErrUnexpectedEOF]. *)
Definition eof_err (got : bytes) (e : goerr) : goerr :=
  if bool_decide (e = EOF ∧ got ≠ []) then ErrUnexpectedEOF else e.

Definition io_ReadFull `{GoReader R} (n : nat) (r : R) : bytes * option goerr * R :=
  let '(got, e, r') := read_loop n n r in (got, eof_err got <$> e, r').

(** [io.CopyN(io.Discard, r, n)] for n up to the 8 KiB of [io.Discard]'s
    buffer: the read loop of a [LimitedReader], EOF not rewritten. *)
Definition io_CopyN_Discard `{GoReader R} (n : nat) (r : R) : option goerr * R :=
  let '(_, e, r') := read_loop n n r in (e, r').

(** The contract of a byte stream: [rd_bytes] is what is still to come,
    [rd_err] the error after it, [rd_ok] the reader's invariant. *)
Class ReaderSpec (R : Type) `{GoReader R} := {
  rd_bytes : R → bytes;
  rd_err : R → goerr;
  rd_ok : R → Prop;
  rd_law n r got e r' :
    rd_ok r → (0 < n)%nat → go_read n r = (got, e, r') →
    rd_ok r' ∧ rd_err r' = rd_err r ∧ rd_bytes r = got ++ rd_bytes r' ∧ (length got ≤ n)%nat ∧
    match e with
    | None => got ≠ []
    | Some e => e = rd_err r ∧ rd_bytes r = []
    end }.

(** [r'] is [r] after its first [n] bytes. *)
Definition advanced `{ReaderSpec R} (n : nat) (r r' : R) : Prop :=
  rd_ok r' ∧ rd_err r' = rd_err r ∧ rd_bytes r' = drop n (rd_bytes r).

Definition short_err (bs : bytes) (e : goerr) : goerr := eof_err bs e.

(** ** The receiving side of a connection *)

Record stream := { evs : list (bytes + goerr); fin : goerr }.

Fixpoint read_evs (n : nat) (l : list (bytes + goerr)) (end_ : goerr) :
  bytes * option goerr * list (bytes + goerr) :=
  match l with
  | [] => ([], Some end_, [])
  | inr e :: r => ([], Some e, r)
  | inl [] :: r => read_evs n r end_
  | inl seg :: r =>
      if bool_decide (length seg ≤ n)%nat then (seg, None, r)
      else (take n seg, None, inl (drop n seg) :: r)
  end.

#[export] Instance stream_reader : GoReader stream := λ n s,
  let '(got, e, l) := read_evs n (evs s) (fin s) in
  (got, e, {| evs := l; fin := fin s |}).

Definition ev_bytes (l : list (bytes + goerr)) : bytes :=
  flat_map (λ ev, match ev with inl b => b | inr _ => [] end) l.

Definition stream_bytes (s : stream) : bytes := ev_bytes (evs s).

(** No read deadline expires while the stream is read. *)
Definition steady (s : stream) : Prop := Forall (λ ev, ∃ b, ev = inl b) (evs s).

(** A connection that delivers [b] and then the end [e]. *)
Definition mk_stream (b : bytes) (e : goerr) : stream := {| evs := [inl b]; fin := e |}.

(** ** The sending side: one entry per [Write]; [budget] counts the writes
    that still succeed when the peer is going away. *)

Record sink := { written : list bytes; budget : option nat }.

Definition sink_write (b : bytes) (k : sink) : option goerr * sink :=
  match budget k with
  | Some O => (Some ErrClosed, k)
  | Some (S m) => (None, {| written := written k ++ [b]; budget := Some m |})
  | None => (None, {| written := written k ++ [b]; budget := None |})
  end.

Definition open_sink : sink := {| written := []; budget := None |}.

(** ** [bufio.Reader] with its default buffer of 4096 bytes *)

Definition buf_size : nat := Z.to_nat 4096.

Record bufio := { b_buf : bytes; b_err : option goerr; b_src : stream }.

Definition NewReader (s : stream) : bufio := {| b_buf := []; b_err := None; b_src := s |}.

(** [fill]: one [Read] of the connection into the free part of the buffer. *)
Definition fill (b : bufio) : bufio :=
  let '(got, e, s') := go_read (buf_size - length (b_buf b)) (b_src b) in
  {| b_buf := b_buf b ++ got; b_err := e; b_src := s' |}.

Definition clear_err (b : bufio) : bufio :=
  {| b_buf := b_buf b; b_err := None; b_src := b_src b |}.

Definition set_buf (b : bufio) (bs : bytes) : bufio :=
  {| b_buf := bs; b_err := b_err b; b_src := b_src b |}.

(** The loop of [Peek]: every round stores a byte or an error. *)
Fixpoint peek_loop (fuel n : nat) (b : bufio) : bufio :=
  match fuel with
  | O => b
  | S f =>
      if bool_decide (length (b_buf b) < n ∧ length (b_buf b) < buf_size ∧ b_err b = None)%nat
      then peek_loop f n (fill b) else b
  end.

Definition Peek (n : nat) (b : bufio) : bytes * option goerr * bufio :=
  let b1 := peek_loop (S n) n b in
  if bool_decide (buf_size < n)%nat then (b_buf b1, Some ErrBufferFull, b1)
  else if bool_decide (length (b_buf b1) < n)%nat
  then (b_buf b1, Some (default ErrBufferFull (b_err b1)), clear_err b1)
  else (take n (b_buf b1), None, b1).

Definition Buffered (b : bufio) : nat := length (b_buf b).

#[export] Instance bufio_reader : GoReader bufio := λ n b,
  match n with
  | O => match b_buf b with
         | [] => ([], b_err b, clear_err b)
         | _ => ([], None, b)
         end
  | S _ =>
      match b_buf b with
      | [] =>
          match b_err b with
          | Some e => ([], Some e, clear_err b)
          | None =>
              if bool_decide (buf_size ≤ n)%nat then
                let '(got, e, s') := go_read n (b_src b) in
                (got, e, {| b_buf := []; b_err := None; b_src := s' |})
              else
                let '(got, e, s') := go_read buf_size (b_src b) in
                match got with
                | [] => ([], e, {| b_buf := []; b_err := None; b_src := s' |})
                | _ => (take n got, None, {| b_buf := drop n got; b_err := e; b_src := s' |})
                end
          end
      | bs => (take n bs, None, set_buf b (drop n bs))
      end
  end.

(** [ReadByte] and [Discard]: the buffer is refilled when it is empty. *)
Definition ReadByte (b : bufio) : (byte + goerr) * bufio :=
  let b1 := match b_buf b, b_err b with [], None => fill b | _, _ => b end in
  match b_buf b1 with
  | x :: r => (inl x, set_buf b1 r)
  | [] => (inr (default ErrNoProgress (b_err b1)), clear_err b1)
  end.

Fixpoint discard_loop (fuel remain : nat) (b : bufio) : option goerr * bufio :=
  match fuel with
  | O => (Some ErrNoProgress, b)
  | S f =>
      let b1 := match b_buf b with [] => fill b | _ => b end in
      let skip := Nat.min (length (b_buf b1)) remain in
      let b2 := set_buf b1 (drop skip (b_buf b1)) in
      if bool_decide (remain = skip) then (None, b2)
      else match b_err b2 with
           | Some e => (Some e, clear_err b2)
           | None => discard_loop f (remain - skip) b2
           end
  end.

Definition Discard (n : nat) (b : bufio) : option goerr * bufio := discard_loop (S n) n b.

(** Everything a buffered reader still has to deliver. *)
Definition bufio_bytes (b : bufio) : bytes := b_buf b ++ stream_bytes (b_src b).

Definition bufio_ok (b : bufio) : Prop :=
  steady (b_src b) ∧ b_err b = None ∧ (length (b_buf b) ≤ buf_size)%nat.

(** [ReadString(delim)]: the loop of [ReadSlice] and [collectFragments];
    [frag] is the fragment accumulated when the buffer was full. *)
Fixpoint until (delim : byte) (bs : bytes) : option (bytes * bytes) :=
  match bs with
  | [] => None
  | x :: r => if bool_decide (x = delim) then Some ([x], r)
              else '(l, r') ← until delim r; Some (x :: l, r')
  end.

Fixpoint read_string_loop (fuel : nat) (delim : byte) (frag : bytes) (b : bufio) :
  bytes * option goerr * bufio :=
  match fuel with
  | O => (frag, Some ErrNoProgress, b)
  | S f =>
      match until delim (b_buf b) with
      | Some (l, r) => (frag ++ l, None, set_buf b r)
      | None =>
          match b_err b with
          | Some e => (frag ++ b_buf b, Some e, clear_err (set_buf b []))
          | None =>
              if bool_decide (buf_size ≤ length (b_buf b))%nat
              then read_string_loop f delim (frag ++ b_buf b) (set_buf b [])
              else read_string_loop f delim frag (fill b)
          end
      end
  end.

(** A round empties a full buffer or stores a byte or an error. *)
Definition ReadString (delim : byte) (b : bufio) : bytes * option goerr * bufio :=
  read_string_loop (3 + 2 * length (bufio_bytes b)) delim [] b.

(** ** [io.ReadFull] over any specified reader *)

Section read_full.
Context `{ReaderSpec R}.

Lemma read_loop_spec fuel n (r : R) got e r' :
  rd_ok r → (n ≤ fuel)%nat → read_loop fuel n r = (got, e, r') →
  advanced n r r' ∧ got = take n (rd_bytes r) ∧
  e = if bool_decide (n ≤ length (rd_bytes r))%nat then None else Some (rd_err r).
Proof.
  revert n r got e r'. induction fuel as [|f IH]; intros n r got e r' Hok Hf Hr.
  { destruct n; [|lia]. simpl in Hr. simplify_eq. by rewrite bool_decide_true by lia. }
  destruct n as [|n]; [simpl in Hr; simplify_eq; by rewrite bool_decide_true by lia|].
  cbn [read_loop] in Hr. destruct (go_read (S n) r) as [[g e1] r1] eqn:E.
  destruct (rd_law _ _ _ _ _ Hok (Nat.lt_0_succ n) E) as (Hok1 & He1 & Hb & Hl & He).
  case_bool_decide as Hg.
  - simplify_eq. rewrite Hb, bool_decide_true by len. unfold advanced.
    rewrite Hb, drop_app_mid, take_app_mid by lia. done.
  - destruct e1 as [e1|].
    + destruct He as [-> Hnil]. simplify_eq. rewrite Hnil in Hb.
      symmetry in Hb. apply app_nil in Hb as [-> Hb]. unfold advanced.
      rewrite Hnil, Hb, bool_decide_false by (simpl; lia). done.
    + destruct (read_loop f (S n - length g) r1) as [[g2 e2] r2] eqn:E2. simplify_eq.
      assert (length g ≠ 0%nat) by (by intros ?%length_zero_iff_nil).
      destruct (IH (S n - length g)%nat _ _ _ _ Hok1 ltac:(lia) E2) as ((Hok2 & He2 & Hb2) & -> & ->).
      split; [|split].
      * unfold advanced. rewrite He2, Hb2, Hb, drop_app_ge by lia. done.
      * by rewrite Hb, take_app_ge by lia.
      * rewrite Hb, He1, length_app. repeat case_bool_decide; try done; lia.
Qed.

Lemma io_ReadFull_spec n (r : R) :
  rd_ok r →
  ∃ r', io_ReadFull n r =
    (take n (rd_bytes r),
     if bool_decide (n ≤ length (rd_bytes r))%nat then None
     else Some (eof_err (rd_bytes r) (rd_err r)), r') ∧ advanced n r r'.
Proof.
  intros Hok. unfold io_ReadFull. destruct (read_loop n n r) as [[got e] r'] eqn:E.
  destruct (read_loop_spec _ _ _ _ _ _ Hok (Nat.le_refl n) E) as (Ha & -> & ->).
  exists r'. split; [|done]. f_equal. f_equal. case_bool_decide; simpl; [done|].
  by rewrite take_ge by lia.
Qed.

(** The form used to step a decoder over input it has been given. *)
Lemma io_ReadFull_app (r : R) a b :
  rd_ok r → rd_bytes r = a ++ b →
  ∃ r', io_ReadFull (length a) r = (a, None, r') ∧ rd_ok r' ∧ rd_bytes r' = b ∧ rd_err r' = rd_err r.
Proof.
  intros Hok Hb. destruct (io_ReadFull_spec (length a) r Hok) as (r' & E & Hok' & He' & Hb').
  exists r'. rewrite E, Hb, take_app_length, bool_decide_true by len.
  rewrite Hb', Hb, drop_app_length. done.
Qed.

Lemma io_CopyN_app (r : R) a b :
  rd_ok r → rd_bytes r = a ++ b →
  ∃ r', io_CopyN_Discard (length a) r = (None, r') ∧ rd_ok r' ∧ rd_bytes r' = b ∧ rd_err r' = rd_err r.
Proof.
  intros Hok Hb. unfold io_CopyN_Discard.
  destruct (read_loop (length a) (length a) r) as [[got e] r'] eqn:E.
  destruct (read_loop_spec _ _ _ _ _ _ Hok (Nat.le_refl _) E) as ((Hok' & He' & Hb') & -> & ->).
  exists r'. rewrite Hb, bool_decide_true by len. rewrite Hb', Hb, drop_app_length. done.
Qed.

(** Running out of input. *)
Lemma io_ReadFull_short (r : R) n :
  rd_ok r → (length (rd_bytes r) < n)%nat →
  ∃ r', io_ReadFull n r = (rd_bytes r, Some (eof_err (rd_bytes r) (rd_err r)), r') ∧
        rd_ok r' ∧ rd_bytes r' = [] ∧ rd_err r' = rd_err r.
Proof.
  intros Hok Hn. destruct (io_ReadFull_spec n r Hok) as (r' & E & Hok' & He' & Hb').
  exists r'. rewrite E, take_ge, bool_decide_false by lia. rewrite Hb', drop_ge by lia. done.
Qed.

(** What was read is what came, and a short read reaches the end. *)
Lemma io_ReadFull_inv n (r : R) got e r' :
  rd_ok r → io_ReadFull n r = (got, e, r') →
  rd_ok r' ∧ rd_bytes r = got ++ rd_bytes r' ∧ match e with None => length got = n | Some _ => rd_bytes r' = [] end.
Proof.
  intros Hok Hr. destruct (io_ReadFull_spec n r Hok) as (r1 & E & Hok1 & _ & Hb1). rewrite E in Hr. simplify_eq.
  split; [done|]. rewrite Hb1, take_drop. split; [done|].
  case_bool_decide; [by rewrite length_take, Nat.min_l|]. apply drop_ge. lia.
Qed.

End read_full.

(** ** Streams and buffered readers meet the contract *)

Lemma read_evs_spec n l e0 got e l' :
  read_evs n l e0 = (got, e, l') →
  ev_bytes l = got ++ ev_bytes l' ∧ (length got ≤ n)%nat ∧
  (Forall (λ ev : bytes + goerr, ∃ b, ev = inl b) l →
     Forall (λ ev : bytes + goerr, ∃ b, ev = inl b) l' ∧
     match e with
     | None => (0 < n)%nat → got ≠ []
     | Some e => e = e0 ∧ ev_bytes l = []
     end).
Proof.
  revert got e l'. induction l as [|[seg|e1] l IH]; intros got e l' Hr; simpl in Hr.
  - simplify_eq. simpl. split; [done|]. split; [lia|done].
  - destruct seg as [|x seg].
    + destruct (IH _ _ _ Hr) as (Hb & Hl & Hs). split; [done|]. split; [done|].
      intros HF. apply List.Forall_cons_iff in HF as [_ HF]. by apply Hs.
    + case_bool_decide; simplify_eq; simpl.
      * split; [done|]. split; [done|]. intros HF. apply List.Forall_cons_iff in HF as [_ HF]. done.
      * split; [by rewrite app_assoc, take_drop|].
        split; [rewrite length_take; simpl in *; lia|].
        intros HF. apply List.Forall_cons_iff in HF as [_ HF]. split; [constructor; eauto|].
        intros Hn. by destruct n; [lia|].
  - simplify_eq. simpl. split; [done|]. split; [lia|]. intros HF.
    apply List.Forall_cons_iff in HF as [[b Hb] _]. done.
Qed.

Lemma stream_read_spec n (s : stream) got e s' :
  go_read n s = (got, e, s') →
  stream_bytes s = got ++ stream_bytes s' ∧ (length got ≤ n)%nat ∧ fin s' = fin s ∧
  (steady s → steady s' ∧
     match e with
     | None => (0 < n)%nat → got ≠ []
     | Some e => e = fin s ∧ stream_bytes s = []
     end).
Proof.
  unfold go_read, stream_reader. destruct (read_evs n (evs s) (fin s)) as [[g e1] l'] eqn:E.
  intros [= <- <- <-]. destruct (read_evs_spec _ _ _ _ _ _ E) as (Hb & Hl & Hs). done.
Qed.

#[export] Program Instance stream_spec : ReaderSpec stream :=
  {| rd_bytes := stream_bytes; rd_err := fin; rd_ok := steady |}.
Next Obligation.
  intros n r got e r' Hok Hn E. destruct (stream_read_spec _ _ _ _ _ E) as (Hb & Hl & Hf & Hs).
  destruct (Hs Hok) as [Hok' He]. repeat split; try done. destruct e; [done|]. by apply He.
Qed.

Lemma mk_stream_ok b e : rd_ok (mk_stream b e) ∧ rd_bytes (mk_stream b e) = b ∧ rd_err (mk_stream b e) = e.
Proof.
  split; [|split]; simpl; unfold stream_bytes, ev_bytes; simpl; [|apply app_nil_r|done].
  constructor; eauto.
Qed.

Lemma fill_bytes b : bufio_bytes (fill b) = bufio_bytes b.
Proof.
  unfold fill, bufio_bytes. destruct (go_read _ _) as [[got e] s'] eqn:E. simpl.
  destruct (stream_read_spec _ _ _ _ _ E) as (-> & _). by rewrite app_assoc.
Qed.

Lemma fill_spec b :
  bufio_ok b → (length (b_buf b) < buf_size)%nat →
  steady (b_src (fill b)) ∧ fin (b_src (fill b)) = fin (b_src b) ∧
  (length (b_buf (fill b)) ≤ buf_size)%nat ∧
  match b_err (fill b) with
  | None => (length (b_buf b) < length (b_buf (fill b)))%nat
  | Some e => e = fin (b_src b) ∧ stream_bytes (b_src (fill b)) = [] ∧ b_buf (fill b) = b_buf b
  end.
Proof.
  intros (Hs & He & Hl) Hlt. unfold fill. destruct (go_read _ _) as [[got e] s'] eqn:E. simpl.
  destruct (stream_read_spec _ _ _ _ _ E) as (Hb & Hg & Hf & Hst). destruct (Hst Hs) as [Hs' Hm].
  repeat split; try done; [len|]. destruct e as [e|].
  - destruct Hm as [-> Hnil]. rewrite Hnil in Hb. symmetry in Hb. apply app_nil in Hb as [-> Hb].
    by rewrite app_nil_r.
  - specialize (Hm ltac:(lia)). destruct got; [done|]. len.
Qed.

Lemma bufio_read_bytes n b got e b' :
  go_read n b = (got, e, b') → bufio_bytes b = got ++ bufio_bytes b'.
Proof.
  unfold go_read, bufio_reader. destruct n as [|n].
  { destruct (b_buf b); intros ?; simplify_eq; done. }
  destruct (b_buf b) as [|x bs] eqn:Eb.
  - destruct (b_err b); [by intros [= <- <- <-]|].
    unfold bufio_bytes at 1. rewrite Eb. simpl. case_bool_decide.
    + destruct (go_read (S n) (b_src b)) as [[g1 e1] s1] eqn:E1. intros [= <- <- <-].
      by destruct (stream_read_spec _ _ _ _ _ E1) as (-> & _).
    + destruct (go_read buf_size (b_src b)) as [[g1 e1] s1] eqn:E1.
      destruct (stream_read_spec _ _ _ _ _ E1) as (-> & _).
      destruct g1 as [|y g1]; intros [= <- <- <-]; unfold bufio_bytes; simpl; [done|].
      by rewrite app_assoc, take_drop.
  - intros [= <- <- <-]. unfold bufio_bytes. rewrite Eb. simpl. by rewrite app_assoc, take_drop.
Qed.

#[export] Program Instance bufio_spec : ReaderSpec bufio :=
  {| rd_bytes := bufio_bytes; rd_err := λ b, fin (b_src b); rd_ok := bufio_ok |}.
Next Obligation.
  intros n b got e b' (Hs & He & Hl) Hn E. pose proof (bufio_read_bytes _ _ _ _ _ E) as Hb.
  unfold go_read, bufio_reader in E. destruct n as [|n]; [lia|]. rewrite He in E.
  destruct (b_buf b) as [|x bs] eqn:Eb.
  - case_bool_decide as Hbig.
    + destruct (go_read (S n) (b_src b)) as [[g1 e1] s1] eqn:E1. simplify_eq.
      destruct (stream_read_spec _ _ _ _ _ E1) as (Hb1 & Hl1 & Hf1 & Hst). destruct (Hst Hs) as [Hs1 Hm].
      destruct e as [e|]; [|repeat split; try done; first [by apply Hm|simpl; lia]].
      destruct Hm as [-> Hnil]. repeat split; try done; try (simpl; lia).
      all: unfold bufio_bytes; by rewrite Eb, Hnil.
    + destruct (go_read buf_size (b_src b)) as [[g1 e1] s1] eqn:E1.
      destruct (stream_read_spec _ _ _ _ _ E1) as (Hb1 & Hl1 & Hf1 & Hst). destruct (Hst Hs) as [Hs1 Hm].
      destruct g1 as [|y g1]; simplify_eq.
      * destruct e as [e|]; [|by destruct Hm; [unfold buf_size; lia|]].
        destruct Hm as [-> Hnil]. repeat split; try done; try (simpl; lia).
        all: unfold bufio_bytes; by rewrite Eb, Hnil.
      * destruct e1 as [e1|].
        { destruct Hm as [_ Hnil]. rewrite Hnil in Hb1. done. }
        repeat split; try done; len.
  - simplify_eq. repeat split; try done; len.
Qed.

Lemma peek_loop_bytes f n b : bufio_bytes (peek_loop f n b) = bufio_bytes b.
Proof.
  revert b. induction f as [|f IH]; intros b; simpl; [done|].
  case_bool_decide; [|done]. by rewrite IH, fill_bytes.
Qed.

(** Peeking never loses a byte, whatever errors the connection reports. *)
Lemma Peek_bytes n b got e b' : Peek n b = (got, e, b') → bufio_bytes b' = bufio_bytes b.
Proof.
  unfold Peek. intros E. pose proof (peek_loop_bytes (S n) n b) as Hp.
  repeat case_bool_decide; simplify_eq; done.
Qed.

Lemma peek_loop_spec f n b :
  bufio_ok b → (n - length (b_buf b) < f)%nat → (n ≤ buf_size)%nat →
  let b1 := peek_loop f n b in
  steady (b_src b1) ∧ fin (b_src b1) = fin (b_src b) ∧ (length (b_buf b1) ≤ buf_size)%nat ∧
  ((n ≤ length (b_buf b1))%nat ∧ b_err b1 = None ∨
   (length (b_buf b1) < n)%nat ∧ b_err b1 = Some (fin (b_src b)) ∧ stream_bytes (b_src b1) = []).
Proof.
  revert b. induction f as [|f IH]; intros b Hok Hf Hn; [lia|].
  destruct Hok as (Hs & He & Hl). cbn [peek_loop]. case_bool_decide as Hc.
  - destruct (fill_spec b (conj Hs (conj He Hl)) ltac:(lia)) as (Hs1 & Hf1 & Hl1 & Hm).
    destruct (b_err (fill b)) as [e|] eqn:Ee.
    + destruct Hm as (-> & Hnil & Hbuf). destruct f as [|f]; cbn [peek_loop].
      * lia.
      * rewrite bool_decide_false by (rewrite Ee; naive_solver). rewrite Hbuf.
        repeat split; try done. right. rewrite Ee. repeat split; try done; lia.
    + destruct (IH (fill b)) as (Ha & Hb & Hc' & Hd); [done| |done|]; [lia|].
      rewrite Hf1 in *. done.
  - repeat split; try done. left. split; [|done]. destruct (decide (n ≤ length (b_buf b))%nat); [done|].
    exfalso. apply Hc. repeat split; [lia..|done].
Qed.

Lemma Peek_spec n b :
  bufio_ok b → (n ≤ buf_size)%nat →
  ∃ b', Peek n b = (take n (bufio_bytes b),
                    if bool_decide (n ≤ length (bufio_bytes b))%nat then None else Some (fin (b_src b)), b') ∧
        bufio_ok b' ∧ bufio_bytes b' = bufio_bytes b ∧ fin (b_src b') = fin (b_src b).
Proof.
  intros Hok Hn. destruct (Peek n b) as [[got e] b'] eqn:E.
  pose proof (Peek_bytes _ _ _ _ _ E) as Hb. unfold Peek in E.
  destruct (peek_loop_spec (S n) n b Hok ltac:(lia) Hn) as (Hs & Hf & Hl & Hm).
  pose proof (peek_loop_bytes (S n) n b) as Hp.
  set (b1 := peek_loop (S n) n b) in *. exists b'. rewrite bool_decide_false in E by lia.
  rewrite <-Hp.
  destruct Hm as [[Hge He]|(Hlt & He & Hnil)].
  - rewrite bool_decide_false in E by lia. simplify_eq.
    rewrite bool_decide_true by (unfold bufio_bytes; len).
    unfold bufio_bytes at 1. rewrite take_app_le by done. repeat split; try done.
  - rewrite bool_decide_true in E by lia. simplify_eq.
    assert (bufio_bytes b1 = b_buf b1) as Hbb by (unfold bufio_bytes; by rewrite Hnil, app_nil_r).
    rewrite Hbb, He, bool_decide_false, take_ge by lia. simpl. repeat split; try done.
Qed.

Lemma ReadByte_spec b x r :
  bufio_ok b → bufio_bytes b = x :: r →
  ∃ b', ReadByte b = (inl x, b') ∧ bufio_ok b' ∧ bufio_bytes b' = r ∧ fin (b_src b') = fin (b_src b).
Proof.
  intros Hok Hb. pose proof Hok as (Hs & He & Hl). unfold ReadByte. rewrite He.
  destruct (b_buf b) as [|y bs] eqn:Eb.
  - destruct (fill_spec b Hok) as (Hs1 & Hf1 & Hl1 & Hm); [rewrite Eb; unfold buf_size; simpl; lia|].
    pose proof (fill_bytes b) as Hfb. rewrite Hb in Hfb. unfold bufio_bytes in Hfb.
    destruct (b_buf (fill b)) as [|z bs1] eqn:E1.
    + destruct (b_err (fill b)) as [e|]; [|simpl in Hm; lia]. destruct Hm as (_ & Hnil & _).
      rewrite Hnil in Hfb. done.
    + simpl in Hfb. simplify_eq. eexists. split; [done|].
      destruct (b_err (fill b)) as [e|] eqn:Ee.
      { destruct Hm as (_ & _ & Hbb). rewrite Eb in Hbb. done. }
      unfold bufio_ok, bufio_bytes. simpl in *. repeat split; try done; lia.
  - unfold bufio_bytes in Hb. rewrite Eb in *. simpl in Hb. simplify_eq.
    eexists. split; [done|]. unfold bufio_ok, bufio_bytes. simpl in *. repeat split; try done; lia.
Qed.

Lemma until_app delim a l r b : until delim a = Some (l, r) → until delim (a ++ b) = Some (l, r ++ b).
Proof.
  revert l r. induction a as [|x a IH]; intros l r; simpl; [done|]. case_bool_decide; [by intros [= <- <-]|].
  destruct (until delim a) as [[l1 r1]|]; simpl; [|done]. intros [= <- <-]. by rewrite (IH l1 r1).
Qed.

Lemma until_app_None delim a b :
  until delim a = None → until delim (a ++ b) = '(l, r) ← until delim b; Some (a ++ l, r).
Proof.
  induction a as [|x a IH]; simpl; [by destruct (until delim b) as [[]|]|].
  case_bool_decide; [done|]. destruct (until delim a) as [[]|]; simpl; [done|].
  intros _. rewrite IH by done. by destruct (until delim b) as [[]|].
Qed.

Lemma until_cons_delim delim a r : delim ∉ a → until delim (a ++ delim :: r) = Some (a ++ [delim], r).
Proof.
  induction a as [|x a IH]; simpl; intros Hn; [by rewrite bool_decide_true|].
  rewrite bool_decide_false by set_solver. by rewrite IH by set_solver.
Qed.

Lemma read_string_loop_spec f delim frag b l r :
  bufio_ok b → until delim (bufio_bytes b) = Some (l, r) →
  (2 + length (stream_bytes (b_src b)) + length (bufio_bytes b) ≤ f)%nat →
  ∃ b', read_string_loop f delim frag b = (frag ++ l, None, b') ∧ bufio_ok b' ∧
        bufio_bytes b' = r ∧ fin (b_src b') = fin (b_src b).
Proof.
  revert frag b l. induction f as [|f IH]; intros frag b l Hok Hu Hf; [lia|].
  pose proof Hok as (Hs & He & Hl). cbn [read_string_loop].
  destruct (until delim (b_buf b)) as [[l1 r1]|] eqn:E1.
  - pose proof (until_app _ _ _ _ (stream_bytes (b_src b)) E1) as H1.
    fold (bufio_bytes b) in H1. rewrite Hu in H1. simplify_eq. eexists. split; [done|].
    assert (length (b_buf b) = length (l1 ++ r1)) as Hlen.
    { clear -E1. revert l1 E1. induction (b_buf b) as [|x bb IHb]; intros l1; simpl; [done|].
      case_bool_decide; [intros [= <- <-]; done|].
      destruct (until delim bb) as [[]|] eqn:E; simpl; [|done]. intros [= <- <-]. simpl. f_equal. by apply IHb. }
    unfold bufio_ok, bufio_bytes. simpl. repeat split; try done. len.
  - rewrite He. unfold bufio_bytes in Hu. rewrite until_app_None in Hu by done.
    destruct (until delim (stream_bytes (b_src b))) as [[l2 r2]|] eqn:E2; simpl in Hu; [|done]. simplify_eq.
    case_bool_decide as Hfull.
    + destruct (IH (frag ++ b_buf b) (set_buf b []) l2) as (b' & -> & Hok' & Hb' & Hf'); try done.
      * unfold bufio_ok; simpl; repeat split; try done; unfold buf_size; lia.
      * unfold bufio_bytes in *. simpl in *. rewrite length_app in Hf. unfold buf_size in *. lia.
      * exists b'. by rewrite app_assoc.
    + destruct (fill_spec b Hok ltac:(lia)) as (Hs1 & Hf1 & Hl1 & Hm).
      pose proof (fill_bytes b) as Hfb.
      destruct (b_err (fill b)) as [e|] eqn:Ee.
      { destruct Hm as (_ & Hnil & Hbb). unfold bufio_bytes in Hfb. rewrite Hnil, Hbb in Hfb.
        apply app_inv_head in Hfb. rewrite <-Hfb in E2. done. }
      destruct (IH frag (fill b) (b_buf b ++ l2)) as (b' & -> & Hok' & Hb' & Hf'); try done.
      * rewrite Hfb. unfold bufio_bytes. rewrite until_app_None by done. by rewrite E2.
      * rewrite Hfb. apply (f_equal length) in Hfb. unfold bufio_bytes in *. rewrite !length_app in *. lia.
      * exists b'. by rewrite Hf1 in Hf'.
Qed.

Lemma ReadString_spec delim b l r :
  bufio_ok b → until delim (bufio_bytes b) = Some (l, r) →
  ∃ b', ReadString delim b = (l, None, b') ∧ bufio_ok b' ∧
        bufio_bytes b' = r ∧ fin (b_src b') = fin (b_src b).
Proof.
  intros Hok Hu. apply (read_string_loop_spec _ _ [] b); try done.
  unfold bufio_bytes. rewrite length_app. lia.
Qed.

(** [Discard] of bytes that are already in the buffer. *)
Lemma Discard_buffered b a r :
  bufio_ok b → bufio_bytes b = a ++ r → a ≠ [] → (length a ≤ length (b_buf b))%nat →
  ∃ b', Discard (length a) b = (None, b') ∧ bufio_ok b' ∧ bufio_bytes b' = r ∧
        fin (b_src b') = fin (b_src b).
Proof.
  intros Hok Hb Ha Hle. pose proof Hok as (Hs & He & Hl). unfold Discard. cbn [discard_loop].
  assert (match b_buf b with [] => fill b | _ :: _ => b end = b) as ->
    by (destruct (b_buf b); [destruct a; simpl in *; [done|lia]|done]).
  rewrite Nat.min_r, bool_decide_true by done. eexists. split; [done|].
  apply (f_equal (drop (length a))) in Hb. rewrite drop_app_length in Hb.
  unfold bufio_bytes in *. rewrite drop_app_le in Hb by done.
  unfold bufio_ok. simpl. repeat split; try done. len.
Qed.

(** ** Readers in general *)

Lemma read_loop_length `{GoReader R} f n (r : R) got r' :
  read_loop f n r = (got, None, r') → (n ≤ length got)%nat.
Proof.
  revert n r got r'. induction f as [|f IH]; intros [|n] r got r'; cbn [read_loop]; try (intros; simplify_eq; simpl; lia).
  destruct (go_read (S n) r) as [[g e] r1]. case_bool_decide; [by intros [= <- <-]|].
  destruct e; [done|]. destruct (read_loop f (S n - length g) r1) as [[g2 e2] r2] eqn:E.
  intros [= <- -> <-]. apply IH in E. len.
Qed.

(** Readers obey [io.Reader]: [Read] stores at most [len(p)] bytes. *)
Class ReadBounded (R : Type) `{GoReader R} :=
  read_bounded n (r : R) : (length (go_read n r).1.1 ≤ n)%nat.

Section bounded.
Context `{ReadBounded R}.

Lemma read_loop_bounded f n (r : R) : (length (read_loop f n r).1.1 ≤ n)%nat.
Proof.
  revert n r. induction f as [|f IH]; intros [|n] r; cbn [read_loop]; simpl; try lia.
  pose proof (read_bounded (S n) r). destruct (go_read (S n) r) as [[g e] r1]. simpl in *.
  case_bool_decide; [done|]. destruct e; [done|].
  specialize (IH (S n - length g)%nat r1).
  destruct (read_loop f (S n - length g) r1) as [[g2 e2] r2]. len.
Qed.

Lemma io_ReadFull_length n (r : R) got r' : io_ReadFull n r = (got, None, r') → length got = n.
Proof.
  unfold io_ReadFull. pose proof (read_loop_bounded n n r) as Hb.
  destruct (read_loop n n r) as [[g [e|]] r1] eqn:E; [done|]. intros [= <- <-].
  apply read_loop_length in E. simpl in Hb. lia.
Qed.

End bounded.

#[export] Instance stream_bounded : ReadBounded stream.
Proof.
  intros n s. destruct (go_read n s) as [[got e] s'] eqn:E.
  by destruct (stream_read_spec _ _ _ _ _ E) as (_ & Hl & _).
Qed.

(** Reading from a connection only ever takes bytes off its front, whatever
    errors it reports. *)
Lemma read_loop_stream f n (s : stream) got e s' :
  read_loop f n s = (got, e, s') → stream_bytes s = got ++ stream_bytes s'.
Proof.
  revert n s got e s'. induction f as [|f IH]; intros [|n] s got e s'; cbn [read_loop];
    try (intros; simplify_eq; done).
  destruct (go_read (S n) s) as [[g e1] s1] eqn:E1. destruct (stream_read_spec _ _ _ _ _ E1) as (Hb & _).
  case_bool_decide; [by intros [= <- <- <-]|]. destruct e1; [by intros [= <- <- <-]|].
  destruct (read_loop f (S n - length g) s1) as [[g2 e2] s2] eqn:E2.
  intros [= <- <- <-]. by rewrite Hb, (IH _ _ _ _ _ E2), app_assoc.
Qed.

Lemma io_ReadFull_stream n (s : stream) got e s' :
  io_ReadFull n s = (got, e, s') → stream_bytes s = got ++ stream_bytes s'.
Proof.
  unfold io_ReadFull. destruct (read_loop n n s) as [[g e1] s1] eqn:E. intros [= <- <- <-].
  by eapply read_loop_stream.
Qed.

Lemma io_CopyN_stream n (s : stream) e s' :
  io_CopyN_Discard n s = (e, s') → ∃ got, stream_bytes s = got ++ stream_bytes s'.
Proof.
  unfold io_CopyN_Discard. destruct (read_loop n n s) as [[g e1] s1] eqn:E. intros [= <- <-].
  eexists. by eapply read_loop_stream.
Qed.

(** A successful [Peek] leaves the bytes in the buffer. *)
Lemma Peek_buffered n b got b' : Peek n b = (got, None, b') → (n ≤ length (b_buf b'))%nat.
Proof. unfold Peek. repeat case_bool_decide; intros; simplify_eq; lia. Qed.

Lemma Peek_length n b got b' : Peek n b = (got, None, b') → length got = n.
Proof. unfold Peek. repeat case_bool_decide; intros; simplify_eq; rewrite length_take; lia. Qed.

#[export] Instance bufio_bounded : ReadBounded bufio.
Proof.
  intros n b. unfold go_read, bufio_reader. destruct n as [|n]; [by destruct (b_buf b); simpl; lia|].
  destruct (b_buf b) as [|x bs]; [|simpl; rewrite length_take; simpl; lia].
  destruct (b_err b); [simpl; lia|]. case_bool_decide.
  - pose proof (read_bounded (S n) (b_src b)) as Hb. by destruct (go_read (S n) (b_src b)) as [[g e] s].
  - destruct (go_read buf_size (b_src b)) as [[g e] s]. destruct g; simpl; [lia|]. rewrite length_take. lia.
Qed.

Lemma NewReader_ok s : steady s → bufio_ok (NewReader s).
Proof. intros Hs. split; [done|]. split; [done|]. simpl. unfold buf_size. lia. Qed.

(** [io_ReadFull_app] for buffered readers. *)
Lemma bufio_ReadFull_app (b : bufio) a rest :
  bufio_ok b → bufio_bytes b = a ++ rest →
  ∃ b', io_ReadFull (length a) b = (a, None, b') ∧ bufio_ok b' ∧ bufio_bytes b' = rest ∧
        fin (b_src b') = fin (b_src b).
Proof. intros Hok Hb. exact (@io_ReadFull_app bufio _ bufio_spec b a rest Hok Hb). Qed.

(** A [Read] without an error stores something. *)
Lemma stream_read_progress n (s s' : stream) got :
  (0 < n)%nat → go_read n s = (got, None, s') → got ≠ [].
Proof.
  intros Hn. unfold go_read, stream_reader. destruct (read_evs n (evs s) (fin s)) as [[g e] l] eqn:E.
  intros [= -> -> <-]. revert E. induction (evs s) as [|[[|x seg]|e1] r IH]; simpl; [done|done| |done].
  case_bool_decide; intros [= <- <-]; [done|]. by destruct n; [lia|].
Qed.
