(* ===== verification/Types.v ===== *)
(** * Shared data types: [internal/common/types.go]

    The session metadata that travels from an inbound handler through the
    router to an outbound handler, and the routing rules.  An interface value
    such as [net.Addr] is its printed form, [None] when it is nil. *)

From S2P Require Import Prelude GoNet.

Record SessionMeta := {
  ID : bytes;
  TraceID : bytes;
  UserID : bytes;
  Source : option bytes;
  Target : bytes;
  Network : bytes;
  HopChain : list bytes;
  RouteTags : gmap bytes bytes;
  CreatedAt : Z }.

Record RoutingRule := {
  Type_ : bytes;
  Pattern : bytes;
  Outbound : bytes;
  OutboundGroup : bytes;
  Strategy : bytes }.

(** A composite literal [SessionMeta{...}] starts from the zero value. *)
Definition zeroMeta : SessionMeta :=
  {| ID := []; TraceID := []; UserID := []; Source := None; Target := []; Network := [];
     HopChain := []; RouteTags := ∅; CreatedAt := 0 |}.

Definition with_Target (m : SessionMeta) (t : bytes) : SessionMeta :=
  {| ID := ID m; TraceID := TraceID m; UserID := UserID m; Source := Source m; Target := t;
     Network := Network m; HopChain := HopChain m; RouteTags := RouteTags m; CreatedAt := CreatedAt m |}.

Definition with_HopChain (m : SessionMeta) (h : list bytes) : SessionMeta :=
  {| ID := ID m; TraceID := TraceID m; UserID := UserID m; Source := Source m; Target := Target m;
     Network := Network m; HopChain := h; RouteTags := RouteTags m; CreatedAt := CreatedAt m |}.

(** ** Session identifiers: the third-party [uuid] package

    [uuid_Parse] reads a textual UUID, [uuid_String] prints the canonical
    form.  The laws are the package's documented behaviour: a UUID is an
    array of 16 bytes and its canonical text parses back to it. *)

Class UUID := { uuid_Parse : bytes → option bytes; uuid_String : bytes → bytes }.

Class UUIDLaws `{UUID} := {
  uuid_Parse_length s u : uuid_Parse s = Some u → length u = 16%nat;
  uuid_Parse_String u : length u = 16%nat → uuid_Parse (uuid_String u) = Some u;
  uuid_String_nonempty u : uuid_String u ≠ [] }.

(** The laws can hold: the canonical 8-4-4-4-12 text of a UUID and its
    reader, for the concrete runs below. *)
Module DemoUUID.

Definition dash : byte := Byte.x2d.

Definition to_text (u : bytes) : bytes :=
  hex_string (take 4 u) ++ dash :: hex_string (take 2 (drop 4 u)) ++ dash ::
  hex_string (take 2 (drop 6 u)) ++ dash :: hex_string (take 2 (drop 8 u)) ++ dash :: hex_string (drop 10 u).

Fixpoint hex_pairs (s : bytes) : option bytes :=
  match s with
  | [] => Some []
  | h :: l :: s' => x ← hex_val h; y ← hex_val l; r ← hex_pairs s'; Some (z2b (16 * x + y) :: r)
  | _ => None
  end.

Definition of_text (s : bytes) : option bytes :=
  if bool_decide (length s = 36%nat)
  then u ← hex_pairs (filter (λ c, c ≠ dash) s); if bool_decide (length u = 16%nat) then Some u else None
  else None.

Lemma hex_pairs_string (u : bytes) : hex_pairs (hex_string u) = Some u.
Proof.
  induction u as [|b u IH]; [done|]. unfold hex_string in *.
  cbn [flat_map app hex_pairs]. rewrite IH. by destruct b.
Qed.

Lemma filter_hex_string u : filter (λ c, c ≠ dash) (hex_string u) = hex_string u.
Proof.
  induction u as [|b u IH]; [done|]. unfold hex_string in *. cbn [flat_map]. rewrite filter_app, IH.
  by destruct b.
Qed.

Lemma hex_string_app u v : hex_string (u ++ v) = hex_string u ++ hex_string v.
Proof. apply flat_map_app. Qed.

Lemma length_hex_string u : length (hex_string u) = (2 * length u)%nat.
Proof. induction u as [|b u IH]; [done|]. unfold hex_string in *. cbn [flat_map]. len. Qed.

Lemma filter_dash a b :
  filter (λ c, c ≠ dash) (hex_string a ++ dash :: b) = hex_string a ++ filter (λ c, c ≠ dash) b.
Proof. by rewrite filter_app, filter_cons_False, filter_hex_string by naive_solver. Qed.

Lemma of_to_text u : length u = 16%nat → of_text (to_text u) = Some u.
Proof.
  intros Hu. unfold of_text, to_text. rewrite bool_decide_true.
  - rewrite !filter_dash, filter_hex_string, <-!hex_string_app, hex_pairs_string. simpl.
    assert (take 4 u ++ take 2 (drop 4 u) ++ take 2 (drop 6 u) ++ take 2 (drop 8 u) ++ drop 10 u = u) as ->.
    { do 16 (destruct u as [|? u]; [done|]). by destruct u. }
    by rewrite bool_decide_true.
  - repeat (rewrite length_app, length_cons, length_hex_string || rewrite length_hex_string).
    rewrite !length_take, !length_drop, Hu. reflexivity.
Qed.

#[export] Instance demo_uuid : UUID := {| uuid_Parse := of_text; uuid_String := to_text |}.

#[export] Instance demo_uuid_laws : UUIDLaws.
Proof.
  split.
  - intros s u. simpl. unfold of_text. case_bool_decide; [|done].
    destruct (hex_pairs _) as [v|]; simpl; [|done]. case_bool_decide; [|done]. by intros [= <-].
  - apply of_to_text.
  - intros u. simpl. unfold to_text. by destruct (hex_string (take 4 u)).
Qed.

End DemoUUID.
