(* ===== verification/Mux.v ===== *)
(** * Bandwidth aggregation: [internal/mux]

    [Flow] is [WindowFlowController]; [Agg] is [Aggregator], which cuts a
    message into numbered frames and deals them to the connections in turn;
    [Reas] is [Reassembler], which receives them in any order.  [Push] runs
    under the reassembler's lock but sends on a bounded channel that [Read]
    drains concurrently, so the reassembler is a step relation whose steps
    are the lock-protected prologue of [Push], one iteration of its delivery
    loop, and [Read]. *)

From S2P Require Import Prelude Stream.

(** ** Window flow control *)
Module Flow.

Record WindowFlowController := { maxWindow : Z; buffered : Z; consumed : Z }.

Definition NewWindowFlowController (w : Z) : WindowFlowController :=
  {| maxWindow := if bool_decide (w ≤ 0) then 16 * 1024 * 1024 else w;
     buffered := 0; consumed := 0 |}.

Definition ShouldPause (w : WindowFlowController) : bool := bool_decide (maxWindow w ≤ buffered w).

Definition OnBuffered (n : Z) (w : WindowFlowController) : WindowFlowController :=
  {| maxWindow := maxWindow w; buffered := i64 (buffered w + n); consumed := consumed w |}.

Definition OnConsumed (n : Z) (w : WindowFlowController) : WindowFlowController :=
  {| maxWindow := maxWindow w; buffered := i64 (buffered w - n); consumed := i64 (consumed w + n) |}.

Definition WindowSize (w : WindowFlowController) : Z :=
  let remain := i64 (maxWindow w - buffered w) in
  if bool_decide (remain < 0) then 0 else remain.

Definition Reset (w : WindowFlowController) : WindowFlowController :=
  {| maxWindow := maxWindow w; buffered := 0; consumed := 0 |}.

End Flow.

(** ** The sender *)
Module Agg.

Record Aggregator := {
  conns : list sink;
  nextConn : Z;          (* atomic.Int32 *)
  sessionID : bytes;     (* [16]byte *)
  chunkSize : nat }.

Definition NewAggregator (cs : list sink) (sid : bytes) (chunk : Z) : Aggregator :=
  {| conns := cs; nextConn := 0; sessionID := sid;
     chunkSize := Z.to_nat (if bool_decide (chunk ≤ 0) then 64 * 1024 else chunk) |}.

(** One frame: SessionID(16) Seq(4) ChunkSize(2) Flags(1) Reserved(1) Chunk. *)
Definition frame (sid : bytes) (seq : Z) (flags : byte) (chunk : bytes) : bytes :=
  sid ++ be_put 4 seq ++ be_put 2 (u16 (Z.of_nat (length chunk))) ++ [flags; Byte.x00] ++ chunk.

(** The body of the loop of [Write]; each round takes at least one byte, so
    the loop runs at most [length data] times. *)
Fixpoint write_loop (fuel : nat) (a : Aggregator) (data : bytes) (seq : Z) : res unit * Aggregator :=
  match data, fuel with
  | [], _ => (Ok (), a)
  | _, O => (Panic, a)
  | _, S f =>
      let size := Nat.min (length data) (chunkSize a) in
      let chunk := take size data in
      let data' := drop size data in
      let flags := if bool_decide (data' = []) then Byte.x01 else Byte.x00 in
      let buf := frame (sessionID a) seq flags chunk in
      let next := i32 (nextConn a + 1) in
      let a1 := {| conns := conns a; nextConn := next; sessionID := sessionID a; chunkSize := chunkSize a |} in
      if bool_decide (conns a = []) then (Panic, a1)
      else
        let idx := Z.rem (i32 (next - 1)) (Z.of_nat (length (conns a))) in
        match (if bool_decide (idx < 0) then None else conns a !! Z.to_nat idx) with
        | None => (Panic, a1)
        | Some c =>
            let '(e, c') := sink_write buf c in
            let a2 := {| conns := <[Z.to_nat idx := c']> (conns a); nextConn := next;
                         sessionID := sessionID a; chunkSize := chunkSize a |} in
            match e with
            | Some _ => (Fail (Errorf "failed to write chunk to connection"), a2)
            | None => write_loop f a2 data' (u32 (seq + 1))
            end
        end
  end.

Definition Write (a : Aggregator) (data : bytes) : res nat * Aggregator :=
  let '(r, a') := write_loop (length data) a data 0 in
  (match r with Ok _ => Ok (length data) | Fail e => Fail e | Panic => Panic end, a').

(** The reference chunking and the frames of one message. *)
Fixpoint chunks_of (fuel cs : nat) (data : bytes) : list bytes :=
  match data, fuel with
  | [], _ | _, O => []
  | _, S f => take cs data :: chunks_of f cs (drop cs data)
  end.

Definition flag_of (cl : list bytes) (i : nat) : byte :=
  if bool_decide (S i = length cl) then Byte.x01 else Byte.x00.

Definition message (cs : nat) (data : bytes) : list bytes := chunks_of (length data) cs data.

Definition frame_of (sid : bytes) (cl : list bytes) (i : nat) : bytes :=
  frame sid (Z.of_nat i) (flag_of cl i) (default [] (cl !! i)).

Definition frames (sid : bytes) (cs : nat) (data : bytes) : list bytes :=
  let cl := message cs data in frame_of sid cl <$> seq 0 (length cl).

End Agg.

(** ** The receiver *)
Module Reas.
Import Flow.

Definition chan_cap : nat := Z.to_nat 1024.

Record Reassembler := {
  chunks : gmap Z bytes;
  nextSeq : Z;
  isClosed : bool;
  output : list bytes;       (* the channel, oldest first *)
  flowCtrl : WindowFlowController;
  pending : bytes;
  pushing : option byte      (* a [Push] inside its loop, with its flags *) }.

Definition NewReassembler (fc : WindowFlowController) : Reassembler :=
  {| chunks := ∅; nextSeq := 0; isClosed := false; output := []; flowCtrl := fc;
     pending := []; pushing := None |}.

(** The header fields [Push] reads. *)
Definition parse (data : bytes) : res (Z * byte * bytes) :=
  if bool_decide (length data < 24)%nat then Fail (Errorf "chunk data too short")
  else
    let! s := slice data 16 20 in
    let! z := slice data 20 22 in
    let! flags := index data 22 in
    let size := Z.to_nat (be_get z) in
    if bool_decide (length data < 24 + size)%nat then Fail (Errorf "size mismatch")
    else let! chunk := slice data 24 (24 + size) in Ok (be_get s, flags, chunk).

(** [Push] up to its loop: the chunk is stored and the loop entered. *)
Definition push_start (data : bytes) (r : Reassembler) : res Reassembler :=
  let! p := parse data in
  let '(seq, flags, chunk) := p in
  if bool_decide (seq < nextSeq r) then Ok r
  else Ok {| chunks := <[seq := chunk]> (chunks r); nextSeq := nextSeq r; isClosed := isClosed r;
             output := output r; flowCtrl := OnBuffered (Z.of_nat (length chunk)) (flowCtrl r);
             pending := pending r; pushing := Some flags |}.

(** One iteration of the delivery loop with the flags of the pushed frame. *)
Inductive iter := Next (r : Reassembler) | Stop (r : Reassembler) | BlockedSend | SendOnClosed.

Definition stop (r : Reassembler) : Reassembler :=
  {| chunks := chunks r; nextSeq := nextSeq r; isClosed := isClosed r; output := output r;
     flowCtrl := flowCtrl r; pending := pending r; pushing := None |}.

Definition push_iter (flags : byte) (r : Reassembler) : iter :=
  match chunks r !! nextSeq r with
  | None => Stop (stop r)
  | Some c =>
      if ShouldPause (flowCtrl r) then Stop (stop r)
      else if isClosed r then SendOnClosed
      else if bool_decide (chan_cap ≤ length (output r))%nat then BlockedSend
      else
        let chunks' := delete (nextSeq r) (chunks r) in
        let fin := bool_decide (Z.land (b2z flags) 1 ≠ 0 ∧ u32 (Z.of_nat (size chunks')) = 0) in
        let r' := {| chunks := chunks'; nextSeq := u32 (nextSeq r + 1);
                     isClosed := fin || isClosed r; output := output r ++ [c];
                     flowCtrl := flowCtrl r; pending := pending r;
                     pushing := if fin then None else Some flags |} in
        if fin then Stop r' else Next r'
  end.

(** A whole [Push] when nothing else runs.  Each round delivers a stored
    chunk, so the loop ends within one round more than there are chunks. *)
Inductive push_result := Pushed (r : Reassembler) | PushErr (e : goerr) | PushBlocked (r : Reassembler) | PushPanic.

Fixpoint push_loop (fuel : nat) (flags : byte) (r : Reassembler) : push_result :=
  match fuel with
  | O => PushBlocked r
  | S f =>
      match push_iter flags r with
      | Stop r' => Pushed r'
      | Next r' => push_loop f flags r'
      | BlockedSend => PushBlocked r
      | SendOnClosed => PushPanic
      end
  end.

Definition Push (data : bytes) (r : Reassembler) : push_result :=
  match push_start data r with
  | Fail e => PushErr e
  | Panic => PushPanic
  | Ok r1 =>
      match pushing r1 with
      | None => Pushed r1
      | Some flags => push_loop (S (size (chunks r1))) flags r1
      end
  end.

(** [Read] with a buffer of [n] bytes; it blocks on an empty open channel. *)
Inductive read_result := ReadOk (got : bytes) (r : Reassembler) | ReadEOF | ReadBlocked.

Definition Read (n : nat) (r : Reassembler) : read_result :=
  match pending r with
  | _ :: _ =>
      let got := take n (pending r) in
      ReadOk got {| chunks := chunks r; nextSeq := nextSeq r; isClosed := isClosed r;
                    output := output r;
                    flowCtrl := OnConsumed (Z.of_nat (length got)) (flowCtrl r);
                    pending := drop (length got) (pending r); pushing := pushing r |}
  | [] =>
      match output r with
      | c :: o =>
          let got := take n c in
          ReadOk got {| chunks := chunks r; nextSeq := nextSeq r; isClosed := isClosed r;
                        output := o;
                        flowCtrl := OnConsumed (Z.of_nat (length got)) (flowCtrl r);
                        pending := if bool_decide (length got < length c)%nat then drop (length got) c
                                   else pending r;
                        pushing := pushing r |}
      | [] => if isClosed r then ReadEOF else ReadBlocked
      end
  end.

(** The concurrent behaviour; a configuration is the reassembler and the
    bytes [Read] has returned so far. *)
Inductive step (allowed : bytes → Prop) : Reassembler * bytes → Reassembler * bytes → Prop :=
| step_push data r r' del :
    allowed data → pushing r = None → push_start data r = Ok r' →
    step allowed (r, del) (r', del)
| step_next flags r r' del :
    pushing r = Some flags → push_iter flags r = Next r' →
    step allowed (r, del) (r', del)
| step_stop flags r r' del :
    pushing r = Some flags → push_iter flags r = Stop r' →
    step allowed (r, del) (r', del)
| step_read n got r r' del :
    Read n r = ReadOk got r' →
    step allowed (r, del) (r', del ++ got).

(** Reading until the channel is exhausted, with buffers of [n] bytes. *)
Fixpoint read_all (fuel n : nat) (r : Reassembler) : bytes * Reassembler :=
  match fuel with
  | O => ([], r)
  | S f =>
      match Read n r with
      | ReadOk got r' => let '(rest, r'') := read_all f n r' in (got ++ rest, r'')
      | _ => ([], r)
      end
  end.

(** Pushing a sequence of frames with nothing else running. *)
Fixpoint push_all (ds : list bytes) (r : Reassembler) : push_result :=
  match ds with
  | [] => Pushed r
  | d :: ds' => match Push d r with Pushed r' => push_all ds' r' | o => o end
  end.

Definition held_chunks (m : gmap Z bytes) : Z := map_fold (λ _ c acc, Z.of_nat (length c) + acc) 0 m.

(** The bytes the reassembler holds: stored out of order, queued, half read. *)
Definition held (r : Reassembler) : Z :=
  held_chunks (chunks r) + Z.of_nat (length (concat (output r))) + Z.of_nat (length (pending r)).

End Reas.

(** ** Facts about frames and chunks *)
Module MuxFacts.
Import Flow Agg Reas.

Lemma chunks_of_concat f cs data : (0 < cs)%nat → (length data ≤ f)%nat → concat (chunks_of f cs data) = data.
Proof.
  intros Hcs. revert data. induction f as [|f IH]; intros [|x data] Hf; simpl in *; try done; [lia|].
  rewrite IH by (rewrite length_drop; simpl; lia). apply take_drop.
Qed.

Lemma chunks_of_length f cs data c : c ∈ chunks_of f cs data → (length c ≤ cs)%nat.
Proof.
  revert data. induction f as [|f IH]; intros [|x data]; simpl; try set_solver.
  intros [->|Hin]%elem_of_cons; [rewrite length_take; lia|]. by eapply IH.
Qed.

Lemma concat_take_S {A} (l : list (list A)) i c :
  l !! i = Some c → concat (take (S i) l) = concat (take i l) ++ c.
Proof. intros Hi. rewrite (take_S_r _ _ c) by done. rewrite concat_app. simpl. by rewrite app_nil_r. Qed.

Lemma message_concat cs data : (0 < cs)%nat → concat (message cs data) = data.
Proof. intros. by apply chunks_of_concat. Qed.

Lemma message_chunk_length cs data i c :
  message cs data !! i = Some c → (length c ≤ cs)%nat.
Proof. intros Hi. eapply chunks_of_length, list_elem_of_lookup_2, Hi. Qed.

Lemma chunks_of_count f cs data : (0 < cs)%nat → (length (chunks_of f cs data) ≤ length data)%nat.
Proof.
  intros Hcs. revert data. induction f as [|f IH]; intros [|x data]; simpl; try lia.
  specialize (IH (drop cs (x :: data))). rewrite length_drop in IH. simpl in IH. lia.
Qed.

Lemma chunks_of_fuel f f' cs data :
  (0 < cs)%nat → (length data ≤ f)%nat → (length data ≤ f')%nat →
  chunks_of f cs data = chunks_of f' cs data.
Proof.
  intros Hcs. revert f' data. induction f as [|f IH]; intros f' [|x data] Hf Hf'; simpl in *; try lia.
  1, 2: by destruct f'. destruct f' as [|f']; [lia|]. simpl. f_equal.
  apply IH; rewrite length_drop; simpl; lia.
Qed.

(** [parse] inverts [frame] as long as the chunk length fits its field. *)
Lemma parse_frame sid seq flags chunk :
  length sid = 16%nat → 0 ≤ seq < 2 ^ 32 → Z.of_nat (length chunk) < 2 ^ 16 →
  parse (frame sid seq flags chunk) = Ok (seq, flags, chunk).
Proof.
  intros Hs Hq Hc. unfold frame. set (L := u16 (Z.of_nat (length chunk))).
  assert (L = Z.of_nat (length chunk)) as HL by (apply u16_id; lia).
  assert (length (sid ++ be_put 4 seq ++ be_put 2 L ++ [flags; Byte.x00] ++ chunk)
          = (24 + length chunk)%nat) as Hlen by len.
  unfold parse. rewrite bool_decide_false by lia.
  rewrite !slice_ok by lia. cbn [res_bind].
  replace (take (20 - 16) (drop 16 _)) with (be_put 4 seq)
    by (symmetry; by apply take_drop_app_mid; [|rewrite length_be_put]).
  replace (take (22 - 20) (drop 20 _)) with (be_put 2 L).
  2:{ symmetry. rewrite app_assoc. apply take_drop_app_mid; len. }
  unfold index. rewrite !app_assoc, lookup_app_l, lookup_app_r, <-!app_assoc by len.
  replace (22 - _)%nat with 0%nat by len. cbn [lookup list_lookup res_bind].
  rewrite !be_get_put, HL, !Z.mod_small by lia. rewrite Nat2Z.id, bool_decide_false by len.
  rewrite slice_ok by len. cbn [res_bind]. do 2 f_equal.
  replace (24 + length chunk - 24)%nat with (length chunk) by lia.
  rewrite !app_assoc, drop_app_mid by len. by apply take_ge.
Qed.

Lemma parse_cases data : parse data = Panic → False.
Proof.
  unfold parse. case_bool_decide; [done|]. rewrite !slice_ok by lia. simpl.
  destruct (index_ok data 22) as (x & -> & _); [lia|]. simpl.
  case_bool_decide; [done|]. by rewrite slice_ok by lia.
Qed.

End MuxFacts.

(** ** The reassembler invariant for one message *)
Module ReasInv.
Import Flow Agg Reas MuxFacts.

Section one_message.
Context (sid : bytes) (cl : list bytes).
Hypothesis Hsid : length sid = 16%nat.
Hypothesis Hcl : ∀ i c, cl !! i = Some c → Z.of_nat (length c) < 2 ^ 16.
Hypothesis Hcount : Z.of_nat (length cl) < 2 ^ 32.

(** What may arrive: the frames of the message, in any order, any number of
    times. *)
Definition of_message (d : bytes) : Prop := ∃ i, (i < length cl)%nat ∧ d = frame_of sid cl i.

Record inv (s : Reassembler * bytes) : Prop := {
  inv_chunks k c : chunks s.1 !! k = Some c → nextSeq s.1 ≤ k ∧ cl !! Z.to_nat k = Some c;
  inv_next : 0 ≤ nextSeq s.1 ≤ Z.of_nat (length cl);
  inv_data : s.2 ++ pending s.1 ++ concat (output s.1) = concat (take (Z.to_nat (nextSeq s.1)) cl);
  inv_closed : isClosed s.1 = true → nextSeq s.1 = Z.of_nat (length cl);
  inv_fin flags : pushing s.1 = Some flags → Z.land (b2z flags) 1 ≠ 0 →
    nextSeq s.1 = Z.of_nat (length cl) ∨ is_Some (chunks s.1 !! (Z.of_nat (length cl) - 1)) }.

Lemma inv_init fc : inv (NewReassembler fc, []).
Proof using Type.
  split; simpl; [intros k c Hk; by rewrite lookup_empty in Hk| |done..].
  split; [done|apply Nat2Z.is_nonneg].
Qed.

Lemma frame_of_parse i :
  (i < length cl)%nat → ∃ c, cl !! i = Some c ∧ parse (frame_of sid cl i) = Ok (Z.of_nat i, flag_of cl i, c).
Proof.
  intros Hi. destruct (lookup_lt_is_Some_2 cl i Hi) as [c Hc]. exists c. split; [done|].
  unfold frame_of. rewrite Hc. simpl. apply parse_frame; [done|lia|by eapply Hcl].
Qed.

Lemma flag_of_fin i : Z.land (b2z (flag_of cl i)) 1 ≠ 0 ↔ S i = length cl.
Proof. unfold flag_of. case_bool_decide; simpl; [|split; [done|lia]]. split; [lia|done]. Qed.

Lemma inv_size s : inv s → (size (chunks s.1) ≤ length cl)%nat.
Proof.
  intros [Hc Hn _ _ _]. rewrite <-size_dom.
  transitivity (size (list_to_set (Z.of_nat <$> seq 0 (length cl)) : gset Z)).
  - apply subseteq_size. intros k [c Hk]%elem_of_dom. destruct (Hc k c Hk) as [Hk1 Hk2].
    apply elem_of_list_to_set, list_elem_of_fmap. exists (Z.to_nat k). split; [lia|].
    apply elem_of_seq. apply lookup_lt_Some in Hk2. lia.
  - rewrite size_list_to_set by (apply NoDup_fmap_2; [apply _|apply NoDup_seq]).
    by rewrite length_fmap, length_seq.
Qed.

(** What one delivery does, when the loop does not stop. *)
Lemma inv_deliver flags r c :
  (∃ del, inv (r, del)) → chunks r !! nextSeq r = Some c →
  nextSeq r < Z.of_nat (length cl) ∧ cl !! Z.to_nat (nextSeq r) = Some c ∧
  u32 (nextSeq r + 1) = nextSeq r + 1 ∧
  (Z.land (b2z flags) 1 ≠ 0 → pushing r = Some flags →
   u32 (Z.of_nat (size (delete (nextSeq r) (chunks r)))) = 0 →
   nextSeq r + 1 = Z.of_nat (length cl)).
Proof.
  intros [del [Hch Hn Hd Hcd Hf]] Hc.
  destruct (Hch _ _ Hc) as [_ Hlk]. pose proof (lookup_lt_Some _ _ _ Hlk) as Hlt.
  assert (nextSeq r < Z.of_nat (length cl)) by (simpl in *; lia).
  repeat split; try done; [apply u32_id; simpl in *; lia|].
  intros Hfl Hp Hz. simpl in *. destruct (Hf flags Hp Hfl) as [|[c' Hc']]; [lia|].
  rewrite map_size_delete_Some in Hz by eauto.
  assert (size (chunks r) ≤ length cl)%nat as Hs by (apply (inv_size (r, del)); by split).
  rewrite u32_id in Hz by lia.
  destruct (decide (nextSeq r = Z.of_nat (length cl) - 1)); [lia|]. exfalso.
  assert (size (delete (nextSeq r) (chunks r)) = 0%nat) as Hz'.
  { rewrite map_size_delete_Some by eauto. lia. }
  apply map_size_empty_inv in Hz'. assert (delete (nextSeq r) (chunks r) !! (Z.of_nat (length cl) - 1) = Some c') as Hd'
    by (by rewrite lookup_delete_ne).
  rewrite Hz', lookup_empty in Hd'. done.
Qed.

Lemma inv_step s s' : inv s → step of_message s s' → inv s'.
Proof.
  intros Hi Hs. pose proof Hi as Hi'. destruct Hi as [Hch Hn Hd Hcd Hf].
  destruct Hs as [data r r' del (i & Hlt & ->) Hp E|flags r r' del Hp E|flags r r' del Hp E|n got r r' del E];
    simpl in *.
  - destruct (frame_of_parse i Hlt) as (c & Hc & Hpa). unfold push_start in E. rewrite Hpa in E. simpl in E.
    case_bool_decide; simplify_eq; [done|]. split; simpl; try done.
    + intros k c' Hk. apply lookup_insert_Some in Hk as [[<- <-]|[_ Hk]]; [rewrite Nat2Z.id; split; [lia|done]|].
      by apply Hch.
    + intros flags [= <-] Hfl. right. apply flag_of_fin in Hfl.
      replace (Z.of_nat (length cl) - 1) with (Z.of_nat i) by lia. by rewrite lookup_insert_eq.
  - unfold push_iter in E. destruct (chunks r !! nextSeq r) as [c|] eqn:Ec; [|done].
    destruct (ShouldPause _); [done|]. destruct (isClosed r) eqn:Ecl; [done|].
    case_bool_decide; [done|]. destruct (inv_deliver flags r c) as (Hlt & Hlk & Hu & Hfin); [eauto|done|].
    case_bool_decide as Hb; [done|]. simplify_eq. split; simpl; rewrite ?Hu.
    + intros k c' Hk. apply lookup_delete_Some in Hk as [Hne Hk]. destruct (Hch _ _ Hk). split; [lia|done].
    + lia.
    + rewrite concat_app. simpl. rewrite app_nil_r, !app_assoc, <-app_assoc with (l := del), Hd.
      replace (Z.to_nat (nextSeq r + 1)) with (S (Z.to_nat (nextSeq r))) by lia.
      by rewrite (concat_take_S _ _ c).
    + done.
    + intros fl [= <-] Hfl. destruct (Hf flags Hp Hfl) as [|[c' Hc']]; [lia|].
      destruct (decide (nextSeq r = Z.of_nat (length cl) - 1)); [left; lia|].
      right. rewrite lookup_delete_ne by done. eauto.
  - unfold push_iter in E. destruct (chunks r !! nextSeq r) as [c|] eqn:Ec; [|simplify_eq; by split].
    destruct (ShouldPause _); [simplify_eq; by split|]. destruct (isClosed r) eqn:Ecl; [done|].
    case_bool_decide; [done|]. destruct (inv_deliver flags r c) as (Hlt & Hlk & Hu & Hfin); [eauto|done|].
    case_bool_decide as Hb; [|done]. simplify_eq. destruct Hb as [Hb1 Hb2]. specialize (Hfin Hb1 Hp Hb2).
    split; simpl; rewrite ?Hu; try done; [|lia|].
    + intros k c' Hk. apply lookup_delete_Some in Hk as [Hne Hk]. destruct (Hch _ _ Hk). split; [lia|done].
    + rewrite concat_app. simpl. rewrite app_nil_r, !app_assoc, <-app_assoc with (l := del), Hd.
      replace (Z.to_nat (nextSeq r + 1)) with (S (Z.to_nat (nextSeq r))) by lia.
      by rewrite (concat_take_S _ _ c).
  - unfold Read in E. destruct (pending r) as [|x p] eqn:Ep.
    + destruct (output r) as [|c o] eqn:Eo; [by destruct (isClosed r)|]. simplify_eq.
      split; simpl; try done. rewrite <-Hd. simpl. rewrite <-app_assoc. f_equal.
      case_bool_decide as Hb.
      * by rewrite app_assoc, take_drop_length.
      * simpl. f_equal. rewrite length_take in Hb. apply take_ge. lia.
    + simplify_eq. split; simpl; try done. rewrite <-Hd, <-app_assoc. f_equal.
      by rewrite app_assoc, take_drop_length.
Qed.

Lemma inv_steps s s' : rtc (step of_message) s s' → inv s → inv s'.
Proof. apply rtc_invariant. eauto using inv_step. Qed.

(** ** Pushing with no reader running *)

(** Chunk [i] has been received. *)
Definition seen (r : Reassembler) (i : nat) : Prop :=
  Z.of_nat i < nextSeq r ∨ is_Some (chunks r !! Z.of_nat i).

(** A reassembler nobody reads from: everything delivered is in the channel. *)
Definition unread (r : Reassembler) : Prop :=
  inv (r, []) ∧ pending r = [] ∧ output r = take (Z.to_nat (nextSeq r)) cl.

Definition idle (r : Reassembler) : Prop :=
  unread r ∧ pushing r = None ∧ chunks r !! nextSeq r = None.

Lemma chunks_past_end r del : inv (r, del) → nextSeq r = Z.of_nat (length cl) → chunks r = ∅.
Proof.
  intros [Hch _ _ _ _] Hn. apply map_empty. intros k. destruct (chunks r !! k) as [c|] eqn:E; [|done].
  destruct (Hch k c E) as [Hk Hl]. apply lookup_lt_Some in Hl. simpl in *. lia.
Qed.

Lemma take_deliver r c :
  output r = take (Z.to_nat (nextSeq r)) cl → 0 ≤ nextSeq r → cl !! Z.to_nat (nextSeq r) = Some c →
  output r ++ [c] = take (Z.to_nat (nextSeq r + 1)) cl.
Proof.
  intros -> Hn Hc. replace (Z.to_nat (nextSeq r + 1)) with (S (Z.to_nat (nextSeq r))) by lia. by rewrite (take_S_r _ _ c).
Qed.

Lemma seen_deliver r r1 c i :
  nextSeq r1 = nextSeq r + 1 → chunks r1 = delete (nextSeq r) (chunks r) → chunks r !! nextSeq r = Some c →
  seen r1 i ↔ seen r i.
Proof.
  intros Hn Hch Hc. unfold seen. rewrite Hn, Hch. destruct (decide (Z.of_nat i = nextSeq r)) as [E|E].
  - rewrite E, lookup_delete_eq, Hc. split; [eauto|left; lia].
  - rewrite lookup_delete_ne by done. split; (intros [?|?]; [left; lia|by right]).
Qed.

Lemma push_loop_spec fuel flags r :
  unread r → pushing r = Some flags → isClosed r = false →
  (Z.land (b2z flags) 1 ≠ 0 → nextSeq r < Z.of_nat (length cl)) →
  buffered (flowCtrl r) < maxWindow (flowCtrl r) → (length cl ≤ chan_cap)%nat →
  (size (chunks r) < fuel)%nat →
  ∃ r', push_loop fuel flags r = Pushed r' ∧ idle r' ∧ flowCtrl r' = flowCtrl r ∧
        (∀ i, seen r' i ↔ seen r i) ∧
        (isClosed r' = true ↔ Z.land (b2z flags) 1 ≠ 0 ∧ nextSeq r' = Z.of_nat (length cl)).
Proof.
  revert r. induction fuel as [|f IH]; intros r (Hi & Hpe & Ho) Hp Hc Hfl Hw Hcap Hf; [lia|].
  pose proof (inv_next _ Hi) as Hn0. simpl in Hn0.
  cbn [push_loop]. destruct (push_iter flags r) as [r1|r1| |] eqn:E.
  - pose proof (inv_step _ _ Hi (step_next _ _ _ _ _ Hp E)) as Hi1.
    unfold push_iter in E. destruct (chunks r !! nextSeq r) as [c|] eqn:Ec; [|done].
    destruct (inv_deliver flags r c) as (Hlt & Hlk & Hu & _); [eauto|done|].
    rewrite Hc in E. repeat case_match; try done. simplify_eq.
    match goal with H : bool_decide (_ ∧ _) = false |- _ => apply bool_decide_eq_false in H; rename H into Hnf end.
    match type of Hi1 with inv (?x, _) => set (r1 := x) in * end.
    assert (nextSeq r1 = nextSeq r + 1) as Hn1 by exact Hu.
    assert (chunks r1 = delete (nextSeq r) (chunks r)) as Hch1 by done.
    assert (output r1 = output r ++ [c]) as Ho1 by done.
    destruct (IH r1) as (r' & Hr' & Hid & Hfc & Hseen & Hcl'); try done.
    + split; [done|]. split; [done|]. rewrite Ho1, Hn1. apply take_deliver; [done|lia|done].
    + rewrite Hn1. intros Hz. destruct (decide (nextSeq r + 1 = Z.of_nat (length cl))) as [Heq|]; [|lia].
      exfalso. apply Hnf. split; [done|]. rewrite <-Hch1.
      rewrite (chunks_past_end r1 []) by (done || lia). done.
    + assert (size (chunks r) ≠ 0%nat) by
        (intros Hz%map_size_empty_inv; by rewrite Hz, lookup_empty in Ec).
      rewrite Hch1, map_size_delete_Some by eauto. lia.
    + exists r'. split; [done|]. split; [done|]. split; [done|]. split; [|done]. intros i.
      rewrite Hseen. by apply (seen_deliver r r1 c).
  - pose proof (inv_step _ _ Hi (step_stop _ _ _ _ _ Hp E)) as Hi1.
    exists r1. split; [done|]. unfold push_iter in E. destruct (chunks r !! nextSeq r) as [c|] eqn:Ec.
    + destruct (inv_deliver flags r c) as (Hlt & Hlk & Hu & _); [eauto|done|].
      unfold ShouldPause in E. rewrite bool_decide_false in E by lia. rewrite Hc in E.
      repeat case_match; try done. simplify_eq.
      match goal with H : bool_decide (_ ∧ _) = true |- _ => apply bool_decide_eq_true in H as [Hz1 Hz2] end.
      match type of Hi1 with inv (?x, _) => set (r1 := x) in * end.
      assert (nextSeq r1 = nextSeq r + 1) as Hnx1 by exact Hu.
      assert (nextSeq r1 = Z.of_nat (length cl)) as Hn1 by (by apply (inv_closed _ Hi1)).
      assert (chunks r1 = ∅) as Hemp by (by eapply chunks_past_end).
      split; [split; [split; [done|split; [done|]]|split; [done|]]|split; [done|split]].
      * rewrite Hnx1. apply take_deliver; [done|lia|done].
      * by rewrite Hemp, lookup_empty.
      * intros i. by apply (seen_deliver r r1 c).
      * done.
    + simplify_eq. split; [split; [by split|done]|]. split; [done|]. split; [done|].
      simpl. rewrite Hc. split; [done|]. intros [Hz Hn]. specialize (Hfl Hz). lia.
  - exfalso. unfold push_iter in E. destruct (chunks r !! nextSeq r) as [c|] eqn:Ec; [|done].
    destruct (inv_deliver flags r c) as (Hlt & Hlk & Hu & _); [eauto|done|].
    destruct (ShouldPause _); [done|]. rewrite Hc in E. case_bool_decide as Hb; [|by case_bool_decide].
    rewrite Ho, length_take in Hb. lia.
  - exfalso. unfold push_iter in E. repeat case_match; try done; congruence.
Qed.

Lemma Push_spec r i c :
  idle r → (i < length cl)%nat → cl !! i = Some c → (length cl ≤ chan_cap)%nat →
  0 ≤ buffered (flowCtrl r) → buffered (flowCtrl r) + Z.of_nat (length c) < maxWindow (flowCtrl r) →
  maxWindow (flowCtrl r) < 2 ^ 63 →
  ∃ r', Push (frame_of sid cl i) r = Pushed r' ∧ idle r' ∧
        maxWindow (flowCtrl r') = maxWindow (flowCtrl r) ∧ 0 ≤ buffered (flowCtrl r') ∧
        buffered (flowCtrl r') ≤ buffered (flowCtrl r) + Z.of_nat (length c) ∧
        (∀ j, seen r' j ↔ seen r j ∨ j = i) ∧
        (isClosed r' = true ↔
         isClosed r = true ∨ S i = length cl ∧ nextSeq r' = Z.of_nat (length cl) ∧ nextSeq r ≤ Z.of_nat i).
Proof.
  intros ((Hi & Hpe & Ho) & Hp & Hnx) Hlt Hc Hcap Hb0 Hbw Hmax.
  destruct (frame_of_parse i Hlt) as (c' & Hc' & Hpa). rewrite Hc in Hc'. simplify_eq.
  unfold Push, push_start. rewrite Hpa. cbn [res_bind]. case_bool_decide as Hs.
  { exists r. rewrite Hp. split; [done|]. split; [split; [by split|done]|].
    split; [done|]. split; [done|]. split; [lia|]. split.
    - intros j. split; [by left|]. intros [?| ->]; [done|by left].
    - split; [by left|]. intros [?|(? & ? & ?)]; [done|lia]. }
  cbn [pushing]. match goal with |- context [push_loop _ _ ?x] => set (r1 := x) end.
  assert (isClosed r = false) as Hcl0.
  { destruct (isClosed r) eqn:E; [|done]. apply (inv_closed _ Hi) in E. simpl in *. lia. }
  assert (buffered (flowCtrl r1) = buffered (flowCtrl r) + Z.of_nat (length c')) as Hbuf
    by (simpl; apply i64_id; lia).
  assert (inv (r1, [])) as Hi1.
  { eapply (inv_step (r, [])); [done|]. eapply (step_push _ (frame_of sid cl i)); [by exists i|done|].
    unfold push_start. rewrite Hpa. simpl. by rewrite bool_decide_false by done. }
  destruct (push_loop_spec (S (size (chunks r1))) (flag_of cl i) r1)
    as (r' & Hr' & Hid & Hfc & Hseen & Hcl'); try done; try lia.
  { intros Hz. apply flag_of_fin in Hz. simpl. pose proof (inv_next _ Hi). simpl in *. lia. }
  { rewrite Hbuf. simpl. lia. }
  exists r'. rewrite Hfc, Hbuf. simpl maxWindow.
  split; [done|]. split; [done|]. split; [done|]. split; [lia|]. split; [lia|]. split.
  - intros j. rewrite Hseen. unfold seen. simpl. rewrite lookup_insert.
    destruct (decide (Z.of_nat i = Z.of_nat j)) as [He|Hne].
    + apply Nat2Z.inj in He as ->. naive_solver.
    + naive_solver lia.
  - rewrite Hcl', flag_of_fin, Hcl0. naive_solver lia.
Qed.

Lemma push_all_spec ix r :
  idle r → (∀ i, i ∈ ix → (i < length cl)%nat) → (length cl ≤ chan_cap)%nat →
  0 ≤ buffered (flowCtrl r) →
  buffered (flowCtrl r) + Z.of_nat (sum_list_with (λ i, length (default [] (cl !! i))) ix)
    < maxWindow (flowCtrl r) →
  maxWindow (flowCtrl r) < 2 ^ 63 →
  ∃ r', push_all (frame_of sid cl <$> ix) r = Pushed r' ∧ idle r' ∧
        maxWindow (flowCtrl r') = maxWindow (flowCtrl r) ∧ 0 ≤ buffered (flowCtrl r') ∧
        buffered (flowCtrl r') ≤
          buffered (flowCtrl r) + Z.of_nat (sum_list_with (λ i, length (default [] (cl !! i))) ix) ∧
        (∀ j, seen r' j ↔ seen r j ∨ j ∈ ix).
Proof.
  revert r. induction ix as [|i ix IH]; intros r Hid Hin Hcap Hb0 Hbw Hmax;
    rewrite ?fmap_nil, ?fmap_cons; cbn [push_all sum_list_with] in *.
  { exists r. split; [done|]. split; [done|]. split; [done|]. split; [done|]. split; [lia|]. set_solver. }
  destruct (lookup_lt_is_Some_2 cl i) as [c Hc]; [set_solver|]. rewrite Hc in Hbw |- *. cbn [default from_option id] in *.
  destruct (Push_spec r i c) as (r1 & -> & Hid1 & Hm1 & Hb1 & Hb1' & Hs1 & _);
    try done; [set_solver|lia|].
  destruct (IH r1) as (r' & -> & Hid' & Hm' & Hb' & Hb'' & Hs'); try done; [set_solver|lia|lia|].
  exists r'. split; [done|]. split; [done|]. split; [lia|]. split; [done|]. split; [lia|].
  intros j. rewrite Hs', Hs1. set_solver.
Qed.

Lemma push_all_app ds1 ds2 r :
  push_all (ds1 ++ ds2) r = match push_all ds1 r with Pushed r' => push_all ds2 r' | o => o end.
Proof. revert r. induction ds1 as [|d ds1 IH]; intros r; simpl; [done|]. by destruct (Push d r). Qed.

Lemma idle_seen_all r : idle r → (∀ i, (i < length cl)%nat → seen r i) → nextSeq r = Z.of_nat (length cl).
Proof.
  intros ((Hi & _ & _) & _ & Hnx) Hall. pose proof (inv_next _ Hi) as Hn. simpl in Hn.
  destruct (decide (nextSeq r = Z.of_nat (length cl))); [done|].
  destruct (Hall (Z.to_nat (nextSeq r)) ltac:(lia)) as [Hs|Hs]; [lia|].
  rewrite Z2Nat.id, Hnx in Hs by lia. by destruct Hs.
Qed.

Lemma idle_init w : idle (NewReassembler w).
Proof. split; [split; [apply inv_init|done]|]. split; [done|]. apply lookup_empty. Qed.

End one_message.
End ReasInv.

(** ** The sender deals the frames of the message in turn *)
Module AggFacts.
Import Agg MuxFacts.

(** Connection [j]'s share of the frames when frame [i] goes to connection
    [(c + i) mod k]. *)
Fixpoint share (k c j : nat) (fs : list bytes) : list bytes :=
  match fs with
  | [] => []
  | f :: fs' => (if bool_decide (c `mod` k = j)%nat then [f] else []) ++ share k (S c) j fs'
  end.

Fixpoint frames_from (sid : bytes) (seq : Z) (cl : list bytes) : list bytes :=
  match cl with
  | [] => []
  | c :: cl' => frame sid seq (if bool_decide (cl' = []) then Byte.x01 else Byte.x00) c
                :: frames_from sid (seq + 1) cl'
  end.

Definition open_conn (s : sink) : Prop := budget s = None.

Lemma frames_from_frame_of sid pre cl :
  frames_from sid (Z.of_nat (length pre)) cl =
  frame_of sid (pre ++ cl) <$> seq (length pre) (length cl).
Proof.
  revert pre. induction cl as [|c cl IH]; intros pre; [done|].
  cbn [frames_from length seq]. rewrite fmap_cons. f_equal.
  - unfold frame_of. rewrite list_lookup_middle by done. simpl. f_equal. unfold flag_of.
    rewrite length_app. simpl. destruct cl; simpl; repeat case_bool_decide; try done; lia.
  - specialize (IH (pre ++ [c])). rewrite length_app, Nat.add_1_r, <-app_assoc in IH. simpl in IH.
    rewrite <-IH. f_equal. lia.
Qed.

Lemma frames_eq sid cs data : frames sid cs data = frames_from sid 0 (message cs data).
Proof. unfold frames. symmetry. apply (frames_from_frame_of sid []). Qed.

Lemma length_frames_from sid q cl : length (frames_from sid q cl) = length cl.
Proof. revert q. induction cl as [|c cl IH]; intros q; simpl; [done|]. by rewrite IH. Qed.

Lemma i32_id z : - 2 ^ 31 ≤ z < 2 ^ 31 → i32 z = z.
Proof. intros H. unfold i32. rewrite Z.mod_small; lia. Qed.

(** Cutting off a chunk with the size test of the loop. *)
Lemma cut_min (n : nat) (d : bytes) : take (Nat.min (length d) n) d = take n d ∧ drop (Nat.min (length d) n) d = drop n d.
Proof.
  destruct (decide (n ≤ length d)%nat); [by rewrite Nat.min_r|].
  by rewrite Nat.min_l, firstn_all, drop_all, take_ge, drop_ge by lia.
Qed.

Lemma chunks_of_nil f cs d : (0 < cs)%nat → (length d ≤ S f)%nat → d ≠ [] → chunks_of f cs (drop cs d) = [] ↔ drop cs d = [].
Proof.
  intros Hcs Hf Hd. destruct (drop cs d) as [|z dr] eqn:E; [by destruct f|]. destruct f; [|done].
  apply (f_equal length) in E. rewrite length_drop in E. simpl in E. lia.
Qed.

Lemma write_loop_spec f a data q :
  conns a ≠ [] → Forall open_conn (conns a) → (0 < chunkSize a)%nat → (length data ≤ f)%nat →
  0 ≤ nextConn a → nextConn a + Z.of_nat (length (chunks_of f (chunkSize a) data)) < 2 ^ 31 →
  0 ≤ q → q + Z.of_nat (length (chunks_of f (chunkSize a) data)) < 2 ^ 32 →
  ∃ a', write_loop f a data q = (Ok (), a') ∧ length (conns a') = length (conns a) ∧
    ∀ j s, conns a !! j = Some s →
      conns a' !! j = Some {| written := written s ++ share (length (conns a)) (Z.to_nat (nextConn a)) j
                                (frames_from (sessionID a) q (chunks_of f (chunkSize a) data));
                              budget := None |}.
Proof.
  revert a data q. induction f as [|f IH]; intros a [|x data] q Hne Hop Hcs Hf Hn Hn' Hq Hq';
    try (simpl in Hf; lia).
  1, 2: exists a; split; [done|]; split; [done|]; intros j s Hj; simpl; rewrite app_nil_r;
    assert (budget s = None) as Hs by (eapply Forall_lookup_1 in Hop; [|done]; done);
    rewrite Hj; destruct s; simpl in *; by subst.
  set (d := x :: data) in *. cbn [write_loop chunks_of] in *.
  change (match d with [] => _ | _ :: _ => ?b end) with b in *.
  destruct d as [|y d'] eqn:Ed; [done|]. rewrite <-Ed in *. clear Ed y d'.
  rewrite bool_decide_false by done. set (K := length (conns a)) in *.
  assert (K ≠ 0%nat) as HK by (unfold K; by destruct (conns a)).
  set (cl := chunks_of f (chunkSize a) (drop (chunkSize a) d)) in *. cbn [length] in Hn', Hq'.
  rewrite (i32_id (nextConn a + 1)), i32_id by lia.
  replace (nextConn a + 1 - 1) with (nextConn a) by lia.
  assert (Z.rem (nextConn a) (Z.of_nat K) = Z.of_nat (Z.to_nat (nextConn a) `mod` K)%nat) as ->.
  { rewrite Z.rem_mod_nonneg by lia. rewrite Nat2Z.inj_mod, Z2Nat.id by lia. done. }
  set (jj := (Z.to_nat (nextConn a) `mod` K)%nat).
  assert (jj < K)%nat as Hjj by (by apply Nat.mod_upper_bound).
  rewrite bool_decide_false, Nat2Z.id by lia.
  destruct (lookup_lt_is_Some_2 (conns a) jj Hjj) as [c Hc]. rewrite Hc.
  assert (budget c = None) as Hbc by (eapply Forall_lookup_1 in Hop; [|done]; done).
  unfold sink_write. rewrite Hbc.
  destruct (cut_min (chunkSize a) d) as [-> ->].
  rewrite (u32_id (q + 1)) by lia.
  match goal with |- context [write_loop f ?x _ _] => set (a2 := x) end.
  set (fr := frame (sessionID a) q _ (take (chunkSize a) d)) in *.
  destruct (IH a2 (drop (chunkSize a) d) (q + 1)) as (a' & Hw & Hl & Hj).
  - simpl. intros E%(f_equal length). rewrite length_insert in E. by apply HK.
  - simpl. apply Forall_insert; done.
  - done.
  - rewrite length_drop. unfold d in *. simpl in *. lia.
  - simpl. lia.
  - simpl. fold cl. lia.
  - lia.
  - simpl. fold cl. lia.
  - exists a'. split; [done|]. split; [rewrite Hl; apply length_insert|].
    intros j s Hs. simpl in Hj. rewrite length_insert in Hj. fold K cl in Hj.
    replace (Z.to_nat (nextConn a + 1)) with (S (Z.to_nat (nextConn a))) in Hj by lia.
    cbn [frames_from share]. fold jj.
    assert (frame (sessionID a) q (if bool_decide (cl = []) then Byte.x01 else Byte.x00)
              (take (chunkSize a) d) = fr) as ->.
    { unfold fr. f_equal. unfold cl. assert (d ≠ []) as Hd0 by (subst d; discriminate).
      by rewrite (bool_decide_ext _ _ (chunks_of_nil f (chunkSize a) d Hcs Hf Hd0)). }
    case_bool_decide as Hjd.
    + subst j. rewrite Hc in Hs. simplify_eq.
      erewrite Hj by (by apply list_lookup_insert_eq). simpl. by rewrite <-app_assoc.
    + by erewrite Hj by (by rewrite list_lookup_insert_ne).
Qed.

(** No frame is lost or sent twice. *)
Lemma share_partition k c fs :
  (0 < k)%nat → concat ((λ j, share k c j fs) <$> seq 0 k) ≡ₚ fs.
Proof.
  intros Hk. revert c. induction fs as [|f fs IH]; intros c; simpl.
  - induction (seq 0 k); simpl; auto.
  - assert (∀ l : list nat, NoDup l →
      concat ((λ j, (if bool_decide (c `mod` k = j)%nat then [f] else []) ++ share k (S c) j fs) <$> l) ≡ₚ
      (if bool_decide ((c `mod` k)%nat ∈ l) then [f] else []) ++ concat ((λ j, share k (S c) j fs) <$> l)) as H.
    { induction l as [|j l IHl]; intros Hnd; [by rewrite bool_decide_false by set_solver|].
      apply NoDup_cons in Hnd as [Hj Hnd]. rewrite !fmap_cons. cbn [concat]. rewrite IHl by done.
      case_bool_decide as Hc.
      - rewrite bool_decide_false by (intros <-; done). rewrite bool_decide_true by set_solver.
        simpl. by rewrite Permutation_middle.
      - case_bool_decide as He.
        + rewrite bool_decide_true by set_solver. done.
        + rewrite bool_decide_false by set_solver. by rewrite <-app_assoc. }
    rewrite H by apply NoDup_seq. rewrite bool_decide_true, IH; [done|].
    apply elem_of_seq. pose proof (Nat.mod_upper_bound c k). lia.
Qed.

End AggFacts.

(** ** Properties *)
Module MuxThms.
Import Flow Agg Reas MuxFacts ReasInv AggFacts.

Lemma message_count cs data : (0 < cs)%nat → (length (message cs data) ≤ length data)%nat.
Proof. intros. by apply chunks_of_count. Qed.

Lemma message_fits cs data i c :
  Z.of_nat cs < 65536 → message cs data !! i = Some c → Z.of_nat (length c) < 2 ^ 16.
Proof. intros Hcs Hi%message_chunk_length. lia. Qed.

Lemma concat_take_prefix {A} (l : list (list A)) k : ∃ rest, concat l = concat (take k l) ++ rest.
Proof. exists (concat (drop k l)). by rewrite <-concat_app, take_drop. Qed.

(** C20: for a message of less than 4 GiB in chunks of at most 65535 bytes,
    whatever the network does to its frames — reorders them, repeats them,
    withholds some — and however [Push] and [Read] interleave, what [Read]
    has returned is a prefix of the message, EOF is reported only after the
    whole message, and [Push] never sends on the channel after it has been
    closed. *)
Theorem reassembly_prefix (sid data : bytes) (cs : nat) (fc : WindowFlowController) (r : Reassembler) (del : bytes) :
  length sid = 16%nat → 0 < Z.of_nat cs < 65536 → Z.of_nat (length data) < 2 ^ 32 →
  rtc (step (of_message sid (message cs data))) (NewReassembler fc, []) (r, del) →
  ∃ rest, data = del ++ rest ∧
    (∀ n, Read n r = ReadEOF → rest = []) ∧
    (∀ flags, pushing r = Some flags → push_iter flags r ≠ SendOnClosed).
Proof.
  intros Hsid Hcs Hlen Hr. pose proof (message_count cs data ltac:(lia)) as Hcnt.
  assert (inv (message cs data) (r, del)) as [Hch Hn Hd Hcd Hf].
  { eapply (inv_steps sid); [done| |lia|exact Hr|apply inv_init].
    intros i c Hi. eapply message_fits; [|done]. lia. }
  simpl in *. destruct (concat_take_prefix (message cs data) (Z.to_nat (nextSeq r))) as [rest Hrest].
  rewrite message_concat, <-Hd in Hrest by lia. rewrite <-!app_assoc in Hrest.
  eexists. split; [exact Hrest|]. split.
  - intros n E. unfold Read in E. destruct (pending r) eqn:Ep; [|done].
    destruct (output r) eqn:Eo; [|done]. destruct (isClosed r) eqn:Ec; [|done].
    rewrite Hcd in * by done. rewrite Nat2Z.id, firstn_all in Hd. simpl in *. rewrite app_nil_r in Hd.
    rewrite message_concat in Hd by lia. rewrite <-Hd in Hrest.
    by apply (app_inv_head del); rewrite app_nil_r.
  - intros flags Hp E. unfold push_iter in E. destruct (chunks r !! nextSeq r) as [c|] eqn:Ec; [|done].
    destruct (ShouldPause _); [done|]. destruct (isClosed r) eqn:Ecl; [|by repeat case_bool_decide].
    destruct (Hch _ _ Ec) as [_ Hl%lookup_lt_Some]. specialize (Hcd eq_refl). lia.
Qed.

Lemma fmap_Permutation_inv {A B} (f : A → B) l k :
  l ≡ₚ f <$> k → ∃ k', l = f <$> k' ∧ k' ≡ₚ k.
Proof.
  assert (∀ q : list A, map f q = f <$> q) as Hm by (induction q; simpl; by f_equal).
  rewrite <-Hm. intros (k' & -> & Hp)%Permutation_map_inv. exists k'. split; [apply Hm|by symmetry].
Qed.

(** Draining the reassembler returns everything that was delivered. *)
Lemma read_all_spec fuel n r :
  (0 < n)%nat → Forall (λ c, c ≠ []) (output r) →
  (length (pending r ++ concat (output r)) ≤ fuel)%nat →
  (read_all fuel n r).1 = pending r ++ concat (output r).
Proof.
  intros Hn. revert r. induction fuel as [|f IH]; intros r Ho Hf.
  { destruct (pending r ++ concat (output r)); [done|simpl in Hf; lia]. }
  cbn [read_all]. unfold Read. destruct (pending r) as [|x p] eqn:Ep.
  - destruct (output r) as [|c o] eqn:Eo; [by destruct (isClosed r)|].
    apply Forall_cons in Ho as [Hc Ho].
    match goal with |- context [read_all f n ?x] => set (r1 := x) end.
    assert (pending r1 ++ concat (output r1) = drop (length (take n c)) c ++ concat o) as Hp1.
    { simpl. case_bool_decide as Hb; [done|]. rewrite drop_ge by lia. done. }
    assert (length (take n c) ≠ 0%nat) by (rewrite length_take; destruct c; [done|simpl; lia]).
    specialize (IH r1). destruct (read_all f n r1) as [rest r2]. simpl in *.
    rewrite IH, Hp1; [by rewrite app_assoc, take_drop_length|done|]. rewrite Hp1. rewrite !length_app, length_drop in *.
    destruct c; [done|]. simpl in *. lia.
  - match goal with |- context [read_all f n ?x] => set (r1 := x) end.
    specialize (IH r1). destruct (read_all f n r1) as [rest r2]. simpl in *.
    assert (length (take n (x :: p)) ≠ 0%nat) by (rewrite length_take; simpl; lia).
    rewrite IH; [by rewrite app_assoc, take_drop_length|done|].
    rewrite !length_app, length_drop in *. simpl in *. lia.
Qed.

Lemma chunks_of_nonempty f cs data : (0 < cs)%nat → Forall (λ c, c ≠ []) (chunks_of f cs data).
Proof.
  intros Hcs. revert data. induction f as [|f IH]; intros [|x data]; simpl; auto.
  constructor; [|apply IH]. by destruct cs; [lia|].
Qed.

Lemma sum_chunks (cl : list bytes) :
  sum_list_with (λ i, length (default [] (cl !! i))) (seq 0 (length cl)) = length (concat cl).
Proof.
  induction cl as [|c cl IH] using rev_ind; [done|].
  rewrite length_app, Nat.add_1_r, seq_S, sum_list_with_app, concat_app, length_app. simpl. f_equal.
  - rewrite <-IH. clear IH. assert (∀ l, (∀ i, i ∈ l → (i < length cl)%nat) →
      sum_list_with (λ i, length (default [] ((cl ++ [c]) !! i))) l =
      sum_list_with (λ i, length (default [] (cl !! i))) l) as H.
    { induction l as [|i l IHl]; intros Hl; simpl; [done|].
      rewrite lookup_app_l by (apply Hl; set_solver). rewrite IHl by set_solver. done. }
    apply H. intros i. rewrite elem_of_seq. lia.
  - rewrite list_lookup_middle by done. by rewrite app_nil_r.
Qed.

Lemma last_frames sid cs data :
  message cs data ≠ [] →
  last (frames sid cs data) = Some (frame_of sid (message cs data) (length (message cs data) - 1)).
Proof.
  intros Hne. unfold frames. set (cl := message cs data) in *.
  assert (length cl ≠ 0%nat) by (by destruct cl). rewrite <-(Nat.sub_add 1 (length cl)) at 1 by lia.
  rewrite Nat.add_1_r, seq_S, fmap_app. apply last_snoc.
Qed.

(** A permutation of the indices ends in some index and does not repeat it. *)
Lemma permuted_snoc n ix :
  n ≠ 0%nat → ix ≡ₚ seq 0 n →
  ∃ ix0 i0, ix = ix0 ++ [i0] ∧ i0 ∉ ix0 ∧ ∀ i, i ∈ ix ↔ (i < n)%nat.
Proof.
  intros Hn Hix. assert (∀ i, i ∈ ix ↔ (i < n)%nat) as Hin by (intros i; rewrite Hix, elem_of_seq; lia).
  destruct ix as [|i0 ix0 _] using rev_ind; [apply Permutation_nil_l in Hix; by destruct n|].
  assert (NoDup (ix0 ++ [i0])) as Hnd by (rewrite Hix; apply NoDup_seq).
  apply NoDup_app in Hnd as (_ & Hnd & _). exists ix0, i0. split; [done|]. split; [|done].
  intros Hi. apply (Hnd i0 Hi). set_solver.
Qed.

(** Received in any order, with nobody reading yet. *)
Lemma push_permuted sid cs data w ds :
  length sid = 16%nat → 0 < Z.of_nat cs < 65536 → (length (message cs data) ≤ chan_cap)%nat →
  Z.of_nat (length data) < w → w < 2 ^ 63 → data ≠ [] → ds ≡ₚ frames sid cs data →
  ∃ r, push_all ds (NewReassembler (NewWindowFlowController w)) = Pushed r ∧
       output r = message cs data ∧ pending r = [] ∧
       (isClosed r = true ↔ last ds = last (frames sid cs data)).
Proof.
  intros Hsid Hcs Hcap Hw Hw' Hne Hp. set (cl := message cs data) in *.
  assert (Hfit : ∀ i c, cl !! i = Some c → Z.of_nat (length c) < 2 ^ 16)
    by (intros i c Hi; eapply message_fits; [|done]; lia).
  assert (Hcnt : Z.of_nat (length cl) < 2 ^ 32) by (unfold chan_cap in Hcap; lia).
  assert (length cl ≠ 0%nat) as Hcl0.
  { intros E%length_zero_iff_nil. apply Hne. rewrite <-(message_concat cs data) by lia. fold cl. by rewrite E. }
  assert (maxWindow (NewWindowFlowController w) = w) as Hmw
    by (simpl; by rewrite bool_decide_false by lia).
  pose proof (sum_chunks cl) as Hsum. unfold cl in Hsum at 3. rewrite message_concat in Hsum by lia.
  apply fmap_Permutation_inv in Hp as (ix & -> & Hix). fold cl in Hix |- *.
  destruct (permuted_snoc (length cl) ix Hcl0 Hix) as (ix0 & i0 & -> & Hnd & Hin).
  assert (sum_list_with (λ i, length (default [] (cl !! i))) (ix0 ++ [i0]) = length data) as Hsum'
    by (by rewrite Hix).
  rewrite sum_list_with_app in Hsum'. cbn [sum_list_with] in Hsum'.
  destruct (lookup_lt_is_Some_2 cl i0) as [c Hc]; [apply Hin; set_solver|].
  rewrite Hc in Hsum'. cbn [default from_option id] in Hsum'.
  destruct (push_all_spec sid cl Hsid Hfit Hcnt ix0 (NewReassembler (NewWindowFlowController w)))
    as (r1 & E1 & Hid1 & Hm1 & Hb1 & Hb1' & Hs1); try done.
  { apply idle_init. } { intros i Hi. apply Hin. set_solver. }
  { change (flowCtrl (NewReassembler ?x)) with x. rewrite Hmw. simpl buffered. lia. }
  { change (flowCtrl (NewReassembler ?x)) with x. rewrite Hmw. lia. }
  change (flowCtrl (NewReassembler ?x)) with x in *. rewrite Hmw in *. simpl buffered in Hb1'.
  destruct (Push_spec sid cl Hsid Hfit Hcnt r1 i0 c)
    as (r2 & E2 & Hid2 & Hm2 & Hb2 & Hb2' & Hs2 & Hclosed); try done; try lia.
  { apply Hin. set_solver. }
  exists r2. rewrite fmap_app, push_all_app, E1. cbn [fmap list_fmap push_all]. rewrite E2.
  assert (nextSeq r2 = Z.of_nat (length cl)) as Hnx.
  { eapply idle_seen_all; try done. intros i Hi%Hin. apply Hs2. rewrite Hs1. set_solver. }
  assert (¬ seen r1 i0) as Hns.
  { rewrite Hs1. unfold seen. simpl. rewrite lookup_empty.
    intros [[Hz|[? Hz]]|Hz]; [lia|done|done]. }
  destruct Hid2 as ((Hi2 & Hpe & Ho) & _). split; [done|].
  split; [by rewrite Ho, Hnx, Nat2Z.id, firstn_all|]. split; [done|].
  rewrite last_snoc, last_frames by (fold cl; by destruct cl). fold cl.
  rewrite Hclosed. split.
  - intros [Hcl1|(Hl & _)]; [|do 2 f_equal; lia]. exfalso. apply Hns. left.
    destruct Hid1 as ((Hi1 & _) & _). apply (inv_closed _ _ Hi1) in Hcl1. simpl in Hcl1. rewrite Hcl1.
    assert (i0 < length cl)%nat by (apply Hin; set_solver). lia.
  - intros [= He]. right. split; [|split; [done|]].
    + destruct (frame_of_parse sid cl Hsid Hfit Hcnt i0) as (? & _ & Hp1); [apply Hin; set_solver|].
      destruct (frame_of_parse sid cl Hsid Hfit Hcnt (length cl - 1)) as (? & _ & Hp2); [lia|].
      rewrite He, Hp2 in Hp1. simplify_eq. lia.
    + destruct (decide (nextSeq r1 ≤ Z.of_nat i0)); [done|]. exfalso. apply Hns. left. lia.
Qed.

Lemma Write_frames k sid cs data :
  (0 < k)%nat → (0 < cs)%nat → Z.of_nat (length (message cs data)) < 2 ^ 31 →
  let a := {| conns := replicate k open_sink; nextConn := 0; sessionID := sid; chunkSize := cs |} in
  ∃ a', Write a data = (Ok (length data), a') ∧
    conns a' = (λ j, {| written := share k 0 j (frames sid cs data); budget := None |}) <$> seq 0 k.
Proof.
  intros Hk Hcs Hm a.
  destruct (write_loop_spec (length data) a data 0) as (a' & E & Hl & Hj);
    [simpl; destruct k; [lia|done]|by apply Forall_replicate|done|done|done|
     unfold message in Hm; simpl; lia|done|unfold message in Hm; simpl; lia|].
  - exists a'. unfold Write. rewrite E. split; [done|]. simpl in Hl. rewrite length_replicate in Hl.
    apply list_eq. intros j. rewrite list_lookup_fmap. destruct (decide (j < k)%nat) as [Hjk|].
    + rewrite (Hj j open_sink) by (by apply lookup_replicate). rewrite lookup_seq_lt by done. simpl.
      by rewrite length_replicate, frames_eq.
    + rewrite lookup_ge_None_2 by lia. by rewrite lookup_seq_ge by lia.
Qed.

(** C7: aggregation is transparent for messages that fit.  Let a non-empty
    message be cut into at most 1024 chunks of at most 65535 bytes, smaller
    in all than the window.  Cut by [Aggregator.Write] over any number of
    healthy connections and received by [Reassembler.Push] in any order at
    all (the connections need not be synchronised) it is read back exactly,
    with read buffers of any size; [Write] reports the full length.  The
    reader sees EOF if and only if the frame that carries the FIN flag was
    the last one to arrive. *)
Theorem aggregate_roundtrip (k cs n : nat) (sid data : bytes) (w : Z) (ds : list bytes) :
  (0 < k)%nat → (0 < n)%nat → length sid = 16%nat → 0 < Z.of_nat cs < 65536 →
  (length (message cs data) ≤ chan_cap)%nat → data ≠ [] →
  Z.of_nat (length data) < w < 2 ^ 63 →
  ds ≡ₚ concat (written <$> conns (Write (NewAggregator (replicate k open_sink) sid (Z.of_nat cs)) data).2) →
  (Write (NewAggregator (replicate k open_sink) sid (Z.of_nat cs)) data).1 = Ok (length data) ∧
  ∃ r, push_all ds (NewReassembler (NewWindowFlowController w)) = Pushed r ∧
       (read_all (length data) n r).1 = data ∧
       (isClosed r = true ↔ last ds = last (frames sid cs data)).
Proof.
  intros Hk Hn Hsid Hcs Hcap Hne Hw Hp.
  assert (NewAggregator (replicate k open_sink) sid (Z.of_nat cs) =
          {| conns := replicate k open_sink; nextConn := 0; sessionID := sid; chunkSize := cs |}) as Ha.
  { unfold NewAggregator. by rewrite bool_decide_false, Nat2Z.id by lia. }
  rewrite Ha in *. destruct (Write_frames k sid cs data) as (a' & E & Hc); try lia.
  { unfold chan_cap in Hcap. lia. }
  rewrite E in Hp |- *. simpl in Hp |- *. split; [done|].
  rewrite Hc, <-list_fmap_compose in Hp. unfold compose in Hp. simpl in Hp.
  rewrite share_partition in Hp by done.
  destruct (push_permuted sid cs data w ds) as (r & Er & Ho & Hpe & Hcl); try done; try lia.
  exists r. split; [done|]. split; [|done]. rewrite read_all_spec; rewrite ?Ho, ?Hpe; try done.
  - by apply message_concat; lia.
  - apply chunks_of_nonempty. lia.
  - simpl. rewrite message_concat by lia. done.
Qed.

Lemma held_chunks_insert m k c : m !! k = None → held_chunks (<[k:=c]> m) = Z.of_nat (length c) + held_chunks m.
Proof. intros Hk. unfold held_chunks. rewrite map_fold_insert_L; [done|intros; lia|done]. Qed.

Lemma held_chunks_delete m k c : m !! k = Some c → held_chunks m = Z.of_nat (length c) + held_chunks (delete k m).
Proof. intros Hk. unfold held_chunks. rewrite (map_fold_delete_L _ _ k c m); [done|intros; lia|done]. Qed.

Lemma i64_sub_l a b : i64 (i64 a - b) = i64 (a - b).
Proof. rewrite <-!Z.add_opp_r. apply i64_add_l. Qed.

(** Flow-control accounting.  As long as no stored chunk is overwritten by
    a retransmission, the controller's [buffered] counter is the number of
    bytes the reassembler holds, after every prologue of [Push], every
    iteration of its loop and every [Read]. *)
Theorem flow_accounting (r : Reassembler) :
  buffered (flowCtrl r) = i64 (held r) →
  (∀ data seq fl c r', parse data = Ok (seq, fl, c) → chunks r !! seq = None →
     push_start data r = Ok r' → buffered (flowCtrl r') = i64 (held r')) ∧
  (∀ fl r', push_iter fl r = Next r' ∨ push_iter fl r = Stop r' → buffered (flowCtrl r') = i64 (held r')) ∧
  (∀ n got r', Read n r = ReadOk got r' → buffered (flowCtrl r') = i64 (held r')).
Proof.
  intros Hr. split; [|split].
  - intros data seq fl c r' Hp Hk E. unfold push_start in E. rewrite Hp in E. simpl in E.
    case_bool_decide; simplify_eq; [done|]. unfold held. simpl. rewrite held_chunks_insert, Hr by done.
    rewrite i64_add_l. f_equal. unfold held. lia.
  - intros fl r' E. unfold push_iter in E. destruct (chunks r !! nextSeq r) as [c|] eqn:Ec;
      [|destruct E; simplify_eq; done].
    destruct (ShouldPause _); [destruct E; simplify_eq; done|].
    destruct (isClosed r); [by destruct E|]. case_bool_decide; [by destruct E|].
    assert (∀ fc oc, buffered (flowCtrl r) = i64 (held
      {| chunks := delete (nextSeq r) (chunks r); nextSeq := u32 (nextSeq r + 1); isClosed := fc;
         output := output r ++ [c]; flowCtrl := flowCtrl r; pending := pending r; pushing := oc |})) as H'.
    { intros fc oc. rewrite Hr. f_equal. unfold held. simpl.
      rewrite (held_chunks_delete _ _ _ Ec), concat_app, length_app. simpl. rewrite app_nil_r. lia. }
    case_bool_decide; destruct E; simplify_eq; apply H'.
  - intros n got r' E. unfold Read in E. destruct (pending r) as [|x p] eqn:Ep.
    + destruct (output r) as [|c o] eqn:Eo; [by destruct (isClosed r)|]. simplify_eq. unfold held in *.
      simpl in *. rewrite Hr, i64_sub_l, Ep, Eo. f_equal. simpl. rewrite length_app.
      case_bool_decide; rewrite ?length_drop, ?length_take in *; simpl; lia.
    + simplify_eq. unfold held in *. simpl in *. rewrite Hr, i64_sub_l, Ep. f_equal.
      rewrite length_drop, length_take. simpl. lia.
Qed.

(** A window that is too small stalls for ever.  A chunk at least as large
    as the flow-control window is accepted, but the pause test that follows
    its own accounting keeps it out of the channel, so [Read] blocks and can
    never lower the counter again. *)
Theorem window_stall (data c : bytes) (seq w : Z) (fl : byte) (n : nat) :
  parse data = Ok (seq, fl, c) → 0 ≤ seq → 0 < w ≤ Z.of_nat (length c) → Z.of_nat (length c) < 2 ^ 63 →
  ∃ r, Push data (NewReassembler (NewWindowFlowController w)) = Pushed r ∧
       chunks r !! seq = Some c ∧ Read n r = ReadBlocked.
Proof.
  intros Hp Hq Hw Hc. unfold Push, push_start. rewrite Hp. cbn [res_bind].
  rewrite bool_decide_false by (simpl; lia). cbn [pushing].
  match goal with |- context [push_loop _ _ ?x] => set (r1 := x) end.
  assert (push_iter fl r1 = Stop (stop r1)) as E.
  { unfold push_iter. destruct (chunks r1 !! nextSeq r1) as [c'|]; [|done].
    assert (ShouldPause (flowCtrl r1) = true) as ->; [|done].
    unfold ShouldPause. apply bool_decide_eq_true_2. simpl. rewrite bool_decide_false by lia.
    rewrite i64_id by lia. lia. }
  cbn [push_loop]. rewrite E. eexists. split; [done|]. split; [|done]. simpl. by rewrite lookup_insert_eq.
Qed.

Lemma window_stall_witness :
  ∃ r, Push (frame (replicate 16 Byte.x00) 0 Byte.x01 ("0123456789" : bytes))
         (NewReassembler (NewWindowFlowController 10)) = Pushed r ∧
       chunks r !! 0 = Some ("0123456789" : bytes) ∧ Read 5 r = ReadBlocked.
Proof. apply (window_stall _ _ 0 10 Byte.x01 5); [reflexivity|lia|simpl; lia|simpl; lia]. Defined.

(** One reassembler carries one message.  [Aggregator.Write] numbers the
    frames of every call from zero, so once a message has been delivered and
    the channel closed, the frames of a second message are dropped without an
    error as long as they are no more than the first had, and the next one is
    sent on the closed channel, which panics. *)
Theorem second_message (r : Reassembler) (sid c : bytes) (i : nat) (fl : byte) :
  isClosed r = true → pushing r = None → length sid = 16%nat → Z.of_nat (length c) < 2 ^ 16 →
  Z.of_nat i < 2 ^ 32 →
  ShouldPause (OnBuffered (Z.of_nat (length c)) (flowCtrl r)) = false →
  (Z.of_nat i < nextSeq r → Push (frame sid (Z.of_nat i) fl c) r = Pushed r) ∧
  (Z.of_nat i = nextSeq r → Push (frame sid (Z.of_nat i) fl c) r = PushPanic).
Proof.
  intros Hcl Hpu Hsid Hc Hi Hw. unfold Push, push_start. rewrite parse_frame by (done || lia). cbn [res_bind].
  split; intros Hn; [by rewrite bool_decide_true, Hpu|].
  rewrite bool_decide_false by lia. cbn [pushing push_loop]. unfold push_iter. cbn [chunks nextSeq flowCtrl isClosed].
  by rewrite <-Hn, lookup_insert_eq, Hw, Hcl.
Qed.

Definition after_first : Reassembler :=
  match push_all (frames (replicate 16 Byte.x00) 4 ("first msg" : bytes))
          (NewReassembler (NewWindowFlowController 1000)) with
  | Pushed r => r
  | _ => NewReassembler (NewWindowFlowController 1000)
  end.

Lemma second_message_witness :
  nextSeq after_first = 3 ∧
  Push (frame (replicate 16 Byte.x00) 0 Byte.x00 ("seco" : bytes)) after_first = Pushed after_first ∧
  Push (frame (replicate 16 Byte.x00) 3 Byte.x01 ("!" : bytes)) after_first = PushPanic.
Proof.
  split; [vm_compute; reflexivity|]. split.
  - apply (second_message after_first (replicate 16 Byte.x00) ("seco" : bytes) 0 Byte.x00);
      vm_compute; reflexivity.
  - apply (second_message after_first (replicate 16 Byte.x00) ("!" : bytes) 3 Byte.x01);
      vm_compute; reflexivity.
Defined.

Lemma message_single cs data : data ≠ [] → (length data ≤ cs)%nat → message cs data = [data].
Proof.
  intros Hne Hl. unfold message. destruct data as [|x data]; [done|]. cbn [length chunks_of].
  rewrite take_ge, drop_ge by done. by destruct (length data).
Qed.

Lemma parse_frame_overflow sid seq flags chunk :
  length sid = 16%nat → 0 ≤ seq < 2 ^ 32 → Z.of_nat (length chunk) = 65536 →
  parse (frame sid seq flags chunk) = Ok (seq, flags, []).
Proof.
  intros Hs Hq Hc. pose proof (parse_frame sid seq flags [] Hs Hq ltac:(simpl; lia)) as H.
  revert H. unfold frame. rewrite Hc. change (u16 65536) with 0. change (u16 (Z.of_nat (length []))) with 0.
  rewrite app_nil_r. set (hd := sid ++ be_put 4 seq ++ be_put 2 0 ++ [flags; Byte.x00]).
  replace (sid ++ be_put 4 seq ++ be_put 2 0 ++ [flags; Byte.x00] ++ chunk) with (hd ++ chunk)
    by (unfold hd; by rewrite <-!app_assoc).
  assert (length hd = 24%nat) as Hh by (unfold hd; len). clearbody hd.
  unfold parse. rewrite length_app, Hh, !bool_decide_false, !slice_ok by len. cbn [res_bind].
  unfold index. rewrite lookup_app_l by lia.
  destruct (lookup_lt_is_Some_2 hd 22) as [b ->]; [lia|]. cbn [res_bind].
  rewrite !drop_app_le, !take_app_le by len. case_bool_decide as Hb1; [done|].
  rewrite slice_ok by lia. cbn [res_bind]. intros [= <- <- He]. rewrite bool_decide_false by lia.
  rewrite slice_ok by len. cbn [res_bind]. f_equal. f_equal.
  apply (f_equal length) in He. rewrite length_take, length_drop in He. simpl in He.
  replace (24 + _ - 24)%nat with 0%nat by lia. done.
Qed.

Lemma Push_empty_fin data w :
  parse data = Ok (0, Byte.x01, []) → 0 < w < 2 ^ 63 →
  ∃ r, Push data (NewReassembler (NewWindowFlowController w)) = Pushed r ∧
       isClosed r = true ∧ output r = [[]] ∧ pending r = [].
Proof.
  intros Hp Hw. unfold Push, push_start. rewrite Hp. cbn [res_bind]. rewrite bool_decide_false by (simpl; lia).
  cbn [pushing push_loop]. unfold push_iter at 1. cbn [chunks nextSeq flowCtrl isClosed output NewReassembler].
  rewrite lookup_insert_eq. unfold ShouldPause. cbn [maxWindow buffered OnBuffered NewWindowFlowController].
  rewrite (bool_decide_false (w ≤ 0)) by lia. change (i64 (0 + Z.of_nat (length []))) with 0.
  rewrite (bool_decide_false (w ≤ 0)) by lia. rewrite (bool_decide_false (chan_cap ≤ _)%nat) by (unfold chan_cap; simpl; lia).
  rewrite delete_insert_id by done. rewrite bool_decide_true by done. by eexists.
Qed.

(** The default chunk size loses data.  [NewAggregator] falls back to
    chunks of 65536 bytes, a size the 16-bit length field of the frame cannot
    hold: a message of exactly one such chunk is written without an error and
    received as an empty message followed by EOF. *)
Theorem default_chunk_lost (sid data : bytes) (w : Z) (n : nat) :
  length sid = 16%nat → Z.of_nat (length data) = 65536 → 0 < w < 2 ^ 63 →
  let '(result, a') := Write (NewAggregator [open_sink] sid 0) data in
  result = Ok (length data) ∧
  ∃ r, push_all (concat (written <$> conns a')) (NewReassembler (NewWindowFlowController w)) = Pushed r ∧
       isClosed r = true ∧ (read_all (length data) n r).1 = [].
Proof.
  intros Hsid Hlen Hw.
  assert (NewAggregator [open_sink] sid 0 = {| conns := replicate 1 open_sink; nextConn := 0;
            sessionID := sid; chunkSize := length data |}) as ->.
  { unfold NewAggregator. rewrite bool_decide_true by lia. simpl. f_equal. lia. }
  assert (data ≠ []) as Hne by (by destruct data).
  pose proof (message_single (length data) data Hne ltac:(lia)) as Hm.
  destruct (Write_frames 1 sid (length data) data) as (a' & -> & Hc); [lia|lia|rewrite Hm; simpl; lia|].
  split; [done|]. rewrite Hc. unfold frames. rewrite Hm. cbn -[Push read_all frame_of].
  rewrite bool_decide_true, !app_nil_r by done. cbn [push_all].
  change (frame_of sid [data] 0) with (frame sid 0 Byte.x01 data).
  destruct (Push_empty_fin (frame sid 0 Byte.x01 data) w) as (r & -> & Hcl & Ho & Hpe);
    [by apply parse_frame_overflow; [|lia|]|done|].
  exists r. split; [done|]. split; [done|].
  destruct (length data) as [|[|m]]; [lia|lia|]. cbn [read_all]. unfold Read at 1. rewrite Hpe, Ho, take_nil.
  cbn [length Nat.ltb]. rewrite bool_decide_false by lia. unfold Read. cbn. by rewrite Hcl.
Qed.

(** ** Concrete instances *)

Definition sid0 : bytes := replicate 16 Byte.x2a.

Definition hello : bytes := "hello, world!".

Definition sent_hello : list bytes :=
  concat (written <$> conns (Write (NewAggregator (replicate 2 open_sink) sid0 5) hello).2).

Lemma aggregate_roundtrip_witness :
  (Write (NewAggregator (replicate 2 open_sink) sid0 5) hello).1 = Ok 13%nat ∧
  ∃ r, push_all (rev sent_hello) (NewReassembler (NewWindowFlowController 100)) = Pushed r ∧
       (read_all 13 3 r).1 = hello ∧
       (isClosed r = true ↔ last (rev sent_hello) = last (frames sid0 5 hello)).
Proof.
  apply (aggregate_roundtrip 2 5 3 sid0 hello 100 (rev sent_hello));
    [lia|lia|reflexivity|lia|unfold chan_cap; vm_compute; lia|done|simpl; lia|].
  symmetry. apply Permutation_rev.
Defined.

Definition reas_opt (o : res Reassembler) : Reassembler :=
  match o with Ok r => r | _ => NewReassembler (NewWindowFlowController 0) end.

Definition next_opt (o : iter) : Reassembler :=
  match o with Next r => r | _ => NewReassembler (NewWindowFlowController 0) end.

Definition run1 : Reassembler :=
  reas_opt (push_start (frame_of sid0 (message 5 hello) 0) (NewReassembler (NewWindowFlowController 100))).

Definition run2 : Reassembler := next_opt (push_iter Byte.x00 run1).

Definition run3 : Reassembler :=
  match Read 3 run2 with ReadOk _ r => r | _ => run2 end.

Lemma reassembly_prefix_witness :
  ∃ rest, hello = ("hel" : bytes) ++ rest ∧
    (∀ n, Read n run3 = ReadEOF → rest = []) ∧
    (∀ flags, pushing run3 = Some flags → push_iter flags run3 ≠ SendOnClosed).
Proof.
  apply (reassembly_prefix sid0 hello 5 (NewWindowFlowController 100));
    [reflexivity|lia|simpl; lia|].
  eapply rtc_l; [apply (step_push _ (frame_of sid0 (message 5 hello) 0) _ run1 []);
                 [exists 0%nat; split; [vm_compute; lia|reflexivity]|reflexivity|vm_compute; reflexivity]|].
  eapply rtc_l; [apply (step_next _ Byte.x00 run1 run2 []); vm_compute; reflexivity|].
  eapply rtc_l; [apply (step_read _ 3 ("hel" : bytes) run2 run3 []); vm_compute; reflexivity|].
  apply rtc_refl.
Defined.

Lemma flow_accounting_witness :
  push_iter Byte.x00 run1 = Next run2 ∧ buffered (flowCtrl run2) = i64 (held run2).
Proof.
  assert (push_iter Byte.x00 run1 = Next run2) as E by (vm_compute; reflexivity).
  split; [exact E|].
  refine (proj1 (proj2 (flow_accounting run1 _)) Byte.x00 run2 (or_introl E)). vm_compute. reflexivity.
Defined.

Lemma default_chunk_lost_witness :
  let data := replicate (Z.to_nat 65536) Byte.x41 in
  let '(result, a') := Write (NewAggregator [open_sink] sid0 0) data in
  result = Ok (length data) ∧
  ∃ r, push_all (concat (written <$> conns a')) (NewReassembler (NewWindowFlowController 100000)) = Pushed r ∧
       isClosed r = true ∧ (read_all (length data) 4 r).1 = [].
Proof.
  apply (default_chunk_lost sid0 (replicate (Z.to_nat 65536) Byte.x41) 100000 4);
    [reflexivity|rewrite length_replicate, Z2Nat.id; lia|lia].
Defined.

End MuxThms.
