(* ===== verification/NPChain.v ===== *)
(** * The NP-Chain wire protocol: [internal/protocol/npchain]

    [EncodeHeader] writes the header a client sends to the first node of a
    chain; [DecodeNextHop] is run by every node: it takes the next hop off the
    header and returns the header to forward.  The decoder works on any
    [io.Reader]; the random choices of the encoder (padding length, padding
    bytes, a fresh session id) are its argument [rnd]. *)

From S2P Require Import Prelude GoNet Stream Types.

Definition Magic : Z := 0x4E504332.
Definition Version : byte := Byte.x01.
Definition HopEntrySize : nat := 34.
Definition FlagTCP : Z := 0x00.
Definition FlagUDP : Z := 0x01.
Definition FlagPad : Z := 0x80.

Record Header := {
  hVersion : byte; hNHops : byte; hFlags : byte; hPadLen : byte; hSessionID : bytes }.

Record HopEntry := { eType : byte; ePort : Z; eAddrLen : byte; eAddress : bytes }.

(** What [EncodeHeader] draws: one byte for the padding length, the padding
    itself, and the 16 bytes of [uuid.New] when the session id is no UUID. *)
Record rnd := { rnd_len : byte; rnd_pad : nat → byte; rnd_uuid : nat → byte }.

Section encode.
Context `{UUID}.

(** The wire form of an entry: Type(1) Port(2) AddrLen(1) Address(30). *)
Definition write_entry (e : HopEntry) : bytes :=
  [eType e] ++ be_put 2 (ePort e) ++ [eAddrLen e] ++ eAddress e.

(** The body of the loop over the hop chain. *)
Definition encode_hop (hop : bytes) : res bytes :=
  match SplitHostPort hop with
  | Ok (host, portStr) =>
      let port := (Atoi portStr).1 in
      let '(ty, addrBytes) :=
        match ParseIP host with
        | Some ip =>
            match To4 ip with
            | Some ip4 => (Byte.x01, ip4)
            | None => (Byte.x02, default [] (To16 ip))
            end
        | None => (Byte.x03, host)
        end in
      let addrLen := if bool_decide (30 < length addrBytes)%nat then 30%nat else length addrBytes in
      let! a := slice addrBytes 0 addrLen in
      Ok (write_entry {| eType := ty; ePort := u16 port; eAddrLen := z2b (Z.of_nat addrLen);
                         eAddress := copy_into (replicate 30 Byte.x00) a |})
  | Fail _ => Fail (Errorf "invalid hop address")
  | Panic => Panic
  end.

Fixpoint encode_hops (hops : list bytes) : res bytes :=
  match hops with
  | [] => Ok []
  | h :: r => let! e := encode_hop h in let! es := encode_hops r in Ok (e ++ es)
  end.

Definition flags_of (meta : SessionMeta) : Z :=
  let flags := if bool_decide (Network meta = ("udp" : bytes)) then FlagUDP else FlagTCP in
  if bool_decide (ID meta = []) then flags else Z.lor flags FlagPad.

Definition pad_len (g : rnd) (meta : SessionMeta) : nat :=
  if bool_decide (ID meta = []) then 0%nat else Z.to_nat (Z.rem (b2z (rnd_len g)) 64).

Definition session_bytes (g : rnd) (meta : SessionMeta) : bytes :=
  match uuid_Parse (ID meta) with
  | Some id => id
  | None => rnd_uuid g <$> seq 0 16
  end.

Definition padding (g : rnd) (meta : SessionMeta) : bytes := rnd_pad g <$> seq 0 (pad_len g meta).

(** The fixed part: Magic(4) Version(1) NHops(1) Flags(1) PadLen(1) SessionID(16). *)
Definition write_header (h : Header) : bytes :=
  be_put 4 Magic ++ [hVersion h; hNHops h; hFlags h; hPadLen h] ++ hSessionID h.

Definition EncodeHeader (g : rnd) (meta : SessionMeta) : res bytes :=
  let fixed := write_header
    {| hVersion := Version; hNHops := z2b (Z.of_nat (length (HopChain meta)));
       hFlags := z2b (flags_of meta); hPadLen := z2b (Z.of_nat (pad_len g meta));
       hSessionID := session_bytes g meta |} in
  let! hops := encode_hops (HopChain meta) in
  Ok (fixed ++ hops ++ padding g meta).

End encode.

(** ** Decoding *)

Record hop_result := {
  nextHop : bytes; sessionID : bytes; network : bytes; remainingHeader : bytes;
  hopErr : option goerr }.

Definition hop_fail (next sid net : bytes) (e : goerr) : res hop_result :=
  Ok {| nextHop := next; sessionID := sid; network := net; remainingHeader := []; hopErr := Some e |}.

Section decode.
Context `{UUID} `{GoReader R}.

(** [binary.Read] of an [n]-byte unsigned integer: the variable keeps its
    zero value when the bytes cannot be read. *)
Definition read_uint (n : nat) (r : R) : Z * option goerr * R :=
  let '(got, e, r') := io_ReadFull n r in
  (match e with None => be_get got | Some _ => 0 end, e, r').

(** The next hop's address. *)
Definition entry_host (e : HopEntry) : res bytes :=
  if bool_decide (eType e = Byte.x01) then let! a := slice (eAddress e) 0 4 in Ok (IPString a)
  else if bool_decide (eType e = Byte.x02) then let! a := slice (eAddress e) 0 16 in Ok (IPString a)
  else if bool_decide (eType e = Byte.x03) then slice (eAddress e) 0 (Z.to_nat (b2z (eAddrLen e)))
  else Fail (Errorf "unknown address type").

(** From the padding on: strip it, then rebuild the header for the next node. *)
Definition decode_rest (h : Header) (next sid net : bytes) (r : R) : res hop_result * R :=
  let '(ep, r1) :=
    if bool_decide (Z.land (b2z (hFlags h)) FlagPad ≠ 0 ∧ 0 < b2z (hPadLen h))
    then let '(_, e, r') := io_ReadFull (Z.to_nat (b2z (hPadLen h))) r in (e, r')
    else (None, r) in
  match ep with
  | Some e => (hop_fail next sid net e, r1)
  | None =>
      let fixed := write_header
        {| hVersion := hVersion h; hNHops := z2b (b2z (hNHops h) - 1); hFlags := hFlags h;
           hPadLen := hPadLen h; hSessionID := hSessionID h |} in
      let done_ (rem : bytes) : res hop_result :=
        Ok {| nextHop := next; sessionID := sid; network := net; remainingHeader := rem; hopErr := None |} in
      if bool_decide (1 < b2z (hNHops h)) then
        let '(hops, e, r2) := io_ReadFull (Z.to_nat (u8 (b2z (hNHops h) - 1)) * HopEntrySize) r1 in
        match e with
        | Some e => (hop_fail next sid net e, r2)
        | None => (done_ (fixed ++ hops), r2)
        end
      else (done_ fixed, r1)
  end.

(** The hop entry, once the fixed header is read. *)
Definition decode_entry (h : Header) (sid net : bytes) (r : R) : res hop_result * R :=
  let '(ty, e1, r1) := read_uint 1 r in
  match e1 with Some e => (hop_fail [] sid net e, r1) | None =>
  let '(port, e2, r2) := read_uint 2 r1 in
  match e2 with Some e => (hop_fail [] sid net e, r2) | None =>
  let '(alen, e3, r3) := read_uint 1 r2 in
  match e3 with Some e => (hop_fail [] sid net e, r3) | None =>
  if bool_decide (30 < alen)
  then (hop_fail [] sid net (Errorf "malformed packet: AddrLen exceeds maximum"), r3)
  else
    let '(addr, e4, r4) := io_ReadFull 30 r3 in
    match e4 with Some e => (hop_fail [] sid net e, r4) | None =>
    match entry_host {| eType := z2b ty; ePort := port; eAddrLen := z2b alen; eAddress := addr |} with
    | Panic => (Panic, r4)
    | Fail e => (hop_fail [] sid net e, r4)
    | Ok host => decode_rest h (JoinHostPort host (Itoa port)) sid net r4
    end end end end end.

Definition DecodeNextHop (r : R) : res hop_result * R :=
  let '(magic, e0, r0) := read_uint 4 r in
  match e0 with Some e => (hop_fail [] [] [] e, r0) | None =>
  if bool_decide (magic ≠ Magic) then (hop_fail [] [] [] (Errorf "invalid magic"), r0)
  else
    let '(ver, _, r1) := read_uint 1 r0 in
    let '(nhops, _, r2) := read_uint 1 r1 in
    let '(flags, _, r3) := read_uint 1 r2 in
    let '(plen, _, r4) := read_uint 1 r3 in
    let '(sid, e5, r5) := io_ReadFull 16 r4 in
    match e5 with Some e => (hop_fail [] [] [] e, r5) | None =>
    let h := {| hVersion := z2b ver; hNHops := z2b nhops; hFlags := z2b flags;
                hPadLen := z2b plen; hSessionID := sid |} in
    let session := uuid_String sid in
    let net := if bool_decide (Z.land flags FlagUDP ≠ 0) then ("udp" : bytes) else ("tcp" : bytes) in
    if bool_decide (nhops = 0) then (hop_fail [] session net (Errorf "no more hops"), r5)
    else decode_entry h session net r5
    end
  end.

End decode.

(** ** Datagrams: SessionID(16) Payload *)

Section datagrams.
Context `{UUID}.

Definition PackDatagram (sid payload : bytes) : res bytes :=
  match uuid_Parse sid with
  | None => Fail (Errorf "invalid UUID")
  | Some id =>
      let res0 := replicate (16 + length payload) Byte.x00 in
      let res1 := copy_into (take 16 res0) id ++ drop 16 res0 in
      Ok (take 16 res1 ++ copy_into (drop 16 res1) payload)
  end.

Definition UnpackDatagram (data : bytes) : res (bytes * bytes) :=
  if bool_decide (length data < 16)%nat then Fail (Errorf "datagram too short")
  else
    let! id := slice data 0 16 in
    let! payload := slice_from data 16 in
    Ok (uuid_String id, payload).

End datagrams.

(** ** A node of the chain: [internal/inbound/npchain.go]

    [HandleRelay] decodes the header and either dials the target itself (the
    last node) or hands the connection to the router's outbound for the next
    node and writes the remaining header first.  [obfuscated] is the test
    that decides whether the connection is wrapped in an [ObfsConn]; the
    reader [r] is then the wrapped one. *)

Definition obfuscated (type_ : bytes) (interval : Z) : bool :=
  bool_decide (type_ = ("padding" : bytes) ∨ 0 < interval).

Inductive relay_action :=
| RelayDrop (e : goerr)
| RelayEgress (net target : bytes)
| RelayNext (meta : SessionMeta) (header : bytes).

Definition HandleRelay `{UUID} `{GoReader R} (r : R) : res relay_action * R :=
  match DecodeNextHop r with
  | (Ok d, r') =>
      match hopErr d with
      | Some e => (Ok (RelayDrop e), r')
      | None =>
          (let! nHopsLeft := index (remainingHeader d) 5 in
           if bool_decide (nHopsLeft = Byte.x00) then
             Ok (RelayEgress (if bool_decide (network d = []) then ("tcp" : bytes) else network d) (nextHop d))
           else
             Ok (RelayNext
               {| ID := sessionID d; TraceID := []; UserID := []; Source := None; Target := nextHop d;
                  Network := network d; HopChain := []; RouteTags := ∅; CreatedAt := 0 |}
               (remainingHeader d)), r')
      end
  | (Fail e, r') => (Fail e, r')
  | (Panic, r') => (Panic, r')
  end.

(** The journey of a byte stream along a chain of nodes whose routers reach
    the next node directly: each node sees the forwarded header followed by
    whatever it did not consume.  [journey] returns the hops taken, and what
    the last node sends to the target. *)
Inductive arrival := Arrived (net target payload : bytes) | Lost (e : goerr) | Crashed.

Fixpoint journey `{UUID} (fuel : nat) (data : bytes) : list bytes * arrival :=
  match fuel with
  | O => ([], Lost ErrTimeout)
  | S f =>
      match HandleRelay (mk_stream data EOF) with
      | (Ok (RelayEgress net target), r') => ([], Arrived net target (stream_bytes r'))
      | (Ok (RelayNext meta header), r') =>
          let '(hops, a) := journey f (header ++ stream_bytes r') in (Target meta :: hops, a)
      | (Ok (RelayDrop e), _) | (Fail e, _) => ([], Lost e)
      | (Panic, _) => ([], Crashed)
      end
  end.

(** Hop addresses that the 30-byte address field carries faithfully: an IP
    address in the form [net.IP.String] prints, or a name of at most 30
    bytes. *)
Definition good_host (host : bytes) : bool :=
  bool_decide (lbrack ∉ host ∧ rbrack ∉ host) &&
  match ParseIP host with
  | Some ip => bool_decide (IPString ip = host)
  | None => bool_decide (length host ≤ 30)%nat
  end.

Definition good_hop (hop : bytes) : Prop :=
  ∃ host port, hop = JoinHostPort host (Itoa port) ∧ good_host host = true ∧ 0 ≤ port < 65536.


(** ** Facts *)
Module NPFacts.

Lemma be_get_1 x : be_get [x] = b2z x.
Proof. reflexivity. Qed.

Lemma be_get_put_port p : 0 ≤ p < 65536 → be_get (be_put 2 p) = p.
Proof. intros. rewrite be_get_put. apply Z.mod_small. lia. Qed.

Section facts.
Context `{UUID} `{ReaderSpec R}.

Lemma read_uint_app n (r : R) a b :
  rd_ok r → rd_bytes r = a ++ b → length a = n →
  ∃ r', read_uint n r = (be_get a, None, r') ∧ rd_ok r' ∧ rd_bytes r' = b ∧ rd_err r' = rd_err r.
Proof.
  intros Hok Hb <-. unfold read_uint. destruct (io_ReadFull_app r a b Hok Hb) as (r' & -> & ?). eauto.
Qed.

Lemma read_byte_app (r : R) x b :
  rd_ok r → rd_bytes r = x :: b →
  ∃ r', read_uint 1 r = (b2z x, None, r') ∧ rd_ok r' ∧ rd_bytes r' = b ∧ rd_err r' = rd_err r.
Proof. intros Hok Hb. by apply (read_uint_app 1 r [x] b). Qed.

Lemma io_ReadFull_exact n (r : R) a b :
  rd_ok r → rd_bytes r = a ++ b → length a = n →
  ∃ r', io_ReadFull n r = (a, None, r') ∧ rd_ok r' ∧ rd_bytes r' = b ∧ rd_err r' = rd_err r.
Proof. intros Hok Hb <-. by apply io_ReadFull_app. Qed.

Definition net_of (flags : Z) : bytes :=
  if bool_decide (Z.land flags FlagUDP ≠ 0) then ("udp" : bytes) else ("tcp" : bytes).

(** The fixed header. *)
Lemma decode_header (r : R) h rest :
  rd_ok r → length (hSessionID h) = 16%nat → rd_bytes r = write_header h ++ rest →
  ∃ r', rd_ok r' ∧ rd_bytes r' = rest ∧ rd_err r' = rd_err r ∧
    DecodeNextHop r =
      if bool_decide (b2z (hNHops h) = 0)
      then (hop_fail [] (uuid_String (hSessionID h)) (net_of (b2z (hFlags h))) (Errorf "no more hops"), r')
      else decode_entry h (uuid_String (hSessionID h)) (net_of (b2z (hFlags h))) r'.
Proof.
  intros Hok Hsid Hb. unfold write_header in Hb. rewrite <-!app_assoc in Hb.
  destruct (read_uint_app 4 r _ _ Hok Hb (length_be_put _ _)) as (r0 & E0 & Hok0 & Hb0 & He0).
  rewrite be_get_put in E0. change (Magic mod _) with Magic in E0. simpl in Hb0.
  destruct (read_byte_app r0 _ _ Hok0 Hb0) as (r1 & E1 & Hok1 & Hb1 & He1).
  destruct (read_byte_app r1 _ _ Hok1 Hb1) as (r2 & E2 & Hok2 & Hb2 & He2).
  destruct (read_byte_app r2 _ _ Hok2 Hb2) as (r3 & E3 & Hok3 & Hb3 & He3).
  destruct (read_byte_app r3 _ _ Hok3 Hb3) as (r4 & E4 & Hok4 & Hb4 & He4).
  destruct (io_ReadFull_exact 16 r4 _ _ Hok4 Hb4 Hsid) as (r5 & E5 & Hok5 & Hb5 & He5).
  exists r5. split; [done|]. split; [done|]. split; [congruence|].
  unfold DecodeNextHop. rewrite E0, bool_decide_false by (intros []; done).
  rewrite E1, E2, E3, E4, E5, !z2b_b2z. by destruct h.
Qed.

(** One hop entry. *)
Lemma decode_hop (r : R) h sid net e host rest :
  rd_ok r → length (eAddress e) = 30%nat → b2z (eAddrLen e) ≤ 30 → 0 ≤ ePort e < 65536 →
  entry_host e = Ok host → rd_bytes r = write_entry e ++ rest →
  ∃ r', rd_ok r' ∧ rd_bytes r' = rest ∧ rd_err r' = rd_err r ∧
    decode_entry h sid net r = decode_rest h (JoinHostPort host (Itoa (ePort e))) sid net r'.
Proof.
  intros Hok Hl Ha Hp Hh Hb. unfold write_entry in Hb. rewrite <-!app_assoc in Hb.
  destruct (read_byte_app r _ _ Hok Hb) as (r1 & E1 & Hok1 & Hb1 & He1).
  destruct (read_uint_app 2 r1 _ _ Hok1 Hb1 (length_be_put _ _)) as (r2 & E2 & Hok2 & Hb2 & He2).
  rewrite be_get_put_port in E2 by done.
  destruct (read_byte_app r2 _ _ Hok2 Hb2) as (r3 & E3 & Hok3 & Hb3 & He3).
  destruct (io_ReadFull_exact 30 r3 _ _ Hok3 Hb3 Hl) as (r4 & E4 & Hok4 & Hb4 & He4).
  exists r4. split; [done|]. split; [done|]. split; [congruence|].
  unfold decode_entry. rewrite E1, E2, E3, bool_decide_false by lia. rewrite E4, !z2b_b2z.
  destruct e as [ty p al ad]. simpl in *. by rewrite Hh.
Qed.

Definition next_header (h : Header) : Header :=
  {| hVersion := hVersion h; hNHops := z2b (b2z (hNHops h) - 1); hFlags := hFlags h;
     hPadLen := hPadLen h; hSessionID := hSessionID h |}.

(** The number of padding bytes a node strips. *)
Definition stripped (h : Header) : nat :=
  if bool_decide (Z.land (b2z (hFlags h)) FlagPad ≠ 0) then Z.to_nat (b2z (hPadLen h)) else 0%nat.

Lemma decode_tail (r : R) h next sid net pad hops rest :
  rd_ok r → 0 < b2z (hNHops h) → length pad = stripped h →
  length hops = (Z.to_nat (b2z (hNHops h) - 1) * 34)%nat →
  rd_bytes r = pad ++ hops ++ rest →
  ∃ r', rd_ok r' ∧ rd_bytes r' = rest ∧ rd_err r' = rd_err r ∧
    decode_rest h next sid net r =
      (Ok {| nextHop := next; sessionID := sid; network := net;
             remainingHeader := write_header (next_header h) ++ hops; hopErr := None |}, r').
Proof.
  intros Hok Hn Hpad Hhops Hb. pose proof (b2z_range (hNHops h)) as Hr.
  assert (∃ r1, rd_ok r1 ∧ rd_bytes r1 = hops ++ rest ∧ rd_err r1 = rd_err r ∧
    (if bool_decide (Z.land (b2z (hFlags h)) FlagPad ≠ 0 ∧ 0 < b2z (hPadLen h))
     then let '(_, e, r') := io_ReadFull (Z.to_nat (b2z (hPadLen h))) r in (e, r')
     else (None, r)) = (None, r1)) as (r1 & Hok1 & Hb1 & He1 & E1).
  { unfold stripped in Hpad.
    destruct (decide (Z.land (b2z (hFlags h)) FlagPad ≠ 0 ∧ 0 < b2z (hPadLen h))) as [Hc|Hc].
    - rewrite (bool_decide_true (_ ∧ _)) by done. rewrite bool_decide_true in Hpad by apply Hc.
      destruct (io_ReadFull_exact _ r _ _ Hok Hb Hpad) as (r1 & -> & ?). naive_solver.
    - rewrite (bool_decide_false (_ ∧ _)) by done. exists r.
      destruct pad as [|x pad]; [done|]. exfalso. apply Hc. case_bool_decide; simpl in Hpad; lia. }
  unfold decode_rest. rewrite E1. clear E1. case_bool_decide as Hgt.
  - unfold u8. rewrite Z.mod_small by lia.
    destruct (io_ReadFull_exact _ r1 _ _ Hok1 Hb1 Hhops) as (r2 & E2 & Hok2 & Hb2 & He2).
    change HopEntrySize with 34%nat. rewrite E2.
    exists r2. rewrite He2. done.
  - exists r1. replace (b2z (hNHops h) - 1) with 0 in Hhops by lia.
    destruct hops; [|done]. rewrite app_nil_r. done.
Qed.

(** What an entry must satisfy to stand for a hop. *)
Definition entry_for (hop : bytes) (e : HopEntry) : Prop :=
  length (eAddress e) = 30%nat ∧ b2z (eAddrLen e) ≤ 30 ∧ 0 ≤ ePort e < 65536 ∧
  ∃ host, entry_host e = Ok host ∧ hop = JoinHostPort host (Itoa (ePort e)).

Lemma length_write_entry hop e : entry_for hop e → length (write_entry e) = 34%nat.
Proof. intros (Hl & _). unfold write_entry. len. Qed.

#[local] Opaque write_entry write_header.

Lemma length_entries hops es :
  Forall2 entry_for hops es → length (concat (write_entry <$> es)) = (length es * 34)%nat.
Proof.
  induction 1 as [|hop e hops es He Hes IH]; [done|].
  rewrite fmap_cons. cbn [concat length]. rewrite length_app, (length_write_entry _ _ He), IH. lia.
Qed.

(** A node takes the first entry off the header. *)
Lemma decode_node (r : R) h hop hops e es pad rest :
  rd_ok r → length (hSessionID h) = 16%nat → b2z (hNHops h) = Z.of_nat (S (length es)) →
  entry_for hop e → Forall2 entry_for hops es → length pad = stripped h →
  rd_bytes r = write_header h ++ write_entry e ++ pad ++ concat (write_entry <$> es) ++ rest →
  ∃ r', rd_ok r' ∧ rd_bytes r' = rest ∧ rd_err r' = rd_err r ∧
    DecodeNextHop r =
      (Ok {| nextHop := hop; sessionID := uuid_String (hSessionID h); network := net_of (b2z (hFlags h));
             remainingHeader := write_header (next_header h) ++ concat (write_entry <$> es);
             hopErr := None |}, r').
Proof.
  intros Hok Hsid Hn (Hl & Ha & Hp & host & Hh & ->) Hes Hpad Hb.
  destruct (decode_header r h _ Hok Hsid Hb) as (r1 & Hok1 & Hb1 & He1 & E1).
  rewrite bool_decide_false in E1 by lia.
  destruct (decode_hop r1 h (uuid_String (hSessionID h)) (net_of (b2z (hFlags h))) e host _ Hok1 Hl Ha Hp Hh Hb1)
    as (r2 & Hok2 & Hb2 & He2 & E2).
  destruct (decode_tail r2 h (JoinHostPort host (Itoa (ePort e))) (uuid_String (hSessionID h))
    (net_of (b2z (hFlags h))) pad (concat (write_entry <$> es)) rest) as (r3 & Hok3 & Hb3 & He3 & E3); try done.
  { lia. }
  { rewrite (length_entries _ _ Hes), Hn. f_equal. lia. }
  exists r3. rewrite E1, E2, E3. repeat split; congruence.
Qed.

End facts.

Lemma copy_into_take dst src :
  (length src ≤ length dst)%nat → copy_into dst src = src ++ drop (length src) dst.
Proof. intros Hl. unfold copy_into. by rewrite take_ge. Qed.

(** The encoder's entry stands for the hop it was made from. *)
Lemma encode_hop_good hop : good_hop hop → ∃ e, encode_hop hop = Ok (write_entry e) ∧ entry_for hop e.
Proof.
  intros (host & port & -> & Hg & Hp). unfold good_host in Hg.
  apply andb_true_iff in Hg as [Hbr%bool_decide_eq_true Hg]. destruct Hbr as [Hlb Hrb].
  unfold encode_hop. rewrite SplitHostPort_JoinHostPort by (first [done | apply Itoa_not_in; [lia|done]]).
  rewrite Atoi_Itoa by lia. cbn [fst].
  assert (∀ ty (a : bytes), (length a ≤ 30)%nat →
    (∀ al ad, b2z al = Z.of_nat (length a) → ad = a ++ drop (length a) (replicate 30 Byte.x00) →
       entry_host {| eType := ty; ePort := port; eAddrLen := al; eAddress := ad |} = Ok host) →
    ∃ e, (let addrLen := if bool_decide (30 < length a)%nat then 30%nat else length a in
          let! a0 := slice a 0 addrLen in
          Ok (write_entry {| eType := ty; ePort := u16 port; eAddrLen := z2b (Z.of_nat addrLen);
                             eAddress := copy_into (replicate 30 Byte.x00) a0 |})) = Ok (write_entry e) ∧
         entry_for (JoinHostPort host (Itoa port)) e) as Hmk.
  { intros ty a Hla Hh. cbn zeta. rewrite bool_decide_false by lia. rewrite slice_ok by lia. cbn [res_bind].
    rewrite drop_0, Nat.sub_0_r, take_ge, copy_into_take, u16_id by (rewrite ?length_replicate; lia).
    eexists. split; [done|]. unfold entry_for. cbn.
    rewrite b2z_z2b, Z.mod_small by lia. split; [len|]. split; [lia|]. split; [done|].
    exists host. split; [|done]. apply Hh; [by rewrite b2z_z2b, Z.mod_small by lia|done]. }
  destruct (ParseIP host) as [ip|] eqn:Eip.
  - apply bool_decide_eq_true in Hg. pose proof (ParseIP_length _ _ Eip) as Hip.
    destruct (To4 ip) as [ip4|] eqn:E4.
    + pose proof (To4_length _ _ E4) as H4. apply Hmk; [lia|]. intros al ad Hal ->.
      unfold entry_host. cbn. rewrite slice_ok by len. rewrite drop_0, take_app_le by lia. rewrite take_ge by lia.
      cbn. by rewrite <-(IPString_To4 _ _ E4), Hg.
    + rewrite To16_id by done. change (default [] (Some ip)) with ip. apply Hmk; [lia|]. intros al ad Hal ->.
      unfold entry_host. cbn [eType eAddress]. rewrite !bool_decide_false, bool_decide_true by done.
      rewrite slice_ok by len. rewrite drop_0, take_app_le by lia. rewrite take_ge by lia.
      cbn. by rewrite Hg.
  - apply bool_decide_eq_true in Hg. apply Hmk; [done|]. intros al ad Hal ->.
    unfold entry_host. cbn [eType eAddress eAddrLen]. rewrite !bool_decide_false, bool_decide_true by done.
    rewrite Hal, Nat2Z.id, slice_ok by len. by rewrite drop_0, Nat.sub_0_r, take_app_length.
Qed.

Lemma encode_hops_good hops :
  Forall good_hop hops →
  ∃ es, encode_hops hops = Ok (concat (write_entry <$> es)) ∧ Forall2 entry_for hops es.
Proof.
  induction 1 as [|hop hops Hh Hhs IH]; [exists []; done|].
  destruct (encode_hop_good hop Hh) as (e & E & He). destruct IH as (es & Es & Hes).
  exists (e :: es). simpl. rewrite E, Es. simpl. split; [done|by constructor].
Qed.

Lemma pad_len_small g meta : Z.of_nat (pad_len g meta) < 64.
Proof.
  unfold pad_len. case_bool_decide; [done|]. pose proof (b2z_range (rnd_len g)).
  rewrite Z.rem_mod_nonneg by lia. pose proof (Z.mod_pos_bound (b2z (rnd_len g)) 64). lia.
Qed.

Lemma flags_pad meta : Z.land (b2z (z2b (flags_of meta))) FlagPad ≠ 0 ↔ ID meta ≠ [].
Proof. unfold flags_of. repeat case_bool_decide; split; intros Hf; vm_compute in Hf |- *; try done; by destruct Hf. Qed.

Lemma flags_udp meta :
  net_of (b2z (z2b (flags_of meta))) =
  if bool_decide (Network meta = ("udp" : bytes)) then ("udp" : bytes) else ("tcp" : bytes).
Proof. unfold flags_of. destruct (bool_decide (Network meta = _)); case_bool_decide; reflexivity. Qed.

(** The header [EncodeHeader] writes. *)
Definition header_of `{UUID} (g : rnd) (meta : SessionMeta) : Header :=
  {| hVersion := Version; hNHops := z2b (Z.of_nat (length (HopChain meta)));
     hFlags := z2b (flags_of meta); hPadLen := z2b (Z.of_nat (pad_len g meta));
     hSessionID := session_bytes g meta |}.

Lemma stripped_header `{UUID} g meta : stripped (header_of g meta) = pad_len g meta.
Proof.
  unfold stripped, header_of. cbn [hFlags hPadLen]. pose proof (pad_len_small g meta).
  rewrite (b2z_z2b (Z.of_nat _)), Z.mod_small, Nat2Z.id by lia.
  case_bool_decide as Hf; [done|]. unfold pad_len. rewrite bool_decide_true; [done|].
  apply dec_stable. intros Hid%flags_pad. by rewrite Hf in Hid.
Qed.

Lemma length_session `{UUIDLaws} g meta : length (session_bytes g meta) = 16%nat.
Proof. unfold session_bytes. destruct (uuid_Parse (ID meta)) eqn:E; [by eapply uuid_Parse_length|done]. Qed.

End NPFacts.

(** ** Theorems *)
Module NPThms.
Import NPFacts.

Section thms.
Context `{UUIDLaws}.

Lemma EncodeHeader_good g meta es :
  encode_hops (HopChain meta) = Ok (concat (write_entry <$> es)) →
  EncodeHeader g meta =
    Ok (write_header (header_of g meta) ++ concat (write_entry <$> es) ++ padding g meta).
Proof. intros E. unfold EncodeHeader. by rewrite E. Qed.

Lemma length_padding g meta : length (padding g meta) = pad_len g meta.
Proof. unfold padding. by rewrite length_fmap, length_seq. Qed.

Lemma next_header_of g meta hop hops :
  HopChain meta = hop :: hops → Z.of_nat (length hops) < 255 →
  next_header (header_of g meta) = header_of g (with_HopChain meta hops).
Proof.
  intros Hc Hl. unfold next_header, header_of. cbn. rewrite Hc. f_equal.
  rewrite b2z_z2b, Z.mod_small by len. f_equal. len.
Qed.

(** Decoding at the reader [r] a header the encoder wrote. *)
Lemma decode_encoded `{ReaderSpec R} (r : R) g meta hop hops rest :
  HopChain meta = hop :: hops → Forall good_hop (hop :: hops) → Z.of_nat (length hops) < 255 →
  hops = [] ∨ pad_len g meta = 0%nat → rd_ok r →
  ∃ hdr es, EncodeHeader g meta = Ok hdr ∧ encode_hops hops = Ok (concat (write_entry <$> es)) ∧
    (rd_bytes r = hdr ++ rest →
     ∃ r', rd_ok r' ∧ rd_bytes r' = rest ∧ rd_err r' = rd_err r ∧
       DecodeNextHop r =
         (Ok {| nextHop := hop; sessionID := uuid_String (session_bytes g meta);
                network := if bool_decide (Network meta = ("udp" : bytes)) then ("udp" : bytes) else ("tcp" : bytes);
                remainingHeader := write_header (header_of g (with_HopChain meta hops)) ++
                                   concat (write_entry <$> es);
                hopErr := None |}, r')).
Proof.
  intros Hc Hg Hl Hp Hok. inversion Hg as [|?? Hg1 Hg2]; subst.
  destruct (encode_hop_good hop Hg1) as (e & E & He). destruct (encode_hops_good hops Hg2) as (es & Es & Hes).
  pose proof (Forall2_length _ _ _ Hes) as Hlen.
  exists (write_header (header_of g meta) ++ concat (write_entry <$> (e :: es)) ++ padding g meta), es.
  split; [apply EncodeHeader_good; rewrite Hc; simpl; by rewrite E, Es|]. split; [done|]. intros Hb.
  destruct (decode_node r (header_of g meta) hop hops e es (padding g meta) rest)
    as (r' & Hok' & Hb' & He' & E'); try done.
  - apply length_session.
  - unfold header_of. cbn [hNHops]. rewrite b2z_z2b, Hc, Z.mod_small; len.
  - by rewrite length_padding, stripped_header.
  - rewrite Hb, fmap_cons. cbn [concat]. rewrite <-!app_assoc. do 2 f_equal.
    destruct Hp as [->|Hp]; [by apply Forall2_nil_inv_l in Hes as ->|].
    pose proof (length_padding g meta) as Hpl. rewrite Hp in Hpl. by destruct (padding g meta).
  - exists r'. split; [done|]. split; [done|]. split; [done|].
    rewrite E', (next_header_of g meta hop hops) by done. unfold header_of at 1 2. cbn [hFlags hSessionID].
    by rewrite flags_udp.
Qed.

(** C4: a chain header survives the wire.  Whatever reader the node decodes
    from (a connection in any segmentation, a buffered one, ...), the decoder
    returns the first hop, the session id and the network the client encoded,
    leaves the reader exactly behind the header, and the header it forwards
    is the one the client would have written for the rest of the chain.  The
    chain has at most 255 hops with good addresses, and is a single hop or
    drew no padding. *)
Theorem decode_encode `{ReaderSpec R} (r : R) (g : rnd) (meta : SessionMeta) (hop : bytes)
    (hops : list bytes) (hdr rest : bytes) :
  HopChain meta = hop :: hops → Forall good_hop (hop :: hops) → Z.of_nat (length hops) < 255 →
  hops = [] ∨ pad_len g meta = 0%nat →
  EncodeHeader g meta = Ok hdr → rd_ok r → rd_bytes r = hdr ++ rest →
  ∃ d r', DecodeNextHop r = (Ok d, r') ∧ rd_ok r' ∧ rd_bytes r' = rest ∧
    nextHop d = hop ∧ hopErr d = None ∧
    uuid_Parse (sessionID d) = Some (session_bytes g meta) ∧
    network d = (if bool_decide (Network meta = ("udp" : bytes)) then ("udp" : bytes) else ("tcp" : bytes)) ∧
    EncodeHeader g (with_HopChain meta hops) = Ok (remainingHeader d ++ padding g meta).
Proof.
  intros Hc Hg Hl Hp Henc Hok Hb.
  destruct (decode_encoded r g meta hop hops rest Hc Hg Hl Hp Hok) as (hdr' & es & Henc' & Hes & Hd).
  rewrite Henc in Henc'. simplify_eq. destruct (Hd Hb) as (r' & Hok' & Hb' & He' & E').
  eexists _, r'. rewrite E'. split; [done|]. split; [done|]. split; [done|]. cbn.
  split; [done|]. split; [done|]. split; [apply uuid_Parse_String, length_session|]. split; [done|].
  rewrite (EncodeHeader_good g (with_HopChain meta hops) es) by done. by rewrite <-app_assoc.
Qed.

(** The byte [HandleRelay] looks at is the hop counter. *)
Lemma index_nhops h rest : index (write_header h ++ rest) 5 = Ok (hNHops h).
Proof. reflexivity. Qed.

Lemma nhops_zero n : Z.of_nat n < 256 → z2b (Z.of_nat n) = Byte.x00 ↔ n = 0%nat.
Proof.
  intros Hn. split; [|by intros ->]. intros E%(f_equal b2z).
  rewrite b2z_z2b, Z.mod_small in E by lia. change (b2z Byte.x00) with 0 in E. lia.
Qed.

(** One node: egress for a single hop, relay otherwise. *)
Lemma HandleRelay_encoded g meta hop hops hdr payload :
  HopChain meta = hop :: hops → Forall good_hop (hop :: hops) → Z.of_nat (length hops) < 255 →
  hops = [] ∨ pad_len g meta = 0%nat → EncodeHeader g meta = Ok hdr →
  let net := if bool_decide (Network meta = ("udp" : bytes)) then ("udp" : bytes) else ("tcp" : bytes) in
  ∃ r', stream_bytes r' = payload ∧
    HandleRelay (mk_stream (hdr ++ payload) EOF) =
      (Ok (match hops with
           | [] => RelayEgress net hop
           | _ :: _ => RelayNext
               {| ID := uuid_String (session_bytes g meta); TraceID := []; UserID := []; Source := None;
                  Target := hop; Network := net; HopChain := []; RouteTags := ∅; CreatedAt := 0 |}
               (match EncodeHeader g (with_HopChain meta hops) with Ok b => b | _ => [] end)
           end), r').
Proof.
  intros Hc Hg Hl Hp Henc net. destruct (mk_stream_ok (hdr ++ payload) EOF) as (Hok & Hb & _).
  destruct (decode_encoded _ g meta hop hops payload Hc Hg Hl Hp Hok) as (hdr' & es & Henc' & Hes & Hd).
  rewrite Henc in Henc'. simplify_eq. destruct (Hd Hb) as (r' & _ & Hb' & _ & E'). exists r'.
  split; [done|]. unfold HandleRelay. rewrite E'. cbn [hopErr remainingHeader network nextHop sessionID].
  rewrite index_nhops. cbn [res_bind header_of hNHops with_HopChain HopChain].
  destruct hops as [|h2 hops].
  - rewrite bool_decide_true by done. rewrite bool_decide_false; [done|]. by case_bool_decide.
  - rewrite bool_decide_false by (rewrite nhops_zero; [done|len]).
    rewrite (EncodeHeader_good g (with_HopChain meta (h2 :: hops)) es) by done.
    destruct Hp as [?|Hp]; [done|]. pose proof (length_padding g (with_HopChain meta (h2 :: hops))) as Hpl.
    change (pad_len g (with_HopChain meta (h2 :: hops))) with (pad_len g meta) in Hpl. rewrite Hp in Hpl.
    destruct (padding g (with_HopChain meta (h2 :: hops))); [|done]. by rewrite app_nil_r.
Qed.

(** The induction behind the theorem below. *)
Lemma journey_deliver (g : rnd) (meta : SessionMeta) (hops : list bytes) (target hdr payload : bytes) :
  HopChain meta = hops ++ [target] → Forall good_hop (HopChain meta) → Z.of_nat (length hops) < 255 →
  hops = [] ∨ pad_len g meta = 0%nat → EncodeHeader g meta = Ok hdr →
  journey (S (length hops)) (hdr ++ payload) =
    (hops, Arrived (if bool_decide (Network meta = ("udp" : bytes)) then ("udp" : bytes) else ("tcp" : bytes))
             target payload).
Proof.
  revert meta hdr. induction hops as [|hop hops IH]; intros meta hdr Hc Hg Hl Hp Henc; rewrite Hc in Hg.
  - destruct (HandleRelay_encoded g meta target [] hdr payload Hc Hg Hl Hp Henc) as (r' & Hb & E).
    cbn [journey length]. rewrite E, Hb. done.
  - assert (Z.of_nat (length (hops ++ [target])) < 255) as Hl' by len.
    assert (hops ++ [target] = [] ∨ pad_len g meta = 0%nat) as Hp' by naive_solver.
    destruct (HandleRelay_encoded g meta hop (hops ++ [target]) hdr payload Hc Hg Hl' Hp' Henc) as (r' & Hb & E).
    assert (Forall good_hop (hops ++ [target])) as Hg2 by (by inversion Hg).
    destruct (encode_hops_good (hops ++ [target]) Hg2) as (es & Es & _).
    pose proof (EncodeHeader_good g (with_HopChain meta (hops ++ [target])) es Es) as Eh.
    cbn [length]. set (f := S (length hops)). cbn [journey].
    rewrite E. destruct (hops ++ [target]) as [|h2 rest] eqn:Ehops.
    { by destruct hops. }
    rewrite Eh, Hb. cbn [Target]. unfold f.
    rewrite (IH (with_HopChain meta (h2 :: rest))); [done|by rewrite <-Ehops|done|len|naive_solver|done].
Qed.

(** C1: source routing works, for headers as the nodes process them.  Take a
    chain of at most 255 hops the header can carry, of one node or written
    without padding, and hand what [HandleRelay] of one node sends on to the
    next one: a stream that starts with the header the client wrote for the
    chain visits exactly the hops in order, and the last node dials the
    chain's final element on the client's network and forwards exactly the
    client's payload, nothing of the header left in front of it. *)
Theorem journey_chain (g : rnd) (meta : SessionMeta) (hops : list bytes) (target hdr payload : bytes) :
  HopChain meta = hops ++ [target] → Forall good_hop (HopChain meta) → Z.of_nat (length hops) < 255 →
  hops = [] ∨ pad_len g meta = 0%nat → EncodeHeader g meta = Ok hdr →
  journey (S (length hops)) (hdr ++ payload) =
    (hops, Arrived (if bool_decide (Network meta = ("udp" : bytes)) then ("udp" : bytes) else ("tcp" : bytes))
             target payload).
Proof. apply journey_deliver. Qed.

Lemma entry_host_safe e :
  length (eAddress e) = 30%nat → b2z (eAddrLen e) ≤ 30 → entry_host e ≠ Panic.
Proof.
  intros Hl Ha. unfold entry_host. pose proof (b2z_range (eAddrLen e)).
  repeat case_bool_decide; try done; by rewrite slice_ok by lia.
Qed.

End thms.

Section robust.
Context `{UUID} `{ReadBounded R}.

Lemma read_uint_range n (r : R) z e r' : read_uint n r = (z, e, r') → 0 ≤ z < 256 ^ Z.of_nat n.
Proof.
  unfold read_uint. destruct (io_ReadFull n r) as [[got e1] r1] eqn:E. intros [= <- -> <-].
  destruct e; [lia|]. rewrite <-(io_ReadFull_length _ _ _ _ E). apply be_get_range.
Qed.

(** What the decoder may answer for a header [h]. *)
Definition sane (h : Header) (o : res hop_result) : Prop :=
  ∃ d, o = Ok d ∧
    (hopErr d = None → ∃ hops, remainingHeader d = write_header (next_header h) ++ hops ∧
                               length hops = (34 * Z.to_nat (b2z (hNHops h) - 1))%nat).

Lemma sane_fail h next sid net e : sane h (hop_fail next sid net e).
Proof. eexists. split; [done|]. done. Qed.

Lemma decode_rest_sane h next sid net (r : R) :
  0 < b2z (hNHops h) → sane h (decode_rest h next sid net r).1.
Proof.
  intros Hn. pose proof (b2z_range (hNHops h)). unfold decode_rest.
  destruct (if bool_decide _ then _ else (None, r)) as [[e|] r1]; [apply sane_fail|].
  case_bool_decide as Hgt.
  - destruct (io_ReadFull _ r1) as [[hops [e|]] r2] eqn:E; [apply sane_fail|].
    apply io_ReadFull_length in E. eexists. split; [done|]. intros _. exists hops. split; [done|].
    unfold u8, HopEntrySize in E. rewrite Z.mod_small in E by lia. lia.
  - eexists. split; [done|]. intros _. exists []. split; [by rewrite app_nil_r|].
    replace (b2z (hNHops h) - 1) with 0 by lia. done.
Qed.

Lemma decode_entry_sane h sid net (r : R) : 0 < b2z (hNHops h) → sane h (decode_entry h sid net r).1.
Proof.
  intros Hn. unfold decode_entry.
  destruct (read_uint 1 r) as [[ty [e|]] r1]; [apply sane_fail|].
  destruct (read_uint 2 r1) as [[p [e|]] r2]; [apply sane_fail|].
  destruct (read_uint 1 r2) as [[al [e|]] r3] eqn:E3; [apply sane_fail|].
  case_bool_decide as Hal; [apply sane_fail|].
  destruct (io_ReadFull 30 r3) as [[ad [e|]] r4] eqn:E4; [apply sane_fail|].
  apply read_uint_range in E3. apply io_ReadFull_length in E4.
  destruct (entry_host _) as [host|e|] eqn:Eh.
  - by apply decode_rest_sane.
  - apply sane_fail.
  - exfalso. revert Eh. apply entry_host_safe; cbn [eAddress eAddrLen]; [done|].
    rewrite b2z_z2b, Z.mod_small; lia.
Qed.

(** On any reader, whatever errors it returns, [DecodeNextHop] returns without
    an out-of-range access, and a header it forwards has its exact size. *)
Lemma decode_safe (r : R) :
  ∃ d r', DecodeNextHop r = (Ok d, r') ∧
    (hopErr d = None → ∃ n : nat, Z.of_nat n < 255 ∧ length (remainingHeader d) = (24 + 34 * n)%nat ∧
       remainingHeader d !! 5%nat = Some (z2b (Z.of_nat n))).
Proof.
  unfold DecodeNextHop.
  destruct (read_uint 4 r) as [[m [e|]] r0]; [do 2 eexists; split; done|].
  case_bool_decide; [do 2 eexists; split; done|].
  destruct (read_uint 1 r0) as [[v e1] r1]. destruct (read_uint 1 r1) as [[nh e2] r2] eqn:E2.
  destruct (read_uint 1 r2) as [[fl e3] r3]. destruct (read_uint 1 r3) as [[pl e4] r4].
  destruct (io_ReadFull 16 r4) as [[sid [e|]] r5] eqn:E5; [do 2 eexists; split; done|].
  case_bool_decide as H0'; [do 2 eexists; split; done|].
  apply read_uint_range in E2. apply io_ReadFull_length in E5.
  match goal with |- context [decode_entry ?h ?s ?n r5] =>
    destruct (decode_entry_sane h s n r5) as (d & Ed & Hd); [|destruct (decode_entry h s n r5) as [o r6]] end.
  { cbn [hNHops]. rewrite b2z_z2b, Z.mod_small; lia. }
  simpl in Ed. subst o. exists d, r6. split; [done|]. intros Herr.
  destruct (Hd Herr) as (hops & -> & Hl). cbn [hNHops] in Hl. rewrite b2z_z2b, Z.mod_small in Hl by lia.
  exists (Z.to_nat (nh - 1)). split; [lia|]. split.
  - rewrite length_app, Hl. unfold write_header. cbn [next_header hSessionID]. len.
  - cbn. rewrite b2z_z2b, Z.mod_small by lia. f_equal. f_equal. lia.
Qed.

End robust.

Section exact.
Context `{UUID} `{ReaderSpec R}.

Lemma read_uint_inv n (r : R) z e r' :
  rd_ok r → read_uint n r = (z, e, r') →
  rd_ok r' ∧ match e with
             | None => ∃ got, rd_bytes r = got ++ rd_bytes r' ∧ length got = n ∧ z = be_get got
             | Some _ => rd_bytes r' = []
             end.
Proof.
  intros Hok. unfold read_uint. destruct (io_ReadFull n r) as [[got e1] r1] eqn:E. intros [= <- -> <-].
  destruct (io_ReadFull_inv _ _ _ _ _ Hok E) as (Hok1 & Hb & He). split; [done|]. destruct e; [done|]. eauto.
Qed.

(** A byte whose error is dropped was there when something follows it. *)
Lemma read_byte_inv (r : R) z e r' :
  rd_ok r → read_uint 1 r = (z, e, r') →
  rd_ok r' ∧ (rd_bytes r' ≠ [] → ∃ b, rd_bytes r = b :: rd_bytes r' ∧ z = b2z b).
Proof.
  intros Hok E. destruct (read_uint_inv _ _ _ _ _ Hok E) as [Hok1 He]. split; [done|]. intros Hne.
  destruct e; [done|]. destruct He as ([|b [|b' l]] & Hb & Hl & ->); [done| |done]. exists b. by rewrite be_get_1.
Qed.

(** What [decode_rest] has consumed, when it accepts. *)
Lemma decode_rest_inv h next sid net (r r' : R) d :
  rd_ok r → 0 < b2z (hNHops h) → decode_rest h next sid net r = (Ok d, r') → hopErr d = None →
  ∃ pad hops, rd_bytes r = pad ++ hops ++ rd_bytes r' ∧ rd_ok r' ∧
    length pad = (if bool_decide (Z.land (b2z (hFlags h)) FlagPad ≠ 0) then Z.to_nat (b2z (hPadLen h)) else 0%nat) ∧
    length hops = (34 * Z.to_nat (b2z (hNHops h) - 1))%nat ∧
    d = {| nextHop := next; sessionID := sid; network := net;
           remainingHeader := write_header (next_header h) ++ hops; hopErr := None |}.
Proof.
  intros Hok Hn Hd Herr. pose proof (b2z_range (hNHops h)) as Hr. pose proof (b2z_range (hPadLen h)) as Hp. unfold decode_rest in Hd.
  destruct (if bool_decide _ then _ else (None, r)) as [ep r1] eqn:E1. destruct ep as [e|]; [injection Hd as <- _; done|].
  assert (∃ pad, rd_bytes r = pad ++ rd_bytes r1 ∧ rd_ok r1 ∧
    length pad = (if bool_decide (Z.land (b2z (hFlags h)) FlagPad ≠ 0) then Z.to_nat (b2z (hPadLen h)) else 0%nat)) as (pad & Hb1 & Hok1 & Hl1).
  { destruct (decide (Z.land (b2z (hFlags h)) FlagPad ≠ 0 ∧ 0 < b2z (hPadLen h))) as [Hc|Hc];
      [rewrite bool_decide_true in E1 by done|rewrite bool_decide_false in E1 by done].
    - destruct (io_ReadFull _ r) as [[got e] r0] eqn:E. injection E1 as -> ->.
      destruct (io_ReadFull_inv _ _ _ _ _ Hok E) as (Ho & Hb & Hl). exists got. by rewrite bool_decide_true by tauto.
    - injection E1 as <-. exists []. split; [done|]. split; [done|].
      clear Hd. case_bool_decide; [|done]. assert (¬ 0 < b2z (hPadLen h)) by tauto. cbn. lia. }
  destruct (decide (1 < b2z (hNHops h))) as [Hgt|Hgt]; [rewrite bool_decide_true in Hd by done|rewrite bool_decide_false in Hd by done].
  - destruct (io_ReadFull _ r1) as [[hops [e|]] r2] eqn:E; [injection Hd as <- _; done|]. injection Hd as <- <-.
    destruct (io_ReadFull_inv _ _ _ _ _ Hok1 E) as (Ho & Hb & Hl). exists pad, hops. split; [by rewrite Hb1, Hb|].
    do 2 (split; [done|]). split; [|done]. unfold u8, HopEntrySize in Hl. rewrite Z.mod_small in Hl by lia. lia.
  - injection Hd as <- <-. exists pad, []. split; [done|]. do 2 (split; [done|]). split; [cbn; lia|]. by rewrite app_nil_r.
Qed.

(** The same for [decode_entry]. *)
Lemma decode_entry_inv h sid net (r r' : R) d :
  rd_ok r → 0 < b2z (hNHops h) → decode_entry h sid net r = (Ok d, r') → hopErr d = None →
  ∃ e host pad hops, rd_bytes r = write_entry e ++ pad ++ hops ++ rd_bytes r' ∧ rd_ok r' ∧
    length (eAddress e) = 30%nat ∧ entry_host e = Ok host ∧
    length pad = (if bool_decide (Z.land (b2z (hFlags h)) FlagPad ≠ 0) then Z.to_nat (b2z (hPadLen h)) else 0%nat) ∧
    length hops = (34 * Z.to_nat (b2z (hNHops h) - 1))%nat ∧
    d = {| nextHop := JoinHostPort host (Itoa (ePort e)); sessionID := sid; network := net;
           remainingHeader := write_header (next_header h) ++ hops; hopErr := None |}.
Proof.
  intros Hok Hn Hd Herr. unfold decode_entry in Hd.
  destruct (read_uint 1 r) as [[ty [e|]] r1] eqn:E1; [injection Hd as <- _; done|].
  destruct (read_uint_inv _ _ _ _ _ Hok E1) as (Hok1 & [|t [|? ?]] & Hb1 & Hl1 & ->); [done| |done].
  destruct (read_uint 2 r1) as [[p [e|]] r2] eqn:E2; [injection Hd as <- _; done|].
  destruct (read_uint_inv _ _ _ _ _ Hok1 E2) as (Hok2 & pb & Hb2 & Hl2 & ->).
  destruct (read_uint 1 r2) as [[al [e|]] r3] eqn:E3; [injection Hd as <- _; done|].
  destruct (read_uint_inv _ _ _ _ _ Hok2 E3) as (Hok3 & [|l [|? ?]] & Hb3 & Hl3 & ->); [done| |done].
  rewrite !be_get_1, !z2b_b2z in Hd. case_bool_decide; [injection Hd as <- _; done|].
  destruct (io_ReadFull 30 r3) as [[ad [e|]] r4] eqn:E4; [injection Hd as <- _; done|].
  destruct (io_ReadFull_inv _ _ _ _ _ Hok3 E4) as (Hok4 & Hb4 & Hl4).
  destruct (entry_host _) as [host|e|] eqn:Eh; [|injection Hd as <- _; done|done].
  destruct (decode_rest_inv _ _ _ _ _ _ _ Hok4 Hn Hd Herr) as (pad & hops & Hb5 & Hok5 & Hp & Hh & ->).
  exists {| eType := t; ePort := be_get pb; eAddrLen := l; eAddress := ad |}, host, pad, hops.
  split; [|split; [done|split; [exact Hl4|split; [exact Eh|done]]]].
  unfold write_entry. cbn [eType ePort eAddrLen eAddress]. rewrite (be_put_get' 2) by done.
  rewrite Hb1, Hb2, Hb3, Hb4, Hb5, <-!app_assoc. done.
Qed.

(** C22: decoding is robust and exact.  On any reader, whatever bytes and
    errors it delivers, [DecodeNextHop] returns a result and accesses nothing
    out of range.  When it accepts what a byte stream delivers, it has
    consumed exactly a header with at least one hop, the first entry, as much
    padding as the header announces and the remaining entries; the hop it
    returns is the first entry, and it forwards the same header with the hop
    count one lower, followed by exactly the remaining entries. *)
Theorem decode_robust `{!ReadBounded R} (r : R) :
  ∃ d r', DecodeNextHop r = (Ok d, r') ∧
    (rd_ok r → hopErr d = None →
     ∃ h e host pad hops, rd_bytes r = write_header h ++ write_entry e ++ pad ++ hops ++ rd_bytes r' ∧ rd_ok r' ∧
       length (hSessionID h) = 16%nat ∧ length (eAddress e) = 30%nat ∧ 0 < b2z (hNHops h) ∧
       length pad = (if bool_decide (Z.land (b2z (hFlags h)) FlagPad ≠ 0) then Z.to_nat (b2z (hPadLen h)) else 0%nat) ∧
       length hops = (34 * Z.to_nat (b2z (hNHops h) - 1))%nat ∧
       entry_host e = Ok host ∧ nextHop d = JoinHostPort host (Itoa (ePort e)) ∧ sessionID d = uuid_String (hSessionID h) ∧
       network d = (if bool_decide (Z.land (b2z (hFlags h)) FlagUDP ≠ 0) then ("udp" : bytes) else ("tcp" : bytes)) ∧
       remainingHeader d =
         write_header {| hVersion := hVersion h; hNHops := z2b (b2z (hNHops h) - 1); hFlags := hFlags h; hPadLen := hPadLen h;
                         hSessionID := hSessionID h |} ++ hops).
Proof.
  destruct (decode_safe r) as (d & r' & Hd & _). exists d, r'. split; [done|]. intros Hok Herr. unfold DecodeNextHop in Hd.
  destruct (read_uint 4 r) as [[m [e|]] r0] eqn:E0; [injection Hd as <- _; done|].
  destruct (read_uint_inv _ _ _ _ _ Hok E0) as (Hok0 & mb & Hb0 & Hl0 & ->).
  case_bool_decide as Hm; [injection Hd as <- _; done|].
  destruct (read_uint 1 r0) as [[v e1] r1] eqn:E1. destruct (read_byte_inv _ _ _ _ Hok0 E1) as (Hok1 & B1).
  destruct (read_uint 1 r1) as [[nh e2] r2] eqn:E2. destruct (read_byte_inv _ _ _ _ Hok1 E2) as (Hok2 & B2).
  destruct (read_uint 1 r2) as [[fl e3] r3] eqn:E3. destruct (read_byte_inv _ _ _ _ Hok2 E3) as (Hok3 & B3).
  destruct (read_uint 1 r3) as [[pl e4] r4] eqn:E4. destruct (read_byte_inv _ _ _ _ Hok3 E4) as (Hok4 & B4).
  destruct (io_ReadFull 16 r4) as [[sid [e|]] r5] eqn:E5; [injection Hd as <- _; done|].
  destruct (io_ReadFull_inv _ _ _ _ _ Hok4 E5) as (Hok5 & Hb5 & Hl5).
  destruct B4 as (b4 & Hb4 & ->); [intros E; rewrite E in Hb5; by destruct sid|].
  destruct B3 as (b3 & Hb3 & ->); [by rewrite Hb4|]. destruct B2 as (b2 & Hb2 & ->); [by rewrite Hb3|].
  destruct B1 as (b1 & Hb1 & ->); [by rewrite Hb2|].
  case_bool_decide as Hn; [injection Hd as <- _; done|]. rewrite !z2b_b2z in Hd. pose proof (b2z_range b2) as Hr2.
  pose proof (λ Hpos, decode_entry_inv _ _ _ _ _ _ Hok5 Hpos Hd Herr) as D.
  destruct (D ltac:(cbn; lia)) as (en & host & pad & hops & Hb6 & Hok6 & Ha & Hh & Hp & Hl & ->).
  exists {| hVersion := b1; hNHops := b2; hFlags := b3; hPadLen := b4; hSessionID := sid |}, en, host, pad, hops.
  split; [|by repeat (split; [done||exact Hl5||(cbn; lia)||exact Hp|])].
  unfold write_header. cbn [hVersion hNHops hFlags hPadLen hSessionID]. rewrite <-Hm, (be_put_get' 4) by done.
  by rewrite Hb0, Hb1, Hb2, Hb3, Hb4, Hb5, Hb6, <-!app_assoc.
Qed.

End exact.

Section more.
Context `{UUIDLaws}.

Lemma datagram_packs (sid payload : bytes) :
  match uuid_Parse sid with
  | Some u => ∃ d, PackDatagram sid payload = Ok d ∧ length d = (16 + length payload)%nat ∧
                   UnpackDatagram d = Ok (uuid_String u, payload) ∧
                   PackDatagram (uuid_String u) payload = Ok d
  | None => ∃ e, PackDatagram sid payload = Fail e
  end.
Proof.
  assert (∀ u, length u = 16%nat → ∀ p : bytes,
    (let res0 := replicate (16 + length p) Byte.x00 in
     let res1 := copy_into (take 16 res0) u ++ drop 16 res0 in
     take 16 res1 ++ copy_into (drop 16 res1) p) = u ++ p) as Hpack.
  { intros u Hu p. cbn zeta. rewrite (copy_into_take (take 16 _)) by len.
    rewrite (drop_ge (take 16 _)), app_nil_r by len. rewrite take_app_mid, drop_app_mid by done.
    rewrite copy_into_take, drop_ge, app_nil_r by len. done. }
  unfold PackDatagram. destruct (uuid_Parse sid) as [u|] eqn:E; [|eauto].
  pose proof (uuid_Parse_length _ _ E) as Hu. exists (u ++ payload). rewrite Hpack by done.
  split; [done|]. split; [len|]. rewrite uuid_Parse_String, Hpack by done. split; [|done].
  unfold UnpackDatagram. rewrite bool_decide_false by len. rewrite slice_ok, slice_from_ok by len. simpl.
  rewrite drop_0, take_app_mid, drop_app_mid by done. done.
Qed.

(** Datagrams round-trip: a payload packed for a session unpacks to the
    canonical id of that session and to the same payload; a session id that
    is no UUID is refused. *)
Theorem datagram_roundtrip (sid payload : bytes) :
  match uuid_Parse sid with
  | Some u => ∃ d, PackDatagram sid payload = Ok d ∧ length d = (16 + length payload)%nat ∧
                   UnpackDatagram d = Ok (uuid_String u, payload) ∧
                   PackDatagram (uuid_String u) payload = Ok d
  | None => ∃ e, PackDatagram sid payload = Fail e
  end.
Proof. apply datagram_packs. Qed.

Lemma empty_chain_dropped (g : rnd) (meta : SessionMeta) (payload : bytes) :
  HopChain meta = [] →
  ∃ hdr, EncodeHeader g meta = Ok hdr ∧
    (HandleRelay (mk_stream (hdr ++ payload) EOF)).1 = Ok (RelayDrop (Errorf "no more hops")).
Proof.
  intros Hc. pose proof (EncodeHeader_good g meta []) as E. rewrite Hc in E. specialize (E eq_refl).
  eexists. split; [done|]. rewrite <-app_assoc.
  match goal with |- context [mk_stream ?b EOF] => destruct (mk_stream_ok b EOF) as (Hok & Hb & _) end.
  destruct (decode_header _ (header_of g meta) _ Hok (length_session g meta) Hb) as (r' & _ & _ & _ & E').
  unfold HandleRelay. rewrite E', bool_decide_true; [done|].
  cbn [header_of hNHops]. by rewrite Hc.
Qed.

(** An empty chain is a dead end.  A header encoded for a session without
    a hop chain is refused by every node with the error of an exhausted
    chain. *)
Theorem empty_chain_refused (g : rnd) (meta : SessionMeta) (payload : bytes) :
  HopChain meta = [] →
  ∃ hdr, EncodeHeader g meta = Ok hdr ∧
    (HandleRelay (mk_stream (hdr ++ payload) EOF)).1 = Ok (RelayDrop (Errorf "no more hops")).
Proof. apply empty_chain_dropped. Qed.

(** The second entry of a two-hop chain whose encoder drew [k] bytes of
    padding, as the next node sees it: the first node strips the first [k]
    bytes after its own entry, which belong to the next entry and not to the
    padding written behind the last one. *)
Lemma padded_forward g meta hop1 hop2 hdr payload :
  HopChain meta = [hop1; hop2] → good_hop hop1 → good_hop hop2 → (0 < pad_len g meta ≤ 34)%nat →
  EncodeHeader g meta = Ok hdr →
  ∃ e2 r', encode_hop hop2 = Ok (write_entry e2) ∧ entry_for hop2 e2 ∧
    stream_bytes r' = payload ∧
    DecodeNextHop (mk_stream (hdr ++ payload) EOF) =
      (Ok {| nextHop := hop1; sessionID := uuid_String (session_bytes g meta);
             network := net_of (b2z (z2b (flags_of meta)));
             remainingHeader := write_header (header_of g (with_HopChain meta [hop2])) ++
                                drop (pad_len g meta) (write_entry e2) ++ padding g meta;
             hopErr := None |}, r').
Proof.
  intros Hc Hg1 Hg2 Hk Henc.
  destruct (encode_hop_good hop1 Hg1) as (e1 & E1 & He1). destruct (encode_hop_good hop2 Hg2) as (e2 & E2 & He2).
  rewrite (EncodeHeader_good g meta [e1; e2]) in Henc by (rewrite Hc; simpl; by rewrite E1, E2).
  apply (inj Ok) in Henc. subst hdr. pose proof He1 as (Hl & Ha & Hp & host & Hh & ->). pose proof (length_write_entry _ _ He2) as Hle.
  set (k := pad_len g meta) in *. set (w2 := write_entry e2) in *.
  assert ((write_header (header_of g meta) ++ concat (write_entry <$> [e1; e2]) ++ padding g meta) ++ payload =
          write_header (header_of g meta) ++ write_entry e1 ++ take k w2 ++ (drop k w2 ++ padding g meta) ++ payload)
    as ->.
  { rewrite !fmap_cons. cbn [concat]. fold w2. rewrite <-!app_assoc. do 2 f_equal.
    rewrite (app_assoc (take k w2)), take_drop. done. }
  match goal with |- context [mk_stream ?b EOF] => destruct (mk_stream_ok b EOF) as (Hok & Hb & _) end.
  destruct (decode_header _ (header_of g meta) _ Hok (length_session g meta) Hb) as (r1 & Hok1 & Hb1 & _ & D1).
  assert (b2z (hNHops (header_of g meta)) = 2) as Hn by (cbn [header_of hNHops]; by rewrite Hc).
  rewrite Hn, bool_decide_false in D1 by done.
  destruct (decode_hop r1 (header_of g meta) (uuid_String (session_bytes g meta)) (net_of (b2z (z2b (flags_of meta))))
              e1 host _ Hok1 Hl Ha Hp Hh Hb1) as (r2 & Hok2 & Hb2 & _ & D2).
  destruct (decode_tail r2 (header_of g meta) (JoinHostPort host (Itoa (ePort e1))) (uuid_String (session_bytes g meta))
              (net_of (b2z (z2b (flags_of meta)))) (take k w2) (drop k w2 ++ padding g meta) payload)
    as (r3 & _ & Hb3 & _ & D3); [done|lia|rewrite stripped_header; unfold k in *; len| |done|].
  { rewrite Hn, length_app, length_padding, length_drop. fold k. change (Z.to_nat (2 - 1)) with 1%nat. lia. }
  exists e2, r3. split; [done|]. split; [done|]. split; [done|].
  etransitivity; [exact D1|]. etransitivity; [exact D2|]. etransitivity; [exact D3|].
  rewrite (next_header_of g meta _ [hop2] Hc) by (simpl; lia). done.
Qed.

Lemma good_hop_v4 ip port :
  length ip = 4%nat → 0 ≤ port < 65536 → good_hop (JoinHostPort (IPString ip) (Itoa port)).
Proof.
  intros Hip Hport. exists (IPString ip), port. split; [done|]. split; [|done]. unfold good_host.
  rewrite ParseIP_IPString_v4 by done. rewrite (IPString_To4 (v4InV6Prefix ++ ip) ip) by (by apply To4_mapped).
  rewrite (bool_decide_true (IPString ip = _)), andb_true_r by done. apply bool_decide_eq_true_2.
  rewrite IPString_v4 by done. pose proof (length4_inv _ Hip) as (a & b & c & d & ->).
  split; by apply string4_not_in.
Qed.

Definition v4_entry (ip : bytes) (port : Z) : HopEntry :=
  {| eType := Byte.x01; ePort := port; eAddrLen := Byte.x04; eAddress := ip ++ replicate 26 Byte.x00 |}.

Lemma encode_hop_v4 ip port :
  length ip = 4%nat → 0 ≤ port < 65536 →
  encode_hop (JoinHostPort (IPString ip) (Itoa port)) = Ok (write_entry (v4_entry ip port)).
Proof.
  intros Hip Hport. unfold encode_hop. rewrite IPString_v4 by done.
  pose proof (length4_inv _ Hip) as (a & b & c & d & ->).
  rewrite SplitHostPort_JoinHostPort by (first [by apply string4_not_in | apply Itoa_not_in; [lia|done]]).
  rewrite Atoi_Itoa, ParseIP_string4 by lia. cbn [fst]. rewrite To4_mapped by done. cbn.
  rewrite u16_id by lia. done.
Qed.

(** An entry for an IPv4 address that lost its first 8 to 30 bytes. *)
Lemma shifted_entry ip port k (pad : bytes) :
  length ip = 4%nat → (8 ≤ k ≤ 30)%nat → length pad = k →
  ∃ x y t, drop k (write_entry (v4_entry ip port)) ++ pad = Byte.x00 :: [x; y] ++ Byte.x00 :: t ∧
           length t = 30%nat.
Proof.
  intros Hip Hk Hpl. set (w := write_entry (v4_entry ip port)).
  assert (length w = 34%nat) as Hw by (unfold w, write_entry; cbn; len).
  assert (length (drop k w ++ pad) = 34%nat) as Hl34 by (rewrite length_app, length_drop, Hw, Hpl; lia).
  assert (∀ i, (i ≤ 3)%nat → (drop k w ++ pad) !! i = Some Byte.x00) as Hz.
  { intros i Hi. rewrite lookup_app_l by (rewrite length_drop, Hw; lia). rewrite lookup_drop.
    unfold w, write_entry, v4_entry. cbn [eType ePort eAddrLen eAddress].
    rewrite !app_assoc, lookup_app_r by (rewrite !length_app, length_be_put, Hip; simpl; lia).
    apply lookup_replicate. rewrite !length_app, length_be_put, Hip. simpl. split; [done|lia]. }
  pose proof (Hz 0%nat ltac:(lia)) as Hz0. pose proof (Hz 3%nat ltac:(lia)) as Hz3.
  destruct (drop k w ++ pad) as [|a0 [|a1 [|a2 [|a3 t]]]]; try done.
  simpl in Hz0, Hz3, Hl34. simplify_eq. exists a1, a2, t. split; [done|lia].
Qed.

(** An entry whose type byte is zero is refused. *)
Lemma HandleRelay_bad_type h x y t payload :
  length (hSessionID h) = 16%nat → b2z (hNHops h) ≠ 0 → length t = 30%nat →
  (HandleRelay (mk_stream (write_header h ++ Byte.x00 :: [x; y] ++ Byte.x00 :: t ++ payload) EOF)).1 =
    Ok (RelayDrop (Errorf "unknown address type")).
Proof.
  intros Hsid Hn Hlt.
  match goal with |- context [mk_stream ?b EOF] => destruct (mk_stream_ok b EOF) as (Hok & Hb & _) end.
  destruct (decode_header _ h _ Hok Hsid Hb) as (r1 & Hok1 & Hb1 & _ & D1).
  unfold HandleRelay. rewrite D1, bool_decide_false by done.
  destruct (read_byte_app r1 _ _ Hok1 Hb1) as (r2 & E2 & Hok2 & Hb2 & _).
  destruct (read_uint_app 2 r2 [x; y] _ Hok2 Hb2 eq_refl) as (r3 & E3 & Hok3 & Hb3 & _).
  destruct (read_byte_app r3 _ _ Hok3 Hb3) as (r4 & E4 & Hok4 & Hb4 & _).
  destruct (io_ReadFull_exact 30 r4 _ _ Hok4 Hb4 Hlt) as (r5 & E5 & _).
  unfold decode_entry. rewrite E2, E3, E4, bool_decide_false by done. rewrite E5. done.
Qed.

(** C37: padding breaks chains of more than one node.  When the encoder drew
    between 8 and 30 bytes of padding for a two-hop chain whose second hop is
    an IPv4 address, the first node forwards a header whose entry has lost
    its beginning, and the second node refuses it: the type byte it reads is
    a zero of the address field. *)
Theorem padding_breaks_relay (g : rnd) (meta : SessionMeta) (hop1 hdr payload ip : bytes) (port : Z) :
  HopChain meta = [hop1; JoinHostPort (IPString ip) (Itoa port)] → good_hop hop1 →
  length ip = 4%nat → 0 ≤ port < 65536 → (8 ≤ pad_len g meta ≤ 30)%nat →
  EncodeHeader g meta = Ok hdr →
  journey 2 (hdr ++ payload) = ([hop1], Lost (Errorf "unknown address type")).
Proof.
  intros Hc Hg1 Hip Hport Hk Henc. pose proof (good_hop_v4 ip port Hip Hport) as Hg2.
  destruct (padded_forward g meta hop1 _ hdr payload Hc Hg1 Hg2 ltac:(lia) Henc) as (e2 & r' & E2 & _ & Hb' & D).
  rewrite encode_hop_v4 in E2 by done. apply (inj Ok) in E2. rewrite <-E2 in D.
  destruct (shifted_entry ip port (pad_len g meta) (padding g meta)) as (x & y & t & Et & Hlt);
    [done|done|apply length_padding|]. rewrite Et in D.
  cbn [journey]. unfold HandleRelay at 1. rewrite D. cbn [hopErr remainingHeader network nextHop sessionID].
  rewrite index_nhops. set (h2 := header_of g _). assert (hNHops h2 = Byte.x01) as Hn by done.
  cbn [res_bind]. rewrite Hn, bool_decide_false by done. cbn [Target]. rewrite Hb'.
  pose proof (HandleRelay_bad_type h2 x y t payload (length_session g meta) ltac:(by rewrite Hn) Hlt) as HB.
  rewrite <-(app_assoc (write_header h2)). change ((Byte.x00 :: [x; y] ++ Byte.x00 :: t) ++ payload)
    with (Byte.x00 :: [x; y] ++ Byte.x00 :: t ++ payload).
  destruct (HandleRelay _) as [o r2]. simpl in HB. by subst o.
Qed.

End more.

(** ** Concrete runs *)
Import DemoUUID.

Definition demo_id : bytes := "6ba7b810-9dad-11d1-80b4-00c04fd430c8".

Definition demo_meta (chain : list bytes) : SessionMeta :=
  {| ID := demo_id; TraceID := []; UserID := []; Source := None; Target := []; Network := ("udp" : bytes);
     HopChain := chain; RouteTags := ∅; CreatedAt := 0 |}.

Definition demo_rnd (k : byte) : rnd :=
  {| rnd_len := k; rnd_pad := λ _, Byte.xaa; rnd_uuid := λ _, Byte.x07 |}.

Definition demo_chain : list bytes :=
  ["node1.example:8443" : bytes; "[2001:db8::5]:443" : bytes; "192.0.2.7:80" : bytes].

Definition encoded (g : rnd) (m : SessionMeta) : bytes :=
  match EncodeHeader g m with Ok b => b | _ => [] end.

Lemma demo_chain_good : Forall good_hop demo_chain.
Proof.
  repeat constructor.
  - exists ("node1.example" : bytes), 8443. split; [vm_compute; reflexivity|]. split; [vm_compute; reflexivity|lia].
  - exists ("2001:db8::5" : bytes), 443. split; [vm_compute; reflexivity|]. split; [vm_compute; reflexivity|lia].
  - exists ("192.0.2.7" : bytes), 80. split; [vm_compute; reflexivity|]. split; [vm_compute; reflexivity|lia].
Qed.

Lemma journey_chain_witness :
  journey 3 (encoded (demo_rnd Byte.x40) (demo_meta demo_chain) ++ ("GET /" : bytes)) =
    (["node1.example:8443" : bytes; "[2001:db8::5]:443" : bytes],
     Arrived ("udp" : bytes) ("192.0.2.7:80" : bytes) ("GET /" : bytes)).
Proof.
  apply (journey_chain (demo_rnd Byte.x40) (demo_meta demo_chain)
           ["node1.example:8443" : bytes; "[2001:db8::5]:443" : bytes]);
    [reflexivity|apply demo_chain_good|simpl; lia|right; vm_compute; reflexivity|vm_compute; reflexivity].
Defined.

(** Two segments, padding drawn, one hop. *)
Lemma decode_encode_witness :
  let hdr := encoded (demo_rnd Byte.x15) (demo_meta ["192.0.2.7:80" : bytes]) in
  let r := {| evs := [inl (take 7 hdr); inl (drop 7 hdr ++ ("payload" : bytes))]; fin := EOF |} in
  length hdr = 79%nat ∧
  ∃ d r', DecodeNextHop r = (Ok d, r') ∧ rd_ok r' ∧ rd_bytes r' = ("payload" : bytes) ∧
    nextHop d = ("192.0.2.7:80" : bytes) ∧ hopErr d = None ∧
    uuid_Parse (sessionID d) = Some (session_bytes (demo_rnd Byte.x15) (demo_meta ["192.0.2.7:80" : bytes])) ∧
    network d = ("udp" : bytes) ∧
    EncodeHeader (demo_rnd Byte.x15) (with_HopChain (demo_meta ["192.0.2.7:80" : bytes]) []) =
      Ok (remainingHeader d ++ padding (demo_rnd Byte.x15) (demo_meta ["192.0.2.7:80" : bytes])).
Proof.
  intros hdr r. split; [vm_compute; reflexivity|].
  apply (decode_encode r (demo_rnd Byte.x15) (demo_meta ["192.0.2.7:80" : bytes]) ("192.0.2.7:80" : bytes) [] hdr);
    [reflexivity| |simpl; lia|by left|vm_compute; reflexivity| |vm_compute; reflexivity].
  - constructor; [|constructor].
    exists ("192.0.2.7" : bytes), 80. split; [vm_compute; reflexivity|]. split; [vm_compute; reflexivity|lia].
  - repeat constructor; eexists; reflexivity.
Defined.

Lemma empty_chain_refused_witness :
  ∃ hdr, EncodeHeader (demo_rnd Byte.x01) (demo_meta []) = Ok hdr ∧
    (HandleRelay (mk_stream (hdr ++ ("x" : bytes)) EOF)).1 = Ok (RelayDrop (Errorf "no more hops")).
Proof. apply (empty_chain_refused (demo_rnd Byte.x01) (demo_meta [])). reflexivity. Defined.

Lemma padding_breaks_relay_witness :
  journey 2 (encoded (demo_rnd Byte.x0a) (demo_meta ["node1.example:8443" : bytes; "192.0.2.7:80" : bytes]) ++
             ("GET /" : bytes)) =
    (["node1.example:8443" : bytes], Lost (Errorf "unknown address type")).
Proof.
  apply (padding_breaks_relay (demo_rnd Byte.x0a)
           (demo_meta ["node1.example:8443" : bytes; "192.0.2.7:80" : bytes]) _ _ _
           [Byte.xc0; Byte.x00; Byte.x02; Byte.x07] 80);
    [vm_compute; reflexivity| |reflexivity|lia|vm_compute; lia|vm_compute; reflexivity].
  exists ("node1.example" : bytes), 8443. split; [vm_compute; reflexivity|]. split; [vm_compute; reflexivity|lia].
Defined.

Lemma datagram_roundtrip_witness :
  ∃ d, PackDatagram demo_id ("dns query" : bytes) = Ok d ∧ length d = 25%nat ∧
       UnpackDatagram d = Ok (demo_id, "dns query" : bytes) ∧
       PackDatagram demo_id ("dns query" : bytes) = Ok d.
Proof. exact (datagram_roundtrip demo_id ("dns query" : bytes)). Defined.

(** A header with two hops, whose second entry is forwarded. *)
Definition demo_accepted : bytes :=
  write_header {| hVersion := Byte.x02; hNHops := Byte.x02; hFlags := Byte.x01; hPadLen := Byte.x00; hSessionID := replicate 16 Byte.x07 |} ++
  write_entry {| eType := Byte.x01; ePort := 443; eAddrLen := Byte.x04; eAddress := replicate 30 Byte.x01 |} ++
  replicate 34 Byte.x09 ++ ("data" : bytes).

Lemma decode_robust_witness :
  let r := mk_stream demo_accepted EOF in
  ∃ d r', DecodeNextHop r = (Ok d, r') ∧ ∃ h e pad hops,
    demo_accepted = write_header h ++ write_entry e ++ pad ++ hops ++ rd_bytes r' ∧
    length hops = (34 * Z.to_nat (b2z (hNHops h) - 1))%nat.
Proof.
  destruct (decode_robust (mk_stream demo_accepted EOF)) as (d & r' & E & Hd). exists d, r'. split; [exact E|].
  destruct Hd as (h & e & host & pad & hops & Hb & _ & _ & _ & _ & _ & Hl & _).
  - apply mk_stream_ok.
  - vm_compute in E. injection E as <- _. reflexivity.
  - exists h, e, pad, hops. split; [|exact Hl]. rewrite <-Hb. symmetry. apply mk_stream_ok.
Defined.

End NPThms.
