(* ===== verification/Socks5Udp.v ===== *)
(** * SOCKS5 UDP datagrams: [internal/protocol/socks5/udp.go]

    RSV(2) FRAG(1) ATYP(1) DST.ADDR DST.PORT(2) DATA, parsed on the way from
    the client and packed on the way back.  [services] is the host's table of
    named UDP ports, which [net.LookupPort] consults. *)

From S2P Require Import Prelude GoNet.

Record UDPPacket := { Frag : byte; AddrType : byte; Address : bytes; Port : Z; Data : bytes }.

(** The address after ATYP: the host and the offset of the port. *)
Definition parse_addr (b : bytes) (atyp : byte) : res (bytes * nat) :=
  let offset := 4%nat in
  if bool_decide (atyp = Byte.x01) then
    if bool_decide (length b < offset + 4 + 2)%nat then Fail (Errorf "invalid ipv4 packet")
    else let! a := slice b offset (offset + 4) in Ok (IPString a, (offset + 4)%nat)
  else if bool_decide (atyp = Byte.x03) then
    if bool_decide (length b < offset + 1)%nat then Fail (Errorf "invalid domain packet")
    else
      let! lb := index b offset in
      let l := Z.to_nat (b2z lb) in
      let offset := S offset in
      if bool_decide (length b < offset + l + 2)%nat then Fail (Errorf "domain name too long")
      else let! a := slice b offset (offset + l) in Ok (a, (offset + l)%nat)
  else if bool_decide (atyp = Byte.x04) then
    if bool_decide (length b < offset + 16 + 2)%nat then Fail (Errorf "invalid ipv6 packet")
    else let! a := slice b offset (offset + 16) in Ok (IPString a, (offset + 16)%nat)
  else Fail (Errorf "unsupported addr type").

Definition ParseUDPPacket (b : bytes) : res UDPPacket :=
  if bool_decide (length b < 10)%nat then Fail (Errorf "packet too short")
  else
    let! frag := index b 2 in
    let! atyp := index b 3 in
    let! ho := parse_addr b atyp in
    let '(host, offset) := ho in
    let! p := slice b offset (offset + 2) in
    let port := be_get p in
    let! data := slice_from b (offset + 2) in
    Ok {| Frag := frag; AddrType := atyp; Address := JoinHostPort host (Itoa port); Port := port;
          Data := data |}.

(** ATYP and address bytes of a host. *)
Definition pack_host (host : bytes) : bytes :=
  match ParseIP host with
  | Some ip =>
      match To4 ip with
      | Some ip4 => Byte.x01 :: ip4
      | None => Byte.x04 :: default [] (To16 ip)
      end
  | None => Byte.x03 :: z2b (Z.of_nat (length host)) :: host
  end.

Definition PackUDPPacket (services : bytes → option Z) (addr data : bytes) : res bytes :=
  let '(host, portStr) := match SplitHostPort addr with Ok hp => hp | _ => ([], []) end in
  let port := match LookupPort services portStr with Ok p => p | _ => 0 end in
  Ok ([Byte.x00; Byte.x00; Byte.x00] ++ pack_host host ++ be_put 2 (u16 port) ++ data).

(** Hosts that fit the format and print canonically. *)
Definition fits_host (host : bytes) : bool :=
  bool_decide (lbrack ∉ host ∧ rbrack ∉ host) &&
  match ParseIP host with
  | Some ip => bool_decide (IPString ip = host)
  | None => bool_decide (Z.of_nat (length host) < 256)
  end.

Module Socks5UdpThms.

Lemma parse_addr_safe b atyp :
  parse_addr b atyp ≠ Panic ∧
  ∀ host off, parse_addr b atyp = Ok (host, off) → (off + 2 ≤ length b)%nat.
Proof.
  unfold parse_addr. repeat case_bool_decide; try (split; [done|by intros]).
  - go_step. split; [done|]. intros ?? [= _ <-]. lia.
  - go_step. case_bool_decide; [split; [done|by intros]|]. rewrite slice_ok by lia. simpl.
    split; [done|]. intros ?? [= _ <-]. lia.
  - go_step. split; [done|]. intros ?? [= _ <-]. lia.
Qed.

(** Parsing a client's datagram never panics, whatever its bytes. *)
Theorem parse_udp_safe (b : bytes) : ParseUDPPacket b ≠ Panic.
Proof.
  unfold ParseUDPPacket. case_bool_decide; [done|]. do 2 go_step.
  match goal with |- context [parse_addr b ?a] => destruct (parse_addr_safe b a) as [Hs Ho];
    destruct (parse_addr b a) as [[host off]|e|]; [|done|done] end.
  simpl. specialize (Ho _ _ eq_refl). rewrite slice_ok, slice_from_ok by lia. done.
Qed.

(** Parsing what [pack_host] wrote. *)
Lemma parse_pack_host host rest :
  fits_host host = true → (2 ≤ length rest)%nat →
  ∃ atyp a, pack_host host = atyp :: a ∧
    parse_addr ([Byte.x00; Byte.x00; Byte.x00] ++ (atyp :: a) ++ rest) atyp = Ok (host, (4 + length a)%nat).
Proof.
  unfold fits_host. intros [_ Hf]%andb_true_iff Hr. unfold pack_host.
  destruct (ParseIP host) as [ip|] eqn:Eip.
  - apply bool_decide_eq_true in Hf. pose proof (ParseIP_length _ _ Eip) as Hl.
    destruct (To4 ip) as [ip4|] eqn:E4.
    + pose proof (To4_length _ _ E4) as H4. do 2 eexists. split; [done|]. unfold parse_addr.
      rewrite bool_decide_true by done. rewrite bool_decide_false by len. rewrite slice_ok by len.
      change (4 + 4 - 4)%nat with 4%nat. change (drop 4 _) with (ip4 ++ rest).
      rewrite take_app_mid by done. cbn [res_bind]. by rewrite <-(IPString_To4 _ _ E4), Hf, H4.
    + rewrite To16_id by done. change (default [] (Some ip)) with ip. do 2 eexists. split; [done|].
      unfold parse_addr. rewrite !bool_decide_false by done. rewrite bool_decide_true by done.
      rewrite bool_decide_false by len. rewrite slice_ok by len.
      change (4 + 16 - 4)%nat with 16%nat. change (drop 4 _) with (ip ++ rest).
      rewrite take_app_mid by done. cbn [res_bind]. by rewrite Hf, Hl.
  - apply bool_decide_eq_true in Hf. do 2 eexists. split; [done|]. unfold parse_addr.
    rewrite bool_decide_false, bool_decide_true by done. rewrite bool_decide_false by len.
    change (index _ 4) with (Ok (z2b (Z.of_nat (length host)))). cbn [res_bind].
    rewrite b2z_z2b, Z.mod_small, Nat2Z.id by lia. rewrite bool_decide_false by len. rewrite slice_ok by len.
    cbn [res_bind]. replace (5 + length host - 5)%nat with (length host) by lia.
    change (drop 5 _) with (host ++ rest). by rewrite take_app_length.
Qed.

(** A packed reply parses back to the address, port and payload it was
    packed from, for canonical IPv4 and IPv6 addresses and for names of up to
    255 bytes; datagrams shorter than ten bytes are the only ones refused. *)
Theorem udp_roundtrip (services : bytes → option Z) (host data : bytes) (port : Z) :
  fits_host host = true → 0 ≤ port < 65536 →
  ∃ b, PackUDPPacket services (JoinHostPort host (Itoa port)) data = Ok b ∧
    ((length b < 10)%nat → ParseUDPPacket b = Fail (Errorf "packet too short")) ∧
    ((10 ≤ length b)%nat →
     ∃ p, ParseUDPPacket b = Ok p ∧ Frag p = Byte.x00 ∧ Address p = JoinHostPort host (Itoa port) ∧
          Port p = port ∧ Data p = data).
Proof.
  intros Hf Hp. pose proof Hf as Hf'. apply andb_true_iff in Hf' as [[Hlb Hrb]%bool_decide_eq_true _].
  unfold PackUDPPacket. rewrite SplitHostPort_JoinHostPort by (first [done|apply Itoa_not_in; [lia|done]]).
  rewrite LookupPort_Itoa, u16_id by lia. eexists. split; [done|].
  split; intros Hb; unfold ParseUDPPacket; [by rewrite bool_decide_true|rewrite bool_decide_false by lia].
  destruct (parse_pack_host host (be_put 2 port ++ data) Hf ltac:(len)) as (atyp & a & Ea & Epa).
  rewrite Ea in *. change (index _ 2) with (Ok Byte.x00). change (index _ 3) with (Ok atyp).
  cbn [res_bind]. rewrite Epa. cbn [res_bind]. rewrite slice_ok, slice_from_ok by len. cbn [res_bind].
  eexists. split; [done|]. cbn [Frag Address Port Data].
  replace (4 + length a + 2 - (4 + length a))%nat with 2%nat by lia.
  change ([Byte.x00; Byte.x00; Byte.x00] ++ (atyp :: a) ++ be_put 2 port ++ data)
    with ((([Byte.x00; Byte.x00; Byte.x00; atyp] : bytes) ++ a) ++ be_put 2 port ++ data).
  rewrite take_drop_app_mid by len.
  rewrite be_get_put, Z.mod_small by lia. split; [done|]. split; [done|]. split; [done|].
  rewrite app_assoc. apply drop_app_mid. len.
Qed.

Lemma parse_atyp b p : ParseUDPPacket b = Ok p → b !! 3%nat = Some (AddrType p).
Proof.
  unfold ParseUDPPacket. case_bool_decide; [done|].
  destruct (index_ok b 2) as (x2 & -> & _); [lia|]. destruct (index_ok b 3) as (x3 & -> & E3); [lia|]. simpl.
  destruct (parse_addr_safe b x3) as [_ Ho]. destruct (parse_addr b x3) as [[host off]|e|]; [|done|done].
  simpl. specialize (Ho _ _ eq_refl). rewrite slice_ok, slice_from_ok by lia. simpl. by intros [= <-].
Qed.

(** The reply to a request for an IPv4 destination carries that
    destination's bytes: packing the parsed address and payload of a
    well-formed unfragmented request gives the request back. *)
Theorem udp_reply_same (services : bytes → option Z) (b : bytes) (p : UDPPacket) :
  ParseUDPPacket b = Ok p → AddrType p = Byte.x01 → take 3 b = [Byte.x00; Byte.x00; Byte.x00] →
  PackUDPPacket services (Address p) (Data p) = Ok b.
Proof.
  intros E Hty Ht. pose proof (parse_atyp _ _ E) as H3. rewrite Hty in H3.
  assert (10 ≤ length b)%nat as Hl.
  { unfold ParseUDPPacket in E. case_bool_decide; [done|lia]. }
  do 10 (destruct b as [|? b]; [simpl in Hl; lia|]). simpl in Ht, H3. simplify_eq. clear Hl Hty.
  match goal with H : ParseUDPPacket (_ :: _ :: _ :: _ :: ?a :: ?b1 :: ?c :: ?d :: ?p1 :: ?p2 :: ?r) = _ |- _ =>
    set (ip := [a; b1; c; d]) in *; set (pb := [p1; p2]) in *; 
    change (ParseUDPPacket ([Byte.x00; Byte.x00; Byte.x00; Byte.x01] ++ ip ++ pb ++ r) = Ok p) in H;
    change (PackUDPPacket services (Address p) (Data p)
            = Ok ([Byte.x00; Byte.x00; Byte.x00] ++ (Byte.x01 :: ip) ++ pb ++ r)) end.
  unfold ParseUDPPacket in E. rewrite bool_decide_false in E by len.
  change (index _ 2) with (Ok Byte.x00) in E. change (index _ 3) with (Ok Byte.x01) in E. cbn [res_bind] in E.
  unfold parse_addr in E. rewrite bool_decide_true in E by done. rewrite bool_decide_false in E by len.
  rewrite !slice_ok in E by len. cbn [res_bind] in E. rewrite slice_ok, slice_from_ok in E by len.
  cbn [res_bind] in E. apply (inj Ok) in E. subst p. cbn [Address Data].
  change (take (4 + 4 - 4) (drop 4 _)) with ip. change (take (4 + 4 + 2 - (4 + 4)) _) with pb.
  change (drop (4 + 4 + 2) _) with b.
  pose proof (be_get_range pb) as Hpb. change (256 ^ Z.of_nat (length pb)) with 65536 in Hpb.
  unfold PackUDPPacket. rewrite IPString_v4 by done.
  rewrite SplitHostPort_JoinHostPort by (first [by apply string4_not_in | apply Itoa_not_in; [lia|done]]).
  rewrite LookupPort_Itoa, u16_id, be_put_get' by (done || lia).
  unfold pack_host. unfold ip at 1. rewrite ParseIP_string4, To4_mapped by done. done.
Qed.

Lemma udp_roundtrip_witness :
  fits_host "2001:db8::1" = true ∧
  ∃ b, PackUDPPacket (λ _, None) (JoinHostPort "2001:db8::1" (Itoa 53)) "query" = Ok b ∧
    ((length b < 10)%nat → ParseUDPPacket b = Fail (Errorf "packet too short")) ∧
    ((10 ≤ length b)%nat →
     ∃ p, ParseUDPPacket b = Ok p ∧ Frag p = Byte.x00 ∧ Address p = JoinHostPort "2001:db8::1" (Itoa 53) ∧
          Port p = 53 ∧ Data p = "query").
Proof.
  split; [vm_compute; reflexivity|].
  apply (udp_roundtrip (λ _, None) "2001:db8::1" "query" 53); [vm_compute; reflexivity|lia].
Defined.

Definition demo_request : bytes :=
  [Byte.x00; Byte.x00; Byte.x00; Byte.x01; Byte.x08; Byte.x08; Byte.x08; Byte.x08; Byte.x00; Byte.x35] ++
  ("q" : bytes).

Lemma udp_reply_same_witness :
  PackUDPPacket (λ _, None) "8.8.8.8:53" "q" = Ok demo_request.
Proof.
  apply (udp_reply_same (λ _, None) demo_request
           {| Frag := Byte.x00; AddrType := Byte.x01; Address := "8.8.8.8:53"; Port := 53; Data := "q" |});
    [vm_compute; reflexivity|reflexivity|reflexivity].
Defined.

End Socks5UdpThms.
