(* ===== verification/Obfs.v ===== *)
(** * Traffic obfuscation: [internal/common/obfs.go]

    An [ObfsConn] wraps a connection: every [Write] becomes one frame
    PayloadLen(2) PadLen(1) Payload Padding, and a heartbeat goroutine sends
    frames without payload.  Each frame is a single [Write] of the underlying
    connection, so what the peer receives is the frames of the two
    goroutines in some order.  The receiving side is a [GoReader] over the
    underlying stream; its loop, which skips dummy frames, carries fuel, and
    [obfs_read_returns] shows that the bytes left on the stream are enough. *)

From S2P Require Import Prelude Stream Types NPChain.

Record ObfsConfig := { oType : bytes; MaxPad : Z; Interval : Z; DummySize : Z }.

Record ObfsConn := { maxPad : Z; interval : Z; dummy : Z }.

(** [NewObfsConn]: [None] is the connection returned as it is; the interval
    is a [time.Duration], nanoseconds in an int64. *)
Definition NewObfsConn (cfg : ObfsConfig) : option ObfsConn :=
  if bool_decide (oType cfg ≠ ("padding" : bytes) ∧ Interval cfg ≤ 0) then None
  else Some {| maxPad := MaxPad cfg; interval := i64 (Interval cfg * 1000000); dummy := DummySize cfg |}.

Definition heartbeats (c : ObfsConn) : bool := bool_decide (0 < interval c).

(** The random choices of one [sendFrame]. *)
Record frnd := { f_len : byte; f_pad : nat → byte }.

Definition sendFrame (c : ObfsConn) (g : frnd) (p : bytes) (forcePad : Z) (k : sink) : res (option goerr) * sink :=
  let payloadLen := length p in
  if bool_decide (maxPad c + 1 = 0) then (Panic, k)
  else
    let padLen0 := Z.rem (b2z (f_len g)) (maxPad c + 1) in
    let padLen := if bool_decide (padLen0 < forcePad) then forcePad else padLen0 in
    let header := be_put 2 (u16 (Z.of_nat payloadLen)) ++ [z2b padLen] in
    let buf := header ++ p ++ (f_pad g <$> seq 0 (Z.to_nat padLen)) in
    let '(e, k') := sink_write buf k in (Ok e, k').

Definition Write (c : ObfsConn) (g : frnd) (p : bytes) (k : sink) : res (nat * option goerr) * sink :=
  match p with
  | [] => (Ok (0%nat, None), k)
  | _ =>
      let '(r, k') := sendFrame c g p 0 k in
      (match r with
       | Ok (Some e) => Ok (0%nat, Some e)
       | Ok None => Ok (length p, None)
       | Fail e => Fail e
       | Panic => Panic
       end, k')
  end.

(** One tick of [heartbeatLoop]; its error is dropped. *)
Definition heartbeat (c : ObfsConn) (g : frnd) (k : sink) : res unit * sink :=
  let '(r, k') := sendFrame c g [] (dummy c) k in
  (match r with Panic => Panic | _ => Ok () end, k').

(** The loop of [Read] with a buffer of [n] bytes: every round reads a
    three-byte header or fails; [None] is fuel exhausted. *)
Fixpoint obfs_read `{GoReader R} (fuel n : nat) (r : R) : option (bytes * option goerr * R) :=
  match fuel with
  | O => None
  | S f =>
      let '(header, e, r1) := io_ReadFull 3 r in
      match e with
      | Some e => Some ([], Some e, r1)
      | None =>
          let payloadLen := Z.to_nat (be_get (take 2 header)) in
          let padLen := Z.to_nat (be_get (drop 2 header)) in
          if bool_decide (payloadLen = 0)%nat then
            if bool_decide (0 < padLen)%nat then
              let '(e2, r2) := io_CopyN_Discard padLen r1 in
              match e2 with
              | Some e => Some ([], Some e, r2)
              | None => obfs_read f n r2
              end
            else obfs_read f n r1
          else if bool_decide (n < payloadLen)%nat then Some ([], Some ErrShortBuffer, r1)
          else
            let '(p, e3, r3) := io_ReadFull payloadLen r1 in
            match e3 with
            | Some e => Some ([], Some e, r3)
            | None =>
                if bool_decide (0 < padLen)%nat then
                  let '(e4, r4) := io_CopyN_Discard padLen r3 in
                  match e4 with
                  | Some e => Some ([], Some e, r4)
                  | None => Some (p, None, r4)
                  end
                else Some (p, None, r3)
            end
      end
  end.

(** The wrapped connection as a reader. *)
Record obfs := { o_inner : stream }.

#[export] Instance obfs_reader : GoReader obfs := λ n o,
  match obfs_read (S (length (stream_bytes (o_inner o)))) n (o_inner o) with
  | Some (got, e, s) => (got, e, {| o_inner := s |})
  | None => ([], Some ErrNoProgress, o)
  end.

(** ** The two sending goroutines, interleaved *)

Inductive send_ev := SendPayload (g : frnd) (p : bytes) | SendDummy (g : frnd).

Fixpoint send_all (c : ObfsConn) (l : list send_ev) (k : sink) : sink :=
  match l with
  | [] => k
  | SendPayload g p :: r => send_all c r (Write c g p k).2
  | SendDummy g :: r => send_all c r (heartbeat c g k).2
  end.

(** [Close] ends the heartbeats and closes the connection, on which every
    write fails from then on. *)
Definition Close (k : sink) : sink := {| written := written k; budget := Some 0%nat |}.

Definition payloads (l : list send_ev) : list bytes :=
  omap (λ ev, match ev with SendPayload _ [] => None | SendPayload _ p => Some p | SendDummy _ => None end) l.

(** Reading until an error, with buffers of [n] bytes. *)
Fixpoint recv_all (fuel n : nat) (o : obfs) : list bytes * option goerr :=
  match fuel with
  | O => ([], None)
  | S f =>
      let '(got, e, o') := go_read n o in
      match e with
      | Some e => ([], Some e)
      | None => let '(l, e') := recv_all f n o' in (got :: l, e')
      end
  end.

(** Configurations whose padding lengths fit their byte. *)
Definition sound_conn (c : ObfsConn) : Prop := 0 ≤ maxPad c ∧ dummy c < 256.

Definition fits (ev : send_ev) : Prop :=
  match ev with SendPayload _ p => Z.of_nat (length p) < 65536 | SendDummy _ => True end.

(** ** Facts about frames *)
Module ObfsFacts.

Definition frame (fr : bytes * bytes) : bytes :=
  be_put 2 (Z.of_nat (length fr.1)) ++ [z2b (Z.of_nat (length fr.2))] ++ fr.1 ++ fr.2.

Definition good_frame (fr : bytes * bytes) : Prop :=
  Z.of_nat (length fr.1) < 65536 ∧ Z.of_nat (length fr.2) < 256.

Definition encode (fs : list (bytes * bytes)) : bytes := concat (frame <$> fs).

Lemma encode_cons fr fs : encode (fr :: fs) = frame fr ++ encode fs.
Proof. done. Qed.

Lemma frame_length_ge fr : (3 ≤ length (frame fr))%nat.
Proof. unfold frame. len. Qed.

Lemma encode_length fs : (length fs ≤ length (encode fs))%nat.
Proof.
  induction fs as [|fr fs IH]; [done|]. rewrite encode_cons, length_app.
  pose proof (frame_length_ge fr). simpl. lia.
Qed.

(** The next payload and the frames behind it. *)
Fixpoint next_frame (fs : list (bytes * bytes)) : option (bytes * list (bytes * bytes)) :=
  match fs with
  | [] => None
  | ([], _) :: r => next_frame r
  | (p, _) :: r => Some (p, r)
  end.

Definition data_of (fs : list (bytes * bytes)) : list bytes :=
  omap (λ fr, match fr.1 with [] => None | p => Some p end) fs.

Lemma data_next fs :
  data_of fs = match next_frame fs with Some (p, fs') => p :: data_of fs' | None => [] end.
Proof. induction fs as [|[[|x p] pad] fs IH]; [done|exact IH|done]. Qed.

Lemma next_frame_spec fs p fs' :
  next_frame fs = Some (p, fs') →
  p ≠ [] ∧ (length fs' < length fs)%nat ∧ ∃ pre, fs = pre ++ fs' ∧ p ∈ pre.*1.
Proof.
  revert p fs'. induction fs as [|[[|x q] pad] fs IH]; intros p fs'; simpl; [done| |].
  - intros E. destruct (IH _ _ E) as (Hp & Hl & pre & -> & Hin). split; [done|]. split; [lia|].
    exists (([], pad) :: pre). split; [done|]. simpl. set_solver.
  - intros [= <- <-]. split; [done|]. split; [lia|]. exists [(x :: q, pad)]. split; [done|]. simpl. set_solver.
Qed.

Section reading.
Context `{ReaderSpec R}.

(** The first three bytes of a frame. *)
Lemma read_frame_header (r : R) fr rest :
  rd_ok r → good_frame fr → rd_bytes r = frame fr ++ rest →
  ∃ r', rd_ok r' ∧ rd_err r' = rd_err r ∧ rd_bytes r' = fr.1 ++ fr.2 ++ rest ∧
    ∃ header, io_ReadFull 3 r = (header, None, r') ∧
      Z.to_nat (be_get (take 2 header)) = length fr.1 ∧ Z.to_nat (be_get (drop 2 header)) = length fr.2.
Proof.
  intros Hok [Hp Hd] Hb. unfold frame in Hb. rewrite <-!app_assoc, app_assoc in Hb.
  set (header := be_put 2 _ ++ [_]) in Hb. assert (length header = 3%nat) as Hl by (unfold header; len).
  destruct (io_ReadFull_app r header _ Hok Hb) as (r' & E & Hok' & Hb' & He').
  rewrite Hl in E. exists r'. split; [done|]. split; [done|]. split; [done|]. exists header. split; [done|].
  unfold header. rewrite take_app_mid, drop_app_mid, be_get_put, Z.mod_small by len.
  change (be_get [?x]) with (b2z x). cbn [be_get fold_left]. rewrite b2z_z2b, Z.mod_small by lia. lia.
Qed.

Lemma discard_pad (r : R) (pad rest : bytes) :
  rd_ok r → rd_bytes r = pad ++ rest →
  ∃ r', rd_ok r' ∧ rd_err r' = rd_err r ∧ rd_bytes r' = rest ∧
    (if bool_decide (0 < length pad)%nat then io_CopyN_Discard (length pad) r else (None, r)) = (None, r').
Proof.
  intros Hok Hb. case_bool_decide.
  - destruct (io_CopyN_app r pad rest Hok Hb) as (r' & E & Hok' & Hb' & He'). exists r'. done.
  - exists r. destruct pad; [done|simpl in *; lia].
Qed.

(** A dummy frame costs one round and changes nothing else. *)
Lemma obfs_read_dummy n (r : R) pad rest :
  rd_ok r → Z.of_nat (length pad) < 256 → rd_bytes r = frame ([], pad) ++ rest →
  ∃ r', rd_ok r' ∧ rd_err r' = rd_err r ∧ rd_bytes r' = rest ∧ ∀ f, obfs_read (S f) n r = obfs_read f n r'.
Proof.
  intros Hok Hd Hb.
  destruct (read_frame_header r ([], pad) rest Hok ltac:(split; simpl; lia) Hb)
    as (r1 & Hok1 & He1 & Hb1 & header & E & Hl1 & Hl2).
  destruct (discard_pad r1 pad rest Hok1 Hb1) as (r2 & Hok2 & He2 & Hb2 & E2).
  exists r2. split; [done|]. split; [congruence|]. split; [done|].
  intros f. cbn [obfs_read]. rewrite E, Hl1, Hl2. cbn [fst snd length]. rewrite bool_decide_true by done.
  destruct (bool_decide (0 < length pad)%nat); [by rewrite E2|by simplify_eq].
Qed.

(** A data frame is delivered whole if it fits the buffer; otherwise only its
    header has been consumed. *)
Lemma obfs_read_data n (r : R) p pad rest :
  rd_ok r → good_frame (p, pad) → p ≠ [] → rd_bytes r = frame (p, pad) ++ rest →
  ∃ r', rd_ok r' ∧ rd_err r' = rd_err r ∧
    if bool_decide (n < length p)%nat
    then rd_bytes r' = p ++ pad ++ rest ∧ ∀ f, obfs_read (S f) n r = Some ([], Some ErrShortBuffer, r')
    else rd_bytes r' = rest ∧ ∀ f, obfs_read (S f) n r = Some (p, None, r').
Proof.
  intros Hok Hg Hp Hb.
  destruct (read_frame_header r (p, pad) rest Hok Hg Hb) as (r1 & Hok1 & He1 & Hb1 & header & E & Hl1 & Hl2).
  cbn [fst snd] in *. case_bool_decide as Hn.
  { exists r1. split; [done|]. split; [done|]. split; [done|]. intros f. cbn [obfs_read]. rewrite E, Hl1, Hl2.
    by rewrite (bool_decide_false (length p = 0)%nat), bool_decide_true by (done || by destruct p). }
  destruct (io_ReadFull_app r1 p _ Hok1 Hb1) as (r2 & E2 & Hok2 & Hb2 & He2).
  destruct (discard_pad r2 pad rest Hok2 Hb2) as (r3 & Hok3 & He3 & Hb3 & E3).
  exists r3. split; [done|]. split; [congruence|]. split; [done|]. intros f. cbn [obfs_read]. rewrite E, Hl1, Hl2.
  rewrite (bool_decide_false (length p = 0)%nat), bool_decide_false by (done || by destruct p). rewrite E2.
  destruct (bool_decide (0 < length pad)%nat); [by rewrite E3|by simplify_eq].
Qed.

(** Reading a sequence of frames. *)
Lemma obfs_read_frames f n (r : R) fs :
  rd_ok r → Forall good_frame fs → Forall (λ fr, (length fr.1 ≤ n)%nat) fs → (length fs < f)%nat →
  rd_bytes r = encode fs →
  ∃ r', rd_ok r' ∧ rd_err r' = rd_err r ∧
    match next_frame fs with
    | Some (p, fs') => rd_bytes r' = encode fs' ∧ obfs_read f n r = Some (p, None, r')
    | None => obfs_read f n r = Some ([], Some (rd_err r), r')
    end.
Proof.
  revert f r. induction fs as [|[p pad] fs IH]; intros f r Hok Hg Hn Hf Hb; destruct f as [|f]; try (simpl in Hf; lia).
  - destruct (io_ReadFull_short r 3 Hok) as (r' & E & Hok' & _ & He'); [rewrite Hb; simpl; lia|].
    exists r'. split; [done|]. split; [done|]. cbn [next_frame obfs_read]. rewrite E, Hb.
    unfold eof_err. by rewrite bool_decide_false by naive_solver.
  - apply List.Forall_cons_iff in Hg as [Hg1 Hg]. apply List.Forall_cons_iff in Hn as [Hn1 Hn].
    rewrite encode_cons in Hb. destruct p as [|x p].
    + destruct (obfs_read_dummy n r pad _ Hok (proj2 Hg1) Hb) as (r1 & Hok1 & He1 & Hb1 & ->).
      destruct (IH f r1 Hok1 Hg Hn ltac:(simpl in Hf; lia) Hb1) as (r' & Hok' & He' & Hm).
      exists r'. rewrite He1 in *. done.
    + destruct (obfs_read_data n r (x :: p) pad _ Hok Hg1 ltac:(done) Hb) as (r1 & Hok1 & He1 & Hm).
      rewrite bool_decide_false in Hm by (simpl in *; lia). destruct Hm as [Hb1 Hm]. by exists r1.
Qed.

(** The rounds [Read] spends on heartbeats. *)
Lemma obfs_read_dummies n (r : R) pads tail :
  rd_ok r → Forall (λ d : bytes, Z.of_nat (length d) < 256) pads →
  rd_bytes r = encode ((λ d, ([], d)) <$> pads) ++ tail →
  ∃ r', rd_ok r' ∧ rd_err r' = rd_err r ∧ rd_bytes r' = tail ∧
    ∀ f, obfs_read f n r = if bool_decide (f < length pads)%nat then None else obfs_read (f - length pads) n r'.
Proof.
  intros Hok Hp. revert r Hok. induction Hp as [|d pads Hd _ IH]; intros r Hok Hb.
  { exists r. split; [done|]. split; [done|]. split; [done|]. intros f. cbn [length]. by rewrite bool_decide_false, Nat.sub_0_r by lia. }
  rewrite fmap_cons, encode_cons, <-app_assoc in Hb.
  destruct (obfs_read_dummy n r d _ Hok Hd Hb) as (r1 & Hok1 & He1 & Hb1 & Hf1).
  destruct (IH r1 Hok1 Hb1) as (r' & Hok' & He' & Hb' & Hf'). exists r'. split; [done|]. split; [congruence|]. split; [done|].
  intros [|f]; [by rewrite bool_decide_true by (cbn; lia)|]. rewrite Hf1, Hf'. cbn [length Nat.sub].
  by rewrite (bool_decide_ext (S f < S (length pads))%nat (f < length pads)%nat) by lia.
Qed.

End reading.

(** What [sendFrame] writes, for configurations whose lengths fit. *)
Lemma sendFrame_frame c g p fp k :
  0 ≤ maxPad c → fp < 256 → Z.of_nat (length p) < 65536 → budget k = None →
  ∃ pad, Z.of_nat (length pad) < 256 ∧
    sendFrame c g p fp k = (Ok None, {| written := written k ++ [frame (p, pad)]; budget := None |}).
Proof.
  intros Hm Hf Hp Hk. unfold sendFrame. rewrite bool_decide_false by lia.
  set (padLen := if bool_decide (Z.rem _ _ < fp) then _ else _).
  pose proof (b2z_range (f_len g)) as Hb.
  pose proof (Z.rem_bound_pos (b2z (f_len g)) (maxPad c + 1) ltac:(lia) ltac:(lia)) as Hr.
  pose proof (Z.rem_le (b2z (f_len g)) (maxPad c + 1) ltac:(lia) ltac:(lia)) as Hle.
  assert (0 ≤ padLen < 256) as Hpad by (unfold padLen; case_bool_decide; lia).
  exists (f_pad g <$> seq 0 (Z.to_nat padLen)). rewrite length_fmap, length_seq. split; [lia|].
  unfold sink_write. rewrite Hk. do 2 f_equal. f_equal. f_equal. unfold frame. cbn [fst snd].
  rewrite u16_id, length_fmap, length_seq, Z2Nat.id by lia. by rewrite <-app_assoc.
Qed.

Lemma send_all_frames c l k :
  sound_conn c → Forall fits l → budget k = None →
  ∃ fs, Forall good_frame fs ∧ data_of fs = payloads l ∧
        send_all c l k = {| written := written k ++ (frame <$> fs); budget := None |}.
Proof.
  intros [Hm Hd] Hl. revert k. induction Hl as [|ev l Hev Hl IH]; intros k Hk.
  { exists []. rewrite app_nil_r. by destruct k; simpl in *; subst. }
  assert (∀ p g fp, fp < 256 → Z.of_nat (length p) < 65536 →
    ∃ pad, good_frame (p, pad) ∧
      sendFrame c g p fp k = (Ok None, {| written := written k ++ [frame (p, pad)]; budget := None |})) as Hs.
  { intros p g fp Hfp Hp. destruct (sendFrame_frame c g p fp k Hm Hfp Hp Hk) as (pad & ? & ?). by exists pad. }
  destruct ev as [g [|x p]|g]; cbn [send_all Write heartbeat].
  - destruct (IH k Hk) as (fs & Hg & Hp & E). by exists fs.
  - destruct (Hs (x :: p) g 0 ltac:(lia) Hev) as (pad & Hgf & E).
    unfold Write. rewrite E. cbn [snd].
    destruct (IH {| written := written k ++ [frame (x :: p, pad)]; budget := None |} eq_refl) as (fs & Hg & Hp & ->).
    exists ((x :: p, pad) :: fs). split; [by constructor|]. split; [simpl; by rewrite Hp|].
    rewrite fmap_cons. cbn [written]. by rewrite <-app_assoc.
  - destruct (Hs [] g (dummy c) ltac:(lia) ltac:(simpl; lia)) as (pad & Hgf & E).
    unfold heartbeat. rewrite E. cbn [snd].
    destruct (IH {| written := written k ++ [frame ([], pad)]; budget := None |} eq_refl) as (fs & Hg & Hp & ->).
    exists (([], pad) :: fs). split; [by constructor|]. split; [done|].
    rewrite fmap_cons. cbn [written]. by rewrite <-app_assoc.
Qed.

End ObfsFacts.

(** ** Theorems *)
Module ObfsThms.
Import ObfsFacts.

(** ** Closing *)

Lemma sendFrame_closed c g p pad k : budget k = Some 0%nat → (sendFrame c g p pad k).2 = k.
Proof.
  intros Hk. unfold sendFrame. case_bool_decide; [done|]. unfold sink_write. by rewrite Hk.
Qed.

(** Nothing leaves a closed connection: neither writes nor heartbeats that are
    still under way add anything to the wire. *)
Theorem closed_silent (c : ObfsConn) (l : list send_ev) (k : sink) : send_all c l (Close k) = Close k.
Proof.
  induction l as [|[g p|g] l IH]; [done|..]; cbn [send_all].
  - unfold Write. destruct p as [|b p]; [exact IH|]. pose proof (sendFrame_closed c g (b :: p) 0 (Close k) eq_refl) as Hs.
    destruct (sendFrame _ _ _ _ _) as [r k']. cbn in Hs |- *. by rewrite Hs.
  - unfold heartbeat. pose proof (sendFrame_closed c g [] (dummy c) (Close k) eq_refl) as Hs.
    destruct (sendFrame _ _ _ _ _) as [r k']. cbn in Hs |- *. by rewrite Hs.
Qed.

Lemma recv_all_frames f n s fs :
  steady s → Forall good_frame fs → Forall (λ fr, (length fr.1 ≤ n)%nat) fs → stream_bytes s = encode fs →
  (length (data_of fs) < f)%nat →
  recv_all f n {| o_inner := s |} = (data_of fs, Some (fin s)).
Proof.
  revert s fs. induction f as [|f IH]; intros s fs Hok Hg Hn Hb Hf; [lia|].
  cbn [recv_all]. unfold go_read, obfs_reader. cbn [o_inner].
  destruct (obfs_read_frames (S (length (stream_bytes s))) n s fs) as (s' & Hok' & He' & Hm); try done.
  { rewrite Hb. pose proof (encode_length fs). lia. }
  rewrite data_next in Hf |- *. destruct (next_frame fs) as [[p fs']|] eqn:En.
  - destruct Hm as [Hb' ->]. destruct (next_frame_spec _ _ _ En) as (_ & _ & pre & -> & _).
    apply Forall_app in Hg as [_ Hg]. apply Forall_app in Hn as [_ Hn].
    rewrite (IH s' fs') by (done || (simpl in Hf; lia)). change (fin s' = fin s) in He'. by rewrite He'.
  - by rewrite Hm.
Qed.

Lemma in_data fs p pad : (p, pad) ∈ fs → p ≠ [] → p ∈ data_of fs.
Proof.
  intros Hin Hp. apply list_elem_of_omap. exists (p, pad). split; [done|]. by destruct p.
Qed.

(** C21: obfuscation is transparent for settings that fit the frame: a
    maximal padding that is not negative, a dummy size below 256, writes of
    up to 65535 bytes and read buffers that hold the largest of them.
    However the writes and the heartbeats of the sender interleave, whatever
    random padding they draw and however the network cuts the bytes into
    segments, the receiver gets the payloads in order, one per [Read], and
    then the connection's own end. *)
Theorem obfs_roundtrip (c : ObfsConn) (l : list send_ev) (s : stream) (n : nat) :
  sound_conn c → Forall fits l → steady s →
  stream_bytes s = concat (written (send_all c l open_sink)) →
  Forall (λ p, (length p ≤ n)%nat) (payloads l) →
  recv_all (S (length (payloads l))) n {| o_inner := s |} = (payloads l, Some (fin s)).
Proof.
  intros Hc Hl Hs Hb Hn. destruct (send_all_frames c l open_sink Hc Hl eq_refl) as (fs & Hg & Hp & E).
  rewrite E in Hb. cbn [written open_sink app] in Hb. rewrite <-Hp in *.
  apply recv_all_frames; [done|done| |done|lia].
  apply List.Forall_forall. intros [p pad] Hin%list_elem_of_In. cbn [fst].
  destruct p as [|x p]; [simpl; lia|]. rewrite List.Forall_forall in Hn.
  apply Hn, list_elem_of_In. by eapply in_data.
Qed.

Lemma obfs_read_total_gen f n s : (length (stream_bytes s) < f)%nat → is_Some (obfs_read f n s).
Proof.
  revert s. induction f as [|f IH]; intros s Hf; [lia|]. cbn [obfs_read].
  destruct (io_ReadFull 3 s) as [[header [e|]] s1] eqn:E; [done|].
  pose proof (io_ReadFull_stream _ _ _ _ _ E) as Hb. apply io_ReadFull_length in E.
  assert (length (stream_bytes s1) < f)%nat as Hs1 by (rewrite Hb, length_app in Hf; lia).
  case_bool_decide.
  - case_bool_decide; [|by apply IH].
    destruct (io_CopyN_Discard _ s1) as [[e|] s2] eqn:E2; [done|].
    destruct (io_CopyN_stream _ _ _ _ E2) as [got Hb2]. apply IH. rewrite Hb2, length_app in Hs1. lia.
  - case_bool_decide; [done|]. destruct (io_ReadFull _ s1) as [[p [e|]] s2]; [done|].
    case_bool_decide; [|done]. by destruct (io_CopyN_Discard _ s2) as [[e|] s3].
Qed.

(** The fuel is enough: on any stream, with garbage, truncated frames and
    errors anywhere, the loop that skips dummy frames ends within one round
    per remaining byte, and no more fuel changes the answer. *)
Theorem obfs_read_returns (s : stream) (n k : nat) :
  is_Some (obfs_read (S (length (stream_bytes s))) n s) ∧
  obfs_read (S (length (stream_bytes s)) + k) n s = obfs_read (S (length (stream_bytes s))) n s.
Proof.
  split; [apply obfs_read_total_gen; lia|].
  assert (∀ f (s : stream), is_Some (obfs_read f n s) → obfs_read (f + k) n s = obfs_read f n s) as Hmono.
  { clear s. induction f as [|f IH]; intros s [x Hx]; [done|]. revert Hx. cbn [obfs_read Nat.add].
    destruct (io_ReadFull 3 s) as [[header [e|]] s1]; [done|].
    case_bool_decide; [|done]. case_bool_decide; [|intros; by apply IH].
    destruct (io_CopyN_Discard _ s1) as [[e|] s2]; [done|]. intros; by apply IH. }
  apply Hmono, obfs_read_total_gen. lia.
Qed.

(** C36: [Read] returns with the first data frame, and not before.  When the
    connection starts with any number of heartbeats, each a frame without
    payload and up to 255 bytes of padding, and a data frame that fits the
    buffer follows, [Read] returns the payload of that frame after exactly
    one round per heartbeat and one more, the padding of all these frames is
    gone, and the connection stands at the first byte behind them, whatever
    comes there.  When only heartbeats come, [Read] goes through all of them
    without returning, and returns no data and the error of the connection
    when that ends. *)
Theorem obfs_read_skips `{ReaderSpec R} (r : R) (pads : list bytes) (tail : bytes) (n : nat) :
  rd_ok r → Forall (λ d : bytes, Z.of_nat (length d) < 256) pads →
  rd_bytes r = encode ((λ d, ([], d)) <$> pads) ++ tail →
  (∀ p pad rest, tail = frame (p, pad) ++ rest → good_frame (p, pad) → p ≠ [] → (length p ≤ n)%nat →
     ∃ r', rd_ok r' ∧ rd_bytes r' = rest ∧
       ∀ f, obfs_read f n r = if bool_decide (f ≤ length pads)%nat then None else Some (p, None, r')) ∧
  (tail = [] →
     ∃ r', rd_ok r' ∧
       ∀ f, obfs_read f n r = if bool_decide (f ≤ length pads)%nat then None else Some ([], Some (rd_err r), r')).
Proof.
  intros Hok Hp Hb. destruct (obfs_read_dummies n r pads tail Hok Hp Hb) as (r1 & Hok1 & He1 & Hb1 & Hf).
  assert (∀ (x : option (bytes * option goerr * R)), (∀ f, obfs_read (S f) n r1 = x) →
    ∀ f, obfs_read f n r = if bool_decide (f ≤ length pads)%nat then None else x) as Hx.
  { intros x Hx f. rewrite Hf. repeat case_bool_decide; try (done || lia).
    - by replace (f - length pads)%nat with 0%nat by lia.
    - by replace (f - length pads)%nat with (S (f - length pads - 1)) by lia. }
  split.
  - intros p pad rest Ht Hg Hne Hn. rewrite Ht in Hb1. destruct (obfs_read_data n r1 p pad rest Hok1 Hg Hne Hb1) as (r' & Hok' & _ & Hm).
    rewrite bool_decide_false in Hm by lia. destruct Hm as [Hb' Hm]. exists r'. split; [done|]. split; [done|]. by apply Hx.
  - intros ->. destruct (io_ReadFull_short r1 3 Hok1) as (r' & E & Hok' & _ & _); [rewrite Hb1; cbn; lia|].
    exists r'. split; [done|]. apply Hx. intros f. cbn [obfs_read]. rewrite E, Hb1, He1. unfold eof_err.
    by rewrite bool_decide_false by naive_solver.
Qed.

(** A read buffer smaller than the frame is fatal.  [Read] gives up with
    [ErrShortBuffer] after it has consumed the frame header, so the next read
    takes payload bytes for a header. *)
Theorem obfs_short_buffer (c : ObfsConn) (g : frnd) (p : bytes) (s : stream) (n : nat) (rest : bytes) :
  sound_conn c → p ≠ [] → Z.of_nat (length p) < 65536 → (n < length p)%nat → steady s →
  stream_bytes s = concat (written (Write c g p open_sink).2) ++ rest →
  ∃ s' pad, go_read n {| o_inner := s |} = ([], Some ErrShortBuffer, {| o_inner := s' |}) ∧
            stream_bytes s' = p ++ pad ++ rest.
Proof.
  intros [Hm Hd] Hp Hl Hn Hs Hb. destruct (sendFrame_frame c g p 0 open_sink Hm ltac:(lia) Hl eq_refl) as (pad & Hpad & E).
  assert (stream_bytes s = frame (p, pad) ++ rest) as Hb'.
  { rewrite Hb. destruct p as [|x p]; [done|]. cbn [Write]. unfold Write. rewrite E. cbn.
    by rewrite app_nil_r. }
  assert (rd_ok s) as Hok by exact Hs.
  destruct (obfs_read_data n s p pad rest Hok (conj Hl Hpad) Hp Hb')
    as (s' & _ & _ & Hm'). rewrite bool_decide_true in Hm' by done. destruct Hm' as [Hb2 E2].
  exists s', pad. split; [|done]. unfold go_read, obfs_reader. cbn [o_inner]. by rewrite E2.
Qed.

(** Chain relaying does not work over an obfuscated connection.  Whatever
    header of more than four bytes the client writes through its [ObfsConn],
    the node that decodes it through its own [ObfsConn] drops the connection:
    [DecodeNextHop] first asks for the four bytes of the magic number, and a
    frame cannot be read in parts. *)
Theorem relay_over_obfs_fails `{UUID} (c : ObfsConn) (g : frnd) (hdr : bytes) (s : stream) (rest : bytes) :
  sound_conn c → (4 < length hdr)%nat → Z.of_nat (length hdr) < 65536 → steady s →
  stream_bytes s = concat (written (Write c g hdr open_sink).2) ++ rest →
  (HandleRelay {| o_inner := s |}).1 = Ok (RelayDrop ErrShortBuffer).
Proof.
  intros [Hm Hd] Hl Hl' Hs Hb.
  assert (hdr ≠ []) as Hne by (by destruct hdr; simpl in Hl; [lia|]).
  destruct (sendFrame_frame c g hdr 0 open_sink Hm ltac:(lia) Hl' eq_refl) as (pad & Hpad & E).
  assert (stream_bytes s = frame (hdr, pad) ++ rest) as Hb'.
  { rewrite Hb. destruct hdr as [|x p]; [done|]. unfold Write. rewrite E. cbn. by rewrite app_nil_r. }
  assert (rd_ok s) as Hok by exact Hs.
  destruct (obfs_read_data 4 s hdr pad rest Hok (conj Hl' Hpad) Hne Hb')
    as (s' & _ & _ & Hm'). rewrite bool_decide_true in Hm' by done. destruct Hm' as [Hb2 E2].
  assert (@io_ReadFull obfs obfs_reader 4 {| o_inner := s |} = ([], Some ErrShortBuffer, {| o_inner := s' |})) as Er.
  { unfold io_ReadFull. cbn [read_loop]. unfold go_read, obfs_reader at 1. cbn [o_inner]. rewrite E2. done. }
  unfold HandleRelay, DecodeNextHop, read_uint. rewrite Er. done.
Qed.

(** A dummy size that does not fit its byte desynchronises the stream.
    With [dummy_size] of 256 or more the frame announces the size modulo 256,
    and the receiver goes on to read the rest of the random padding as
    frames. *)
Theorem obfs_dummy_overflow (c : ObfsConn) (g : frnd) (s : stream) (rest : bytes) (n : nat) :
  0 ≤ maxPad c → dummy c = 256 → steady s →
  stream_bytes s = concat (written (heartbeat c g open_sink).2) ++ rest →
  ∃ s', steady s' ∧ stream_bytes s' = (f_pad g <$> seq 0 256) ++ rest ∧
    obfs_read (S (length (stream_bytes s))) n s = obfs_read (length (stream_bytes s)) n s'.
Proof.
  intros Hm Hd Hs Hb. pose proof (b2z_range (f_len g)) as Hr.
  pose proof (Z.rem_le (b2z (f_len g)) (maxPad c + 1) ltac:(lia) ltac:(lia)) as Hle.
  assert (stream_bytes s = frame ([], []) ++ ((f_pad g <$> seq 0 256) ++ rest)) as Hb'.
  { rewrite Hb. unfold heartbeat, sendFrame. rewrite bool_decide_false, Hd, bool_decide_true by lia.
    reflexivity. }
  assert (rd_ok s) as Hok by exact Hs.
  destruct (obfs_read_dummy n s [] _ Hok ltac:(simpl; lia) Hb')
    as (s' & Hs' & _ & Hb2 & E). by exists s'.
Qed.

(** A maximal padding of -1 crashes the first write: the padding length
    is drawn modulo zero. *)
Theorem obfs_maxpad_panics (c : ObfsConn) (g : frnd) (p : bytes) (k : sink) :
  maxPad c = -1 → p ≠ [] → (Write c g p k).1 = Panic ∧ (heartbeat c g k).1 = Panic.
Proof.
  intros Hm Hp. unfold heartbeat, Write. destruct p; [done|]. unfold sendFrame. by rewrite Hm.
Qed.

(** ** Concrete runs *)
Import DemoUUID.

Definition demo_conn : ObfsConn := {| maxPad := 64; interval := 1000000; dummy := 32 |}.

Definition demo_frnd : frnd := {| f_len := Byte.x9c; f_pad := λ i, z2b (Z.of_nat i) |}.

Definition demo_events : list send_ev :=
  [SendDummy demo_frnd; SendPayload demo_frnd "hello"; SendDummy demo_frnd; SendPayload demo_frnd " world"].

Definition demo_stream (b : bytes) : stream := {| evs := [inl (take 50 b); inl (drop 50 b)]; fin := EOF |}.

Lemma obfs_roundtrip_witness :
  recv_all 3 64 {| o_inner := demo_stream (concat (written (send_all demo_conn demo_events open_sink))) |} =
    (["hello" : bytes; " world" : bytes], Some EOF).
Proof.
  apply (obfs_roundtrip demo_conn demo_events); [split; simpl; lia|repeat constructor| |vm_compute; reflexivity|].
  - repeat constructor; eexists; reflexivity.
  - repeat constructor; simpl; lia.
Defined.

(** Two heartbeats, a payload, and the beginning of another frame. *)
Lemma obfs_read_skips_witness :
  let s := mk_stream (encode [([], "ab" : bytes); ([], [])] ++ frame ("hello" : bytes, "xyz" : bytes) ++ [Byte.x00]) EOF in
  ∃ s', steady s' ∧ stream_bytes s' = [Byte.x00] ∧
    ∀ f, obfs_read f 64 s = if bool_decide (f ≤ 2)%nat then None else Some ("hello" : bytes, None, s').
Proof.
  intros s. destruct (obfs_read_skips s ["ab" : bytes; []] (frame ("hello" : bytes, "xyz" : bytes) ++ [Byte.x00]) 64) as [Hd _];
    [apply mk_stream_ok|repeat constructor; reflexivity|vm_compute; reflexivity|].
  apply (Hd ("hello" : bytes) ("xyz" : bytes) [Byte.x00]); [reflexivity|split; vm_compute; reflexivity|discriminate|vm_compute; lia].
Defined.

Lemma relay_over_obfs_fails_witness :
  let hdr := NPThms.encoded (NPThms.demo_rnd Byte.x05) (NPThms.demo_meta ["192.0.2.7:80" : bytes]) in
  length hdr = 63%nat ∧
  (HandleRelay {| o_inner := mk_stream (concat (written (Write demo_conn demo_frnd hdr open_sink).2)) EOF |}).1 =
    Ok (RelayDrop ErrShortBuffer).
Proof.
  intros hdr. split; [vm_compute; reflexivity|].
  apply (relay_over_obfs_fails demo_conn demo_frnd hdr _ []);
    [split; simpl; lia|vm_compute; lia|vm_compute; reflexivity|apply mk_stream_ok|vm_compute; reflexivity].
Defined.

Lemma obfs_short_buffer_witness :
  ∃ s' pad, go_read 3 {| o_inner := mk_stream (concat (written (Write demo_conn demo_frnd "hello" open_sink).2)) EOF |}
              = ([], Some ErrShortBuffer, {| o_inner := s' |}) ∧
            stream_bytes s' = ("hello" : bytes) ++ pad ++ [].
Proof.
  apply (obfs_short_buffer demo_conn demo_frnd "hello");
    [split; simpl; lia|done|simpl; lia|simpl; lia|apply mk_stream_ok|vm_compute; reflexivity].
Defined.

Definition big_dummy : ObfsConn := {| maxPad := 0; interval := 1000000; dummy := 256 |}.

Lemma obfs_dummy_overflow_witness :
  let s := mk_stream (concat (written (heartbeat big_dummy demo_frnd open_sink).2)) EOF in
  ∃ s', steady s' ∧ stream_bytes s' = (f_pad demo_frnd <$> seq 0 256) ++ [] ∧
    obfs_read (S (length (stream_bytes s))) 64 s = obfs_read (length (stream_bytes s)) 64 s'.
Proof.
  apply (obfs_dummy_overflow big_dummy demo_frnd);
    [simpl; lia|reflexivity|apply mk_stream_ok|vm_compute; reflexivity].
Defined.

Lemma obfs_maxpad_panics_witness :
  (Write {| maxPad := -1; interval := 0; dummy := 0 |} demo_frnd "x" open_sink).1 = Panic ∧
  (heartbeat {| maxPad := -1; interval := 0; dummy := 0 |} demo_frnd open_sink).1 = Panic.
Proof. by apply obfs_maxpad_panics. Defined.

End ObfsThms.
