(* ===== verification/ProxyProto.v ===== *)
(** * The PROXY protocol: [internal/common/proxyproto.go]

    A listener behind a load balancer learns the client's address from a
    header in front of the client's bytes, in a text (v1) or a binary (v2)
    form.  [WrapProxyProto] looks at the first twelve bytes through a
    [bufio.Reader] and returns a connection that reads on from that buffer. *)

From S2P Require Import Prelude GoNet Stream.

Definition v2Signature : bytes :=
  [Byte.x0d; Byte.x0a; Byte.x0d; Byte.x0a; Byte.x00; Byte.x0d; Byte.x0a; Byte.x51; Byte.x55; Byte.x49;
   Byte.x54; Byte.x0a].

(** [net.TCPAddr]. *)
Record TCPAddr := { aIP : bytes; aPort : Z }.

Record ProxyProtoConn := { reader : bufio; remoteAddr : option TCPAddr }.

(** [RemoteAddr] falls back to the address of the connection itself. *)
Definition RemoteAddr (conn_addr : TCPAddr) (c : ProxyProtoConn) : TCPAddr :=
  match remoteAddr c with Some a => a | None => conn_addr end.

#[export] Instance proxy_reader : GoReader ProxyProtoConn := λ n c,
  let '(got, e, b) := go_read n (reader c) in (got, e, {| reader := b; remoteAddr := remoteAddr c |}).

(** The parsers return the address, [None] for Go's nil, and the reader. *)
Definition parseV1 (br : bufio) : res (option TCPAddr) * bufio :=
  let '(line, e, br1) := ReadString lf br in
  match e with
  | Some e => (Fail e, br1)
  | None =>
      let parts := split_byte sp (TrimSpace line) in
      if bool_decide (length parts < 6)%nat then (Fail (Errorf "invalid v1 header format"), br1)
      else match parts !! 2%nat, parts !! 4%nat with
           | Some p2, Some p4 =>
               (Ok (Some {| aIP := default [] (ParseIP p2); aPort := (Atoi p4).1 |}), br1)
           | _, _ => (Panic, br1)
           end
  end.

(** The address block of a v2 header. *)
Definition v2_addr (af : byte) (data : bytes) : res (option TCPAddr) :=
  if bool_decide (af = Byte.x11) then
    if bool_decide (length data < 12)%nat then Fail (Errorf "insufficient data for ipv4")
    else
      let! ip := slice data 0 4 in
      let! port := slice data 8 10 in
      Ok (Some {| aIP := ip; aPort := be_get port |})
  else if bool_decide (af = Byte.x21) then
    if bool_decide (length data < 36)%nat then Fail (Errorf "insufficient data for ipv6")
    else
      let! ip := slice data 0 16 in
      let! port := slice data 32 34 in
      Ok (Some {| aIP := ip; aPort := be_get port |})
  else Ok None.

Definition parseV2 (br : bufio) : res (option TCPAddr) * bufio :=
  let '(e0, br0) := Discard 12 br in
  match e0 with Some e => (Fail e, br0) | None =>
  match ReadByte br0 with
  | (inr e, br1) => (Fail e, br1)
  | (inl vc, br1) =>
      if bool_decide (Z.shiftr (b2z vc) 4 ≠ 2) then (Fail (Errorf "unsupported version"), br1)
      else match ReadByte br1 with
           | (inr e, br2) => (Fail e, br2)
           | (inl af, br2) =>
               let '(lb, e3, br3) := io_ReadFull 2 br2 in
               match e3 with Some e => (Fail e, br3) | None =>
               let '(data, e4, br4) := io_ReadFull (Z.to_nat (be_get lb)) br3 in
               match e4 with Some e => (Fail e, br4) | None =>
               if bool_decide (Z.land (b2z vc) 15 = 0) then (Ok None, br4)
               else (v2_addr af data, br4)
               end end
           end
  end end.

Definition WrapProxyProto (conn : stream) : res ProxyProtoConn :=
  let '(peek, e, br) := Peek 12 (NewReader conn) in
  match e with
  | Some e => Fail e
  | None =>
      let! p12 := slice peek 0 12 in
      if bool_decide (p12 = v2Signature) then
        match parseV2 br with
        | (Ok a, br') => Ok {| reader := br'; remoteAddr := a |}
        | (Fail _, _) => Fail (Errorf "failed to parse proxy proto v2")
        | (Panic, _) => Panic
        end
      else if has_prefix peek "PROXY " then
        match parseV1 br with
        | (Ok a, br') => Ok {| reader := br'; remoteAddr := a |}
        | (Fail _, _) => Fail (Errorf "failed to parse proxy proto v1")
        | (Panic, _) => Panic
        end
      else Ok {| reader := br; remoteAddr := None |}
  end.

(** [ProxyProtoListener.Accept]: the inner listener's result, wrapped; a
    connection that is refused is an error of [Accept] itself. *)
Definition Accept (inner : res stream) : res ProxyProtoConn :=
  let! conn := inner in WrapProxyProto conn.

(** The headers a proxy sends. *)
Definition v1_line (proto src dst : bytes) (sport dport : Z) : bytes :=
  ("PROXY " : bytes) ++ proto ++ sp :: src ++ sp :: dst ++ sp :: Itoa sport ++ sp :: Itoa dport.

Definition v1_header (proto src dst : bytes) (sport dport : Z) : bytes :=
  v1_line proto src dst sport dport ++ [cr; lf].

Definition v2_header (vc af : byte) (block : bytes) : bytes :=
  v2Signature ++ [vc; af] ++ be_put 2 (Z.of_nat (length block)) ++ block.

Definition v4_block (src dst : bytes) (sport dport : Z) (tlvs : bytes) : bytes :=
  src ++ dst ++ be_put 2 sport ++ be_put 2 dport ++ tlvs.

Module ProxyProtoThms.

(** A line that starts like a v1 header and ends in a digit loses exactly its
    line end. *)
Lemma TrimSpace_line (a : bytes) (d : byte) :
  is_digit d = true →
  TrimSpace ((("PROXY " : bytes) ++ a ++ [d]) ++ [cr; lf]) = ("PROXY " : bytes) ++ a ++ [d].
Proof.
  intros Hd. unfold TrimSpace. set (s := _ ++ [cr; lf]).
  assert (trim_left (length s) s = s) as ->.
  { assert (List.find (has_prefix s) spaces = None) as E by reflexivity.
    destruct (length s); [done|]. cbn [trim_left]. by rewrite E. }
  unfold s. rewrite length_app. cbn [length]. rewrite Nat.add_comm. cbn [Nat.add].
  change [cr; lf] with ([cr] ++ [lf]). rewrite (app_assoc _ [cr]).
  rewrite trim_right_drop by (first [apply spaces_last; done | reflexivity]).
  rewrite trim_right_drop by (first [apply spaces_last; done | reflexivity]).
  rewrite (app_assoc _ a). apply trim_right_keep.
  - apply spaces_last; intros ->; done.
  - destruct d; reflexivity || done.
Qed.

(** ** The first look *)

Lemma Peek_new (s : stream) a rest :
  steady s → stream_bytes s = a ++ rest → length a = 12%nat →
  ∃ br, Peek 12 (NewReader s) = (a, None, br) ∧ bufio_ok br ∧ bufio_bytes br = a ++ rest ∧
        fin (b_src br) = fin s ∧ (12 ≤ length (b_buf br))%nat.
Proof.
  intros Hs Hb Ha. destruct (Peek_spec 12 (NewReader s) (NewReader_ok s Hs)) as (br & E & Hok & Hb' & He).
  { unfold buf_size. lia. }
  assert (bufio_bytes (NewReader s) = a ++ rest) as Hn by done.
  rewrite Hn, take_app_mid, bool_decide_true in E by len. exists br. rewrite E.
  split; [done|]. split; [done|]. split; [congruence|]. split; [done|]. by eapply Peek_buffered.
Qed.

Definition clean (t : bytes) : Prop := sp ∉ t ∧ lf ∉ t.

Ltac clean_tac := rewrite <-contains_byte_false; reflexivity.

Lemma clean_Itoa z : 0 ≤ z → clean (Itoa z).
Proof. intros Hz. split; by apply Itoa_not_in. Qed.

Lemma v1_split proto src dst sport dport :
  clean proto → clean src → clean dst → 0 ≤ sport → 0 ≤ dport →
  split_byte sp (v1_line proto src dst sport dport) =
    [("PROXY" : bytes); proto; src; dst; Itoa sport; Itoa dport].
Proof.
  intros [Hp _] [Hs _] [Hd _] H1 H2. unfold v1_line. change (("PROXY " : bytes)) with (("PROXY" : bytes) ++ [sp]).
  rewrite <-app_assoc. cbn [app]. rewrite split_byte_app by (vm_compute; set_solver).
  rewrite !split_byte_app by (done || by apply clean_Itoa). by rewrite split_byte_none by (by apply clean_Itoa).
Qed.

Lemma v1_line_no_lf proto src dst sport dport :
  clean proto → clean src → clean dst → 0 ≤ sport → 0 ≤ dport → lf ∉ v1_line proto src dst sport dport.
Proof.
  intros [_ Hp] [_ Hs] [_ Hd] [_ H1]%clean_Itoa [_ H2]%clean_Itoa. unfold v1_line.
  assert (lf ∉ ("PROXY " : bytes)) by (vm_compute; set_solver).
  assert (lf ≠ sp) by done. set_solver.
Qed.

Lemma v1_line_shape proto src dst sport dport :
  (3 ≤ length proto)%nat → 0 ≤ dport →
  ∃ a d, v1_line proto src dst sport dport = ("PROXY " : bytes) ++ a ++ [d] ∧ is_digit d = true ∧
         (6 ≤ length a)%nat.
Proof.
  intros Hpl Hdp. pose proof (dec_digits_digits 20 dport [] ltac:(constructor)) as Hds.
  pose proof (dec_digits_nonempty 19 dport []) as Hne. rewrite <-Itoa_nonneg in Hds, Hne by lia.
  destruct (exists_last Hne) as (q & d & E). rewrite E in Hds. apply Forall_app in Hds as [_ Hds].
  inversion_clear Hds. exists (proto ++ sp :: src ++ sp :: dst ++ sp :: Itoa sport ++ sp :: q), d.
  split; [|split; [done|]].
  - unfold v1_line. rewrite E. repeat (rewrite <-app_assoc; cbn [app]). done.
  - repeat (rewrite length_app; cbn [length]). lia.
Qed.

(** The text header gives the client's address and nothing else is lost:
    for a v1 header in any segmentation, the connection reports the source
    address and port of the header and delivers exactly the bytes behind the
    header's line end. *)
Theorem v1_roundtrip (s : stream) (proto src dst payload : bytes) (sport dport : Z) (ip : bytes) (conn : TCPAddr) :
  clean proto → clean src → clean dst → 0 ≤ sport < 65536 → 0 ≤ dport < 65536 → ParseIP src = Some ip →
  (3 ≤ length proto)%nat → steady s → stream_bytes s = v1_header proto src dst sport dport ++ payload →
  ∃ c, WrapProxyProto s = Ok c ∧ RemoteAddr conn c = {| aIP := ip; aPort := sport |} ∧
       bufio_ok (reader c) ∧ bufio_bytes (reader c) = payload.
Proof.
  intros Hp Hs Hd Hsp Hdp Hip Hpl Hst Hb. unfold v1_header in Hb.
  destruct (v1_line_shape proto src dst sport dport Hpl ltac:(lia)) as (a & d & El & Hdig & Hal).
  pose proof (v1_line_no_lf proto src dst sport dport Hp Hs Hd ltac:(lia) ltac:(lia)) as Hlf.
  pose proof (v1_split proto src dst sport dport Hp Hs Hd ltac:(lia) ltac:(lia)) as Hsplit.
  set (line := v1_line proto src dst sport dport) in *.
  assert (stream_bytes s = take 12 line ++ (drop 12 line ++ [cr; lf] ++ payload)) as Hb12
    by (rewrite Hb, (app_assoc (take 12 line)), take_drop; by rewrite <-app_assoc).
  assert (12 ≤ length line)%nat as Hll by (rewrite El, !length_app; simpl; lia).
  destruct (Peek_new s _ _ Hst Hb12) as (br & Ep & Hok & Hbb & _ & _); [rewrite length_take; lia|].
  rewrite <-Hb12, Hb in Hbb.
  assert (until lf (bufio_bytes br) = Some (line ++ [cr; lf], payload)) as Hu.
  { rewrite Hbb. replace ((line ++ [cr; lf]) ++ payload) with ((line ++ [cr]) ++ lf :: payload)
      by (rewrite <-!app_assoc; done).
    rewrite until_cons_delim; [by rewrite <-app_assoc|]. assert (lf ≠ cr) by done. set_solver. }
  destruct (ReadString_spec lf br _ _ Hok Hu) as (br' & Er & Hok' & Hb' & _).
  exists {| reader := br'; remoteAddr := Some {| aIP := ip; aPort := sport |} |}.
  split; [|split; [done|]; split; done].
  unfold WrapProxyProto. rewrite Ep, slice_ok by (rewrite ?length_take; lia). cbn [res_bind].
  rewrite bool_decide_false by (by rewrite El).
  assert (has_prefix (take 12 line) "PROXY " = true) as -> by (by rewrite El).
  unfold parseV1. rewrite Er.
  assert (TrimSpace (line ++ [cr; lf]) = line) as -> by (rewrite El; by apply TrimSpace_line). rewrite Hsplit.
  cbn. by rewrite Hip, Atoi_Itoa by lia.
Qed.

Lemma v2_wraps (s : stream) (src dst tlvs payload : bytes) (sport dport : Z) (cmd : byte) (conn : TCPAddr) :
  length src = 4%nat → length dst = 4%nat → 0 ≤ sport < 65536 → cmd = Byte.x20 ∨ cmd = Byte.x21 →
  Z.of_nat (length tlvs) < 65000 → steady s →
  stream_bytes s = v2_header cmd Byte.x11 (v4_block src dst sport dport tlvs) ++ payload →
  ∃ c, WrapProxyProto s = Ok c ∧
       RemoteAddr conn c = (if bool_decide (cmd = Byte.x20) then conn else {| aIP := src; aPort := sport |}) ∧
       bufio_ok (reader c) ∧ bufio_bytes (reader c) = payload.
Proof.
  intros Hs Hd Hsp Hcmd Ht Hst Hb. set (block := v4_block src dst sport dport tlvs) in *.
  assert (length block = (12 + length tlvs)%nat) as Hbl by (unfold block, v4_block; len).
  unfold v2_header in Hb. rewrite <-!app_assoc in Hb.
  destruct (Peek_new s _ _ Hst Hb eq_refl) as (br & Ep & Hok & Hbb & _ & H12).
  destruct (Discard_buffered br v2Signature _ Hok Hbb ltac:(done) H12) as (br0 & E0 & Hok0 & Hb0 & _).
  destruct (ReadByte_spec br0 cmd _ Hok0 Hb0) as (br1 & E1 & Hok1 & Hb1 & _).
  destruct (ReadByte_spec br1 _ _ Hok1 Hb1) as (br2 & E2 & Hok2 & Hb2 & _).
  destruct (bufio_ReadFull_app br2 (be_put 2 (Z.of_nat (length block))) _ Hok2 Hb2) as (br3 & E3 & Hok3 & Hb3 & _).
  destruct (bufio_ReadFull_app br3 block _ Hok3 Hb3) as (br4 & E4 & Hok4 & Hb4 & _).
  rewrite length_be_put in E3. change (length v2Signature) with 12%nat in E0.
  unfold WrapProxyProto. rewrite Ep, slice_ok by (simpl; lia). cbn [res_bind].
  rewrite bool_decide_true by done. unfold parseV2. rewrite E0, E1.
  rewrite bool_decide_false by (destruct Hcmd as [-> | ->]; naive_solver).
  rewrite E2, E3, be_get_put, Z.mod_small, Nat2Z.id by (simpl; lia). rewrite E4.
  destruct Hcmd as [-> | ->].
  - eexists. split; [done|]. done.
  - rewrite bool_decide_false by done. unfold v2_addr. rewrite bool_decide_true, bool_decide_false by (done || lia).
    rewrite !slice_ok by lia. cbn [res_bind]. eexists. split; [done|]. split; [|done].
    unfold RemoteAddr. cbn [remoteAddr]. unfold block, v4_block. f_equal.
    + by rewrite drop_0, take_app_mid.
    + rewrite app_assoc, take_drop_app_mid by len. rewrite be_get_put. apply Z.mod_small. lia.
Qed.

(** The binary header gives the client's address: for a v2 PROXY header
    for TCP over IPv4, with any TLV extensions behind the addresses, the
    connection reports the source address and port and delivers exactly the
    bytes behind the header; a LOCAL command keeps the connection's own
    address and skips the header all the same. *)
Theorem v2_roundtrip (s : stream) (src dst tlvs payload : bytes) (sport dport : Z) (cmd : byte) (conn : TCPAddr) :
  length src = 4%nat → length dst = 4%nat → 0 ≤ sport < 65536 → cmd = Byte.x20 ∨ cmd = Byte.x21 →
  Z.of_nat (length tlvs) < 65000 → steady s →
  stream_bytes s = v2_header cmd Byte.x11 (v4_block src dst sport dport tlvs) ++ payload →
  ∃ c, WrapProxyProto s = Ok c ∧
       RemoteAddr conn c = (if bool_decide (cmd = Byte.x20) then conn else {| aIP := src; aPort := sport |}) ∧
       bufio_ok (reader c) ∧ bufio_bytes (reader c) = payload.
Proof. apply v2_wraps. Qed.

(** Other traffic passes through: a connection that sends at least twelve
    bytes and starts with neither header keeps its own address and loses no
    byte. *)
Theorem proxy_passthrough (s : stream) (conn : TCPAddr) :
  steady s → (12 ≤ length (stream_bytes s))%nat →
  take 12 (stream_bytes s) ≠ v2Signature → has_prefix (stream_bytes s) "PROXY " = false →
  ∃ c, WrapProxyProto s = Ok c ∧ RemoteAddr conn c = conn ∧
       bufio_ok (reader c) ∧ bufio_bytes (reader c) = stream_bytes s.
Proof.
  intros Hst Hl Hv2 Hv1.
  destruct (Peek_new s (take 12 (stream_bytes s)) (drop 12 (stream_bytes s)) Hst) as (br & Ep & Hok & Hbb & _);
    [by rewrite take_drop|rewrite length_take; lia|]. rewrite take_drop in Hbb.
  unfold WrapProxyProto. rewrite Ep, slice_ok by (rewrite ?length_take; lia). cbn [res_bind].
  change (12 - 0)%nat with 12%nat. rewrite drop_0, take_take, Nat.min_id, bool_decide_false by done.
  assert (has_prefix (take 12 (stream_bytes s)) "PROXY " = false) as ->.
  { unfold has_prefix in *. rewrite take_take. by rewrite Nat.min_l by (simpl; lia). }
  eexists. split; [done|]. done.
Qed.

(** A connection that ends before it has delivered twelve bytes is never
    accepted, whatever protocol it speaks, and the way it ended is returned
    as the error of the listener's own [Accept]. *)
Theorem proxy_short_refused (s : stream) :
  steady s → (length (stream_bytes s) < 12)%nat → Accept (Ok s) = Fail (fin s).
Proof.
  intros Hst Hl. destruct (Peek_spec 12 (NewReader s) (NewReader_ok s Hst)) as (br & E & _);
    [unfold buf_size; lia|]. cbn [Accept res_bind]. unfold Accept, WrapProxyProto. rewrite E.
  change (bufio_bytes (NewReader s)) with (stream_bytes s).
  by rewrite bool_decide_false by lia.
Qed.

(** No client can crash the listener: on any stream, with any errors,
    [WrapProxyProto] returns without an out-of-range access. *)
Theorem proxy_no_panic (s : stream) : WrapProxyProto s ≠ Panic.
Proof.
  unfold WrapProxyProto. destruct (Peek 12 (NewReader s)) as [[peek [e|]] br] eqn:Ep; [done|].
  assert (12 ≤ length peek)%nat as Hl.
  { unfold Peek in Ep. repeat case_bool_decide; simplify_eq. rewrite length_take. lia. }
  rewrite slice_ok by lia. cbn [res_bind]. case_bool_decide; [|destruct (has_prefix peek "PROXY "); [|done]].
  - assert ((parseV2 br).1 ≠ Panic) as Hp; [|by destruct (parseV2 br) as [[]]].
    unfold parseV2. destruct (Discard 12 br) as [[e|] br0]; [done|].
    destruct (ReadByte br0) as [[vc|e] br1]; [|done]. case_bool_decide; [done|].
    destruct (ReadByte br1) as [[af|e] br2]; [|done].
    destruct (io_ReadFull 2 br2) as [[lb [e|]] br3]; [done|].
    destruct (io_ReadFull _ br3) as [[data [e|]] br4]; [done|]. case_bool_decide; [done|].
    simpl. unfold v2_addr. repeat case_bool_decide; try done; by rewrite !slice_ok by lia.
  - assert ((parseV1 br).1 ≠ Panic) as Hp; [|by destruct (parseV1 br) as [[]]].
    unfold parseV1. destruct (ReadString lf br) as [[line [e|]] br1]; [done|]. case_bool_decide as Hlen; [done|].
    destruct (split_byte sp (TrimSpace line)) as [|? [|? [|? [|? [|? [|? ?]]]]]]; simpl in *; try lia; done.
Qed.

(** ** Concrete runs *)

Definition demo_v1 : stream :=
  {| evs := [inl ("PROXY T" : bytes);
             inl (("CP4 192.168.0.1 192.168.0.11 56324 443" : bytes) ++ [cr; lf] ++ ("GET /" : bytes))];
     fin := EOF |}.

Definition local_addr : TCPAddr := {| aIP := [Byte.x0a; Byte.x00; Byte.x00; Byte.x01]; aPort := 9 |}.

Lemma v1_roundtrip_witness :
  ∃ c, WrapProxyProto demo_v1 = Ok c ∧
       RemoteAddr local_addr c = {| aIP := default [] (ParseIP "192.168.0.1"); aPort := 56324 |} ∧
       bufio_ok (reader c) ∧ bufio_bytes (reader c) = ("GET /" : bytes).
Proof.
  apply (v1_roundtrip demo_v1 "TCP4" "192.168.0.1" "192.168.0.11" "GET /" 56324 443);
    [split; clean_tac|split; clean_tac|split; clean_tac|lia|lia|reflexivity|simpl; lia| |reflexivity].
  repeat constructor; eexists; reflexivity.
Defined.

Definition demo_v2 : stream :=
  {| evs := [inl (v2_header Byte.x21 Byte.x11
                    (v4_block [Byte.x01; Byte.x02; Byte.x03; Byte.x04] [Byte.x0a; Byte.x00; Byte.x00; Byte.x01]
                       56324 443 [Byte.x04; Byte.x00; Byte.x00]));
             inl ("GET /" : bytes)]; fin := EOF |}.

Lemma v2_roundtrip_witness :
  ∃ c, WrapProxyProto demo_v2 = Ok c ∧
       RemoteAddr local_addr c = {| aIP := [Byte.x01; Byte.x02; Byte.x03; Byte.x04]; aPort := 56324 |} ∧
       bufio_ok (reader c) ∧ bufio_bytes (reader c) = ("GET /" : bytes).
Proof.
  apply (v2_roundtrip demo_v2 [Byte.x01; Byte.x02; Byte.x03; Byte.x04] [Byte.x0a; Byte.x00; Byte.x00; Byte.x01]
           [Byte.x04; Byte.x00; Byte.x00] "GET /" 56324 443 Byte.x21 local_addr);
    [reflexivity|reflexivity|lia|by right|simpl; lia| |reflexivity].
  repeat constructor; eexists; reflexivity.
Defined.

Lemma proxy_passthrough_witness :
  let s := mk_stream "GET / HTTP/1.1" EOF in
  ∃ c, WrapProxyProto s = Ok c ∧ RemoteAddr local_addr c = local_addr ∧
       bufio_ok (reader c) ∧ bufio_bytes (reader c) = stream_bytes s.
Proof.
  apply (proxy_passthrough (mk_stream "GET / HTTP/1.1" EOF) local_addr);
    [apply mk_stream_ok|vm_compute; lia|done|reflexivity].
Defined.

(** A SOCKS5 greeting is three bytes. *)
Lemma proxy_short_refused_witness :
  Accept (Ok (mk_stream [Byte.x05; Byte.x01; Byte.x00] ErrTimeout)) = Fail ErrTimeout.
Proof. apply proxy_short_refused; [apply mk_stream_ok|vm_compute; lia]. Defined.

End ProxyProtoThms.
