(* ===== verification/Sniffer.v ===== *)
(** * Protocol sniffing: [internal/common/sniffer.go]

    [SniffConn] peeks at the first bytes of a client connection, under a read
    deadline of 100 ms, and extracts the domain of a TLS ClientHello or of an
    HTTP request.  The connection it returns reads on from the peeked buffer,
    so no byte may be lost.  The expiry of the deadline is an error event of
    the stream, met by a [Read] only while sniffing. *)

From S2P Require Import Prelude GoNet Stream.

Record SniffedResult := { Protocol : bytes; Domain : bytes }.

(** The scan of the TLS extensions; every round advances by at least four
    bytes. *)
Fixpoint ext_loop (fuel : nat) (data : bytes) (pos end_ : nat) : res (option bytes) :=
  match fuel with
  | O => Ok None
  | S f =>
      if bool_decide (pos + 4 ≤ end_)%nat then
        let! ty := slice data pos (pos + 2) in
        let! lb := slice data (pos + 2) (pos + 4) in
        let eType := be_get ty in
        let eLen := Z.to_nat (be_get lb) in
        let pos := (pos + 4)%nat in
        if bool_decide (eType = 0) then
          if bool_decide (end_ < pos + eLen)%nat then Ok None
          else
            let snPos := (pos + 2)%nat in
            if bool_decide (pos + eLen < snPos + 3)%nat then Ok None
            else
              let! nb := slice data (snPos + 1) (snPos + 3) in
              let nameLen := Z.to_nat (be_get nb) in
              if bool_decide (pos + eLen < snPos + 3 + nameLen)%nat then Ok None
              else let! name := slice data (snPos + 3) (snPos + 3 + nameLen) in Ok (Some name)
        else ext_loop f data (pos + eLen) end_
      else Ok None
  end.

(** The ClientHello behind the record header. *)
Definition parse_hello (data : bytes) : res (option bytes) :=
  if bool_decide (length data < 4)%nat then Ok None
  else
    let! d0 := index data 0 in
    if bool_decide (d0 ≠ Byte.x01) then Ok None
    else
      let pos := 38%nat in
      if bool_decide (length data < pos + 1)%nat then Ok None
      else
        let! sl := index data pos in
        let pos := (pos + 1 + Z.to_nat (b2z sl))%nat in
        if bool_decide (length data < pos + 2)%nat then Ok None
        else
          let! cb := slice data pos (pos + 2) in
          let pos := (pos + 2 + Z.to_nat (be_get cb))%nat in
          if bool_decide (length data < pos + 1)%nat then Ok None
          else
            let! mb := index data pos in
            let pos := (pos + 1 + Z.to_nat (b2z mb))%nat in
            if bool_decide (length data < pos + 2)%nat then Ok None
            else
              let! xb := slice data pos (pos + 2) in
              let pos := (pos + 2)%nat in
              let end0 := (pos + Z.to_nat (be_get xb))%nat in
              let end_ := if bool_decide (length data < end0)%nat then length data else end0 in
              ext_loop (S (length data)) data pos end_.

Definition sniffTLS (br : bufio) : res (option bytes) * bufio :=
  let '(header, e, br1) := Peek 5 br in
  match e with
  | Some _ => (Ok None, br1)
  | None =>
      match slice header 3 5 with
      | Ok lb =>
          let len0 := Z.to_nat (be_get lb) in
          let len1 := if bool_decide (buf_size < len0)%nat then buf_size else len0 in
          let '(data, e2, br2) := Peek (5 + len1) br1 in
          let '(data, bad, br3) :=
            match e2 with
            | Some _ =>
                let '(d, e3, br3) := Peek (Buffered br2) br2 in
                (d, bool_decide (e3 ≠ None ∨ (length d < 5)%nat), br3)
            | None => (data, false, br2)
            end in
          if bad then (Ok None, br3)
          else (let! d := slice_from data 5 in parse_hello d, br3)
      | Fail e => (Fail e, br1)
      | Panic => (Panic, br1)
      end
  end.

(** [strings.Split(s, "\r\n")]. *)
Fixpoint split_crlf (s : bytes) : list bytes :=
  match s with
  | [] => [[]]
  | x :: s' =>
      match s' with
      | y :: s'' =>
          if bool_decide (x = cr ∧ y = lf) then [] :: split_crlf s''
          else match split_crlf s' with w :: ws => (x :: w) :: ws | [] => [[x]] end
      | [] => [[x]]
      end
  end.

(** [strings.ToLower] as far as a prefix of ASCII letters can tell: no other
    character's lower-case form is one of the letters of "host". *)
Definition lower (c : byte) : byte :=
  if bool_decide (65 ≤ b2z c ∧ b2z c ≤ 90) then z2b (b2z c + 32) else c.

Fixpoint find_host (lines : list bytes) : res (option bytes) :=
  match lines with
  | [] => Ok None
  | line :: r =>
      if has_prefix (lower <$> line) "host:" then
        let! v := slice_from line 5 in
        let host := TrimSpace v in
        match SplitHostPort host with
        | Ok (h, _) => Ok (Some h)
        | _ => Ok (Some host)
        end
      else find_host r
  end.

Definition sniffHTTP (br : bufio) : res (option bytes) * bufio :=
  let n0 := Buffered br in
  let n1 := if bool_decide (n0 < 16)%nat then Z.to_nat 1024 else n0 in
  let n := if bool_decide (buf_size < n1)%nat then buf_size else n1 in
  let '(peek, _, br1) := Peek n br in
  (find_host (split_crlf peek), br1).

Definition methods : list bytes :=
  ["GET " : bytes; "POST" : bytes; "HEAD" : bytes; "PUT " : bytes; "DELE" : bytes; "CONN" : bytes].

(** The HTTP half of [SniffConn], after TLS was ruled out. *)
Definition sniff_http (peek : bytes) (br : bufio) : res (option SniffedResult) * bufio :=
  match slice peek 0 4 with
  | Ok p4 =>
      if bool_decide (p4 ∈ methods) then
        match sniffHTTP br with
        | (Ok (Some d), br') => (Ok (Some {| Protocol := "http"; Domain := d |}), br')
        | (Ok None, br') => (Ok None, br')
        | (Fail e, br') => (Fail e, br')
        | (Panic, br') => (Panic, br')
        end
      else (Ok None, br)
  | Fail e => (Fail e, br)
  | Panic => (Panic, br)
  end.

(** [SniffConn]: the result and the reader of the returned [PeekedConn]. *)
Definition SniffConn (conn : stream) : res (option SniffedResult) * bufio :=
  let '(peek, e, br) := Peek 5 (NewReader conn) in
  match e with
  | Some _ => (Ok None, br)
  | None =>
      match index peek 0, index peek 1 with
      | Ok p0, Ok p1 =>
          if bool_decide (p0 = Byte.x16 ∧ p1 = Byte.x03) then
            match sniffTLS br with
            | (Ok (Some d), br') => (Ok (Some {| Protocol := "tls"; Domain := d |}), br')
            | (Ok None, br') => sniff_http peek br'
            | (Fail e, br') => (Fail e, br')
            | (Panic, br') => (Panic, br')
            end
          else sniff_http peek br
      | _, _ => (Panic, br)
      end
  end.

(** [PeekedConn.Read] reads the buffered reader. *)
Definition PeekedRead (n : nat) (br : bufio) : bytes * option goerr * bufio := go_read n br.

(** A client of the returned connection: reads into buffers of the lengths
    [ns], one after the other, going on after an error. *)
Fixpoint peeked_reads (ns : list nat) (br : bufio) : list (bytes * option goerr) * bufio :=
  match ns with
  | [] => ([], br)
  | n :: ns' =>
      let '(got, e, br1) := PeekedRead n br in
      let '(rs, br2) := peeked_reads ns' br1 in ((got, e) :: rs, br2)
  end.

Definition delivered (rs : list (bytes * option goerr)) : bytes := concat (fst <$> rs).

(** A reference TLS ClientHello. *)
Definition ext_bytes (x : Z * bytes) : bytes :=
  be_put 2 x.1 ++ be_put 2 (Z.of_nat (length x.2)) ++ x.2.

Definition sni_body (name : bytes) : bytes :=
  be_put 2 (Z.of_nat (length name) + 3) ++ Byte.x00 :: be_put 2 (Z.of_nat (length name)) ++ name.

Definition client_hello (ver random sid ciphers comp : bytes) (exts : list (Z * bytes)) : bytes :=
  let xs := concat (ext_bytes <$> exts) in
  let body := ver ++ random ++ z2b (Z.of_nat (length sid)) :: sid ++
              be_put 2 (Z.of_nat (length ciphers)) ++ ciphers ++
              z2b (Z.of_nat (length comp)) :: comp ++ be_put 2 (Z.of_nat (length xs)) ++ xs in
  Byte.x01 :: be_put 3 (Z.of_nat (length body)) ++ body.

Definition tls_record (minor : byte) (h : bytes) : bytes :=
  [Byte.x16; Byte.x03; minor] ++ be_put 2 (Z.of_nat (length h)) ++ h.

Module SnifferThms.

(** ** No out-of-range access *)

Definition answers {A} (o : res A) : Prop := ∃ a, o = Ok a.

Lemma answers_ok {A} (a : A) : answers (Ok a).
Proof. by exists a. Qed.

Lemma ext_loop_safe f data pos end_ : (end_ ≤ length data)%nat → answers (ext_loop f data pos end_).
Proof.
  intros He. revert pos. induction f as [|f IH]; intros pos; [apply answers_ok|]. cbn [ext_loop].
  case_bool_decide; [|apply answers_ok]. rewrite !slice_ok by lia. cbn [res_bind].
  case_bool_decide; [|apply IH]. repeat (case_bool_decide; [apply answers_ok|]).
  rewrite slice_ok by lia. cbn [res_bind]. case_bool_decide; [apply answers_ok|].
  rewrite slice_ok by lia. apply answers_ok.
Qed.

Lemma parse_hello_safe data : answers (parse_hello data).
Proof.
  unfold parse_hello. case_bool_decide; [apply answers_ok|].
  destruct (index_ok data 0) as (x & -> & _); [lia|]. cbn [res_bind]. case_bool_decide; [apply answers_ok|].
  case_bool_decide; [apply answers_ok|]. destruct (index_ok data 38) as (sl & -> & _); [lia|]. cbn [res_bind].
  set (p1 := (38 + 1 + _)%nat). case_bool_decide; [apply answers_ok|].
  rewrite slice_ok by lia. cbn [res_bind]. set (p2 := (p1 + 2 + _)%nat). case_bool_decide; [apply answers_ok|].
  destruct (index_ok data p2) as (mb & -> & _); [lia|]. cbn [res_bind].
  set (p3 := (p2 + 1 + _)%nat). case_bool_decide; [apply answers_ok|].
  rewrite slice_ok by lia. cbn [res_bind]. apply ext_loop_safe. case_bool_decide; lia.
Qed.

Lemma sniffTLS_safe br : answers (sniffTLS br).1 ∧ bufio_bytes (sniffTLS br).2 = bufio_bytes br.
Proof.
  unfold sniffTLS. destruct (Peek 5 br) as [[header e] br1] eqn:E1. pose proof (Peek_bytes _ _ _ _ _ E1) as H1.
  destruct e as [e|]; [split; [apply answers_ok|done]|].
  apply Peek_length in E1. rewrite slice_ok by lia. cbn [res_bind].
  destruct (Peek (5 + _) br1) as [[data e2] br2] eqn:E2. pose proof (Peek_bytes _ _ _ _ _ E2) as H2.
  destruct e2 as [e2|].
  - destruct (Peek (Buffered br2) br2) as [[d e3] br3] eqn:E3. pose proof (Peek_bytes _ _ _ _ _ E3) as H3.
    destruct (bool_decide (e3 ≠ None ∨ (length d < 5)%nat)) eqn:Hb;
      [split; [apply answers_ok|simpl; congruence]|].
    apply bool_decide_eq_false in Hb. assert (5 ≤ length d)%nat as Hd by (apply Nat.nlt_ge; naive_solver).
    rewrite slice_from_ok by done. cbn [res_bind]. split; [apply parse_hello_safe|simpl; congruence].
  - apply Peek_length in E2. rewrite slice_from_ok by lia. cbn [res_bind].
    split; [apply parse_hello_safe|simpl; congruence].
Qed.

Lemma find_host_safe lines : answers (find_host lines).
Proof.
  induction lines as [|line r IH]; [apply answers_ok|]. cbn [find_host].
  destruct (has_prefix (lower <$> line) "host:") eqn:E; [|done].
  assert (5 ≤ length line)%nat as Hl.
  { unfold has_prefix in E. apply bool_decide_eq_true in E. apply (f_equal length) in E.
    rewrite length_take, length_fmap in E. change (length ("host:" : bytes)) with 5%nat in E. lia. }
  rewrite slice_from_ok by done. cbn [res_bind]. destruct (SplitHostPort _) as [[]| |]; apply answers_ok.
Qed.

Lemma sniffHTTP_safe br : answers (sniffHTTP br).1 ∧ bufio_bytes (sniffHTTP br).2 = bufio_bytes br.
Proof.
  unfold sniffHTTP. destruct (Peek _ br) as [[p e] br1] eqn:E. apply Peek_bytes in E.
  split; [apply find_host_safe|done].
Qed.

Lemma sniff_http_safe peek br :
  (4 ≤ length peek)%nat → answers (sniff_http peek br).1 ∧ bufio_bytes (sniff_http peek br).2 = bufio_bytes br.
Proof.
  intros Hl. unfold sniff_http. rewrite slice_ok by lia. case_bool_decide; [|split; [apply answers_ok|done]].
  destruct (sniffHTTP_safe br) as [[o Ho] Hb]. destruct (sniffHTTP br) as [r br']. simpl in *. subst r.
  destruct o; split; first [apply answers_ok|done].
Qed.

Lemma SniffConn_safe (conn : stream) :
  ∃ o br, SniffConn conn = (Ok o, br) ∧ bufio_bytes br = stream_bytes conn.
Proof.
  unfold SniffConn. destruct (Peek 5 (NewReader conn)) as [[peek e] br] eqn:E.
  pose proof (Peek_bytes _ _ _ _ _ E) as Hb. change (bufio_bytes (NewReader conn)) with (stream_bytes conn) in Hb.
  destruct e as [e|]; [by exists None, br|]. apply Peek_length in E.
  destruct (index_ok peek 0) as (p0 & -> & _); [lia|]. destruct (index_ok peek 1) as (p1 & -> & _); [lia|].
  case_bool_decide.
  - destruct (sniffTLS_safe br) as [[o Ho] Hb']. destruct (sniffTLS br) as [r br']. simpl in *. subst r.
    destruct o as [d|]; [eexists _, br'; split; [done|congruence]|].
    destruct (sniff_http_safe peek br' ltac:(lia)) as [[o Ho] Hb'']. destruct (sniff_http peek br') as [r br''].
    simpl in *. subst r. exists o, br''. split; [done|congruence].
  - destruct (sniff_http_safe peek br ltac:(lia)) as [[o Ho] Hb']. destruct (sniff_http peek br) as [r br'].
    simpl in *. subst r. exists o, br'. split; [done|congruence].
Qed.

(** A buffered reader that has met no expired deadline: a stored error is the
    end of the connection, and nothing is behind it. *)
Definition calm (b : bufio) : Prop :=
  steady (b_src b) ∧ (b_err b = None ∨ (b_err b = Some (fin (b_src b)) ∧ stream_bytes (b_src b) = [])).

Lemma fill_calm b : steady (b_src b) → calm (fill b) ∧ fin (b_src (fill b)) = fin (b_src b).
Proof.
  intros Hs. unfold calm, fill. destruct (go_read _ _) as [[got e] s'] eqn:E. cbn [b_src b_err].
  destruct (stream_read_spec _ _ _ _ _ E) as (Hb & _ & Hf & Hst). destruct (Hst Hs) as [Hs' He].
  split; [|done]. split; [done|]. destruct e as [e|]; [right|by left]. destruct He as [-> Hnil].
  rewrite Hnil in Hb. symmetry in Hb. apply app_nil in Hb as [_ Hb]. by rewrite Hf.
Qed.

Lemma peek_loop_calm fuel n b : calm b → calm (peek_loop fuel n b) ∧ fin (b_src (peek_loop fuel n b)) = fin (b_src b).
Proof.
  revert b. induction fuel as [|f IH]; intros b Hb; [done|]. cbn [peek_loop]. case_bool_decide; [|done].
  destruct (fill_calm b (proj1 Hb)) as [Hc Hf]. destruct (IH _ Hc) as [Hc' Hf']. split; [done|congruence].
Qed.

Lemma Peek_calm n b p e b' : calm b → Peek n b = (p, e, b') → calm b' ∧ fin (b_src b') = fin (b_src b).
Proof.
  intros Hb. unfold Peek. destruct (peek_loop_calm (S n) n b Hb) as [Hc Hf].
  case_bool_decide; [by intros [= _ _ <-]|]. case_bool_decide; intros [= _ _ <-]; [|done].
  split; [|done]. split; [apply Hc|by left].
Qed.

Lemma sniffTLS_calm br : calm br → calm (sniffTLS br).2 ∧ fin (b_src (sniffTLS br).2) = fin (b_src br).
Proof.
  intros H0. unfold sniffTLS. destruct (Peek 5 br) as [[header e] br1] eqn:E1. destruct (Peek_calm _ _ _ _ _ H0 E1) as [H1 F1].
  destruct e as [e|]; [done|]. destruct (slice header 3 5) as [l| |]; [|done|done]. cbn [res_bind].
  destruct (Peek (5 + _) br1) as [[data e2] br2] eqn:E2. destruct (Peek_calm _ _ _ _ _ H1 E2) as [H2 F2].
  destruct e2 as [e2|]; [|split; [done|cbn [snd]; congruence]].
  destruct (Peek (Buffered br2) br2) as [[d e3] br3] eqn:E3. destruct (Peek_calm _ _ _ _ _ H2 E3) as [H3 F3].
  destruct (bool_decide (e3 ≠ None ∨ _)); (split; [done|cbn [snd]; congruence]).
Qed.

Lemma sniff_http_calm peek br : calm br → calm (sniff_http peek br).2 ∧ fin (b_src (sniff_http peek br).2) = fin (b_src br).
Proof.
  intros H0. unfold sniff_http. destruct (slice peek 0 4); [|done|done]. case_bool_decide; [|done].
  unfold sniffHTTP. destruct (Peek _ br) as [[p e] br1] eqn:E. destruct (Peek_calm _ _ _ _ _ H0 E) as [H1 F1].
  by destruct (find_host _) as [[]| |].
Qed.

Lemma SniffConn_calm conn : steady conn → calm (SniffConn conn).2 ∧ fin (b_src (SniffConn conn).2) = fin conn.
Proof.
  intros Hs. assert (calm (NewReader conn)) as H0 by (split; [done|by left]). unfold SniffConn.
  destruct (Peek 5 (NewReader conn)) as [[peek e] br] eqn:E. destruct (Peek_calm _ _ _ _ _ H0 E) as [H1 F1].
  change (fin (b_src (NewReader conn))) with (fin conn) in F1. destruct e as [e|]; [done|].
  destruct (index peek 0) as [p0| |]; [|done|done]. destruct (index peek 1) as [p1| |]; [|done|done]. case_bool_decide.
  - destruct (sniffTLS_calm br H1) as [H2 F2]. destruct (sniffTLS br) as [[[d|]| |] br'];
      cbn [snd] in H2, F2 |- *; try (split; [done|congruence]).
    destruct (sniff_http_calm peek br' H2) as [H3 F3]. split; [done|congruence].
  - destruct (sniff_http_calm peek br H1) as [H2 F2]. split; [done|congruence].
Qed.

(** A read of such a reader gives at least a byte, or the end when nothing is
    left. *)
Lemma calm_read n b got e b' :
  calm b → (0 < n)%nat → go_read n b = (got, e, b') →
  calm b' ∧ fin (b_src b') = fin (b_src b) ∧ match e with None => got ≠ [] | Some e => e = fin (b_src b) ∧ got = [] ∧ bufio_bytes b = [] end.
Proof.
  intros [Hs He] Hn. destruct n as [|n]; [lia|]. unfold go_read, bufio_reader, calm.
  destruct (b_buf b) as [|x bs] eqn:Eb; [|intros [= <- <- <-]; done].
  destruct (b_err b) as [e0|] eqn:Ee.
  { destruct He as [He|[[= ->] Hnil]]; [done|]. intros [= <- <- <-]. split; [split; [done|by left]|]. split; [done|].
    split; [done|]. split; [done|]. unfold bufio_bytes. by rewrite Eb, Hnil. }
  case_bool_decide.
  - destruct (go_read (S n) (b_src b)) as [[g1 e1] s1] eqn:E1. intros [= <- <- <-].
    destruct (stream_read_spec _ _ _ _ _ E1) as (Hb & _ & Hf & Hst). destruct (Hst Hs) as [Hs' Hm]. cbn [b_src b_err].
    split; [split; [done|by left]|]. split; [done|]. destruct e1 as [e1|]; [|apply Hm; lia]. destruct Hm as [-> Hnil].
    split; [done|]. unfold bufio_bytes. rewrite Eb, Hnil. rewrite Hnil in Hb. symmetry in Hb. by apply app_nil in Hb as [-> _].
  - destruct (go_read buf_size (b_src b)) as [[g1 e1] s1] eqn:E1.
    destruct (stream_read_spec _ _ _ _ _ E1) as (Hb & _ & Hf & Hst). destruct (Hst Hs) as [Hs' Hm].
    destruct g1 as [|y g1]; intros [= <- <- <-]; cbn [b_src b_err].
    + split; [split; [done|by left]|]. split; [done|]. destruct e1 as [e1|]; [|by destruct (Hm ltac:(unfold buf_size; lia))].
      destruct Hm as [-> Hnil]. split; [done|]. unfold bufio_bytes. by rewrite Eb, Hnil.
    + destruct e1 as [e1|]; [destruct Hm as [_ Hnil]; rewrite Hnil in Hb; done|]. split; [split; [done|by left]|]. done.
Qed.

Lemma peeked_reads_bytes ns br : bufio_bytes br = delivered (peeked_reads ns br).1 ++ bufio_bytes (peeked_reads ns br).2.
Proof.
  revert br. induction ns as [|n ns IH]; intros br; [done|]. cbn [peeked_reads]. unfold PeekedRead.
  destruct (go_read n br) as [[got e] br1] eqn:E. pose proof (bufio_read_bytes _ _ _ _ _ E) as Hb. specialize (IH br1).
  destruct (peeked_reads ns br1) as [rs br2]. cbn [fst snd] in *. unfold delivered in *. cbn. rewrite Hb, IH. by rewrite app_assoc.
Qed.

Lemma peeked_reads_calm ns br :
  calm br → Forall (λ n, 0 < n)%nat ns →
  Forall (λ r, (r.1 ≠ [] ∧ r.2 = None) ∨ r = ([], Some (fin (b_src br)))) (peeked_reads ns br).1 ∧
  ((length (bufio_bytes br) ≤ length ns)%nat → delivered (peeked_reads ns br).1 = bufio_bytes br).
Proof.
  intros Hc Hns. revert br Hc. induction Hns as [|n ns Hn _ IH]; intros br Hc.
  { split; [constructor|]. cbn. intros Hl. symmetry. apply length_zero_iff_nil. lia. }
  cbn [peeked_reads]. unfold PeekedRead. destruct (go_read n br) as [[got e] br1] eqn:E.
  destruct (calm_read _ _ _ _ _ Hc Hn E) as (Hc1 & Hf & He). pose proof (bufio_read_bytes _ _ _ _ _ E) as Hb.
  destruct (IH br1 Hc1) as [HF HD]. rewrite Hf in HF. destruct (peeked_reads ns br1) as [rs br2]. cbn [fst snd] in *. split.
  - constructor; [|done]. destruct e as [e|]; [right; destruct He as (-> & -> & _); done|by left].
  - unfold delivered in *. cbn. intros Hl. rewrite Hb, length_app in Hl. rewrite Hb, HD; [done|].
    destruct e as [e|]; [destruct He as (_ & _ & Hnil); rewrite Hnil in Hb; symmetry in Hb; apply app_nil in Hb as [_ ->]; cbn; lia|].
    destruct got; [done|]. cbn in Hl. lia.
Qed.

(** C32: sniffing is safe and loses nothing.  Whatever a client sends, in any
    segmentation, truncated by the deadline or by an error anywhere,
    [SniffConn] returns, with no out-of-range access.  What reads of the
    returned connection deliver, with buffers of any lengths and also past
    errors, is a prefix of what the client sent.  When no read deadline has
    expired, every read delivers something or, once everything is delivered,
    reports the end of the connection, so that as many reads as there are
    bytes deliver exactly what the client sent. *)
Theorem sniff_preserves (conn : stream) :
  ∃ o br, SniffConn conn = (Ok o, br) ∧
    (∀ ns, delivered (peeked_reads ns br).1 `prefix_of` stream_bytes conn) ∧
    (steady conn → ∀ ns, Forall (λ n, 0 < n)%nat ns →
       Forall (λ r, (r.1 ≠ [] ∧ r.2 = None) ∨ r = ([], Some (fin conn))) (peeked_reads ns br).1 ∧
       ((length (stream_bytes conn) ≤ length ns)%nat → delivered (peeked_reads ns br).1 = stream_bytes conn)).
Proof.
  destruct (SniffConn_safe conn) as (o & br & E & Hb). exists o, br. split; [done|]. rewrite <-Hb. split.
  - intros ns. eexists. apply peeked_reads_bytes.
  - intros Hs ns Hns. destruct (SniffConn_calm conn Hs) as [Hc Hf]. rewrite E in Hc, Hf. cbn [snd] in Hc, Hf.
    rewrite <-Hf. by apply peeked_reads_calm.
Qed.

(** ** The server name *)

Lemma be_get2 z : 0 ≤ z < 65536 → be_get (be_put 2 z) = z.
Proof. intros. rewrite be_get_put. apply Z.mod_small. lia. Qed.

(** One extension at the cursor. *)
Lemma ext_at data pos ty body r :
  0 ≤ ty < 65536 → Z.of_nat (length body) < 65536 → at_pos data pos (ext_bytes (ty, body) ++ r) →
  slice data pos (pos + 2) = Ok (be_put 2 ty) ∧
  slice data (pos + 2) (pos + 4) = Ok (be_put 2 (Z.of_nat (length body))) ∧
  at_pos data (pos + 4) (body ++ r).
Proof.
  intros Ht Hb Hat. unfold ext_bytes in Hat. cbn [fst snd] in Hat. rewrite <-!app_assoc in Hat.
  pose proof (at_pos_app _ _ _ _ 2 Hat (length_be_put _ _)) as Hat2.
  pose proof (at_pos_slice _ _ _ _ 2 Hat2 (length_be_put _ _)) as E2.
  pose proof (at_pos_app _ _ _ _ 2 Hat2 (length_be_put _ _)) as Hat3.
  rewrite <-!Nat.add_assoc in E2, Hat3. split; [|done]. by apply (at_pos_slice _ _ _ _ 2 Hat), length_be_put.
Qed.

Lemma ext_loop_skip f data pos ty body r :
  0 < ty < 65536 → Z.of_nat (length body) < 65536 → at_pos data pos (ext_bytes (ty, body) ++ r) →
  ext_loop (S f) data pos (length data) = ext_loop f data (pos + 4 + length body) (length data) ∧
  at_pos data (pos + 4 + length body) r.
Proof.
  intros Ht Hb Hat. destruct (ext_at data pos ty body r ltac:(lia) Hb Hat) as (E1 & E2 & Hat').
  pose proof (at_pos_length _ _ _ Hat') as Hl. split; [|by eapply at_pos_app].
  cbn [ext_loop]. rewrite bool_decide_true by lia. rewrite E1, E2. cbn [res_bind].
  rewrite !be_get2, bool_decide_false, Nat2Z.id by lia. done.
Qed.

Lemma ext_loop_hit f data pos name r :
  Z.of_nat (length name) < 65000 → at_pos data pos (ext_bytes (0, sni_body name) ++ r) →
  ext_loop (S f) data pos (length data) = Ok (Some name).
Proof.
  intros Hn Hat. assert (length (sni_body name) = (5 + length name)%nat) as Hsl by (unfold sni_body; len).
  destruct (ext_at data pos 0 (sni_body name) r ltac:(lia) ltac:(lia) Hat) as (E1 & E2 & Hat3).
  pose proof (at_pos_length _ _ _ Hat3) as Hl. rewrite length_app, Hsl in Hl.
  unfold sni_body in Hat3. rewrite <-app_assoc in Hat3. cbn [app] in Hat3.
  pose proof (at_pos_app _ _ _ _ 2 Hat3 (length_be_put _ _)) as Hat4.
  pose proof (at_pos_app _ _ [Byte.x00] _ 1 Hat4 eq_refl) as Hat5. rewrite <-app_assoc in Hat5.
  pose proof (at_pos_slice _ _ _ _ 2 Hat5 (length_be_put _ _)) as E5.
  pose proof (at_pos_app _ _ _ _ 2 Hat5 (length_be_put _ _)) as Hat6.
  pose proof (at_pos_slice _ _ _ _ (length name) Hat6 eq_refl) as E6.
  cbn [ext_loop]. rewrite bool_decide_true by lia. rewrite E1, E2. cbn [res_bind].
  rewrite !be_get2, Hsl, Nat2Z.id, bool_decide_true by lia. rewrite !bool_decide_false by lia.
  replace (pos + 4 + 2 + 3)%nat with (pos + 4 + 2 + 1 + 2)%nat by lia. rewrite E5. cbn [res_bind].
  rewrite be_get2, Nat2Z.id, bool_decide_false by lia. by rewrite E6.
Qed.

(** The scan finds the first server_name extension. *)
Lemma ext_loop_sni f data pos pre name post :
  Forall (λ x, 0 < x.1 < 65536 ∧ Z.of_nat (length x.2) < 65536) pre → Z.of_nat (length name) < 65000 →
  at_pos data pos (concat (ext_bytes <$> pre ++ (0, sni_body name) :: post)) → (length pre < f)%nat →
  ext_loop f data pos (length data) = Ok (Some name).
Proof.
  intros Hpre Hn. revert pos f. induction Hpre as [|[t b] pre [Ht Hb] _ IH]; intros pos f Hat Hf;
    (destruct f as [|f]; [simpl in Hf; lia|]).
  - exact (ext_loop_hit f data pos name _ Hn Hat).
  - destruct (ext_loop_skip f data pos t b _ Ht Hb Hat) as [-> Hat']. apply IH; [done|]. simpl in Hf. lia.
Qed.

(** The fields in front of the extensions. *)
Lemma parse_hello_sni ver random sid ciphers comp pre name post :
  length ver = 2%nat → length random = 32%nat → Z.of_nat (length sid) < 256 →
  Z.of_nat (length ciphers) < 65536 → Z.of_nat (length comp) < 256 →
  Forall (λ x, 0 < x.1 < 65536 ∧ Z.of_nat (length x.2) < 65536) pre → Z.of_nat (length name) < 65000 →
  Z.of_nat (length (concat (ext_bytes <$> pre ++ (0, sni_body name) :: post))) < 65536 →
  parse_hello (client_hello ver random sid ciphers comp (pre ++ (0, sni_body name) :: post)) = Ok (Some name).
Proof.
  intros Hv Hr Hsid Hci Hco Hpre Hn Hx. unfold client_hello.
  set (xs := concat _) in *. set (body := ver ++ _). set (data := Byte.x01 :: _).
  assert (at_pos data 38 (z2b (Z.of_nat (length sid)) :: sid ++ be_put 2 (Z.of_nat (length ciphers)) ++ ciphers ++
    z2b (Z.of_nat (length comp)) :: comp ++ be_put 2 (Z.of_nat (length xs)) ++ xs)) as H0.
  { change 38%nat with (0 + 1 + 3 + 2 + 32)%nat. eapply at_pos_app; [|exact Hr].
    eapply at_pos_app; [|exact Hv]. eapply at_pos_app; [|apply (length_be_put 3)].
    by apply (at_pos_app data 0 [Byte.x01] _ 1). }
  pose proof (at_pos_length _ _ _ H0) as L0.
  pose proof (at_pos_index _ _ _ _ H0) as I0. pose proof (at_pos_app _ _ [_] _ 1 H0 eq_refl) as H1.
  pose proof (at_pos_app _ _ _ _ (length sid) H1 eq_refl) as H2. pose proof (at_pos_length _ _ _ H2) as L2.
  pose proof (at_pos_slice _ _ _ _ 2 H2 (length_be_put _ _)) as S2.
  pose proof (at_pos_app _ _ _ _ 2 H2 (length_be_put _ _)) as H3.
  pose proof (at_pos_app _ _ _ _ (length ciphers) H3 eq_refl) as H4. pose proof (at_pos_length _ _ _ H4) as L4.
  pose proof (at_pos_index _ _ _ _ H4) as I4. pose proof (at_pos_app _ _ [_] _ 1 H4 eq_refl) as H5.
  pose proof (at_pos_app _ _ _ _ (length comp) H5 eq_refl) as H6. pose proof (at_pos_length _ _ _ H6) as L6.
  pose proof (at_pos_slice _ _ _ _ 2 H6 (length_be_put _ _)) as S6.
  pose proof (at_pos_app _ _ _ _ 2 H6 (length_be_put _ _)) as H7. pose proof (at_pos_length _ _ _ H7) as L7.
  rewrite length_cons in L0, L4. rewrite length_app, length_be_put in L2, L6.
  unfold parse_hello. rewrite bool_decide_false by lia. change (index data 0) with (Ok Byte.x01). cbn [res_bind].
  rewrite bool_decide_false by (intros E; by apply E). rewrite bool_decide_false by lia. rewrite I0. cbn [res_bind].
  rewrite b2z_z2b, Z.mod_small, Nat2Z.id by lia. rewrite bool_decide_false by lia. rewrite S2. cbn [res_bind].
  rewrite be_get2, Nat2Z.id by lia. rewrite bool_decide_false by lia. rewrite I4. cbn [res_bind].
  rewrite b2z_z2b, Z.mod_small, Nat2Z.id by lia. rewrite bool_decide_false by lia. rewrite S6. cbn [res_bind].
  rewrite be_get2, Nat2Z.id, bool_decide_false, L7 by lia.
  eapply ext_loop_sni; [exact Hpre|exact Hn|exact H7|].
  enough (length pre ≤ length xs)%nat by lia. unfold xs. rewrite fmap_app, concat_app, length_app.
  clear. induction pre as [|[t b] pre IH]; [simpl; lia|]. rewrite fmap_cons. cbn [concat length].
  rewrite length_app. unfold ext_bytes at 1. rewrite length_app, length_be_put. lia.
Qed.

Lemma length_ext_bytes x : length (ext_bytes x) = (4 + length x.2)%nat.
Proof. unfold ext_bytes. len. Qed.

(** A hello that fits a record of 4096 bytes has fields that fit theirs. *)
Lemma hello_fits minor ver random sid ciphers comp pre name post :
  let hello := client_hello ver random sid ciphers comp (pre ++ (0, sni_body name) :: post) in
  length ver = 2%nat → length random = 32%nat → Z.of_nat (length sid) < 256 → Z.of_nat (length comp) < 256 →
  Forall (λ x, 0 < x.1 < 65536) pre → Z.of_nat (length (tls_record minor hello)) ≤ 4096 →
  parse_hello hello = Ok (Some name).
Proof.
  intros hello Hv Hr Hsid Hco Hpre Hlen. unfold tls_record in Hlen. rewrite !length_app in Hlen.
  unfold hello, client_hello in Hlen. set (xs := concat _) in Hlen.
  repeat (rewrite length_cons in Hlen || rewrite length_app in Hlen).
  assert (Z.of_nat (length xs) < 4096) as Hx by lia.
  assert (∀ x, x ∈ pre ++ (0, sni_body name) :: post → Z.of_nat (length x.2) < 4096) as Hin.
  { intros x Hx1. enough (length (ext_bytes x) ≤ length xs)%nat as Hle by (rewrite length_ext_bytes in Hle; lia).
    unfold xs. apply elem_of_Permutation in Hx1 as [l ->]. rewrite fmap_cons. cbn [concat].
    rewrite length_app. lia. }
  apply parse_hello_sni; try done; try lia.
  - apply List.Forall_forall. intros x Hx1. rewrite List.Forall_forall in Hpre. split; [by apply Hpre|].
    enough (Z.of_nat (length x.2) < 4096) by lia. apply Hin, elem_of_app. left. by apply list_elem_of_In.
  - specialize (Hin (0, sni_body name) ltac:(set_solver)). cbn [snd] in Hin.
    assert (length (sni_body name) = (5 + length name)%nat) by (unfold sni_body; len). lia.
  - fold xs. lia.
Qed.

Lemma Peek_take n br :
  bufio_ok br → (n ≤ buf_size)%nat → (n ≤ length (bufio_bytes br))%nat →
  ∃ br', Peek n br = (take n (bufio_bytes br), None, br') ∧ bufio_ok br' ∧ bufio_bytes br' = bufio_bytes br.
Proof.
  intros Hok Hn Hl. destruct (Peek_spec n br Hok Hn) as (br' & E & Hok' & Hb' & _).
  rewrite bool_decide_true in E by done. eauto.
Qed.

(** The server name is found: for a client whose first record is a
    ClientHello of at most 4096 bytes in all, with any session id, cipher
    suites, compression methods and extensions in front of and behind the
    server_name extension, [SniffConn] reports TLS and exactly that name. *)
Theorem sniff_tls_sni (s : stream) (minor : byte) (ver random sid ciphers comp : bytes)
    (pre post : list (Z * bytes)) (name rest : bytes) :
  let hello := client_hello ver random sid ciphers comp (pre ++ (0, sni_body name) :: post) in
  length ver = 2%nat → length random = 32%nat → Z.of_nat (length sid) < 256 → Z.of_nat (length comp) < 256 →
  Forall (λ x, 0 < x.1 < 65536) pre → Z.of_nat (length (tls_record minor hello)) ≤ 4096 →
  steady s → stream_bytes s = tls_record minor hello ++ rest →
  ∃ br, SniffConn s = (Ok (Some {| Protocol := "tls"; Domain := name |}), br) ∧
        bufio_ok br ∧ bufio_bytes br = stream_bytes s.
Proof.
  intros hello Hv Hr Hsid Hco Hpre Hlen Hs Hb.
  assert (parse_hello hello = Ok (Some name)) as Hp by (by eapply hello_fits).
  assert (length (tls_record minor hello) = (5 + length hello)%nat) as Hrl by (unfold tls_record; len).
  assert (bufio_bytes (NewReader s) = stream_bytes s) as Hn by done.
  assert (∀ br, bufio_bytes br = stream_bytes s → take 5 (bufio_bytes br) =
    [Byte.x16; Byte.x03; minor] ++ be_put 2 (Z.of_nat (length hello))) as H5.
  { intros br ->. rewrite Hb. unfold tls_record. rewrite !app_assoc, <-(app_assoc _ hello). by apply take_app_mid. }
  assert (5 + length hello ≤ length (stream_bytes s))%nat as Hls by (rewrite Hb, length_app; lia).
  destruct (Peek_take 5 (NewReader s) (NewReader_ok s Hs)) as (br & E & Hok & Hbb);
    [unfold buf_size; lia|rewrite Hn; lia|]. rewrite (H5 _ Hn) in E.
  destruct (Peek_take 5 br Hok) as (br1 & E1 & Hok1 & Hbb1); [unfold buf_size; lia|rewrite Hbb, Hn; lia|].
  rewrite H5 in E1 by congruence.
  destruct (Peek_take (5 + length hello) br1 Hok1) as (br2 & E2 & Hok2 & Hbb2);
    [unfold buf_size; lia|rewrite Hbb1, Hbb, Hn; lia|].
  rewrite Hbb1, Hbb, Hn, Hb, take_app_mid in E2 by done.
  exists br2. split; [|split; [done|congruence]].
  unfold SniffConn. rewrite E. change (index _ 0) with (Ok Byte.x16). change (index _ 1) with (Ok Byte.x03).
  cbn iota. rewrite bool_decide_true by done. unfold sniffTLS. rewrite E1.
  change (slice _ 3 5) with (Ok (be_put 2 (Z.of_nat (length hello)))). cbn iota.
  rewrite be_get2, Nat2Z.id by lia. rewrite (bool_decide_false (buf_size < length hello)%nat) by (unfold buf_size; lia).
  rewrite E2. cbn iota. rewrite slice_from_ok by lia. cbn [res_bind].
  assert (drop 5 (tls_record minor hello) = hello) as -> by (unfold tls_record; rewrite app_assoc; by apply drop_app_mid).
  by rewrite Hp.
Qed.

(** ** The HTTP host *)

Definition plain (c : byte) : bool := bool_decide (33 ≤ b2z c ∧ b2z c ≤ 126).

Lemma find_prefix_plain x r : plain x = true → List.find (has_prefix (x :: r)) spaces = None.
Proof. intros H. destruct x; first [reflexivity|vm_compute in H; done]. Qed.

Lemma find_suffix_plain x s : plain x = true → List.find (has_suffix (s ++ [x])) spaces = None.
Proof.
  intros H. rewrite find_suffix; [destruct x; first [reflexivity|vm_compute in H; done]|].
  apply spaces_last; intros ->; vm_compute in H; done.
Qed.

(** One leading space is trimmed off a name of printable characters. *)
Lemma TrimSpace_name name : name ≠ [] → forallb plain name = true → TrimSpace (sp :: name) = name.
Proof.
  intros Hne Hp. unfold TrimSpace. destruct name as [|x r] eqn:En; [done|].
  assert (plain x = true) as Hx by (simpl in Hp; by apply andb_true_iff in Hp as [? _]).
  assert (trim_left (length (sp :: x :: r)) (sp :: x :: r) = x :: r) as ->.
  { cbn [length trim_left]. assert (List.find (has_prefix (sp :: x :: r)) spaces = Some [sp]) as -> by reflexivity.
    cbn [length drop]. destruct (length r); cbn [trim_left]; rewrite ?find_prefix_plain; done. }
  rewrite <-En in *. destruct (exists_last Hne) as (q & y & ->). cbn [length trim_right].
  rewrite find_suffix_plain; [done|]. rewrite forallb_app in Hp. simpl in Hp.
  by apply andb_true_iff in Hp as [_ Hy]; rewrite andb_true_r in Hy.
Qed.

Lemma split_crlf_line l r : cr ∉ l → split_crlf (l ++ [cr; lf] ++ r) = l :: split_crlf r.
Proof.
  induction l as [|x l IH]; intros Hn; [done|].
  specialize (IH ltac:(set_solver)). cbn [app]. destruct (l ++ cr :: lf :: r) as [|y t] eqn:E; [by destruct l|].
  cbn [split_crlf]. rewrite bool_decide_false by set_solver. cbn [app] in IH. rewrite E in IH.
  change (split_crlf (y :: t)) with (split_crlf (y :: t)) in IH. cbn [split_crlf] in IH. by rewrite IH.
Qed.

Definition crlf (l : bytes) : bytes := l ++ [cr; lf].

Lemma split_crlf_lines ls r :
  Forall (λ l, cr ∉ l) ls → split_crlf (concat (crlf <$> ls) ++ r) = ls ++ split_crlf r.
Proof.
  induction 1 as [|l ls Hl _ IH]; [done|]. rewrite fmap_cons. cbn [concat]. unfold crlf at 1.
  rewrite <-!app_assoc, split_crlf_line by done. cbn [app]. by rewrite IH.
Qed.

Lemma find_host_skip ls r :
  Forall (λ l, has_prefix (lower <$> l) "host:" = false) ls → find_host (ls ++ r) = find_host r.
Proof. induction 1 as [|l ls Hl _ IH]; [done|]. cbn [app find_host]. by rewrite Hl. Qed.

Lemma Peek_first seg l e n :
  (0 < n ≤ length seg)%nat → (length seg ≤ buf_size)%nat →
  Peek n (NewReader {| evs := inl seg :: l; fin := e |}) =
    (take n seg, None, {| b_buf := seg; b_err := None; b_src := {| evs := l; fin := e |} |}).
Proof.
  intros Hn Hs. set (br := {| b_buf := seg; b_err := None; b_src := {| evs := l; fin := e |} |}).
  assert (fill (NewReader {| evs := inl seg :: l; fin := e |}) = br) as Hfill.
  { unfold fill, go_read, stream_reader. cbn [NewReader b_buf b_src evs fin length read_evs].
    destruct seg as [|x seg]; [simpl in Hn; lia|]. by rewrite Nat.sub_0_r, bool_decide_true. }
  assert (peek_loop (S n) n (NewReader {| evs := inl seg :: l; fin := e |}) = br) as Hloop.
  { cbn [peek_loop]. rewrite bool_decide_true
      by (cbn [NewReader b_buf b_err length]; unfold buf_size; split; [lia|split; [lia|done]]).
    rewrite Hfill. destruct n; [lia|]. cbn [peek_loop]. rewrite bool_decide_false; [done|].
    cbn [br b_buf]. lia. }
  unfold Peek. rewrite Hloop, bool_decide_false by lia. by rewrite bool_decide_false by (cbn [br b_buf]; lia).
Qed.

Lemma Peek_have n br :
  (n ≤ length (b_buf br))%nat → (n ≤ buf_size)%nat → Peek n br = (take n (b_buf br), None, br).
Proof.
  intros Hn Hs. assert (peek_loop (S n) n br = br) as Hloop.
  { cbn [peek_loop]. by rewrite bool_decide_false by lia. }
  unfold Peek. rewrite Hloop. by rewrite !bool_decide_false by lia.
Qed.

(** The Host header is found: when the request line and the headers up to
    Host arrive in the first segment, of 16 to 4096 bytes, [SniffConn]
    reports HTTP and exactly the name the header gives. *)
Theorem sniff_http_host (seg req name rest : bytes) (pre : list bytes) (l : list (bytes + goerr)) (e : goerr) :
  take 4 seg ∈ methods → Forall (λ h, cr ∉ h ∧ has_prefix (lower <$> h) "host:" = false) (req :: pre) →
  name ≠ [] → forallb plain name = true → colon ∉ name →
  seg = concat (crlf <$> (req :: pre)) ++ crlf (("Host: " : bytes) ++ name) ++ rest →
  16 ≤ Z.of_nat (length seg) ≤ 4096 →
  SniffConn {| evs := inl seg :: l; fin := e |} =
    (Ok (Some {| Protocol := "http"; Domain := name |}),
     {| b_buf := seg; b_err := None; b_src := {| evs := l; fin := e |} |}).
Proof.
  intros Hm Hpre Hne Hpl Hco Hseg Hlen.
  assert (find_host (split_crlf seg) = Ok (Some name)) as Hf.
  { assert (cr ∉ ("Host: " : bytes) ++ name) as Hcr.
    { assert (cr ∉ name) by (intros Hin; assert (plain cr = true) as H by
        (rewrite forallb_forall in Hpl; apply Hpl; by apply list_elem_of_In); vm_compute in H; done).
      assert (cr ∉ ("Host: " : bytes)) by (vm_compute; set_solver). set_solver. }
    rewrite Hseg, split_crlf_lines by (eapply Forall_impl; [exact Hpre|]; naive_solver).
    rewrite find_host_skip by (eapply Forall_impl; [exact Hpre|]; naive_solver).
    unfold crlf. rewrite <-app_assoc, split_crlf_line by done. cbn [find_host].
    change (has_prefix (lower <$> (("Host: " : bytes) ++ name)) "host:") with true. cbn iota.
    rewrite slice_from_ok by (rewrite length_app; simpl; lia). cbn [res_bind].
    change (drop 5 (("Host: " : bytes) ++ name)) with (sp :: name). rewrite TrimSpace_name by done.
    unfold SplitHostPort. by rewrite last_index_byte_None. }
  unfold SniffConn. rewrite Peek_first by (unfold buf_size; lia).
  destruct seg as [|x0 [|x1 [|x2 [|x3 [|x4 seg']]]]]; try (simpl in Hlen; lia).
  change (take 5 _) with [x0; x1; x2; x3; x4]. change (index [x0; x1; x2; x3; x4] 0) with (Ok x0). change (index [x0; x1; x2; x3; x4] 1) with (Ok x1).
  cbn iota. change (take 4 _) with [x0; x1; x2; x3] in Hm.
  rewrite bool_decide_false by (intros [-> ->]; vm_compute in Hm; set_solver).
  unfold sniff_http. change (slice [x0; x1; x2; x3; x4] 0 4) with (Ok [x0; x1; x2; x3]). cbn iota.
  rewrite bool_decide_true by done. unfold sniffHTTP, Buffered. cbn [b_buf].
  set (seg := x0 :: x1 :: x2 :: x3 :: x4 :: seg') in *.
  rewrite (bool_decide_false (length seg < 16)%nat) by lia.
  rewrite (bool_decide_false (buf_size < length seg)%nat) by (unfold buf_size; lia).
  rewrite Peek_have by (cbn [b_buf]; unfold buf_size; lia). cbn [b_buf].
  rewrite take_ge by lia. by rewrite Hf.
Qed.

(** ** A sticky error *)

(** An expired sniffing deadline can outlive the sniffing.  When the
    client announces a TLS record of more than 4091 bytes and sends fewer
    than 4096 bytes before the deadline, the error stays in the buffered
    reader: the relayed connection delivers what was peeked, then reports the
    deadline as an error of the client, although the client goes on to send. *)
Theorem sniff_sticky_timeout (d more : bytes) (minor : byte) (len : Z) (l : list (bytes + goerr)) (e : goerr) (n : nat) :
  let seg := [Byte.x16; Byte.x03; minor] ++ be_put 2 len ++ d in
  4091 < len < 65536 → Z.of_nat (length seg) < 4096 → (length seg ≤ n)%nat →
  ∃ o br br1 br2,
    SniffConn {| evs := inl seg :: inr ErrTimeout :: inl more :: l; fin := e |} = (o, br) ∧
    PeekedRead n br = (seg, None, br1) ∧ PeekedRead n br1 = ([], Some ErrTimeout, br2) ∧
    bufio_bytes br1 = more ++ ev_bytes l.
Proof.
  intros seg Hlen Hsl Hn. assert (5 ≤ length seg)%nat as H5 by (unfold seg; len).
  set (br0 := {| b_buf := seg; b_err := None; b_src := {| evs := inr ErrTimeout :: inl more :: l; fin := e |} |}).
  set (br := {| b_buf := seg; b_err := Some ErrTimeout; b_src := {| evs := inl more :: l; fin := e |} |}).
  assert ((sniffTLS br0).2 = br) as HT.
  { unfold sniffTLS. rewrite Peek_have by (cbn [br0 b_buf]; unfold buf_size; lia).
    change (slice (take 5 _) 3 5) with (Ok (be_put 2 len)). cbn iota. rewrite be_get2 by lia.
    set (len1 := if bool_decide _ then _ else _).
    assert (buf_size < 5 + len1)%nat as Hbig by (unfold len1; case_bool_decide; unfold buf_size in *; lia).
    assert (fill br0 = br) as Hfill.
    { unfold fill, go_read, stream_reader. cbn [br0 b_buf b_src evs fin read_evs]. by rewrite app_nil_r. }
    assert (peek_loop (S (5 + len1)) (5 + len1) br0 = br) as Hloop.
    { cbn [peek_loop]. rewrite bool_decide_true by (cbn [br0 b_buf b_err]; unfold buf_size in *; split; [lia|split; [lia|done]]).
      rewrite Hfill. destruct (5 + len1)%nat; [done|]. cbn [peek_loop]. by rewrite bool_decide_false by naive_solver. }
    unfold Peek at 1. rewrite Hloop, bool_decide_true by done.
    rewrite Peek_have by (unfold Buffered; cbn [br b_buf]; unfold buf_size; lia).
    by destruct (bool_decide (None ≠ None ∨ _)). }
  assert (SniffConn {| evs := inl seg :: inr ErrTimeout :: inl more :: l; fin := e |} = ((SniffConn {| evs := inl seg :: inr ErrTimeout :: inl more :: l; fin := e |}).1, br)) as HS.
  { unfold SniffConn. rewrite Peek_first by (unfold buf_size; lia). fold br0.
    change (index (take 5 seg) 0) with (Ok Byte.x16). change (index (take 5 seg) 1) with (Ok Byte.x03). cbn iota.
    rewrite bool_decide_true by done. destruct (sniffTLS br0) as [[[x|]| |] br'] eqn:E; cbn [snd] in HT; subst br'; try done. }
  eexists _, br, {| b_buf := []; b_err := Some ErrTimeout; b_src := b_src br |}, _.
  split; [exact HS|]. destruct n as [|n]; [lia|]. unfold PeekedRead, go_read, bufio_reader. cbn [b_buf br].
  destruct seg as [|x sg] eqn:Es; [simpl in H5; lia|]. rewrite <-Es in *.
  split; [by rewrite take_ge, drop_ge by lia|]. split; [done|]. done.
Qed.

(** ** Concrete runs *)

Definition demo_hello : bytes :=
  client_hello [Byte.x03; Byte.x03] (replicate 32 Byte.x5a) (replicate 8 Byte.x01)
    [Byte.x13; Byte.x01; Byte.x13; Byte.x02] [Byte.x00]
    ([(23, [])] ++ (0, sni_body "www.example.com") :: [(16, [Byte.x00; Byte.x03; Byte.x02; Byte.x68; Byte.x32])]).

Lemma sniff_tls_sni_witness :
  let s := {| evs := [inl (take 60 (tls_record Byte.x01 demo_hello)); inl (drop 60 (tls_record Byte.x01 demo_hello))];
              fin := EOF |} in
  ∃ br, SniffConn s = (Ok (Some {| Protocol := "tls"; Domain := "www.example.com" |}), br) ∧
        bufio_ok br ∧ bufio_bytes br = stream_bytes s.
Proof.
  intros s. apply (sniff_tls_sni s Byte.x01 [Byte.x03; Byte.x03] (replicate 32 Byte.x5a) (replicate 8 Byte.x01)
    [Byte.x13; Byte.x01; Byte.x13; Byte.x02] [Byte.x00] [(23, [])]
    [(16, [Byte.x00; Byte.x03; Byte.x02; Byte.x68; Byte.x32])] "www.example.com" []);
    [reflexivity|reflexivity|vm_compute; reflexivity|vm_compute; reflexivity| |vm_compute; done| |vm_compute; reflexivity].
  - repeat constructor; simpl; lia.
  - repeat constructor; eexists; reflexivity.
Defined.

Definition demo_req : bytes := concat (crlf <$> ["GET / HTTP/1.1" : bytes; "Accept: */*" : bytes]) ++
  crlf (("Host: " : bytes) ++ ("www.example.com" : bytes)) ++ [cr; lf].

Lemma sniff_http_host_witness :
  SniffConn {| evs := [inl demo_req]; fin := EOF |} =
    (Ok (Some {| Protocol := "http"; Domain := "www.example.com" |}),
     {| b_buf := demo_req; b_err := None; b_src := {| evs := []; fin := EOF |} |}).
Proof.
  apply (sniff_http_host demo_req "GET / HTTP/1.1" "www.example.com" [cr; lf] ["Accept: */*" : bytes] [] EOF);
    [vm_compute; left| |done|reflexivity|rewrite <-contains_byte_false; reflexivity|reflexivity|vm_compute; split; done].
  repeat constructor; first [reflexivity|rewrite <-contains_byte_false; reflexivity].
Defined.

Lemma sniff_sticky_timeout_witness :
  let seg := [Byte.x16; Byte.x03; Byte.x01] ++ be_put 2 5000 ++ ("clienthello..." : bytes) in
  ∃ o br br1 br2,
    SniffConn {| evs := [inl seg; inr ErrTimeout; inl ("the rest" : bytes)]; fin := EOF |} = (o, br) ∧
    PeekedRead 64 br = (seg, None, br1) ∧ PeekedRead 64 br1 = ([], Some ErrTimeout, br2) ∧
    bufio_bytes br1 = ("the rest" : bytes) ++ ev_bytes [].
Proof.
  apply (sniff_sticky_timeout "clienthello..." "the rest" Byte.x01 5000 [] EOF 64); [lia|simpl; lia|simpl; lia].
Defined.

End SnifferThms.
