(* ===== verification/Limits.v ===== *)
(** * Quotas, rate limiters and counters: [internal/common]

    [Quota] is [QuotaManager] (quota.go), [Rate] is [BandwidthLimiter] and
    [LimiterManager] (ratelimit.go), [Metrics] the atomic counters of
    metrics.go, [Pool] the buffer pool of pool.go.  Managers are shared by all
    sessions: next to the sequential operations, [Quota.step] and [Rate.step]
    are their atomic pieces interleaved by any number of goroutines. *)

From S2P Require Import Prelude Stream.

(** ** Traffic quotas *)
Module Quota.

Record QuotaManager := { used : gmap bytes Z; limits : gmap bytes Z }.

Definition NewQuotaManager : QuotaManager := {| used := ∅; limits := ∅ |}.

(** The pieces of [AddUsage]: the counter is created on first use and never
    replaced, the limit is read under the lock, the addition is atomic. *)
Definition load_counter (u : bytes) (m : QuotaManager) : QuotaManager :=
  match used m !! u with
  | Some _ => m
  | None => {| used := <[u := 0]> (used m); limits := limits m |}
  end.

Definition limit_of (m : QuotaManager) (u : bytes) : Z := default 0 (limits m !! u).

Definition used_of (m : QuotaManager) (u : bytes) : Z := default 0 (used m !! u).

Definition counter_add (u : bytes) (n : Z) (m : QuotaManager) : Z * QuotaManager :=
  let current := i64 (used_of m u + n) in
  (current, {| used := <[u := current]> (used m); limits := limits m |}).

Definition exceeded (limit current : Z) : bool := bool_decide (0 < limit ∧ limit < current).

Definition AddUsage (u : bytes) (n : Z) (m : QuotaManager) : bool * QuotaManager :=
  let m1 := load_counter u m in
  let limit := limit_of m1 u in
  let '(current, m2) := counter_add u n m1 in
  (exceeded limit current, m2).

Definition SetLimit (u : bytes) (limit : Z) (m : QuotaManager) : QuotaManager :=
  {| used := used m; limits := <[u := limit]> (limits m) |}.

Definition Reset (u : bytes) (m : QuotaManager) : QuotaManager :=
  match used m !! u with
  | Some _ => {| used := <[u := 0]> (used m); limits := limits m |}
  | None => m
  end.

Definition GetStatus (u : bytes) (m : QuotaManager) : Z * Z := (used_of m u, limit_of m u).

(** Any number of goroutines inside [AddUsage]: [pend] holds the calls that
    have read their limit and not yet added, [log] the finished ones with
    their verdict. *)
Record config := { mgr : QuotaManager; pend : list (bytes * Z * Z); log : list (bytes * Z * bool) }.

Inductive step : config → config → Prop :=
| step_begin u n m p l :
    0 ≤ n →
    step {| mgr := m; pend := p; log := l |}
         {| mgr := load_counter u m; pend := (u, n, limit_of (load_counter u m) u) :: p; log := l |}
| step_add u n lim m m' cur p1 p2 l :
    counter_add u n m = (cur, m') →
    step {| mgr := m; pend := p1 ++ (u, n, lim) :: p2; log := l |}
         {| mgr := m'; pend := p1 ++ p2; log := (u, n, exceeded lim cur) :: l |}.

(** Bytes asked for and bytes let through for one user. *)
Definition asked (u : bytes) (l : list (bytes * Z * bool)) : Z :=
  foldr (λ e acc, (if bool_decide (e.1.1 = u) then e.1.2 else 0) + acc) 0 l.

Definition passed (u : bytes) (l : list (bytes * Z * bool)) : Z :=
  foldr (λ e acc, (if bool_decide (e.1.1 = u) && negb e.2 then e.1.2 else 0) + acc) 0 l.

End Quota.

(** ** Rate limiters *)
Module Rate.

(** A token bucket of the third-party [rate] package is its parameters and
    its identity; [None] is Go's nil limiter, which never limits. *)
Record bucket := { b_id : nat; b_rate : Z; b_burst : Z }.

Definition NewBandwidthLimiter (id : nat) (bytesPerSec : Z) : option bucket :=
  if bool_decide (bytesPerSec ≤ 0) then None
  else Some {| b_id := id; b_rate := bytesPerSec;
               b_burst := i64 (Z.quot bytesPerSec 4 + 1024 * 1024) |}.

Record LimiterManager := {
  limiters : gmap bytes (option bucket);
  defaultRate : Z;
  fresh : nat   (* identity of the next bucket *) }.

Definition NewLimiterManager (defaultMBps : Z) : LimiterManager :=
  {| limiters := ∅; defaultRate := i64 (i64 (defaultMBps * 1024) * 1024); fresh := 0 |}.

(** The section of [GetOrCreate] under the write lock. *)
Definition create_locked (u : bytes) (m : LimiterManager) : option bucket * LimiterManager :=
  match limiters m !! u with
  | Some l => (l, m)
  | None =>
      let l := NewBandwidthLimiter (fresh m) (defaultRate m) in
      (l, {| limiters := <[u := l]> (limiters m); defaultRate := defaultRate m; fresh := S (fresh m) |})
  end.

Definition GetOrCreate (u : bytes) (m : LimiterManager) : option bucket * LimiterManager :=
  if bool_decide (u = []) then (None, m)
  else match limiters m !! u with
       | Some l => (l, m)
       | None => create_locked u m
       end.

Definition Update (u : bytes) (mbps : Z) (m : LimiterManager) : LimiterManager :=
  {| limiters := <[u := NewBandwidthLimiter (fresh m) (i64 (i64 (mbps * 1024) * 1024))]> (limiters m);
     defaultRate := defaultRate m; fresh := S (fresh m) |}.

(** Goroutines inside [GetOrCreate]: between the read-locked look and the
    write lock another one may have created the limiter. *)
Record config := { mgr : LimiterManager; slow : list bytes; got : list (bytes * option bucket) }.

Inductive step : config → config → Prop :=
| step_fast u l m s g :
    u ≠ [] → limiters m !! u = Some l →
    step {| mgr := m; slow := s; got := g |} {| mgr := m; slow := s; got := (u, l) :: g |}
| step_miss u m s g :
    u ≠ [] → limiters m !! u = None →
    step {| mgr := m; slow := s; got := g |} {| mgr := m; slow := u :: s; got := g |}
| step_lock u l m m' s1 s2 g :
    create_locked u m = (l, m') →
    step {| mgr := m; slow := s1 ++ u :: s2; got := g |} {| mgr := m'; slow := s1 ++ s2; got := (u, l) :: g |}.

(** [LimitReader.Read]: [wait n] is what the limiter's [WaitN] returns for n
    bytes under the session's context. *)
Definition LimitRead `{GoReader R} (limiter : option bucket) (wait : Z → option goerr) (n : nat) (r : R) :
  bytes * option goerr * R :=
  let '(got, e, r') := go_read n r in
  match got, limiter with
  | _ :: _, Some _ =>
      match wait (Z.of_nat (length got)) with
      | Some werr => (got, Some werr, r')
      | None => (got, e, r')
      end
  | _, _ => (got, e, r')
  end.

End Rate.

(** ** Counters *)
Module Metrics.

Record counters := { activeCount : Z; totalBytesIn : Z; totalBytesOut : Z }.

Definition IncActiveSessions (c : counters) : counters :=
  {| activeCount := i64 (activeCount c + 1); totalBytesIn := totalBytesIn c; totalBytesOut := totalBytesOut c |}.

Definition DecActiveSessions (c : counters) : counters :=
  {| activeCount := i64 (activeCount c - 1); totalBytesIn := totalBytesIn c; totalBytesOut := totalBytesOut c |}.

Definition GetActiveSessions (c : counters) : Z := activeCount c.

Definition AddBytesIn (n : Z) (c : counters) : counters :=
  {| activeCount := activeCount c; totalBytesIn := i64 (totalBytesIn c + n); totalBytesOut := totalBytesOut c |}.

Definition AddBytesOut (n : Z) (c : counters) : counters :=
  {| activeCount := activeCount c; totalBytesIn := totalBytesIn c; totalBytesOut := i64 (totalBytesOut c + n) |}.

Definition GetTotalStats (c : counters) : Z * Z := (totalBytesIn c, totalBytesOut c).

End Metrics.

(** ** Buffers *)
Module Pool.

Definition BufferSize : nat := Z.to_nat (32 * 1024).

(** [sync.Pool]: [Get] may return any pooled buffer or make a new one. *)
Definition GetBuf (pool : list bytes) : bytes * list bytes :=
  match pool with
  | b :: r => (b, r)
  | [] => (replicate BufferSize Byte.x00, [])
  end.

Definition PutBuf (buf : bytes) (pool : list bytes) : list bytes :=
  if bool_decide (length buf ≠ BufferSize) then pool else buf :: pool.

Definition pool_ok (pool : list bytes) : Prop := Forall (λ b, length b = BufferSize) pool.

End Pool.

Module LimitsThms.
Import Quota.

(** ** Quotas *)

Lemma used_load u v m : used_of (load_counter u m) v = used_of m v.
Proof.
  unfold load_counter. destruct (used m !! u) eqn:E; [done|]. unfold used_of. simpl.
  destruct (decide (u = v)) as [->|Hn]; [by rewrite lookup_insert_eq, E|by rewrite lookup_insert_ne].
Qed.

Lemma limit_load u v m : limit_of (load_counter u m) v = limit_of m v.
Proof. unfold load_counter. by destruct (used m !! u). Qed.

Lemma counter_add_spec u n m cur m' :
  counter_add u n m = (cur, m') →
  cur = i64 (used_of m u + n) ∧ used_of m' u = cur ∧ (∀ v, v ≠ u → used_of m' v = used_of m v) ∧
  (∀ v, limit_of m' v = limit_of m v).
Proof.
  intros [= <- <-]. unfold used_of, limit_of. simpl. split; [done|]. split; [by rewrite lookup_insert_eq|].
  split; [|done]. intros v Hv. by rewrite lookup_insert_ne.
Qed.

Lemma asked_passed u l : Forall (λ e : bytes * Z * bool, 0 ≤ e.1.2) l → 0 ≤ passed u l ≤ asked u l.
Proof. induction 1 as [|[[v n] b] l Hn _ IH]; simpl in *; [lia|]. case_bool_decide; destruct b; simpl; lia. Qed.

(** The invariant of concurrent accounting, for one user whose total stays in
    range. *)
Definition quota_inv (u : bytes) (lim base : Z) (c : config) : Prop :=
  limit_of (mgr c) u = lim ∧ Forall (λ p, 0 ≤ p.1.2 ∧ (p.1.1 = u → p.2 = lim)) (pend c) ∧
  Forall (λ e, 0 ≤ e.1.2) (log c) ∧
  (base + asked u (log c) < 2 ^ 63 →
     used_of (mgr c) u = base + asked u (log c) ∧ passed u (log c) ≤ Z.max 0 (lim - base)).

Lemma quota_inv_step u lim base c c' :
  0 < lim → 0 ≤ base → quota_inv u lim base c → step c c' → quota_inv u lim base c'.
Proof.
  intros Hlim Hbase (Hl & Hp & Hg & Hi) Hs. destruct Hs as [v n m p l Hn|v n lm m m' cur p1 p2 l E].
  - cbn [mgr pend log] in *. unfold quota_inv. cbn [mgr pend log]. rewrite limit_load, used_load.
    split; [done|]. split; [|done]. constructor; [|done]. cbn. split; [done|]. intros ->. by rewrite limit_load.
  - cbn [mgr pend log] in *. destruct (counter_add_spec _ _ _ _ _ E) as (Hcur & Hu & Hne & Hlm).
    apply Forall_app in Hp as [Hp1 Hp2]. apply List.Forall_cons_iff in Hp2 as [[Hn Hlv] Hp2]. cbn [fst snd] in Hn, Hlv.
    pose proof (asked_passed u l Hg) as Hap. unfold quota_inv. cbn [mgr pend log].
    split; [by rewrite Hlm|]. split; [by apply Forall_app|]. split; [by constructor|].
    intros Htot. cbn [asked passed foldr fst snd] in *. fold (asked u l) (passed u l) in *.
    case_bool_decide as Hv; cbn [andb] in *; [subst v|by rewrite Hne by done; apply Hi; lia].
    destruct Hi as [Hus Hpa]; [lia|]. rewrite Hus in Hcur. rewrite i64_id in Hcur by lia.
    rewrite Hu, Hcur. split; [lia|]. rewrite Hlv by done. unfold exceeded. case_bool_decide; simpl; lia.
Qed.

(** A quota holds whatever the sessions of a user do at the same time.
    For any number of goroutines inside [AddUsage], in any interleaving of
    their atomic pieces, the counter is exactly the sum of the finished
    requests, and the requests that were let through never add up to more
    than what was left of the limit. *)
Theorem quota_enforced (m : QuotaManager) (u : bytes) (c : config) :
  rtc step {| mgr := m; pend := []; log := [] |} c →
  0 < limit_of m u → 0 ≤ used_of m u → used_of m u + asked u (log c) < 2 ^ 63 →
  used_of (mgr c) u = used_of m u + asked u (log c) ∧
  passed u (log c) ≤ Z.max 0 (limit_of m u - used_of m u).
Proof.
  intros Hr Hl Hb Hov.
  assert (quota_inv u (limit_of m u) (used_of m u) c) as (_ & _ & _ & Hi); [|by apply Hi].
  eapply (rtc_invariant step); [intros ????; by eapply quota_inv_step|exact Hr|].
  split; [done|]. split; [constructor|]. split; [constructor|]. intros _. simpl. lia.
Qed.

(** A session alone: the verdict is exact, and resetting starts over. *)
Lemma AddUsage_verdict u n m :
  - 2 ^ 63 ≤ used_of m u + n < 2 ^ 63 →
  (AddUsage u n m).1 = bool_decide (0 < limit_of m u ∧ limit_of m u < used_of m u + n) ∧
  used_of (AddUsage u n m).2 u = used_of m u + n ∧ (∀ v, limit_of (AddUsage u n m).2 v = limit_of m v) ∧
  used_of (Reset u m) u = 0.
Proof.
  intros Hr. unfold AddUsage. destruct (counter_add u n (load_counter u m)) as [cur m'] eqn:E.
  destruct (counter_add_spec _ _ _ _ _ E) as (Hc & Hu & _ & Hl). rewrite used_load, i64_id in Hc by lia.
  cbn [fst snd]. rewrite limit_load. split; [by rewrite Hc|]. split; [congruence|].
  split; [intros v; rewrite Hl; apply limit_load|].
  unfold Reset, used_of. destruct (used m !! u) eqn:Eu; simpl; [by rewrite lookup_insert_eq|by rewrite Eu].
Qed.

(** ** Limiters *)

Definition limiter_inv (c : Rate.config) : Prop :=
  Forall (λ g, Rate.limiters (Rate.mgr c) !! g.1 = Some g.2) (Rate.got c).

Lemma limiter_inv_step c c' : limiter_inv c → Rate.step c c' → limiter_inv c'.
Proof.
  intros Hi Hs. destruct Hs as [u l m s g Hu Hl|u m s g Hu Hl|u l m m' s1 s2 g E]; unfold limiter_inv in *;
    cbn [Rate.mgr Rate.got] in *; [by constructor|done|].
  unfold Rate.create_locked in E. destruct (Rate.limiters m !! u) as [l0|] eqn:Eu; simplify_eq; [by constructor|].
  cbn [Rate.limiters]. constructor; [by rewrite lookup_insert_eq|].
  eapply Forall_impl; [exact Hi|]. intros [v l] Hv. cbn [fst snd] in *.
  destruct (decide (u = v)) as [->|Hn]; [congruence|]. by rewrite lookup_insert_ne.
Qed.

(** One user, one token bucket: however many sessions of a user call
    [GetOrCreate] at the same time, and however their looks and their locks
    interleave, they all get the same limiter, so their rates add up under
    one bucket. *)
Theorem limiter_shared (m : Rate.LimiterManager) (c : Rate.config) (u : bytes) (l1 l2 : option Rate.bucket) :
  rtc Rate.step {| Rate.mgr := m; Rate.slow := []; Rate.got := [] |} c →
  (u, l1) ∈ Rate.got c → (u, l2) ∈ Rate.got c → l1 = l2.
Proof.
  intros Hr H1 H2. assert (limiter_inv c) as Hi.
  { eapply (rtc_invariant Rate.step); [intros ????; by eapply limiter_inv_step|exact Hr|constructor]. }
  unfold limiter_inv in Hi. rewrite Forall_forall in Hi.
  pose proof (Hi _ H1) as E1. pose proof (Hi _ H2) as E2. cbn [fst snd] in *. congruence.
Qed.

(** A relay never asks the bucket for more than it can hold: every
    limiter the managers create has a burst larger than a relay buffer, so
    [WaitN] cannot fail for the size of a read. *)
Theorem burst_covers_buffer (id : nat) (rate : Z) (b : Rate.bucket) :
  - 2 ^ 63 ≤ rate < 2 ^ 63 → Rate.NewBandwidthLimiter id rate = Some b →
  Z.of_nat Pool.BufferSize < Rate.b_burst b.
Proof.
  intros Hr. unfold Rate.NewBandwidthLimiter. case_bool_decide; [done|]. intros [= <-]. cbn [Rate.b_burst].
  pose proof (Z.quot_pos rate 4 ltac:(lia) ltac:(lia)). pose proof (Z.quot_le_upper_bound rate 4 rate ltac:(lia) ltac:(lia)).
  rewrite Z.quot_div_nonneg in * by lia. pose proof (Z.div_lt_upper_bound rate 4 (2 ^ 61) ltac:(lia) ltac:(lia)).
  rewrite i64_id by lia. unfold Pool.BufferSize. lia.
Qed.

(** ** Concrete runs *)

Definition demo_mgr : QuotaManager := SetLimit ("alice" : bytes) 100 NewQuotaManager.

Lemma quota_enforced_witness :
  ∃ c, rtc step {| mgr := demo_mgr; pend := []; log := [] |} c ∧
    log c = [("alice" : bytes, 60, true); ("alice" : bytes, 70, false)] ∧
    used_of (mgr c) ("alice" : bytes) = used_of demo_mgr ("alice" : bytes) + asked ("alice" : bytes) (log c) ∧
    passed ("alice" : bytes) (log c) ≤ Z.max 0 (limit_of demo_mgr ("alice" : bytes) - used_of demo_mgr ("alice" : bytes)).
Proof.
  set (u := ("alice" : bytes)).
  set (m1 := load_counter u demo_mgr). set (m2 := (counter_add u 70 m1).2). set (m3 := (counter_add u 60 m2).2).
  exists {| mgr := m3; pend := []; log := [(u, 60, true); (u, 70, false)] |}.
  assert (rtc step {| mgr := demo_mgr; pend := []; log := [] |}
    {| mgr := m3; pend := []; log := [(u, 60, true); (u, 70, false)] |}) as Hr.
  { eapply rtc_l; [apply (step_begin u 70); lia|].
    eapply rtc_l; [apply (step_begin u 60); lia|].
    eapply rtc_l; [apply (step_add u 70 100 m1 m2 70 [(u, 60, 100)] [] []); vm_compute; reflexivity|].
    eapply rtc_l; [apply (step_add u 60 100 m2 m3 130 [] [] [(u, 70, false)]); vm_compute; reflexivity|].
    apply rtc_refl. }
  split; [exact Hr|]. split; [reflexivity|].
  apply (quota_enforced demo_mgr u _ Hr); vm_compute; done.
Defined.

Lemma limiter_shared_witness :
  ∃ c, rtc Rate.step {| Rate.mgr := Rate.NewLimiterManager 10; Rate.slow := []; Rate.got := [] |} c ∧
    length (Rate.got c) = 2%nat ∧
    ∀ l1 l2, (("bob" : bytes), l1) ∈ Rate.got c → (("bob" : bytes), l2) ∈ Rate.got c → l1 = l2.
Proof.
  set (u := ("bob" : bytes)). set (m := Rate.NewLimiterManager 10).
  set (r := Rate.create_locked u m).
  exists {| Rate.mgr := r.2; Rate.slow := []; Rate.got := [(u, r.1); (u, r.1)] |}.
  assert (rtc Rate.step {| Rate.mgr := m; Rate.slow := []; Rate.got := [] |}
    {| Rate.mgr := r.2; Rate.slow := []; Rate.got := [(u, r.1); (u, r.1)] |}) as Hr.
  { eapply rtc_l; [apply (Rate.step_miss u); [done|reflexivity]|].
    eapply rtc_l; [apply (Rate.step_miss u); [done|reflexivity]|].
    eapply rtc_l; [apply (Rate.step_lock u r.1 m r.2 [] [u]); reflexivity|].
    eapply rtc_l; [apply (Rate.step_lock u r.1 r.2 r.2 [] []); reflexivity|].
    apply rtc_refl. }
  split; [exact Hr|]. split; [reflexivity|]. intros l1 l2. apply (limiter_shared _ _ u l1 l2 Hr).
Defined.

Lemma burst_covers_buffer_witness :
  Z.of_nat Pool.BufferSize < Rate.b_burst {| Rate.b_id := 0; Rate.b_rate := 1; Rate.b_burst := 1048576 |}.
Proof. apply (burst_covers_buffer 0 1); [lia|reflexivity]. Defined.

End LimitsThms.
