(* ===== verification/Relay.v ===== *)
(** * Relaying: [Relay], [DualRelay] and [MaskAddr] of [internal/common/utils.go]

    [relay_iter] is one turn of the loop of [Relay]: a read, the quota, the
    counters, a write.  [Relay] iterates it on one direction; [DualRelay] runs
    two directions at once over shared counters, a shared quota and the table
    of active sessions, and is a step relation whose steps are turns of
    either goroutine and the bookkeeping around them.  Prometheus counters
    and tracing are left out. *)

From S2P Require Import Prelude GoNet Stream Limits.
Import Quota Rate Metrics Pool.

(** What the goroutines share. *)
Record shared := { s_quota : QuotaManager; s_count : counters }.

(** One direction: what is left to read, what was written, what was read. *)
Record dir := { d_src : stream; d_dst : sink; d_total : Z }.

(** The arguments of [Relay]: the direction's name, the user, the limiter
    with the results of its waits, and whether a quota manager is given. *)
Record relay_args := {
  a_upstream : bool; a_user : bytes; a_limiter : option bucket; a_quota : bool }.

Inductive turn := Again (d : dir) (g : shared) | Ended (e : goerr) (d : dir) (g : shared).

(** [wait] is the answer of the limiter's [WaitN] in this turn. *)
Definition relay_iter (a : relay_args) (wait : Z → option goerr) (d : dir) (g : shared) : turn :=
  let '(got, e, src) := LimitRead (a_limiter a) wait BufferSize (d_src d) in
  let n := Z.of_nat (length got) in
  let finish (d' : dir) (g' : shared) : turn :=
    match e with Some e => Ended e d' g' | None => Again d' g' end in
  match got with
  | [] => finish {| d_src := src; d_dst := d_dst d; d_total := d_total d |} g
  | _ =>
      let '(over, q) :=
        if a_quota a && negb (bool_decide (a_user a = []))
        then AddUsage (a_user a) n (s_quota g) else (false, s_quota g) in
      if over then
        Ended (Errorf "traffic quota exceeded")
          {| d_src := src; d_dst := d_dst d; d_total := d_total d |} {| s_quota := q; s_count := s_count g |}
      else
        let g1 := {| s_quota := q;
                     s_count := if a_upstream a then AddBytesIn n (s_count g) else AddBytesOut n (s_count g) |} in
        let '(werr, dst) := sink_write got (d_dst d) in
        let d1 := {| d_src := src; d_dst := dst; d_total := i64 (d_total d + n) |} in
        match werr with
        | Some werr => Ended werr d1 g1
        | None => finish d1 g1
        end
  end.

(** The loop; every turn reads a byte or ends, so one turn more than there
    are bytes suffices ([Relay_ends]).  [waits] gives the limiter's answer in
    each turn. *)
Fixpoint relay_loop (fuel : nat) (a : relay_args) (waits : nat → Z → option goerr) (d : dir) (g : shared) :
  option (goerr * dir * shared) :=
  match fuel with
  | O => None
  | S f =>
      match relay_iter a (waits f) d g with
      | Ended e d' g' => Some (e, d', g')
      | Again d' g' => relay_loop f a waits d' g'
      end
  end.

Definition Relay (a : relay_args) (waits : nat → Z → option goerr) (src : stream) (dst : sink) (g : shared) :
  option (goerr * dir * shared) :=
  relay_loop (S (length (stream_bytes src))) a waits {| d_src := src; d_dst := dst; d_total := 0 |} g.

(** ** Sessions *)

Record SessionInfo := {
  siID : bytes; siUserID : bytes; siSrc : bytes; siDst : bytes; siStartTime : Z; siBytesSent : Z }.

Abbreviation sessions := (gmap bytes SessionInfo).

(** The deferred update at the end of [Relay]. *)
Definition add_sent (sid : bytes) (total : Z) (m : sessions) : sessions :=
  if bool_decide (sid ≠ [] ∧ 0 < total) then
    match m !! sid with
    | Some s => <[sid := {| siID := siID s; siUserID := siUserID s; siSrc := siSrc s; siDst := siDst s;
                            siStartTime := siStartTime s; siBytesSent := i64 (siBytesSent s + total) |}]> m
    | None => m
    end
  else m.

(** [MaskAddr]. *)
Definition MaskAddr (addr : bytes) : bytes :=
  match SplitHostPort addr with
  | Ok (host, port) =>
      let parts := split_byte dot host in
      match parts with
      | a :: b :: c :: _ :: _ => a ++ dot :: b ++ dot :: c ++ (".*:" : bytes) ++ port
      | _ => if bool_decide (4 < length host)%nat then take 4 host ++ ("***:" : bytes) ++ port
             else ("***:" : bytes) ++ port
      end
  | _ => ("***" : bytes)
  end.

(** [DualRelay] before and after its goroutines. *)
Definition dual_open (sid user src dst : bytes) (now : Z) (g : shared) (m : sessions) : shared * sessions :=
  ({| s_quota := s_quota g; s_count := IncActiveSessions (s_count g) |},
   if bool_decide (sid = []) then m
   else <[sid := {| siID := sid; siUserID := user; siSrc := MaskAddr src; siDst := MaskAddr dst;
                    siStartTime := now; siBytesSent := 0 |}]> m).

Definition dual_close (sid : bytes) (g : shared) (m : sessions) : shared * sessions :=
  ({| s_quota := s_quota g; s_count := DecActiveSessions (s_count g) |},
   if bool_decide (sid = []) then m else delete sid m).

(** The two goroutines.  A direction that has ended has run its deferred
    update; [DualRelay] returns when the first of them has. *)
Record dual := {
  up : dir; up_end : option goerr; down : dir; down_end : option goerr;
  du_shared : shared; du_sessions : sessions; du_returned : bool }.

Record dual_args := { da_sid : bytes; da_user : bytes; da_limiter : option bucket; da_quota : bool }.

Definition args_of (a : dual_args) (upstream : bool) : relay_args :=
  {| a_upstream := upstream; a_user := da_user a; a_limiter := da_limiter a; a_quota := da_quota a |}.

Definition dual_start (a : dual_args) (c1 c2 : stream) (k1 k2 : sink) (src dst : bytes) (now : Z)
    (g : shared) (m : sessions) : dual :=
  let '(g', m') := dual_open (da_sid a) (da_user a) src dst now g m in
  {| up := {| d_src := c1; d_dst := k2; d_total := 0 |}; up_end := None;
     down := {| d_src := c2; d_dst := k1; d_total := 0 |}; down_end := None;
     du_shared := g'; du_sessions := m'; du_returned := false |}.

(** A turn of one direction, with the deferred update when it ends. *)
Definition settle (a : dual_args) (t : turn) (m : sessions) : dir * option goerr * shared * sessions :=
  match t with
  | Again d g => (d, None, g, m)
  | Ended e d g => (d, Some e, g, add_sent (da_sid a) (d_total d) m)
  end.

Inductive dual_step (a : dual_args) : dual → dual → Prop :=
| step_up wait s d e g m :
    up_end s = None →
    settle a (relay_iter (args_of a true) wait (up s) (du_shared s)) (du_sessions s) = (d, e, g, m) →
    dual_step a s
      {| up := d; up_end := e; down := down s; down_end := down_end s; du_shared := g; du_sessions := m;
         du_returned := du_returned s |}
| step_down wait s d e g m :
    down_end s = None →
    settle a (relay_iter (args_of a false) wait (down s) (du_shared s)) (du_sessions s) = (d, e, g, m) →
    dual_step a s
      {| up := up s; up_end := up_end s; down := d; down_end := e; du_shared := g; du_sessions := m;
         du_returned := du_returned s |}
| step_return s g m :
    du_returned s = false → up_end s ≠ None ∨ down_end s ≠ None →
    dual_close (da_sid a) (du_shared s) (du_sessions s) = (g, m) →
    dual_step a s
      {| up := up s; up_end := up_end s; down := down s; down_end := down_end s; du_shared := g;
         du_sessions := m; du_returned := true |}.

(** What a direction has forwarded. *)
Definition sent (d : dir) : bytes := concat (written (d_dst d)).

Module RelayThms.

(** ** One turn *)

Lemma LimitRead_spec l w n (s s' : stream) got e :
  (0 < n)%nat → LimitRead l w n s = (got, e, s') →
  stream_bytes s = got ++ stream_bytes s' ∧ (e = None → got ≠ []).
Proof.
  intros Hn. unfold LimitRead. destruct (go_read n s) as [[g e1] s1] eqn:E.
  destruct (stream_read_spec _ _ _ _ _ E) as (Hb & _).
  assert (e1 = None → g ≠ []) as Hp by (intros ->; by eapply stream_read_progress).
  destruct g as [|x g], l as [b|]; try (by intros [= <- <- <-]).
  destruct (w _); intros [= <- <- <-]; done.
Qed.

Lemma buffer_pos : (0 < BufferSize)%nat.
Proof. unfold BufferSize. lia. Qed.

Lemma sink_write_sent b k e k' :
  sink_write b k = (e, k') →
  concat (written k') = concat (written k) ++ match e with None => b | Some _ => [] end.
Proof.
  unfold sink_write. destruct (budget k) as [[|m]|]; intros [= <- <-]; simpl;
    rewrite ?concat_app; simpl; by rewrite ?app_nil_r.
Qed.

(** The dimensions of a turn: what it reads, forwards and charges. *)
Definition charged (a : relay_args) : bool := a_quota a && negb (bool_decide (a_user a = [])).

Inductive turn_spec (a : relay_args) (d : dir) (g : shared) : turn → Prop :=
| turn_idle e d' :
    d_dst d' = d_dst d → stream_bytes (d_src d') = stream_bytes (d_src d) →
    turn_spec a d g (Ended e d' g)
| turn_over got d' q :
    charged a = true → AddUsage (a_user a) (Z.of_nat (length got)) (s_quota g) = (true, q) →
    stream_bytes (d_src d) = got ++ stream_bytes (d_src d') → sent d' = sent d →
    turn_spec a d g (Ended (Errorf "traffic quota exceeded") d' {| s_quota := q; s_count := s_count g |})
| turn_write_err got e d' q c :
    (if charged a then AddUsage (a_user a) (Z.of_nat (length got)) (s_quota g) = (false, q) else q = s_quota g) →
    stream_bytes (d_src d) = got ++ stream_bytes (d_src d') → sent d' = sent d →
    turn_spec a d g (Ended e d' {| s_quota := q; s_count := c |})
| turn_forward got e d' q c t :
    (if charged a then AddUsage (a_user a) (Z.of_nat (length got)) (s_quota g) = (false, q) else q = s_quota g) →
    stream_bytes (d_src d) = got ++ stream_bytes (d_src d') → sent d' = sent d ++ got → got ≠ [] →
    t = match e with Some e => Ended e d' {| s_quota := q; s_count := c |}
                   | None => Again d' {| s_quota := q; s_count := c |} end →
    turn_spec a d g t.

Lemma relay_iter_spec a w d g : turn_spec a d g (relay_iter a w d g).
Proof.
  unfold relay_iter. destruct (LimitRead (a_limiter a) w BufferSize (d_src d)) as [[got e] src] eqn:E.
  destruct (LimitRead_spec _ _ _ _ _ _ _ buffer_pos E) as [Hb Hp]. destruct got as [|x got].
  { destruct e as [e|]; [|by destruct Hp]. by apply turn_idle. }
  fold (charged a). set (gt := x :: got) in *.
  destruct (if charged a then _ else _) as [over q] eqn:Eq. destruct over.
  { destruct (charged a) eqn:Hc; [|done]. by apply (turn_over a d g gt). }
  assert (if charged a then AddUsage (a_user a) (Z.of_nat (length gt)) (s_quota g) = (false, q) else q = s_quota g) as Hq
    by (destruct (charged a); congruence).
  destruct (sink_write gt (d_dst d)) as [werr dst] eqn:Ew. pose proof (sink_write_sent _ _ _ _ Ew) as Hs.
  destruct werr as [we|].
  - apply (turn_write_err a d g gt); [done|done|]. unfold sent. cbn. by rewrite Hs, app_nil_r.
  - eapply (turn_forward a d g gt e); [exact Hq| | |done|reflexivity]; done.
Qed.

(** What a direction has forwarded and still holds. *)
Definition dir_inv (src0 : bytes) (d : dir) (ended : bool) : Prop :=
  ∃ lost, src0 = sent d ++ lost ++ stream_bytes (d_src d) ∧ (ended = false → lost = []).

Definition turn_dir (t : turn) : dir := match t with Again d _ | Ended _ d _ => d end.

Definition turn_shared (t : turn) : shared := match t with Again _ g | Ended _ _ g => g end.

Definition turn_ended (t : turn) : bool := match t with Again _ _ => false | Ended _ _ _ => true end.

Lemma turn_dir_inv a w d g src0 :
  dir_inv src0 d false → dir_inv src0 (turn_dir (relay_iter a w d g)) (turn_ended (relay_iter a w d g)).
Proof.
  intros (lost & E & Hl). rewrite Hl in E by done. clear Hl lost. cbn [app] in E.
  destruct (relay_iter_spec a w d g)
    as [e d' Hd Hs|got d' q Hc Hq Hb Hs|got e d' q c Hq Hb Hs|got e d' q c t Hq Hb Hs Hg ->].
  - exists []. unfold sent. cbn [turn_dir]. by rewrite Hd, Hs.
  - exists got. cbn [turn_dir]. rewrite Hs, <-Hb. split; [done|]. done.
  - exists got. cbn [turn_dir]. rewrite Hs, <-Hb. split; [done|]. done.
  - exists []. destruct e; cbn [turn_dir app]; by rewrite Hs, <-app_assoc, <-Hb.
Qed.

(** ** Both directions *)

Lemma settle_turn a t m d e g m' :
  settle a t m = (d, e, g, m') → turn_dir t = d ∧ turn_shared t = g ∧ turn_ended t = bool_decide (e ≠ None).
Proof. destruct t; simpl; intros [= <- <- <- <-]; done. Qed.

Lemma dual_inv_step a c1 c2 s s' :
  dir_inv c1 (up s) (bool_decide (up_end s ≠ None)) → dir_inv c2 (down s) (bool_decide (down_end s ≠ None)) →
  dual_step a s s' →
  dir_inv c1 (up s') (bool_decide (up_end s' ≠ None)) ∧ dir_inv c2 (down s') (bool_decide (down_end s' ≠ None)).
Proof.
  intros Hu Hd Hs. destruct Hs as [w s d e g m Hn Hst|w s d e g m Hn Hst|s g m Hr Hor Hc]; cbn; [| |done].
  - destruct (settle_turn _ _ _ _ _ _ _ Hst) as (<- & _ & <-). split; [|done].
    apply turn_dir_inv. by rewrite Hn in Hu.
  - destruct (settle_turn _ _ _ _ _ _ _ Hst) as (<- & _ & <-). split; [done|].
    apply turn_dir_inv. by rewrite Hn in Hd.
Qed.

(** C18: a relayed session forwards faithfully.  In every interleaving of the
    two goroutines, with any limiter, quota and write failures, what each
    side has received is a prefix of what the other side sent, and nothing
    read is missing as long as the direction is running. *)
Theorem dual_relay_prefix (a : dual_args) (c1 c2 : stream) (src dst : bytes) (now : Z) (g : shared)
    (m : sessions) (s : dual) :
  rtc (dual_step a) (dual_start a c1 c2 open_sink open_sink src dst now g m) s →
  (∃ lost, stream_bytes c1 = sent (up s) ++ lost ++ stream_bytes (d_src (up s)) ∧ (up_end s = None → lost = [])) ∧
  (∃ lost, stream_bytes c2 = sent (down s) ++ lost ++ stream_bytes (d_src (down s)) ∧
           (down_end s = None → lost = [])).
Proof.
  intros Hr.
  assert (dir_inv (stream_bytes c1) (up s) (bool_decide (up_end s ≠ None)) ∧
          dir_inv (stream_bytes c2) (down s) (bool_decide (down_end s ≠ None))) as [(l1 & E1 & H1) (l2 & E2 & H2)].
  { remember (dual_start a c1 c2 open_sink open_sink src dst now g m) as s0 eqn:E0.
    assert (dir_inv (stream_bytes c1) (up s0) (bool_decide (up_end s0 ≠ None)) ∧
            dir_inv (stream_bytes c2) (down s0) (bool_decide (down_end s0 ≠ None))) as H0
      by (subst s0; split; by exists []).
    clear E0. induction Hr as [s|s1 s2 s3 Hs _ IH]; [done|]. apply IH. by eapply dual_inv_step; [apply H0..|]. }
  split; [exists l1|exists l2]; (split; [done|]); intros Hn; [apply H1|apply H2]; by rewrite Hn.
Qed.

(** ** Quotas *)

Definition zlen (b : bytes) : Z := Z.of_nat (length b).

Lemma zlen_app a b : zlen (a ++ b) = zlen a + zlen b.
Proof. unfold zlen. rewrite length_app. lia. Qed.

Lemma zlen_nonneg b : 0 ≤ zlen b.
Proof. unfold zlen. lia. Qed.

(** A turn charges what it reads and forwards only within the limit. *)
Lemma turn_quota a w d g lim :
  charged a = true → 0 < lim → limit_of (s_quota g) (a_user a) = lim → 0 ≤ used_of (s_quota g) (a_user a) →
  used_of (s_quota g) (a_user a) + zlen (stream_bytes (d_src d)) < 2 ^ 63 →
  let t := relay_iter a w d g in
  let used' := used_of (s_quota (turn_shared t)) (a_user a) in
  let delta := zlen (sent (turn_dir t)) - zlen (sent d) in
  limit_of (s_quota (turn_shared t)) (a_user a) = lim ∧
  used' + zlen (stream_bytes (d_src (turn_dir t))) =
    used_of (s_quota g) (a_user a) + zlen (stream_bytes (d_src d)) ∧
  0 ≤ delta ∧ used_of (s_quota g) (a_user a) + delta ≤ used' ∧ (delta = 0 ∨ used' ≤ lim).
Proof.
  intros Hc Hlim Hl Hu Hov t. subst t.
  destruct (relay_iter_spec a w d g)
    as [e d' Hd Hs|got d' q _ Hq Hb Hs|got e d' q c Hq Hb Hs|got e d' q c t Hq Hb Hs Hg ->].
  - cbn [turn_dir turn_shared]. unfold sent. rewrite Hd, Hs. lia.
  - cbn [turn_dir turn_shared s_quota]. rewrite Hs. rewrite Hb, zlen_app in *.
    pose proof (zlen_nonneg got). pose proof (zlen_nonneg (stream_bytes (d_src d'))).
    pose proof (LimitsThms.AddUsage_verdict (a_user a) (Z.of_nat (length got)) (s_quota g)) as (_ & H2 & H3 & _);
      [unfold zlen in *; lia|]. rewrite Hq in H2, H3. cbn [snd] in *. rewrite H2, H3. unfold zlen in *. lia.
  - rewrite Hc in Hq. cbn [turn_dir turn_shared s_quota]. rewrite Hs. rewrite Hb, zlen_app in *.
    pose proof (zlen_nonneg got). pose proof (zlen_nonneg (stream_bytes (d_src d'))).
    pose proof (LimitsThms.AddUsage_verdict (a_user a) (Z.of_nat (length got)) (s_quota g)) as (_ & H2 & H3 & _);
      [unfold zlen in *; lia|]. rewrite Hq in H2, H3. cbn [snd] in *. rewrite H2, H3. unfold zlen in *. lia.
  - rewrite Hc in Hq. rewrite Hb, zlen_app in *.
    pose proof (zlen_nonneg got). pose proof (zlen_nonneg (stream_bytes (d_src d'))).
    pose proof (LimitsThms.AddUsage_verdict (a_user a) (Z.of_nat (length got)) (s_quota g)) as (H1 & H2 & H3 & _);
      [unfold zlen in *; lia|]. rewrite Hq in H1, H2, H3. cbn [fst snd] in *.
    symmetry in H1. apply bool_decide_eq_false in H1.
    destruct e; cbn [turn_dir turn_shared s_quota]; rewrite Hs, zlen_app, H2, H3; unfold zlen in *; lia.
Qed.

Definition dual_quota_inv (u : bytes) (lim base total : Z) (s : dual) : Prop :=
  let used := used_of (s_quota (du_shared s)) u in
  let fwd := zlen (sent (up s)) + zlen (sent (down s)) in
  limit_of (s_quota (du_shared s)) u = lim ∧
  used + zlen (stream_bytes (d_src (up s))) + zlen (stream_bytes (d_src (down s))) = base + total ∧
  base + fwd ≤ used ∧ (fwd = 0 ∨ base + fwd ≤ lim).

Lemma dual_quota_step a lim base total s s' :
  da_quota a = true → da_user a ≠ [] → 0 < lim → 0 ≤ base → base + total < 2 ^ 63 →
  dual_quota_inv (da_user a) lim base total s → dual_step a s s' →
  dual_quota_inv (da_user a) lim base total s'.
Proof.
  intros Hq Hu Hlim Hbase Hov (Hl & Hsum & Hge & Hle) Hs.
  assert (∀ x, charged (args_of a x) = true) as Hch.
  { intros x. unfold charged. cbn. by rewrite Hq, bool_decide_false. }
  pose proof (zlen_nonneg (sent (up s))). pose proof (zlen_nonneg (sent (down s))).
  pose proof (zlen_nonneg (stream_bytes (d_src (up s)))). pose proof (zlen_nonneg (stream_bytes (d_src (down s)))).
  destruct Hs as [w s d e g m Hn Hst|w s d e g m Hn Hst|s g m Hr Hor Hc].
  - destruct (settle_turn _ _ _ _ _ _ _ Hst) as (<- & <- & _).
    pose proof (turn_quota (args_of a true) w (up s) (du_shared s) lim (Hch _) Hlim Hl) as HT.
    cbn [a_user args_of] in HT. unfold dual_quota_inv. cbn. lia.
  - destruct (settle_turn _ _ _ _ _ _ _ Hst) as (<- & <- & _).
    pose proof (turn_quota (args_of a false) w (down s) (du_shared s) lim (Hch _) Hlim Hl) as HT.
    cbn [a_user args_of] in HT. unfold dual_quota_inv. cbn. lia.
  - unfold dual_close in Hc. simplify_eq. done.
Qed.

(** C12: a session stays within its user's quota: in every interleaving of the
    two directions, the bytes forwarded both ways together never exceed what
    was left of the limit when the session started. *)
Theorem dual_relay_quota (a : dual_args) (c1 c2 : stream) (src dst : bytes) (now : Z) (g : shared)
    (m : sessions) (s : dual) :
  let base := used_of (s_quota g) (da_user a) in
  let lim := limit_of (s_quota g) (da_user a) in
  da_quota a = true → da_user a ≠ [] → 0 < lim → 0 ≤ base →
  base + zlen (stream_bytes c1) + zlen (stream_bytes c2) < 2 ^ 63 →
  rtc (dual_step a) (dual_start a c1 c2 open_sink open_sink src dst now g m) s →
  zlen (sent (up s)) + zlen (sent (down s)) ≤ Z.max 0 (lim - base).
Proof.
  intros base lim Hq Hu Hlim Hbase Hov Hr.
  assert (dual_quota_inv (da_user a) lim base (zlen (stream_bytes c1) + zlen (stream_bytes c2)) s)
    as (_ & _ & _ & H); [|lia].
  remember (dual_start a c1 c2 open_sink open_sink src dst now g m) as s0 eqn:E0.
  assert (dual_quota_inv (da_user a) lim base (zlen (stream_bytes c1) + zlen (stream_bytes c2)) s0) as H0.
  { subst s0. unfold dual_quota_inv, dual_start, dual_open. cbn [du_shared s_quota up down d_src].
    change (zlen (sent _)) with 0. unfold base in *. split; [done|]. split; [lia|]. split; [lia|]. by left. }
  clear E0. induction Hr as [s|s1 s2 s3 Hs _ IH]; [done|]. apply IH; try done.
  eapply dual_quota_step; [done..| |exact H0|exact Hs]. lia.
Qed.

(** ** One direction, to the end *)

Lemma relay_loop_ends f a ws d g :
  (length (stream_bytes (d_src d)) < f)%nat → is_Some (relay_loop f a ws d g).
Proof.
  revert d g. induction f as [|f IH]; intros d g Hf; [lia|]. cbn [relay_loop].
  destruct (relay_iter_spec a (ws f) d g)
    as [e d' Hd Hs|got d' q Hc Hq Hb Hs|got e d' q c Hq Hb Hs|got e d' q c t Hq Hb Hs Hg ->]; try done.
  destruct e; [done|]. apply IH. rewrite Hb, length_app in Hf. destruct got; [done|]. simpl in Hf. lia.
Qed.

Lemma relay_iter_plain a w d g :
  charged a = false → a_limiter a = None → steady (d_src d) → budget (d_dst d) = None →
  (∃ d', relay_iter a w d g = Ended (fin (d_src d)) d' g ∧ sent d' = sent d ∧ d_total d' = d_total d ∧
         stream_bytes (d_src d) = []) ∨
  (∃ got d' g', relay_iter a w d g = Again d' g' ∧ got ≠ [] ∧
     stream_bytes (d_src d) = got ++ stream_bytes (d_src d') ∧ sent d' = sent d ++ got ∧
     steady (d_src d') ∧ fin (d_src d') = fin (d_src d) ∧ budget (d_dst d') = None ∧
     d_total d' = i64 (d_total d + zlen got) ∧
     g' = {| s_quota := s_quota g;
             s_count := if a_upstream a then AddBytesIn (zlen got) (s_count g)
                        else AddBytesOut (zlen got) (s_count g) |}).
Proof.
  intros Hc Hl Hst Hk. unfold relay_iter, LimitRead. rewrite Hl. fold (charged a). rewrite Hc.
  destruct (go_read BufferSize (d_src d)) as [[got e] s'] eqn:E.
  destruct (stream_read_spec _ _ _ _ _ E) as (Hb & _ & Hf & Hs). destruct (Hs Hst) as [Hst' Hm].
  destruct e as [e|].
  - destruct Hm as [-> Hnil]. rewrite Hnil in Hb. symmetry in Hb. apply app_nil in Hb as [-> Hb].
    left. eexists. done.
  - pose proof (Hm buffer_pos) as Hne. destruct got as [|x got]; [done|]. right.
    destruct (sink_write (x :: got) (d_dst d)) as [we k'] eqn:Ew. pose proof (sink_write_sent _ _ _ _ Ew) as Hse.
    unfold sink_write in Ew. rewrite Hk in Ew. injection Ew as <- <-.
    do 3 eexists. split; [reflexivity|]. repeat (split; [done|]). done.
Qed.

(** Counting in pieces is counting at once. *)
Lemma count_twice (x : bool) m n c :
  (if x then AddBytesIn n (if x then AddBytesIn m c else AddBytesOut m c)
   else AddBytesOut n (if x then AddBytesIn m c else AddBytesOut m c)) =
  if x then AddBytesIn (m + n) c else AddBytesOut (m + n) c.
Proof. destruct x; unfold AddBytesIn, AddBytesOut; simpl; f_equal; by rewrite i64_add_l, Z.add_assoc. Qed.

Lemma relay_loop_complete f a ws d g :
  charged a = false → a_limiter a = None → steady (d_src d) → budget (d_dst d) = None →
  (length (stream_bytes (d_src d)) < f)%nat → stream_bytes (d_src d) ≠ [] →
  ∃ d' g', relay_loop f a ws d g = Some (fin (d_src d), d', g') ∧
    sent d' = sent d ++ stream_bytes (d_src d) ∧ s_quota g' = s_quota g ∧
    d_total d' = i64 (d_total d + zlen (stream_bytes (d_src d))) ∧
    s_count g' = (if a_upstream a then AddBytesIn (zlen (stream_bytes (d_src d))) (s_count g)
                  else AddBytesOut (zlen (stream_bytes (d_src d))) (s_count g)).
Proof.
  intros Hc Hl. revert d g. induction f as [|f IH]; intros d g Hst Hk Hf Hne; [lia|]. cbn [relay_loop].
  destruct (relay_iter_plain a (ws f) d g Hc Hl Hst Hk)
    as [(d' & _ & _ & _ & Hn)|(got & d' & g' & E & Hg & Hb & Hs & Hst' & Hfin & Hk' & Ht & ->)]; [done|].
  rewrite E. assert (length (stream_bytes (d_src d')) < f)%nat as Hf'
    by (rewrite Hb, length_app in Hf; destruct got; [done|simpl in Hf; lia]).
  rewrite <-Hfin, Hb, zlen_app, app_assoc, <-Hs. destruct (decide (stream_bytes (d_src d') = [])) as [Hnil|Hnn].
  - destruct f as [|f]; [lia|]. cbn [relay_loop].
    match goal with |- context [relay_iter a (ws f) d' ?g1] => 
      destruct (relay_iter_plain a (ws f) d' g1 Hc Hl Hst' Hk')
        as [(d2 & E2 & Hs2 & Ht2 & _)|(got2 & d2 & g2 & _ & Hg2 & Hb2 & _)] end.
    + rewrite E2. eexists _, _. split; [done|]. rewrite Hnil, Hs2, Ht2, Ht, app_nil_r. change (zlen []) with 0.
      rewrite Z.add_0_r. done.
    + rewrite Hnil in Hb2. by destruct got2.
  - match goal with |- context [relay_loop f a ws d' ?g1] =>
      destruct (IH d' g1 Hst' Hk' Hf' Hnn) as (d2 & g2 & E2 & Hs2 & Hq2 & Ht2 & Hc2) end.
    rewrite E2. eexists _, _. split; [done|]. split; [done|]. split; [done|].
    rewrite Ht2, Ht, Hc2. cbn [s_count]. split; [by rewrite i64_add_l, Z.add_assoc|]. apply count_twice.
Qed.

(** A relay ends, and without a quota or a limiter in its way it delivers
    everything: when its source ends and its destination accepts, [Relay]
    returns the source's own end after writing exactly the source's bytes,
    all of them counted.  Whatever the source, the limiter, the quota and the
    destination do, it returns. *)
Theorem relay_complete (a : relay_args) (waits : nat → Z → option goerr) (src : stream) (dst : sink) (g : shared) :
  is_Some (Relay a waits src dst g) ∧
  (charged a = false → a_limiter a = None → steady src → budget dst = None → stream_bytes src ≠ [] →
   ∃ d g', Relay a waits src dst g = Some (fin src, d, g') ∧
     sent d = concat (written dst) ++ stream_bytes src ∧
     s_quota g' = s_quota g ∧ d_total d = i64 (zlen (stream_bytes src)) ∧
     s_count g' = (if a_upstream a then AddBytesIn (zlen (stream_bytes src)) (s_count g)
                   else AddBytesOut (zlen (stream_bytes src)) (s_count g))).
Proof.
  split; [apply relay_loop_ends; cbn; lia|]. intros Hc Hl Hst Hk Hne. unfold Relay.
  destruct (relay_loop_complete (S (length (stream_bytes src))) a waits {| d_src := src; d_dst := dst; d_total := 0 |} g)
    as (d & g' & E & Hs & Hq & Ht & Hcnt); try done; [cbn; lia|]. eauto 10.
Qed.

(** ** Sessions *)

(** Cancelling a session does not stop it.  The context that the admin
    interface cancels is only consulted by the limiter's wait: for a session
    without a limiter, every turn of the relay is the same whatever the
    context does. *)
Theorem cancel_without_limiter (a : relay_args) (waits waits' : nat → Z → option goerr) (src : stream) (dst : sink)
    (g : shared) :
  a_limiter a = None → Relay a waits src dst g = Relay a waits' src dst g.
Proof.
  intros Hl. unfold Relay. generalize (S (length (stream_bytes src))) as f.
  generalize {| d_src := src; d_dst := dst; d_total := 0 |} as d. intros d f. revert d g.
  induction f as [|f IH]; intros d g; [done|]. cbn [relay_loop].
  assert (relay_iter a (waits f) d g = relay_iter a (waits' f) d g) as ->.
  { unfold relay_iter, LimitRead. rewrite Hl. destruct (go_read _ _) as [[[|x got] e] s']; done. }
  destruct (relay_iter a (waits' f) d g); [apply IH|done].
Qed.

Lemma turn_active a w d g :
  activeCount (s_count (turn_shared (relay_iter a w d g))) = activeCount (s_count g).
Proof.
  unfold relay_iter. destruct (LimitRead _ _ _ _) as [[[|x got] e] s']; [by destruct e|].
  destruct (if a_quota a && _ then _ else _) as [[|] q]; [done|].
  destruct (sink_write _ _) as [[we|] k']; [|destruct e]; cbn; by destruct (a_upstream a).
Qed.

Lemma add_sent_other sid total m k : k ≠ sid → add_sent sid total m !! k = m !! k.
Proof.
  intros Hk. unfold add_sent. case_bool_decide; [|done]. destruct (m !! sid); [|done].
  by rewrite lookup_insert_ne.
Qed.

Lemma add_sent_present sid total m : is_Some (m !! sid) ↔ is_Some (add_sent sid total m !! sid).
Proof.
  unfold add_sent. case_bool_decide; [|done]. destruct (m !! sid) eqn:E; [|by rewrite E].
  rewrite lookup_insert_eq. split; eauto.
Qed.

Definition session_inv (a : dual_args) (base : Z) (m0 : sessions) (s : dual) : Prop :=
  (∀ k, k ≠ da_sid a → du_sessions s !! k = m0 !! k) ∧
  if du_returned s
  then du_sessions s !! da_sid a = None ∧ activeCount (s_count (du_shared s)) = i64 (i64 (base + 1) - 1)
  else is_Some (du_sessions s !! da_sid a) ∧ activeCount (s_count (du_shared s)) = i64 (base + 1) ∧
       (up_end s = None → down_end s = None → siBytesSent <$> du_sessions s !! da_sid a = Some 0).

Lemma session_inv_turn a base m0 s w x d0 d e g m (s' : dual) :
  session_inv a base m0 s →
  settle a (relay_iter (args_of a x) w d0 (du_shared s)) (du_sessions s) = (d, e, g, m) →
  du_shared s' = g → du_sessions s' = m → du_returned s' = du_returned s →
  (up_end s' = None → down_end s' = None → e = None ∧ up_end s = None ∧ down_end s = None) →
  session_inv a base m0 s'.
Proof.
  intros [Ho Hi] Hst Hg Hm Hr He. pose proof (turn_active (args_of a x) w d0 (du_shared s)) as Hact.
  destruct (settle_turn _ _ _ _ _ _ _ Hst) as (_ & Hgt & _). rewrite Hgt in Hact.
  assert ((∀ k, k ≠ da_sid a → m !! k = du_sessions s !! k) ∧
          (is_Some (du_sessions s !! da_sid a) ↔ is_Some (m !! da_sid a)) ∧
          (e = None → m = du_sessions s)) as (Hmo & Hmp & Hme).
  { destruct (relay_iter (args_of a x) w d0 (du_shared s)); cbn [settle] in Hst; [by injection Hst as <- <- <- <-|injection Hst as <- <- <- <-].
    split; [intros; by apply add_sent_other|]. split; [apply add_sent_present|done]. }
  unfold session_inv. rewrite Hg, Hm, Hr. split; [intros k Hk; rewrite Hmo by done; by apply Ho|].
  destruct (du_returned s).
  - destruct Hi as [Hn Ha]. split; [|congruence]. apply eq_None_not_Some. rewrite <-Hmp. by rewrite Hn; intros [].
  - destruct Hi as (Hp & Ha & Hz). split; [by apply Hmp|]. split; [congruence|]. intros H1 H2.
    destruct (He H1 H2) as (E & H3 & H4). rewrite Hme by done. by apply Hz.
Qed.

Lemma session_inv_step a base m0 s s' :
  da_sid a ≠ [] → session_inv a base m0 s → dual_step a s s' → session_inv a base m0 s'.
Proof.
  intros Hsid Hi Hs. destruct Hs as [w s d e g m Hn Hst|w s d e g m Hn Hst|s g m Hr Hor Hc].
  - by eapply session_inv_turn; [exact Hi|exact Hst|..].
  - by eapply session_inv_turn; [exact Hi|exact Hst|..].
  - destruct Hi as [Ho Hi]. rewrite Hr in Hi. destruct Hi as (_ & Ha & _).
    unfold dual_close in Hc. rewrite bool_decide_false in Hc by done. simplify_eq.
    split; cbn; [intros k Hk; rewrite lookup_delete_ne by done; by apply Ho|].
    split; [by rewrite lookup_delete_eq|]. by rewrite Ha.
Qed.

(** The life of a session in the table of active sessions.  From the
    start of [DualRelay] until it returns the session is listed and counted,
    afterwards it is neither, and no other session's entry is ever touched.
    As long as both directions run, its byte count is listed as zero:
    the count is only added when a direction ends, and the entry is removed
    as soon as one has. *)
Theorem session_lifecycle (a : dual_args) (c1 c2 : stream) (src dst : bytes) (now : Z) (g : shared)
    (m : sessions) (s : dual) :
  da_sid a ≠ [] → 0 ≤ activeCount (s_count g) < 2 ^ 63 - 1 →
  rtc (dual_step a) (dual_start a c1 c2 open_sink open_sink src dst now g m) s →
  (∀ k, k ≠ da_sid a → du_sessions s !! k = m !! k) ∧
  if du_returned s
  then du_sessions s !! da_sid a = None ∧ activeCount (s_count (du_shared s)) = activeCount (s_count g)
  else is_Some (du_sessions s !! da_sid a) ∧
       activeCount (s_count (du_shared s)) = activeCount (s_count g) + 1 ∧
       (up_end s = None → down_end s = None → siBytesSent <$> du_sessions s !! da_sid a = Some 0).
Proof.
  intros Hsid Hc Hr.
  assert (session_inv a (activeCount (s_count g)) m s) as [Ho Hi].
  { remember (dual_start a c1 c2 open_sink open_sink src dst now g m) as s0 eqn:E0.
    assert (session_inv a (activeCount (s_count g)) m s0) as H0.
    { subst s0. unfold dual_start, dual_open. rewrite bool_decide_false by done.
      split; cbn; [intros k Hk; by rewrite lookup_insert_ne by done|].
      rewrite lookup_insert_eq. split; [eauto|]. done. }
    clear E0. induction Hr as [s|s1 s2 s3 Hs _ IH]; [done|]. apply IH. by eapply session_inv_step. }
  rewrite (i64_id (activeCount (s_count g) + 1)) in Hi by lia. rewrite i64_id in Hi by lia.
  split; [done|]. destruct (du_returned s); [|done]. destruct Hi as [? Ha]. split; [done|lia].
Qed.

(** Masking hides the last part of an IPv4 address: the masked address
    does not depend on the last octet. *)
Theorem mask_hides_octet (a b c d d' : byte) (port : Z) :
  0 ≤ port < 65536 →
  MaskAddr (JoinHostPort (string4 [a; b; c; d]) (Itoa port)) =
  MaskAddr (JoinHostPort (string4 [a; b; c; d']) (Itoa port)).
Proof.
  intros Hp. assert (∀ x, MaskAddr (JoinHostPort (string4 [a; b; c; x]) (Itoa port)) =
    dec_byte a ++ dot :: dec_byte b ++ dot :: dec_byte c ++ (".*:" : bytes) ++ Itoa port) as H;
    [|by rewrite !H].
  intros x. unfold MaskAddr.
  rewrite SplitHostPort_JoinHostPort by (first [by apply string4_not_in | apply Itoa_not_in; [lia|done]]).
  assert (∀ y, dot ∉ dec_byte y) as Hd by (intros y; by apply dec_digits_not_in).
  unfold string4. rewrite !split_byte_app, split_byte_none by done. done.
Qed.

(** ** Concrete runs *)

Definition demo_args : dual_args :=
  {| da_sid := ("s1" : bytes); da_user := ("alice" : bytes); da_limiter := None; da_quota := true |}.

Definition demo_shared : shared :=
  {| s_quota := SetLimit ("alice" : bytes) 10 NewQuotaManager;
     s_count := {| activeCount := 3; totalBytesIn := 0; totalBytesOut := 0 |} |}.

Definition demo_c1 : stream := mk_stream "hello" EOF.
Definition demo_c2 : stream := mk_stream "welcome" EOF.

Definition demo_start : dual :=
  dual_start demo_args demo_c1 demo_c2 open_sink open_sink "10.0.0.1:99" "10.0.0.2:80" 0 demo_shared ∅.

Definition up_turn (s : dual) : dual :=
  let '(d, e, g, m) := settle demo_args (relay_iter (args_of demo_args true) (λ _, None) (up s) (du_shared s))
                         (du_sessions s) in
  {| up := d; up_end := e; down := down s; down_end := down_end s; du_shared := g; du_sessions := m;
     du_returned := du_returned s |}.

Definition down_turn (s : dual) : dual :=
  let '(d, e, g, m) := settle demo_args (relay_iter (args_of demo_args false) (λ _, None) (down s) (du_shared s))
                         (du_sessions s) in
  {| up := up s; up_end := up_end s; down := d; down_end := e; du_shared := g; du_sessions := m;
     du_returned := du_returned s |}.

Definition demo_end : dual := down_turn (up_turn demo_start).

Lemma up_turn_step s : up_end s = None → dual_step demo_args s (up_turn s).
Proof.
  intros Hn. unfold up_turn. destruct (settle _ _ _) as [[[d e] g] m] eqn:E. by eapply step_up.
Qed.

Lemma down_turn_step s : down_end s = None → dual_step demo_args s (down_turn s).
Proof.
  intros Hn. unfold down_turn. destruct (settle _ _ _) as [[[d e] g] m] eqn:E. by eapply step_down.
Qed.

Lemma demo_run1 : rtc (dual_step demo_args) demo_start (up_turn demo_start).
Proof. apply rtc_once, up_turn_step. reflexivity. Qed.

Lemma demo_run : rtc (dual_step demo_args) demo_start demo_end.
Proof. eapply rtc_r; [apply demo_run1|]. apply down_turn_step. vm_compute. reflexivity. Qed.

Lemma dual_relay_prefix_witness :
  sent (up demo_end) = ("hello" : bytes) ∧
  (∃ lost, stream_bytes demo_c1 = sent (up demo_end) ++ lost ++ stream_bytes (d_src (up demo_end)) ∧
           (up_end demo_end = None → lost = [])) ∧
  (∃ lost, stream_bytes demo_c2 = sent (down demo_end) ++ lost ++ stream_bytes (d_src (down demo_end)) ∧
           (down_end demo_end = None → lost = [])).
Proof.
  split; [vm_compute; reflexivity|].
  exact (dual_relay_prefix demo_args demo_c1 demo_c2 _ _ _ _ _ demo_end demo_run).
Defined.

Lemma dual_relay_quota_witness :
  down_end demo_end = Some (Errorf "traffic quota exceeded") ∧
  zlen (sent (up demo_end)) + zlen (sent (down demo_end)) ≤ 10.
Proof.
  split; [vm_compute; reflexivity|].
  apply (dual_relay_quota demo_args demo_c1 demo_c2 "10.0.0.1:99" "10.0.0.2:80" 0 demo_shared ∅ demo_end);
    try (vm_compute; done). exact demo_run.
Defined.

Lemma session_lifecycle_witness :
  activeCount (s_count (du_shared (up_turn demo_start))) = 4 ∧
  siBytesSent <$> du_sessions (up_turn demo_start) !! ("s1" : bytes) = Some 0.
Proof.
  pose proof (session_lifecycle demo_args demo_c1 demo_c2 "10.0.0.1:99" "10.0.0.2:80" 0 demo_shared ∅
                (up_turn demo_start) ltac:(done) ltac:(simpl; lia) demo_run1) as [_ H].
  assert (du_returned (up_turn demo_start) = false) as E by (vm_compute; reflexivity). rewrite E in H.
  destruct H as (_ & Ha & Hb). split; [rewrite Ha; reflexivity|]. apply Hb; vm_compute; reflexivity.
Defined.

Lemma mask_hides_octet_witness :
  MaskAddr "192.168.7.20:443" = ("192.168.7.*:443" : bytes) ∧ MaskAddr "192.168.7.20:443" = MaskAddr "192.168.7.99:443".
Proof.
  split; [vm_compute; reflexivity|].
  apply (mask_hides_octet Byte.xc0 Byte.xa8 Byte.x07 Byte.x14 Byte.x63 443). lia.
Defined.

Definition demo_relay : relay_args :=
  {| a_upstream := true; a_user := []; a_limiter := None; a_quota := true |}.

Lemma relay_complete_witness :
  ∃ d g', Relay demo_relay (λ _ _, None) demo_c1 open_sink demo_shared = Some (EOF, d, g') ∧
    sent d = ("hello" : bytes) ∧ s_quota g' = s_quota demo_shared ∧ d_total d = 5 ∧
    s_count g' = AddBytesIn 5 (s_count demo_shared).
Proof.
  destruct (relay_complete demo_relay (λ _ _, None) demo_c1 open_sink demo_shared) as [_ H].
  apply H; [reflexivity|reflexivity|apply mk_stream_ok|reflexivity|done].
Defined.

Lemma cancel_without_limiter_witness :
  Relay demo_relay (λ _ _, None) demo_c1 open_sink demo_shared =
  Relay demo_relay (λ _ _, Some ErrClosed) demo_c1 open_sink demo_shared.
Proof. apply cancel_without_limiter. reflexivity. Defined.

End RelayThms.
