(* ===== verification/FakeIP.v ===== *)
(** * Fake IP addresses: [FakeIPPool] of [internal/routing/dns.go]

    With fake IPs the resolver answers every name at once with a made-up
    address from a reserved range and remembers which name it stands for.
    The pool is a ring over the range, with one map for each direction.  Its
    methods run under a mutex and are modelled as atomic.  [slots] is the
    abstract view the refinement theorem relates it to: the names in the
    order of their allocation. *)

From S2P Require Import Prelude GoNet.

Record FakeIPPool := {
  network : IPNet;
  minIP : Z;
  maxIP : Z;
  current : Z;
  ipToDomain : gmap Z bytes;
  domainToIP : gmap bytes Z }.

(** [binary.BigEndian.Uint32] panics on a slice of fewer than four bytes;
    [To4] of an address that is not IPv4 is nil. *)
Definition Uint32 (b : bytes) : res Z :=
  if bool_decide (length b < 4)%nat then Panic else Ok (be_get (take 4 b)).

Definition to4 (ip : bytes) : bytes := default [] (To4 ip).

Definition uint32ToIP (n : Z) : bytes := be_put 4 n.

Definition NewFakeIPPool (cidr : bytes) : res FakeIPPool :=
  match ParseCIDR cidr with
  | None => Fail (Errorf "invalid CIDR address")
  | Some (ipNet, ones) =>
      let! min := Uint32 (to4 (net_ip ipNet)) in
      let max := Z.lor min (Z.shiftr 0xFFFFFFFF (Z.of_nat ones)) in
      Ok {| network := ipNet; minIP := u32 (min + 1); maxIP := u32 (max - 1); current := u32 (min + 1);
            ipToDomain := ∅; domainToIP := ∅ |}
  end.

Definition Get (domain : bytes) (p : FakeIPPool) : bytes * FakeIPPool :=
  match domainToIP p !! domain with
  | Some ip => (uint32ToIP ip, p)
  | None =>
      let ip := current p in
      let cur := u32 (current p + 1) in
      (uint32ToIP ip,
       {| network := network p; minIP := minIP p; maxIP := maxIP p;
          current := if bool_decide (maxIP p < cur) then minIP p else cur;
          ipToDomain := <[ip := domain]> (ipToDomain p);
          domainToIP := <[domain := ip]> (domainToIP p) |})
  end.

Definition Lookup (ip : bytes) (p : FakeIPPool) : res (option bytes) :=
  let! n := Uint32 (to4 ip) in Ok (ipToDomain p !! n).

(** Answering a sequence of names. *)
Fixpoint get_all (ds : list bytes) (p : FakeIPPool) : FakeIPPool :=
  match ds with
  | [] => p
  | d :: r => get_all r (Get d p).2
  end.

(** ** The abstract view *)

(** The distinct names in order of first use. *)
Fixpoint slots (ds : list bytes) (acc : list bytes) : list bytes :=
  match ds with
  | [] => acc
  | d :: r => slots r (if bool_decide (d ∈ acc) then acc else acc ++ [d])
  end.

Definition capacity (p : FakeIPPool) : Z := maxIP p - minIP p + 1.

(** The pool holds exactly the names [l], the i-th at [minIP + i]. *)
Definition holds (p : FakeIPPool) (l : list bytes) : Prop :=
  NoDup l ∧ 0 ≤ minIP p ∧ maxIP p < 2 ^ 32 - 1 ∧ Z.of_nat (length l) ≤ capacity p ∧ 0 < capacity p ∧
  current p = (if bool_decide (Z.of_nat (length l) = capacity p) then minIP p else minIP p + Z.of_nat (length l)) ∧
  (∀ d n, domainToIP p !! d = Some n ↔ ∃ i, l !! i = Some d ∧ n = minIP p + Z.of_nat i) ∧
  (∀ n d, ipToDomain p !! n = Some d ↔ ∃ i, l !! i = Some d ∧ n = minIP p + Z.of_nat i).

Module FakeIPThms.

Lemma to4_uint32 n : to4 (uint32ToIP n) = uint32ToIP n.
Proof. reflexivity. Qed.

Lemma Uint32_put n : Uint32 (to4 (uint32ToIP n)) = Ok (n mod 2 ^ 32).
Proof.
  rewrite to4_uint32. unfold Uint32. rewrite bool_decide_false by (unfold uint32ToIP; len).
  unfold uint32ToIP. rewrite take_ge, be_get_put by len. reflexivity.
Qed.

Lemma Lookup_uint32 n p : 0 ≤ n < 2 ^ 32 → Lookup (uint32ToIP n) p = Ok (ipToDomain p !! n).
Proof. intros Hn. unfold Lookup. rewrite Uint32_put. cbn [res_bind]. by rewrite Z.mod_small. Qed.

(** One [Get] of a pool that is not full. *)
Lemma Get_holds d p l :
  holds p l → d ∈ l ∨ Z.of_nat (length l) < capacity p →
  holds (Get d p).2 (if bool_decide (d ∈ l) then l else l ++ [d]) ∧ capacity (Get d p).2 = capacity p ∧
  ∃ i, (if bool_decide (d ∈ l) then l else l ++ [d]) !! i = Some d ∧
       (Get d p).1 = uint32ToIP (minIP p + Z.of_nat i).
Proof.
  intros (Hnd & Hmin & Hmax & Hlen & Hcap & Hcur & Hd & Hi) Hroom. unfold Get.
  destruct (domainToIP p !! d) as [n|] eqn:E.
  - apply Hd in E as (i & Hli & ->). rewrite bool_decide_true by (by eapply list_elem_of_lookup_2).
    split; [done|]. split; [done|]. by exists i.
  - assert (d ∉ l) as Hn.
    { intros [i Hli]%list_elem_of_lookup. assert (domainToIP p !! d = Some (minIP p + Z.of_nat i)) by (apply Hd; eauto).
      congruence. }
    destruct Hroom as [?|Hroom]; [done|]. rewrite !(bool_decide_false (d ∈ l)) by done.
    rewrite (bool_decide_false (Z.of_nat (length l) = _)) in Hcur by lia. cbn [fst snd].
    split; [|split; [done|]].
    + unfold holds, capacity in *. cbn [minIP maxIP current domainToIP ipToDomain].
      rewrite length_app. cbn [length]. rewrite Hcur.
      split; [apply NoDup_app; split; [done|]; split; [set_solver|apply NoDup_singleton]|].
      split; [done|]. split; [done|]. split; [lia|]. split; [done|].
      split; [rewrite u32_id by lia; repeat case_bool_decide; lia|].
      assert (∀ x i, (l ++ [d]) !! i = Some x ↔ l !! i = Some x ∨ (i = length l ∧ x = d)) as Hl.
      { intros x i. rewrite lookup_app_Some, list_lookup_singleton_Some. split; intros [?|[? ?]]; auto; [right|right];
          [split; [lia|naive_solver]|split; [lia|split; [lia|naive_solver]]]. }
      split.
      * intros x n. destruct (decide (x = d)) as [->|Hx].
        { rewrite lookup_insert_eq. split; [intros [= <-]; exists (length l); rewrite Hl; naive_solver|].
          intros (i & [Hli|[-> _]]%Hl & ->); [|done]. exfalso. apply Hn. by eapply list_elem_of_lookup_2. }
        rewrite lookup_insert_ne, Hd by done. split; intros (i & Hli & ->); exists i; rewrite Hl in *; naive_solver.
      * intros n x. destruct (decide (n = minIP p + Z.of_nat (length l))) as [->|Hx].
        { rewrite lookup_insert_eq. split; [intros [= <-]; exists (length l); rewrite Hl; naive_solver|].
          intros (i & Hli & Heq). assert (i = length l) as -> by lia. apply Hl in Hli as [Hli|[_ ->]]; [|done].
          apply lookup_lt_Some in Hli. lia. }
        rewrite lookup_insert_ne, Hi by done. split; intros (i & Hli & ->); exists i; rewrite Hl in *; [naive_solver|].
        destruct Hli as [?|[-> ->]]; [done|]. done.
    + exists (length l). rewrite Hcur. split; [|done]. rewrite lookup_app_r, Nat.sub_diag by lia. done.
Qed.

Lemma slots_prefix ds acc : acc `prefix_of` slots ds acc.
Proof.
  revert acc. induction ds as [|d ds IH]; intros acc; simpl; [done|].
  etrans; [|apply IH]. case_bool_decide; [done|]. by apply prefix_app_r.
Qed.

Lemma slots_length ds acc : (length acc ≤ length (slots ds acc))%nat.
Proof. apply prefix_length, slots_prefix. Qed.

Lemma slots_elem ds acc d : d ∈ slots ds acc ↔ d ∈ ds ∨ d ∈ acc.
Proof.
  revert acc. induction ds as [|x ds IH]; intros acc; simpl; [set_solver|].
  rewrite IH. case_bool_decide; set_solver.
Qed.

(** The pool refines the abstract list as long as the names fit. *)
Lemma get_all_holds ds p l :
  holds p l → Z.of_nat (length (slots ds l)) ≤ capacity p →
  holds (get_all ds p) (slots ds l) ∧ capacity (get_all ds p) = capacity p.
Proof.
  revert p l. induction ds as [|d ds IH]; intros p l Hh Hc; simpl in *; [done|].
  destruct (Get_holds d p l Hh) as (Hh' & Hc' & _).
  { destruct (decide (d ∈ l)); [by left|right]. rewrite bool_decide_false in Hc by done.
    pose proof (slots_length ds (l ++ [d])) as Hl. rewrite length_app in Hl. simpl in Hl. lia. }
  rewrite <-Hc'. apply IH; [done|]. by rewrite Hc'.
Qed.

(** A fresh IPv4 pool: every address of the network but the first and the
    last, in order. *)
Lemma NewFakeIPPool_v4 cidr n ones :
  ParseCIDR cidr = Some (n, ones) → length (net_ip n) = 4%nat → (ones ≤ 30)%nat →
  ∃ p, NewFakeIPPool cidr = Ok p ∧ holds p [] ∧ minIP p = be_get (net_ip n) + 1 ∧
       capacity p = 2 ^ (32 - Z.of_nat ones) - 2.
Proof.
  intros Hp Hl Ho. destruct (ParseCIDR_v4 _ _ _ Hp Hl) as (_ & Hr & Hm).
  unfold NewFakeIPPool. rewrite Hp. unfold to4, To4. rewrite bool_decide_true by done.
  change (default [] (Some (net_ip n))) with (net_ip n). unfold Uint32. rewrite bool_decide_false by lia.
  rewrite take_ge by lia. cbn [res_bind].
  assert (Z.shiftr 0xFFFFFFFF (Z.of_nat ones) = 2 ^ (32 - Z.of_nat ones) - 1) as ->
    by (clear -Ho; do 31 (destruct ones as [|ones]; [reflexivity|]); lia).
  set (k := 32 - Z.of_nat ones) in *. set (m := be_get (net_ip n)) in *.
  assert (0 ≤ k) as Hk by lia. rewrite lor_low_ones by done.
  assert (4 ≤ 2 ^ k) as H4 by (change 4 with (2 ^ 2); apply Z.pow_le_mono_r; lia).
  assert (m + 2 ^ k ≤ 2 ^ 32) as Htop.
  { apply Z.div_exact in Hm; [|lia]. assert (m / 2 ^ k < 2 ^ (32 - k)).
    { apply Z.div_lt_upper_bound; [lia|]. rewrite <-Z.pow_add_r by lia. replace (k + (32 - k)) with 32 by lia. lia. }
    assert (2 ^ 32 = 2 ^ k * 2 ^ (32 - k)) as -> by (rewrite <-Z.pow_add_r by lia; f_equal; lia). nia. }
  rewrite !u32_id by lia. eexists. split; [done|]. unfold holds, capacity. cbn.
  split; [|split; [done|lia]]. split; [apply NoDup_nil_2|]. split; [lia|]. split; [lia|]. split; [lia|].
  split; [lia|]. split; [rewrite bool_decide_false by lia; lia|].
  split; intros x y; (split; [intros Hx; by rewrite lookup_empty in Hx|intros (i & Hi & _); done]).
Qed.

(** C34: fake addresses and names correspond one to one.  A pool made from an
    IPv4 network of [ones] prefix bits, asked for any sequence of names with
    at most 2^(32-ones)-2 different ones among them, answers every name with
    an address strictly inside the network, always the same one, different
    for different names, and [Lookup] of that address gives the name back. *)
Theorem fakeip_bijective (cidr : bytes) (n : IPNet) (ones : nat) (ds : list bytes) :
  ParseCIDR cidr = Some (n, ones) → length (net_ip n) = 4%nat → (ones ≤ 30)%nat →
  Z.of_nat (length (slots ds [])) ≤ 2 ^ (32 - Z.of_nat ones) - 2 →
  ∃ p0, NewFakeIPPool cidr = Ok p0 ∧
    let p := get_all ds p0 in
    (∀ d, d ∈ ds → ∃ a, Get d p = (uint32ToIP a, p) ∧ Lookup (uint32ToIP a) p = Ok (Some d) ∧
       be_get (net_ip n) < a < be_get (net_ip n) + 2 ^ (32 - Z.of_nat ones) - 1) ∧
    (∀ d d', d ∈ ds → d' ∈ ds → (Get d p).1 = (Get d' p).1 → d = d').
Proof.
  intros Hp Hl Ho Hc. destruct (NewFakeIPPool_v4 cidr n ones Hp Hl Ho) as (p0 & E & Hh & Hmin & Hcap).
  exists p0. split; [done|]. intros p. destruct (get_all_holds ds p0 [] Hh ltac:(lia)) as [Hh' Hcap'].
  fold p in Hh', Hcap'. set (l := slots ds []) in *.
  pose proof Hh' as (Hnd & Hmin' & Hmax' & Hlen & _ & _ & Hd & Hi).
  assert (minIP p = minIP p0) as Em.
  { unfold p. clear. revert p0. induction ds as [|d ds IH]; intros p0; simpl; [done|]. rewrite IH.
    unfold Get. by destruct (domainToIP p0 !! d). }
  assert (∀ d, d ∈ ds → ∃ i, l !! i = Some d ∧ domainToIP p !! d = Some (minIP p + Z.of_nat i)) as Hin.
  { intros d Hdin. assert (d ∈ l) as Hdl by (apply slots_elem; by left).
    apply list_elem_of_lookup in Hdl as [i Hli]. exists i. split; [done|]. apply Hd. eauto. }
  unfold capacity in *. split.
  - intros d Hdin. destruct (Hin d Hdin) as (i & Hli & Hdi). pose proof (lookup_lt_Some _ _ _ Hli).
    exists (minIP p + Z.of_nat i). unfold Get. rewrite Hdi. split; [done|].
    rewrite Lookup_uint32 by lia. split; [|lia]. f_equal. apply Hi. eauto.
  - intros d d' Hd1 Hd2. destruct (Hin d Hd1) as (i & Hli & Hdi). destruct (Hin d' Hd2) as (j & Hlj & Hdj).
    pose proof (lookup_lt_Some _ _ _ Hli). pose proof (lookup_lt_Some _ _ _ Hlj).
    unfold Get. rewrite Hdi, Hdj. cbn [fst]. intros Eq%(f_equal be_get). unfold uint32ToIP in Eq.
    rewrite !be_get_put, !Z.mod_small in Eq by lia. assert (i = j) as -> by lia. congruence.
Qed.

(** An exhausted pool mixes names up.  Once every address has been given
    out, the next new name takes over the address of the first one; asking
    for the first name again still answers that address, which now stands for
    the new name. *)
Theorem fakeip_exhausted (p : FakeIPPool) (l : list bytes) (first new : bytes) :
  holds p l → Z.of_nat (length l) = capacity p → l !! 0%nat = Some first → new ∉ l →
  let p' := (Get new p).2 in
  (Get first p').1 = (Get new p').1 ∧ Lookup (Get first p').1 p' = Ok (Some new).
Proof.
  intros (Hnd & Hmin & Hmax & Hlen & Hcap & Hcur & Hd & Hi) Hfull H0 Hnew p'.
  assert (domainToIP p !! new = None) as En.
  { apply eq_None_not_Some. intros [x (i & Hli & _)%Hd]. apply Hnew. by eapply list_elem_of_lookup_2. }
  assert (domainToIP p !! first = Some (minIP p)) as Ef by (apply Hd; exists 0%nat; split; [done|lia]).
  rewrite bool_decide_true in Hcur by done. unfold capacity in *.
  assert (first ≠ new) as Hne by (intros ->; apply Hnew; by eapply list_elem_of_lookup_2).
  subst p'. unfold Get at 2 4 6 7. rewrite En, Hcur. cbn [snd]. unfold Get. cbn [domainToIP].
  rewrite lookup_insert_ne, Ef, lookup_insert_eq by done. cbn [fst]. split; [done|].
  rewrite Lookup_uint32 by lia. cbn [ipToDomain]. by rewrite lookup_insert_eq.
Qed.

(** An IPv6 address crashes the reverse lookup, and an IPv6 range crashes
    the construction of the pool: [To4] of an IPv6 address is nil. *)
Theorem fakeip_ipv6_panics (p : FakeIPPool) (ip cidr : bytes) (n : IPNet) (ones : nat) :
  (To4 ip = None → Lookup ip p = Panic) ∧
  (ParseCIDR cidr = Some (n, ones) → To4 (net_ip n) = None → NewFakeIPPool cidr = Panic).
Proof.
  split; [intros E|intros Hp E].
  - unfold Lookup, to4. by rewrite E.
  - unfold NewFakeIPPool, to4. by rewrite Hp, E.
Qed.

(** ** Concrete runs *)

Definition demo_net : IPNet := match ParseCIDR "198.18.0.0/16" with Some (n, _) => n | None => {| net_ip := []; net_mask := [] |} end.

Lemma fakeip_bijective_witness :
  let ds := ["a.example" : bytes; "b.example" : bytes; "a.example" : bytes] in
  ∃ p0, NewFakeIPPool "198.18.0.0/16" = Ok p0 ∧
    let p := get_all ds p0 in
    (∀ d, d ∈ ds → ∃ a, Get d p = (uint32ToIP a, p) ∧ Lookup (uint32ToIP a) p = Ok (Some d) ∧
       be_get (net_ip demo_net) < a < be_get (net_ip demo_net) + 2 ^ (32 - Z.of_nat 16) - 1) ∧
    (∀ d d', d ∈ ds → d' ∈ ds → (Get d p).1 = (Get d' p).1 → d = d').
Proof.
  apply (fakeip_bijective "198.18.0.0/16" demo_net 16); [vm_compute; reflexivity|vm_compute; reflexivity|lia|].
  vm_compute. done.
Defined.

(** A /30 has two addresses to give. *)
Definition demo_pool : FakeIPPool :=
  match NewFakeIPPool "10.9.8.0/30" with
  | Ok p => p
  | _ => {| network := demo_net; minIP := 0; maxIP := 0; current := 0; ipToDomain := ∅; domainToIP := ∅ |}
  end.

Lemma fakeip_exhausted_witness :
  let p' := (Get ("c" : bytes) (get_all ["a" : bytes; "b" : bytes] demo_pool)).2 in
  (Get ("a" : bytes) p').1 = (Get ("c" : bytes) p').1 ∧ Lookup (Get ("a" : bytes) p').1 p' = Ok (Some ("c" : bytes)).
Proof.
  destruct (NewFakeIPPool_v4 "10.9.8.0/30"
    (match ParseCIDR "10.9.8.0/30" with Some (n, _) => n | None => demo_net end) 30)
    as (p0 & E & Hh & Hmin & Hcap); [vm_compute; reflexivity|vm_compute; reflexivity|lia|].
  assert (p0 = demo_pool) as -> by (unfold demo_pool; by rewrite E).
  apply (fakeip_exhausted _ ["a" : bytes; "b" : bytes]); [|vm_compute; reflexivity|reflexivity|].
  - apply (get_all_holds ["a" : bytes; "b" : bytes] demo_pool [] Hh). rewrite Hcap. vm_compute. done.
  - vm_compute. set_solver.
Defined.

Lemma fakeip_ipv6_panics_witness :
  Lookup (default [] (ParseIP "2001:db8::1")) demo_pool = Panic ∧ NewFakeIPPool "fd00::/112" = Panic.
Proof.
  destruct (fakeip_ipv6_panics demo_pool (default [] (ParseIP "2001:db8::1")) "fd00::/112"
    (match ParseCIDR "fd00::/112" with Some (n, _) => n | None => demo_net end) 112) as [H1 H2].
  split; [apply H1|apply H2]; vm_compute; reflexivity.
Defined.

End FakeIPThms.
