(* ===== verification/Outbound.v ===== *)
(** * Outbound handlers: [internal/outbound]

    [DirectHandler] dials the target itself; [NPChainHandler] dials the first
    node of a chain over QUIC and writes the chain header.  What the dialers
    of [net] and of the QUIC transport return is an argument.  A health score
    is a Go float64, modelled by the binary64 arithmetic of [SpecFloat].
    [OutboundHandler] is the interface the router uses. *)

From Stdlib Require Export Floats.SpecFloat.
From S2P Require Import Prelude GoNet Stream Types NPChain Obfs.

(** ** float64 *)

Abbreviation float64 := spec_float.

Definition f64 (z : Z) : float64 := binary_normalize 53 1024 z 0 false.

Definition f64_div (x y : float64) : float64 := SFdiv 53 1024 x y.

Definition f64_sub (x y : float64) : float64 := SFsub 53 1024 x y.

Definition f64_lt (x y : float64) : bool := SFltb x y.

(** ** The interface *)

Class OutboundHandler (O : Type) := {
  Name : O → bytes;
  Group : O → bytes;
  HealthCheck : O → float64 }.

(** ** Direct connections *)

Record DirectHandler := { dh_name : bytes; dh_group : bytes }.

Definition NewDirectHandler (name group : bytes) : DirectHandler := {| dh_name := name; dh_group := group |}.

(** What is asked of [net.Dialer]: the network and the address. *)
Definition DirectDial (d : DirectHandler) (meta : SessionMeta) : res (bytes * bytes) :=
  let network := if bool_decide (Network meta = []) then ("tcp" : bytes) else Network meta in
  if bool_decide (network ∈ ["tcp" : bytes; "tcp4" : bytes; "tcp6" : bytes]) then Ok (network, Target meta)
  else if bool_decide (network ∈ ["udp" : bytes; "udp4" : bytes; "udp6" : bytes]) then Ok (network, Target meta)
  else Fail (Errorf "unsupported network type").

#[export] Instance direct_handler : OutboundHandler DirectHandler :=
  {| Name := dh_name; Group := dh_group; HealthCheck := λ _, f64 1 |}.

(** ** Chains *)

Record NPChainHandler := {
  np_name : bytes;
  np_group : bytes;
  np_address : bytes;
  np_transport : bytes;
  np_obfs : ObfsConfig;
  np_multipath : bool;
  np_conns : list nat;   (* the pooled QUIC connections *)
  np_latencyMs : Z }.

Definition NewNPChainHandler (name group address transportType : bytes) (obfs : ObfsConfig) (multipath : bool) :
  NPChainHandler :=
  {| np_name := name; np_group := group; np_address := address; np_transport := transportType;
     np_obfs := obfs; np_multipath := multipath; np_conns := []; np_latencyMs := 0 |}.

Definition set_latency (h : NPChainHandler) (ms : Z) : NPChainHandler :=
  {| np_name := np_name h; np_group := np_group h; np_address := np_address h; np_transport := np_transport h;
     np_obfs := np_obfs h; np_multipath := np_multipath h; np_conns := np_conns h; np_latencyMs := ms |}.

Definition set_conns (h : NPChainHandler) (cs : list nat) : NPChainHandler :=
  {| np_name := np_name h; np_group := np_group h; np_address := np_address h; np_transport := np_transport h;
     np_obfs := np_obfs h; np_multipath := np_multipath h; np_conns := cs; np_latencyMs := np_latencyMs h |}.

(** One tick of [probeLoop]: [Some ms] is a successful dial and its time. *)
Definition probe_tick (dialed : option Z) (h : NPChainHandler) : NPChainHandler :=
  match dialed with Some ms => set_latency h ms | None => set_latency h 9999 end.

(** One tick of [poolLoop], which alone adds connections. *)
Definition pool_tick (dialed : option nat) (h : NPChainHandler) : NPChainHandler :=
  if bool_decide (length (np_conns h) < 4)%nat then
    match dialed with Some c => set_conns h (np_conns h ++ [c]) | None => h end
  else h.

(** [getStreamConn]: [dialed] is the result of the QUIC dial. *)
Definition getStreamConn (dialed : res sink) (h : NPChainHandler) : res sink * NPChainHandler :=
  if negb (np_multipath h) then (dialed, h)
  else match np_conns h with
       | c :: r => (dialed, set_conns h (r ++ [c]))
       | [] => (dialed, h)
       end.

(** The connection [Dial] returns: the network and address that were dialed,
    the wrapping, if any, and what has been written. *)
Record np_conn := { nc_peer : bytes * bytes; nc_obfs : option ObfsConn; nc_sink : sink }.

Inductive dial_result := Dialed (c : np_conn) | DialFailed (e : goerr) (closed : bool) | DialPanic.

Definition Dial `{UUID} (g : rnd) (fg : frnd) (dialed : res sink) (meta : SessionMeta) (h : NPChainHandler) :
  dial_result * NPChainHandler :=
  if bool_decide (np_transport h ≠ ("quic" : bytes)) then (DialFailed (Errorf "unsupported transport") false, h)
  else
    let '(conn, h') := getStreamConn dialed h in
    match conn with
    | Fail _ => (DialFailed (Errorf "dial failed") false, h')
    | Panic => (DialPanic, h')
    | Ok k =>
        let oc := if obfuscated (oType (np_obfs h)) (Interval (np_obfs h)) then NewObfsConn (np_obfs h) else None in
        (match EncodeHeader g meta with
         | Fail e => DialFailed e true
         | Panic => DialPanic
         | Ok header =>
             match oc with
             | Some c =>
                 match Write c fg header k with
                 | (Ok (_, None), k') => Dialed {| nc_peer := ("quic" : bytes, np_address h); nc_obfs := oc; nc_sink := k' |}
                 | (Ok (_, Some e), _) => DialFailed e true
                 | (Fail e, _) => DialFailed e true
                 | (Panic, _) => DialPanic
                 end
             | None =>
                 match sink_write header k with
                 | (None, k') => Dialed {| nc_peer := ("quic" : bytes, np_address h); nc_obfs := None; nc_sink := k' |}
                 | (Some e, _) => DialFailed e true
                 end
             end
         end, h')
    end.

(** [HealthCheck]: one minus the latency in units of two seconds; the
    constants 0.5 and 0.1 are quotients that round to the same float64. *)
Definition health_of (lat : Z) : float64 :=
  if bool_decide (lat ≤ 0) then f64_div (f64 1) (f64 2)
  else if bool_decide (2000 ≤ lat) then f64_div (f64 1) (f64 10)
  else f64_sub (f64 1) (f64_div (f64 lat) (f64 2000)).

#[export] Instance npchain_handler : OutboundHandler NPChainHandler :=
  {| Name := np_name; Group := np_group; HealthCheck := λ h, health_of (np_latencyMs h) |}.

(** The handlers a node is configured with. *)
Inductive handler := HDirect (d : DirectHandler) | HNPChain (h : NPChainHandler).

#[export] Instance any_handler : OutboundHandler handler :=
  {| Name := λ h, match h with HDirect d => Name d | HNPChain h => Name h end;
     Group := λ h, match h with HDirect d => Group d | HNPChain h => Group h end;
     HealthCheck := λ h, match h with HDirect d => HealthCheck d | HNPChain h => HealthCheck h end |}.

Module OutboundThms.

(** ** The order of float64 *)

Lemma lex_lt e1 e2 m1 m2 :
  match e1 ?= e2 with Eq => Pos.compare_cont Eq m1 m2 | Lt => Lt | Gt => Gt end = Lt ↔
  e1 < e2 ∨ e1 = e2 ∧ (m1 < m2)%positive.
Proof.
  change (Pos.compare_cont Eq m1 m2) with (m1 ?= m2)%positive.
  destruct (Z.compare_spec e1 e2); [rewrite Pos.compare_lt_iff|..]; split; intros; try done; try lia.
Qed.

Lemma lex_gt e1 e2 m1 m2 :
  match e1 ?= e2 with Eq => CompOpp (Pos.compare_cont Eq m1 m2) | Lt => Gt | Gt => Lt end = Lt ↔
  e2 < e1 ∨ e1 = e2 ∧ (m2 < m1)%positive.
Proof.
  change (Pos.compare_cont Eq m1 m2) with (m1 ?= m2)%positive. rewrite <-Pos.compare_antisym.
  destruct (Z.compare_spec e1 e2); [rewrite Pos.compare_lt_iff|..]; split; intros; try done; try lia.
Qed.

Lemma ltb_finite s1 m1 e1 s2 m2 e2 :
  f64_lt (S754_finite s1 m1 e1) (S754_finite s2 m2 e2) = true ↔
  match s1, s2 with
  | true, false => True
  | false, true => False
  | false, false => e1 < e2 ∨ e1 = e2 ∧ (m1 < m2)%positive
  | true, true => e2 < e1 ∨ e1 = e2 ∧ (m2 < m1)%positive
  end.
Proof.
  unfold f64_lt, SFltb, SFcompare. destruct s1, s2; [|done|done|].
  - rewrite <-lex_gt. by destruct (match e1 ?= e2 with Eq => _ | Lt => _ | Gt => _ end).
  - rewrite <-lex_lt. by destruct (match e1 ?= e2 with Eq => _ | Lt => _ | Gt => _ end).
Qed.

Lemma f64_lt_trans x y z : f64_lt x y = true → f64_lt y z = true → f64_lt x z = true.
Proof.
  destruct x as [sx|sx| |sx mx ex], y as [sy|sy| |sy my ey], z as [sz|sz| |sz mz ez]; rewrite ?ltb_finite;
    try (cbn; repeat match goal with |- context [if ?b then _ else _] => destruct b end; done).
  destruct sx, sy, sz; try done; lia.
Qed.

(** ** Health scores *)

Fixpoint decreasing (n : nat) (lat : Z) : bool :=
  match n with
  | O => true
  | S n' => f64_lt (health_of (lat + 1)) (health_of lat) && decreasing n' (lat + 1)
  end.

Lemma decreasing_lt n lat k :
  decreasing n lat = true → (0 < k ≤ n)%nat → f64_lt (health_of (lat + Z.of_nat k)) (health_of lat) = true.
Proof.
  revert lat k. induction n as [|n IH]; intros lat k; [lia|]. cbn [decreasing].
  intros [H1 H2]%andb_true_iff Hk. destruct (decide (k = 1%nat)) as [->|Hk1]; [done|].
  eapply f64_lt_trans; [|exact H1]. specialize (IH (lat + 1) (k - 1)%nat H2 ltac:(lia)).
  replace (lat + Z.of_nat k) with (lat + 1 + Z.of_nat (k - 1)) by lia. done.
Qed.

Lemma decreasing_range : decreasing (Z.to_nat 1998) 1 = true.
Proof. vm_compute. reflexivity. Qed.

Lemma decreasing_drop n lat k : decreasing (k + n) lat = true → decreasing n (lat + Z.of_nat k) = true.
Proof.
  revert lat. induction k as [|k IH]; intros lat; [by rewrite Z.add_0_r|]. cbn [Nat.add decreasing].
  intros [_ H]%andb_true_iff. apply IH in H. by replace (lat + Z.of_nat (S k)) with (lat + 1 + Z.of_nat k) by lia.
Qed.

Lemma f64_lt_irrefl x : f64_lt x x ≠ true.
Proof.
  destruct x as [s|s| |s m e]; try (by destruct s); [done|]. intros Hx%ltb_finite. destruct s; lia.
Qed.

Lemma f64_lt_asym x y : f64_lt x y = true → f64_lt y x = false.
Proof. intros Hxy. apply not_true_is_false. intros Hyx. apply (f64_lt_irrefl x). by eapply f64_lt_trans. Qed.

(** ** The search for the best score

    The router and the balancer scan their candidates with the same loop: a
    strictly better score replaces the best so far. *)

Section best.
Context {A B : Type} (key : A → float64) (val : A → B) (step : option B * float64 → A → option B * float64).
Context (step_eq : ∀ best m x, step (best, m) x = if f64_lt m (key x) then (Some (val x), key x) else (best, m)).

Lemma best_fold_from l x0 :
  ∃ x, (x = x0 ∨ x ∈ l) ∧ fold_left step l (Some (val x0), key x0) = (Some (val x), key x) ∧
    (key x = key x0 ∨ f64_lt (key x0) (key x) = true) ∧ ∀ y, y ∈ l → f64_lt (key x) (key y) = false.
Proof.
  revert x0. induction l as [|c l IH]; intros x0; cbn [fold_left]; [exists x0; set_solver|]. rewrite step_eq.
  destruct (f64_lt (key x0) (key c)) eqn:E.
  - destruct (IH c) as (x & Hx & -> & Hk & Hm). exists x. split; [set_solver|]. split; [done|].
    split; [right; destruct Hk as [->|Hk]; [done|by eapply f64_lt_trans]|].
    intros y [->|Hy]%elem_of_cons; [|auto]. destruct Hk as [->|Hk]; [|by apply f64_lt_asym].
    apply not_true_is_false, f64_lt_irrefl.
  - destruct (IH x0) as (x & Hx & -> & Hk & Hm). exists x. split; [set_solver|]. split; [done|]. split; [done|].
    intros y [->|Hy]%elem_of_cons; [|auto]. destruct Hk as [->|Hk]; [done|]. apply not_true_is_false. intros Hc.
    assert (f64_lt (key x0) (key c) = true) by (by eapply f64_lt_trans). congruence.
Qed.

Lemma best_fold l m0 :
  l ≠ [] → (∀ x, x ∈ l → f64_lt m0 (key x) = true) →
  ∃ x, x ∈ l ∧ fold_left step l (None, m0) = (Some (val x), key x) ∧ ∀ y, y ∈ l → f64_lt (key x) (key y) = false.
Proof.
  destruct l as [|c l]; [done|]. intros _ Hm. cbn [fold_left]. rewrite step_eq, Hm by set_solver.
  destruct (best_fold_from l c) as (x & Hx & -> & Hk & Hmax). exists x. split; [set_solver|]. split; [done|].
  intros y [->|Hy]%elem_of_cons; [|auto]. destruct Hk as [->|Hk]; [apply not_true_is_false, f64_lt_irrefl|by apply f64_lt_asym].
Qed.

End best.

Lemma health_lt a b : 0 < a → a < b → b < 2000 → f64_lt (health_of b) (health_of a) = true.
Proof.
  intros H1 H2 H3. pose proof (decreasing_drop (Z.to_nat (1999 - a)) 1 (Z.to_nat (a - 1))) as Hd.
  replace (Z.to_nat (a - 1) + Z.to_nat (1999 - a))%nat with (Z.to_nat 1998) in Hd by lia.
  specialize (Hd decreasing_range). rewrite Z2Nat.id in Hd by lia.
  replace (1 + (a - 1)) with a in Hd by lia.
  pose proof (decreasing_lt _ a (Z.to_nat (b - a)) Hd ltac:(lia)) as Hl.
  rewrite Z2Nat.id in Hl by lia. by replace (a + (b - a)) with b in Hl by lia.
Qed.

(** Among nodes that answered within two seconds, a lower measured
    latency always gives a strictly better health score, in the machine's own
    floating-point arithmetic. *)
Theorem health_monotone (h1 h2 : NPChainHandler) :
  0 < np_latencyMs h1 → np_latencyMs h1 < np_latencyMs h2 → np_latencyMs h2 < 2000 →
  f64_lt (HealthCheck h2) (HealthCheck h1) = true.
Proof. apply health_lt. Qed.

(** A dead node can look healthier than a slow one.  A node whose probe
    failed is recorded with 9999 ms and scores 0.1, more than a node that
    answered in 1801 to 1999 ms; a node that answered in less than a
    millisecond scores like one that was never probed, less than a node that
    took 900 ms. *)
Theorem health_inversion (h slow : NPChainHandler) :
  1801 ≤ np_latencyMs slow → np_latencyMs slow < 2000 →
  f64_lt (HealthCheck slow) (HealthCheck (probe_tick None h)) = true ∧
  f64_lt (HealthCheck (probe_tick (Some 0) h)) (HealthCheck (probe_tick (Some 900) h)) = true.
Proof.
  intros H1 H2. split; [|vm_compute; reflexivity]. cbn [HealthCheck npchain_handler probe_tick set_latency np_latencyMs].
  assert (f64_lt (health_of 1801) (health_of 9999) = true) as H0 by (vm_compute; reflexivity).
  destruct (decide (np_latencyMs slow = 1801)) as [->|Hne]; [done|].
  eapply f64_lt_trans; [|exact H0]. apply health_lt; lia.
Qed.

(** ** Dialing *)

(** The pool is only rotated: every stream is a fresh connection. *)
Lemma getStreamConn_spec dialed h :
  (getStreamConn dialed h).1 = dialed ∧ np_conns (getStreamConn dialed h).2 ≡ₚ np_conns h.
Proof.
  unfold getStreamConn. destruct (negb (np_multipath h)); [done|]. destruct (np_conns h) as [|c r] eqn:E; [cbn; by rewrite E|].
  split; [done|]. cbn. apply Permutation_app_comm.
Qed.

(** The pooled connections of multipath mode are never used: whatever the
    pool holds, a dial gives the connection that was dialed for it, and the
    pool only grows, to at most four. *)
Theorem pool_unused `{UUID} (g : rnd) (fg : frnd) (dialed : res sink) (meta : SessionMeta) (h : NPChainHandler)
    (cs : list nat) (c : option nat) :
  (Dial g fg dialed meta (set_conns h cs)).1 = (Dial g fg dialed meta h).1 ∧
  np_conns (Dial g fg dialed meta h).2 ≡ₚ np_conns h ∧
  ((length (np_conns h) ≤ 4)%nat → (length (np_conns h) ≤ length (np_conns (pool_tick c h)) ≤ 4)%nat).
Proof.
  split; [|split].
  - unfold Dial. change (np_transport (set_conns h cs)) with (np_transport h).
    change (np_obfs (set_conns h cs)) with (np_obfs h). case_bool_decide; [done|].
    destruct (getStreamConn_spec dialed (set_conns h cs)) as [E1 _]. destruct (getStreamConn_spec dialed h) as [E2 _].
    destruct (getStreamConn dialed (set_conns h cs)) as [x1 h1]. destruct (getStreamConn dialed h) as [x2 h2].
    simpl in *. subst. by destruct dialed.
  - unfold Dial. case_bool_decide; [done|]. destruct (getStreamConn_spec dialed h) as [_ E2].
    destruct (getStreamConn dialed h) as [x2 h2]. by destruct x2.
  - intros Hl. unfold pool_tick. case_bool_decide; [|lia]. destruct c; cbn; [rewrite length_app; simpl|]; lia.
Qed.

Lemma dial_journey `{UUIDLaws} (g : rnd) (fg : frnd) (meta : SessionMeta) (h : NPChainHandler)
    (hops : list bytes) (target payload : bytes) :
  np_transport h = ("quic" : bytes) → obfuscated (oType (np_obfs h)) (Interval (np_obfs h)) = false →
  HopChain meta = hops ++ [target] → Forall good_hop (HopChain meta) → Z.of_nat (length hops) < 255 →
  hops = [] ∨ pad_len g meta = 0%nat →
  ∃ k h', Dial g fg (Ok open_sink) meta h = (Dialed {| nc_peer := ("quic" : bytes, np_address h); nc_obfs := None; nc_sink := k |}, h') ∧
    journey (S (length hops)) (concat (written k) ++ payload) =
      (hops, Arrived (if bool_decide (Network meta = ("udp" : bytes)) then ("udp" : bytes) else ("tcp" : bytes))
               target payload).
Proof.
  intros Ht Ho Hc Hg Hl Hp. destruct (NPFacts.encode_hops_good _ Hg) as (es & Ees & _).
  pose proof (NPThms.EncodeHeader_good g meta es Ees) as Eh. set (hdr := _ ++ _) in Eh.
  destruct (getStreamConn_spec (Ok open_sink) h) as [Ec _].
  exists {| written := [hdr]; budget := None |}, (getStreamConn (Ok open_sink) h).2. split.
  - unfold Dial. rewrite bool_decide_false by (intros Hq; by apply Hq).
    destruct (getStreamConn (Ok open_sink) h) as [conn h']. cbn [fst snd] in *. subst conn. by rewrite Ho, Eh.
  - cbn [written concat]. rewrite app_nil_r. by apply (NPThms.journey_deliver g meta).
Qed.

(** End to end.  A chain handler without obfuscation that is given a
    session with a hop chain writes the header on the connection it dialed;
    the bytes of that connection, header and whatever the session sends
    after it, travel along the chain and arrive at the chain's last element,
    where exactly the session's bytes come out. *)
Theorem dial_reaches_target `{UUIDLaws} (g : rnd) (fg : frnd) (meta : SessionMeta) (h : NPChainHandler)
    (hops : list bytes) (target payload : bytes) :
  np_transport h = ("quic" : bytes) → obfuscated (oType (np_obfs h)) (Interval (np_obfs h)) = false →
  HopChain meta = hops ++ [target] → Forall good_hop (HopChain meta) → Z.of_nat (length hops) < 255 →
  hops = [] ∨ pad_len g meta = 0%nat →
  ∃ k h', Dial g fg (Ok open_sink) meta h = (Dialed {| nc_peer := ("quic" : bytes, np_address h); nc_obfs := None; nc_sink := k |}, h') ∧
    journey (S (length hops)) (concat (written k) ++ payload) =
      (hops, Arrived (if bool_decide (Network meta = ("udp" : bytes)) then ("udp" : bytes) else ("tcp" : bytes))
               target payload).
Proof. apply dial_journey. Qed.

(** A session without a hop chain: the first node drops it. *)
Lemma dial_empty_header `{UUIDLaws} (g : rnd) (fg : frnd) (meta : SessionMeta) (h : NPChainHandler) :
  np_transport h = ("quic" : bytes) → obfuscated (oType (np_obfs h)) (Interval (np_obfs h)) = false → HopChain meta = [] →
  ∃ hdr h', Dial g fg (Ok open_sink) meta h = (Dialed {| nc_peer := ("quic" : bytes, np_address h); nc_obfs := None; nc_sink := {| written := [hdr]; budget := None |} |}, h') ∧
    ∀ payload, (HandleRelay (mk_stream (hdr ++ payload) EOF)).1 = Ok (RelayDrop (Errorf "no more hops")).
Proof.
  intros Ht Ho Hc. destruct (NPThms.empty_chain_dropped g meta [] Hc) as (hdr & Eh & _).
  destruct (getStreamConn_spec (Ok open_sink) h) as [Ec _]. exists hdr, (getStreamConn (Ok open_sink) h).2. split.
  - unfold Dial. rewrite bool_decide_false by (intros Hq; by apply Hq).
    destruct (getStreamConn (Ok open_sink) h) as [conn h']. cbn [fst snd] in *. subst conn. by rewrite Ho, Eh.
  - intros payload. destruct (NPThms.empty_chain_dropped g meta payload Hc) as (hdr' & Eh' & Er). congruence.
Qed.

Lemma dial_empty_chain `{UUIDLaws} (g : rnd) (fg : frnd) (meta : SessionMeta) (h : NPChainHandler) (payload : bytes) :
  np_transport h = ("quic" : bytes) → obfuscated (oType (np_obfs h)) (Interval (np_obfs h)) = false → HopChain meta = [] →
  ∃ k h', Dial g fg (Ok open_sink) meta h = (Dialed {| nc_peer := ("quic" : bytes, np_address h); nc_obfs := None; nc_sink := k |}, h') ∧
    journey 1 (concat (written k) ++ payload) = ([], Lost (Errorf "no more hops")).
Proof.
  intros Ht Ho Hc. destruct (dial_empty_header g fg meta h Ht Ho Hc) as (hdr & h' & E & Er). eexists _, h'. split; [exact E|].
  cbn [written concat]. rewrite app_nil_r. cbn [journey]. specialize (Er payload).
  destruct (HandleRelay (mk_stream (hdr ++ payload) EOF)) as [a r']. cbn [fst] in Er. by rewrite Er.
Qed.

(** ** Concrete runs *)
Import DemoUUID.

Definition demo_handler (lat : Z) : NPChainHandler :=
  set_latency (NewNPChainHandler "n1" "hk" "203.0.113.5:443" "quic"
                 {| oType := "none"; MaxPad := 0; Interval := 0; DummySize := 0 |} true) lat.

Lemma health_monotone_witness : f64_lt (HealthCheck (demo_handler 180)) (HealthCheck (demo_handler 30)) = true.
Proof. apply health_monotone; simpl; lia. Defined.

Lemma health_inversion_witness :
  f64_lt (HealthCheck (demo_handler 1900)) (HealthCheck (probe_tick None (demo_handler 20))) = true ∧
  f64_lt (HealthCheck (probe_tick (Some 0) (demo_handler 20))) (HealthCheck (probe_tick (Some 900) (demo_handler 20))) = true.
Proof. apply health_inversion; simpl; lia. Defined.

Lemma dial_reaches_target_witness :
  ∃ k h', Dial (NPThms.demo_rnd Byte.x40) {| f_len := Byte.x00; f_pad := λ _, Byte.x00 |} (Ok open_sink)
            (NPThms.demo_meta NPThms.demo_chain) (demo_handler 20) = (Dialed {| nc_peer := ("quic" : bytes, np_address (demo_handler 20)); nc_obfs := None; nc_sink := k |}, h') ∧
    journey 3 (concat (written k) ++ ("ping" : bytes)) =
      (["node1.example:8443" : bytes; "[2001:db8::5]:443" : bytes],
       Arrived ("udp" : bytes) ("192.0.2.7:80" : bytes) ("ping" : bytes)).
Proof.
  apply (dial_reaches_target (NPThms.demo_rnd Byte.x40) _ (NPThms.demo_meta NPThms.demo_chain) (demo_handler 20)
           ["node1.example:8443" : bytes; "[2001:db8::5]:443" : bytes]);
    [reflexivity|reflexivity|reflexivity|apply NPThms.demo_chain_good|simpl; lia|right; vm_compute; reflexivity].
Defined.

End OutboundThms.
