(* ===== verification/Router.v ===== *)
(** * Routing: [internal/routing/router.go], [geoip.go], [generator.go]

    [BaseRouter] matches a session against the rules in order and picks an
    outbound by name or, within a group, by strategy.  The router is written
    against the interfaces [OutboundHandler] and [Resolver]; the geo-IP
    databases are lookup functions.  Go iterates over a map in an order of
    its own choice: [Route] is given that order as [order], a permutation of
    the registered outbounds. *)

From S2P Require Import Prelude GoNet Types Obfs Outbound FakeIP.

(** What the router asks of the DNS resolver. *)
Record Resolver := { ResolveFakeIP : bytes → res (option bytes) }.

(** The two databases: country code and autonomous system of an address. *)
Record GeoIPMatcher := { geo_db : option (bytes → option bytes); geo_asnDB : option (bytes → option Z) }.

Definition Match (m : GeoIPMatcher) (ip countryCode : bytes) : bool :=
  match geo_db m with
  | None => false
  | Some db => match db ip with None => false | Some code => bool_decide (code = countryCode) end
  end.

Definition MatchASN (m : GeoIPMatcher) (ip : bytes) (asn : Z) : bool :=
  match geo_asnDB m with
  | None => false
  | Some db => match db ip with None => false | Some n => bool_decide (n = asn) end
  end.

(** [fmt.Sscanf(s, "%d", &asn)] for an unsigned [asn] that starts at zero:
    leading white space other than line ends is skipped, then the longest run
    of digits is the number; on any error [asn] stays zero. *)
Fixpoint skip_space (fuel : nat) (s : bytes) : option bytes :=
  match fuel with
  | O => Some s
  | S f =>
      if has_prefix s [lf] || has_prefix s [cr; lf] then None
      else match List.find (has_prefix s) spaces with
           | Some w => skip_space f (drop (length w) s)
           | None => Some s
           end
  end.

Fixpoint digit_run (s : bytes) : bytes :=
  match s with
  | c :: r => if is_digit c then c :: digit_run r else []
  | [] => []
  end.

Definition scan_uint (s : bytes) : Z :=
  match skip_space (length s) s with
  | None => 0
  | Some s' =>
      match digit_run s' with
      | [] => 0
      | ds => match parse_uint ds 0 with (n, None) => n | _ => 0 end
      end
  end.

Section router.
Context `{OutboundHandler Out}.

Record BaseRouter := {
  rules : list RoutingRule;
  outbounds : gmap bytes Out;
  geoip : option GeoIPMatcher;
  resolver : option Resolver }.

Definition NewRouter : BaseRouter := {| rules := []; outbounds := ∅; geoip := None; resolver := None |}.

Definition SetResolver (res : Resolver) (r : BaseRouter) : BaseRouter :=
  {| rules := rules r; outbounds := outbounds r; geoip := geoip r; resolver := Some res |}.

Definition AddOutbound (out : Out) (r : BaseRouter) : BaseRouter :=
  {| rules := rules r; outbounds := <[Name out := out]> (outbounds r); geoip := geoip r; resolver := resolver r |}.

Definition RemoveOutbound (name : bytes) (r : BaseRouter) : BaseRouter :=
  {| rules := rules r; outbounds := delete name (outbounds r); geoip := geoip r; resolver := resolver r |}.

Definition UpdateRules (rs : list RoutingRule) (r : BaseRouter) : BaseRouter :=
  {| rules := rs; outbounds := outbounds r; geoip := geoip r; resolver := resolver r |}.

Definition Reset (r : BaseRouter) : BaseRouter :=
  {| rules := []; outbounds := ∅; geoip := geoip r; resolver := resolver r |}.

(** [match]; [host_of] drops the error of [SplitHostPort]. *)
Definition match_rule (r : BaseRouter) (rule : RoutingRule) (meta : SessionMeta) : bool :=
  let host := host_of (Target meta) in
  if bool_decide (Type_ rule = ("default" : bytes)) then true
  else if bool_decide (Type_ rule = ("domain" : bytes)) then has_suffix host (trim_prefix (Pattern rule) "*")
  else if bool_decide (Type_ rule = ("ip" : bytes)) then
    match ParseCIDR (Pattern rule) with
    | Some (ipNet, _) => Contains ipNet (default [] (ParseIP host))
    | None => false
    end
  else if bool_decide (Type_ rule = ("geoip" : bytes)) then
    match ParseIP host, geoip r with
    | Some ip, Some g => Match g ip (Pattern rule)
    | _, _ => false
    end
  else if bool_decide (Type_ rule = ("asn" : bytes)) then
    match ParseIP host, geoip r with
    | Some ip, Some g => MatchASN g ip (scan_uint (Pattern rule))
    | _, _ => false
    end
  else false.

(** [selectByStrategy]: the loop over the candidates, then the choice. *)
Definition select_step (acc : option Out * float64) (c : Out) : option Out * float64 :=
  let '(best, maxScore) := acc in
  let score := HealthCheck c in
  if f64_lt maxScore score then (Some c, score) else (best, maxScore).

Definition select_best (candidates : list Out) : option Out := (fold_left select_step candidates (None, f64 (-1))).1.

Definition selectByStrategy (candidates : list Out) (strategy : bytes) : res Out :=
  let first := match candidates with c :: _ => Ok c | [] => Panic end in
  if bool_decide (strategy = ("lowest-latency" : bytes)) then
    match select_best candidates with Some best => Ok best | None => first end
  else first.

(** The name behind a fake address, if the target is one. *)
Definition restore (r : BaseRouter) (meta : SessionMeta) : res SessionMeta :=
  match ParseIP (host_of (Target meta)), resolver r with
  | Some ip, Some rs =>
      let! d := ResolveFakeIP rs ip in
      Ok match d with
         | Some domain => with_Target meta (JoinHostPort domain (port_of (Target meta)))
         | None => meta
         end
  | _, _ => Ok meta
  end.

Definition Route (order : list Out) (r : BaseRouter) (meta : SessionMeta) : res Out :=
  let! meta' := restore r meta in
  match List.find (λ rule, match_rule r rule meta') (rules r) with
  | None =>
      match outbounds r !! ("default" : bytes) with Some out => Ok out | None => Fail ErrNoAvailableOutbound end
  | Some rule =>
      if negb (bool_decide (Outbound rule = [])) then
        match outbounds r !! Outbound rule with Some out => Ok out | None => Fail ErrNoAvailableOutbound end
      else
        let candidates := filter (λ out, Group out = OutboundGroup rule) order in
        if bool_decide (length candidates = 0)%nat then Fail ErrNoAvailableOutbound
        else selectByStrategy candidates (Strategy rule)
  end.

(** The operations a node performs on its router. *)
Inductive router_op :=
| OpResolver (rs : Resolver) | OpAdd (out : Out) | OpRemove (name : bytes)
| OpRules (rs : list RoutingRule) | OpReset.

Definition run_op (op : router_op) (r : BaseRouter) : BaseRouter :=
  match op with
  | OpResolver rs => SetResolver rs r
  | OpAdd out => AddOutbound out r
  | OpRemove name => RemoveOutbound name r
  | OpRules rs => UpdateRules rs r
  | OpReset => Reset r
  end.

Definition run_ops (ops : list router_op) : BaseRouter := fold_left (λ r op, run_op op r) ops NewRouter.

End router.
Arguments BaseRouter Out : clear implicits.
Arguments router_op Out : clear implicits.

(** [GenerateDefaultSplitConfig]. *)
Definition mk_rule (type_ pattern outbound : bytes) : RoutingRule :=
  {| Type_ := type_; Pattern := pattern; Outbound := outbound; OutboundGroup := []; Strategy := [] |}.

Definition GenerateDefaultSplitConfig (proxyOutbound : bytes) : list RoutingRule :=
  [ mk_rule "ip" "127.0.0.0/8" "direct"; mk_rule "ip" "192.168.0.0/16" "direct"; mk_rule "ip" "10.0.0.0/8" "direct";
    mk_rule "geoip" "CN" "direct"; mk_rule "default" "" proxyOutbound ].

(** The resolver of a node with fake addresses enabled. *)
Definition fake_resolver (p : FakeIPPool) : Resolver := {| ResolveFakeIP := λ ip, Lookup ip p |}.

(** The law the router needs of its outbounds: scores are comparable numbers
    above -1, from which the search for the best starts. *)
Class ScoreLaw (Out : Type) `{OutboundHandler Out} :=
  score_ok (o : Out) : f64_lt (f64 (-1)) (HealthCheck o) = true.

Module RouterThms.
Import OutboundThms.

Lemma health_of_ok lat : f64_lt (f64 (-1)) (health_of lat) = true.
Proof.
  destruct (decide (lat ≤ 0)); [unfold health_of; rewrite bool_decide_true by done; reflexivity|].
  destruct (decide (2000 ≤ lat)).
  { unfold health_of. rewrite bool_decide_false, bool_decide_true by lia. reflexivity. }
  assert (f64_lt (f64 (-1)) (health_of 1999) = true) as H0 by (vm_compute; reflexivity).
  destruct (decide (lat = 1999)) as [->|]; [done|]. eapply f64_lt_trans; [exact H0|].
  apply (health_lt lat 1999); lia.
Qed.

#[export] Instance handler_scores : ScoreLaw handler.
Proof. intros [d|h]; [reflexivity|apply health_of_ok]. Qed.

Section thms.
Context `{ScoreLaw Out}.

(** ** The best candidate *)

Lemma select_best_spec cs :
  cs ≠ [] → ∃ b, select_best cs = Some b ∧ b ∈ cs ∧ ∀ c, c ∈ cs → f64_lt (HealthCheck b) (HealthCheck c) = false.
Proof.
  intros Hne. unfold select_best.
  destruct (best_fold HealthCheck id select_step (λ _ _ _, eq_refl) cs (f64 (-1)) Hne) as (b & Hb & -> & Hm);
    [intros; apply score_ok|]. by exists b.
Qed.

(** ** What a route may be *)

(** The first rule that matches. *)
Definition first_match (r : BaseRouter Out) (meta : SessionMeta) (rule : RoutingRule) : Prop :=
  ∃ i, rules r !! i = Some rule ∧ match_rule r rule meta = true ∧
    ∀ j rule', (j < i)%nat → rules r !! j = Some rule' → match_rule r rule' meta = false.

Definition in_group (r : BaseRouter Out) (g : bytes) (out : Out) : Prop :=
  ∃ name, outbounds r !! name = Some out ∧ Group out = g.

(** The contract of [Route], independent of the order of map iteration. *)
Inductive route_allowed (r : BaseRouter Out) (meta : SessionMeta) : res Out → Prop :=
| RANone : (∀ rule, rule ∈ rules r → match_rule r rule meta = false) →
    route_allowed r meta (from_option Ok (Fail ErrNoAvailableOutbound) (outbounds r !! ("default" : bytes)))
| RANamed rule : first_match r meta rule → Outbound rule ≠ [] →
    route_allowed r meta (from_option Ok (Fail ErrNoAvailableOutbound) (outbounds r !! Outbound rule))
| RAEmpty rule : first_match r meta rule → Outbound rule = [] → (∀ out, ~ in_group r (OutboundGroup rule) out) →
    route_allowed r meta (Fail ErrNoAvailableOutbound)
| RAGroup rule out : first_match r meta rule → Outbound rule = [] → in_group r (OutboundGroup rule) out →
    (Strategy rule = ("lowest-latency" : bytes) →
     ∀ out', in_group r (OutboundGroup rule) out' → f64_lt (HealthCheck out) (HealthCheck out') = false) →
    route_allowed r meta (Ok out).

Lemma find_first {A} (f : A → bool) l x :
  List.find f l = Some x →
  ∃ i, l !! i = Some x ∧ f x = true ∧ ∀ j y, (j < i)%nat → l !! j = Some y → f y = false.
Proof.
  induction l as [|a l IH]; [done|]. cbn [List.find]. destruct (f a) eqn:E.
  - intros [= <-]. exists 0%nat. split; [done|]. split; [done|]. lia.
  - intros (i & Hi & Hx & Hlt)%IH. exists (S i). split; [done|]. split; [done|].
    intros [|j] y Hj Hy; [by simplify_eq/=|]. apply (Hlt j); [lia|done].
Qed.

(** The outbounds in some order of iteration. *)
Definition iterates (r : BaseRouter Out) (order : list Out) : Prop := order ≡ₚ (map_to_list (outbounds r)).*2.

Lemma candidates_spec r order g out : iterates r order → out ∈ filter (λ o, Group o = g) order ↔ in_group r g out.
Proof.
  intros Hp. rewrite list_elem_of_filter, Hp, list_elem_of_fmap. unfold in_group. split.
  - intros (Hg & [name o] & -> & Hin%elem_of_map_to_list). eauto.
  - intros (name & Hin & Hg). split; [done|]. exists (name, out). split; [done|]. by apply elem_of_map_to_list.
Qed.

Lemma select_spec cs strategy :
  cs ≠ [] → ∃ out, selectByStrategy cs strategy = Ok out ∧ out ∈ cs ∧
    (strategy = ("lowest-latency" : bytes) → ∀ c, c ∈ cs → f64_lt (HealthCheck out) (HealthCheck c) = false).
Proof.
  intros Hne. unfold selectByStrategy. case_bool_decide as Hs.
  - destruct (select_best_spec cs Hne) as (b & -> & Hb & Hmax). exists b. auto.
  - destruct cs as [|c cs]; [done|]. exists c. set_solver.
Qed.

Lemma route_ok r order meta meta' :
  iterates r order → restore r meta = Ok meta' → route_allowed r meta' (Route order r meta).
Proof.
  intros Hp Hr. unfold Route. rewrite Hr. cbn [res_bind].
  destruct (List.find _ (rules r)) as [rule|] eqn:E.
  - apply find_first in E. assert (first_match r meta' rule) as Hf by exact E.
    destruct (bool_decide (Outbound rule = [])) eqn:Ho; cbn [negb].
    + apply bool_decide_eq_true in Ho. set (cs := filter _ order). case_bool_decide as Hl.
      * apply nil_length_inv in Hl. apply RAEmpty with rule; [done|done|]. intros out Hin.
        apply (candidates_spec r order) in Hin; [|done]. fold cs in Hin. rewrite Hl in Hin. set_solver.
      * destruct (select_spec cs (Strategy rule)) as (out & -> & Hin & Hmax); [by intros ->|].
        apply RAGroup with rule; [done|done|by apply (candidates_spec r order)|].
        intros Hs out' Hin'. apply Hmax; [done|]. by apply (candidates_spec r order).
    + apply bool_decide_eq_false in Ho. pose proof (RANamed r meta' rule Hf Ho) as Hn.
      by destruct (outbounds r !! Outbound rule).
  - pose proof (RANone r meta' (λ rule Hin, find_none _ _ E rule (proj1 (list_elem_of_In _ _) Hin))) as Hn.
    by destruct (outbounds r !! ("default" : bytes)).
Qed.

(** C5: routing implements its contract.  Whatever order the map of outbounds
    is iterated in, [Route] takes the first rule that matches; a rule with a
    name gives the outbound of that name, a rule with a group gives a member
    of that group, one with the best score of the group when the strategy is
    lowest-latency, a session without a matching rule gives the outbound
    called default, and the error is returned exactly when there is none. *)
Theorem route_refines (r : BaseRouter Out) (order : list Out) (meta meta' : SessionMeta) :
  order ≡ₚ (map_to_list (outbounds r)).*2 → restore r meta = Ok meta' →
  route_allowed r meta' (Route order r meta).
Proof. apply route_ok. Qed.

(** ** Rules on addresses *)

Lemma ip_rule_match r rule meta n ones ip a :
  Type_ rule = ("ip" : bytes) → ParseCIDR (Pattern rule) = Some (n, ones) → length (net_ip n) = 4%nat →
  ParseIP (host_of (Target meta)) = Some ip → To4 ip = Some a →
  match_rule (Out := Out) r rule meta =
  bool_decide (be_get a / 2 ^ (32 - Z.of_nat ones) = be_get (net_ip n) / 2 ^ (32 - Z.of_nat ones)).
Proof.
  intros Ht Hp Hl Hi Ha. unfold match_rule. rewrite Ht, Hp, Hi.
  rewrite !(bool_decide_false (_ = _ :> bytes)) by done. rewrite bool_decide_true by done. cbn [default from_option id].
  by rewrite (Contains_v4 _ _ _ _ _ Hp Hl Ha).
Qed.

(** C35: an ip rule is a prefix test.  For an IPv4 network of [ones] bits and
    a target that is an IPv4 address, plain or IPv4-in-IPv6, the rule matches
    exactly when the first [ones] bits of the two agree. *)
Theorem ip_rule_prefix (r : BaseRouter Out) (rule : RoutingRule) (meta : SessionMeta)
    (n : IPNet) (ones : nat) (ip a : bytes) :
  Type_ rule = ("ip" : bytes) → ParseCIDR (Pattern rule) = Some (n, ones) → length (net_ip n) = 4%nat →
  ParseIP (host_of (Target meta)) = Some ip → To4 ip = Some a →
  match_rule r rule meta = true ↔
  be_get a / 2 ^ (32 - Z.of_nat ones) = be_get (net_ip n) / 2 ^ (32 - Z.of_nat ones).
Proof.
  intros Ht Hp Hl Hi Ha. rewrite (ip_rule_match r rule meta n ones ip a) by done. apply bool_decide_eq_true.
Qed.

(** ** Rules on countries and systems *)

Lemma run_ops_geoip (ops : list (router_op Out)) : geoip (run_ops ops) = None.
Proof.
  unfold run_ops. assert (geoip (NewRouter (Out := Out)) = None) as Hz by done. revert Hz.
  generalize (NewRouter (Out := Out)). induction ops as [|op ops IH]; intros r Hr; [done|].
  cbn [fold_left]. apply IH. by destruct op.
Qed.

Lemma geo_inert (r : BaseRouter Out) rule meta :
  geoip r = None → Type_ rule = ("geoip" : bytes) ∨ Type_ rule = ("asn" : bytes) → match_rule r rule meta = false.
Proof.
  intros Hg [Ht|Ht]; unfold match_rule; rewrite Ht, Hg; rewrite !bool_decide_false by done;
    [rewrite bool_decide_true by done|rewrite bool_decide_true by done]; by destruct (ParseIP _).
Qed.

(** Country and system rules never match.  No operation of the router
    loads a database, so whatever a node does to its router, a geoip or asn
    rule matches no session, and a route is the same with these rules taken
    out. *)
Theorem geo_rules_inert (ops : list (router_op Out)) (order : list Out) (meta : SessionMeta) :
  let r := run_ops ops in
  let is_geo rule := Type_ rule = ("geoip" : bytes) ∨ Type_ rule = ("asn" : bytes) in
  (∀ rule, is_geo rule → match_rule r rule meta = false) ∧
  Route order r meta = Route order (UpdateRules (filter (λ rule, ~ is_geo rule) (rules r)) r) meta.
Proof.
  intros r is_geo. assert (geoip r = None) as Hg by apply run_ops_geoip.
  split; [intros rule Hr; by apply geo_inert|].
  unfold Route. change (restore (UpdateRules _ r) meta) with (restore r meta).
  destruct (restore r meta) as [meta'| |]; [|done|done]. cbn [res_bind UpdateRules rules outbounds].
  assert (List.find (λ rule, match_rule r rule meta') (rules r) =
          List.find (λ rule, match_rule (UpdateRules (filter (λ rule, ~ is_geo rule) (rules r)) r) rule meta')
            (filter (λ rule, ~ is_geo rule) (rules r))) as Hf; [|by rewrite Hf].
  change (λ rule, match_rule (UpdateRules _ r) rule meta') with (λ rule, match_rule r rule meta').
  induction (rules r) as [|rule l IH]; [done|]. cbn [List.find].
  destruct (decide (is_geo rule)) as [Hi|Hi].
  - rewrite filter_cons_False by tauto. rewrite (geo_inert r rule meta' Hg Hi). exact IH.
  - rewrite filter_cons_True by done. cbn [List.find]. destruct (match_rule r rule meta'); [done|exact IH].
Qed.

(** ** The generated configuration *)

Lemma octets a b c d :
  be_get [a; b; c; d] / 2 ^ 24 = b2z a ∧ be_get [a; b; c; d] / 2 ^ 16 = 256 * b2z a + b2z b.
Proof.
  unfold be_get. cbn [fold_left]. pose proof (b2z_range a). pose proof (b2z_range b).
  pose proof (b2z_range c). pose proof (b2z_range d).
  split; symmetry; [apply Z.div_unique with (65536 * b2z b + 256 * b2z c + b2z d)
                   |apply Z.div_unique with (256 * b2z c + b2z d)]; lia.
Qed.

Definition net_of (s : bytes) : IPNet :=
  match ParseCIDR s with Some (n, _) => n | None => {| net_ip := []; net_mask := [] |} end.

Lemma split_find r p meta ip a b c d :
  geoip r = None → ParseIP (host_of (Target meta)) = Some ip → To4 ip = Some [a; b; c; d] →
  Outbound <$> List.find (λ rule, match_rule (Out := Out) r rule meta) (GenerateDefaultSplitConfig p) =
  Some (if bool_decide (b2z a = 127 ∨ b2z a = 10 ∨ b2z a = 192 ∧ b2z b = 168) then ("direct" : bytes) else p).
Proof.
  intros Hg Hi Ha. destruct (octets a b c d) as [O1 O2]. pose proof (b2z_range b). unfold GenerateDefaultSplitConfig. cbn [List.find].
  rewrite (ip_rule_match _ (mk_rule "ip" "127.0.0.0/8" _) _ (net_of "127.0.0.0/8") 8 ip [a; b; c; d]) by (done || (vm_compute; reflexivity)).
  rewrite (ip_rule_match _ (mk_rule "ip" "192.168.0.0/16" _) _ (net_of "192.168.0.0/16") 16 ip [a; b; c; d]) by (done || (vm_compute; reflexivity)).
  rewrite (ip_rule_match _ (mk_rule "ip" "10.0.0.0/8" _) _ (net_of "10.0.0.0/8") 8 ip [a; b; c; d]) by (done || (vm_compute; reflexivity)).
  rewrite (geo_inert r (mk_rule "geoip" _ _)) by (done || by left).
  change (32 - Z.of_nat 8) with 24. change (32 - Z.of_nat 16) with 16. rewrite O1, O2.
  change (be_get (net_ip (net_of "127.0.0.0/8")) / 2 ^ 24) with 127.
  change (be_get (net_ip (net_of "10.0.0.0/8")) / 2 ^ 24) with 10.
  change (be_get (net_ip (net_of "192.168.0.0/16")) / 2 ^ 16) with 49320.
  change (match_rule r (mk_rule "default" [] p) meta) with true.
  repeat case_bool_decide; try done; lia.
Qed.

(** The generated split configuration.  After it is installed, and
    whatever else was done to the router, a session to an IPv4 address goes
    to the outbound "direct" when the address is in 127/8, 10/8 or
    192.168/16 and to the proxy outbound otherwise; the geoip entry for CN
    changes nothing. *)
Theorem split_config_routes (ops : list (router_op Out)) (p : bytes) (order : list Out) (meta meta' : SessionMeta)
    (ip : bytes) (a b c d : byte) :
  let r := run_ops (ops ++ [OpRules (GenerateDefaultSplitConfig p)]) in
  p ≠ [] → restore r meta = Ok meta' → ParseIP (host_of (Target meta')) = Some ip → To4 ip = Some [a; b; c; d] →
  Route order r meta =
  from_option Ok (Fail ErrNoAvailableOutbound)
    (outbounds r !! (if bool_decide (b2z a = 127 ∨ b2z a = 10 ∨ b2z a = 192 ∧ b2z b = 168) then ("direct" : bytes) else p)).
Proof.
  intros r Hp Hr Hi Ha. pose proof (run_ops_geoip (ops ++ [OpRules (GenerateDefaultSplitConfig p)])) as Hg. fold r in Hg.
  assert (rules r = GenerateDefaultSplitConfig p) as Hrules by (unfold r, run_ops; by rewrite fold_left_app).
  pose proof (split_find r p meta' ip a b c d Hg Hi Ha) as Hf. unfold Route. rewrite Hr. cbn [res_bind]. rewrite Hrules.
  set (out := if bool_decide _ then _ else _) in *. assert (out ≠ []) as Ho by (unfold out; by case_bool_decide).
  destruct (List.find _ _) as [rule|]; [|done]. injection Hf as ->.
  rewrite bool_decide_false by done. cbn [negb]. by destruct (outbounds r !! out).
Qed.

(** ** Fake addresses *)

(** Routing by name behind a fake address.  When the resolver hands out
    fake addresses and the target of a session is one it gave for [domain],
    the session is routed exactly as a session to [domain] would be without
    the resolver; but the session itself keeps the fake address, and that is
    what a direct outbound dials. *)
Theorem fakeip_routes_by_name (r : BaseRouter Out) (pool : FakeIPPool) (order : list Out) (meta : SessionMeta)
    (d : DirectHandler) (ip domain : bytes) :
  resolver r = Some (fake_resolver pool) → ParseIP (host_of (Target meta)) = Some ip →
  Lookup ip pool = Ok (Some domain) → Network meta = ("tcp" : bytes) →
  Route order r meta =
    Route order {| rules := rules r; outbounds := outbounds r; geoip := geoip r; resolver := None |}
      (with_Target meta (JoinHostPort domain (port_of (Target meta)))) ∧
  DirectDial d meta = Ok ("tcp" : bytes, Target meta).
Proof.
  intros Hr Hi Hl Hn. split; [|unfold DirectDial; by rewrite Hn].
  unfold Route at 1, restore. rewrite Hi, Hr. cbn [fake_resolver ResolveFakeIP]. rewrite Hl. cbn [res_bind].
  unfold Route, restore. cbn [resolver]. destruct (ParseIP (host_of (Target (with_Target _ _)))); reflexivity.
Qed.

(** An IPv6 destination crashes the router when fake addresses are on:
    the reverse lookup reads four bytes of an address that has no IPv4 form,
    whatever the rules are. *)
Theorem route_ipv6_panics (r : BaseRouter Out) (pool : FakeIPPool) (order : list Out) (meta : SessionMeta) (ip : bytes) :
  resolver r = Some (fake_resolver pool) → ParseIP (host_of (Target meta)) = Some ip → To4 ip = None →
  Route order r meta = Panic.
Proof.
  intros Hr Hi Ha. unfold Route, restore. rewrite Hi, Hr. cbn [fake_resolver ResolveFakeIP].
  unfold Lookup, to4. by rewrite Ha.
Qed.

End thms.

(** ** Concrete runs *)

Definition demo_np (name : bytes) (lat : Z) : handler :=
  HNPChain (set_latency (NewNPChainHandler name "hk" "203.0.113.5:443" "quic"
                           {| oType := "none"; MaxPad := 0; Interval := 0; DummySize := 0 |} false) lat).

Definition demo_direct : handler := HDirect (NewDirectHandler "direct" "local").

Definition demo_ops : list (router_op handler) :=
  [OpAdd (demo_np "n1" 180); OpAdd (demo_np "n2" 30); OpAdd demo_direct].

Definition demo_pool : FakeIPPool :=
  match NewFakeIPPool "198.18.0.0/16" with
  | Ok p => get_all ["a.example" : bytes] p
  | _ => FakeIPThms.demo_pool
  end.

Definition demo_rules : list RoutingRule :=
  [ mk_rule "domain" "*.example" "direct";
    {| Type_ := "default"; Pattern := []; Outbound := []; OutboundGroup := "hk"; Strategy := "lowest-latency" |} ].

Definition demo_router : BaseRouter handler := run_ops (demo_ops ++ [OpRules demo_rules]).

Definition demo_order : list handler := (map_to_list (outbounds demo_router)).*2.

Definition to (target : bytes) : SessionMeta := with_Target zeroMeta target.

Example demo_fastest : Route demo_order demo_router (to "192.0.2.1:443") = Ok (demo_np "n2" 30).
Proof. vm_compute. reflexivity. Qed.

Lemma route_refines_witness :
  route_allowed demo_router (to "192.0.2.1:443") (Route demo_order demo_router (to "192.0.2.1:443")).
Proof. apply route_refines; [reflexivity|vm_compute; reflexivity]. Defined.

Lemma ip_rule_prefix_witness :
  match_rule demo_router (mk_rule "ip" "10.20.0.0/12" "direct") (to "10.17.3.4:80") = true ↔
  be_get [Byte.x0a; Byte.x11; Byte.x03; Byte.x04] / 2 ^ (32 - Z.of_nat 12) =
  be_get (net_ip (net_of "10.20.0.0/12")) / 2 ^ (32 - Z.of_nat 12).
Proof.
  apply (ip_rule_prefix demo_router _ _ (net_of "10.20.0.0/12") 12 (default [] (ParseIP "10.17.3.4")));
    vm_compute; reflexivity.
Defined.

Lemma geo_rules_inert_witness :
  Route demo_order (run_ops (demo_ops ++ [OpRules (GenerateDefaultSplitConfig "n1")])) (to "1.12.0.1:443") =
  Ok (demo_np "n1" 180) ∧
  match_rule (run_ops demo_ops) (mk_rule "geoip" "CN" "direct") (to "1.12.0.1:443") = false.
Proof.
  split; [vm_compute; reflexivity|].
  apply (geo_rules_inert demo_ops demo_order (to "1.12.0.1:443")). by left.
Defined.

Lemma split_config_routes_witness :
  Route demo_order (run_ops (demo_ops ++ [OpRules (GenerateDefaultSplitConfig "n1")])) (to "172.16.5.1:443") =
  Ok (demo_np "n1" 180).
Proof.
  etransitivity.
  - apply (split_config_routes demo_ops "n1" demo_order (to "172.16.5.1:443") (to "172.16.5.1:443")
             (default [] (ParseIP "172.16.5.1")) Byte.xac Byte.x10 Byte.x05 Byte.x01);
      [done|vm_compute; reflexivity|vm_compute; reflexivity|vm_compute; reflexivity].
  - vm_compute. reflexivity.
Defined.

Definition demo_fake : BaseRouter handler := SetResolver (fake_resolver demo_pool) demo_router.

Definition demo_fake_meta : SessionMeta :=
  {| ID := []; TraceID := []; UserID := []; Source := None; Target := "198.18.0.1:443"; Network := "tcp";
     HopChain := []; RouteTags := ∅; CreatedAt := 0 |}.

Lemma fakeip_routes_by_name_witness :
  Route demo_order demo_fake demo_fake_meta = Ok demo_direct ∧
  DirectDial (NewDirectHandler "direct" "local") demo_fake_meta = Ok ("tcp" : bytes, "198.18.0.1:443" : bytes).
Proof.
  destruct (fakeip_routes_by_name demo_fake demo_pool demo_order demo_fake_meta (NewDirectHandler "direct" "local")
              (default [] (ParseIP "198.18.0.1")) "a.example") as [H1 H2];
    [reflexivity|vm_compute; reflexivity|vm_compute; reflexivity|reflexivity|].
  split; [|exact H2]. etransitivity; [exact H1|]. vm_compute. reflexivity.
Defined.

Lemma route_ipv6_panics_witness : Route demo_order demo_fake (to "[2001:db8::1]:443") = Panic.
Proof.
  apply (route_ipv6_panics demo_fake demo_pool demo_order _ (default [] (ParseIP "2001:db8::1")));
    [reflexivity|vm_compute; reflexivity|vm_compute; reflexivity].
Defined.

End RouterThms.
