(* ===== verification/Dns.v ===== *)
(** * The resolver: [SmartResolver] of [internal/routing/dns.go]

    A query is answered with a fake address, from the cache, or by racing the
    upstreams of the group the router selects; the answer is then cached for
    its time to live, kept between ten seconds and one hour.  The messages of
    the third-party package [dns] are an abstract type with the accessors the
    code uses ([DNSMsg]); what an upstream answers is an argument.  Times are
    in nanoseconds.

    [Query] runs concurrently: it takes the mutex for each access to the
    cache and to the upstreams, and none while the upstreams are asked.  It
    is split at these points ([query_begin], [query_end]); [step] interleaves
    the pieces of any number of queries with the other methods. *)

From S2P Require Import Prelude GoNet Types Outbound FakeIP Router.

(** ** Messages *)

Inductive rdata := RA (ip : bytes) | RAAAA (ip : bytes) | ROther.

Record RR := { rr_name : bytes; rr_ttl : Z; rr_data : rdata }.

Record question := { q_name : bytes; q_type : Z }.

#[export] Instance question_eq_dec : EqDecision question.
Proof. solve_decision. Defined.

Definition TypeA : Z := 1.

(** What the code uses of [dns.Msg]: the identifier, the questions, the
    answers, [SetReply] (the header of a reply to a message) and
    [SetQuestion]. *)
Class DNSMsg (Msg : Type) := {
  msg_Id : Msg → Z;
  with_Id : Msg → Z → Msg;
  msg_Question : Msg → list question;
  msg_Answer : Msg → list RR;
  with_Answer : Msg → list RR → Msg;
  SetReply : Msg → Msg;
  SetQuestion : bytes → Z → Msg }.

(** Its documented behaviour: a type is a uint16, assigning a field changes
    that field only, and [SetQuestion] makes a message with that one
    question. *)
Class DNSLaws (Msg : Type) `{DNSMsg Msg} := {
  Id_with_Id m i : msg_Id (with_Id m i) = i;
  Answer_with_Id m i : msg_Answer (with_Id m i) = msg_Answer m;
  with_Id_twice m i j : with_Id (with_Id m i) j = with_Id m j;
  Answer_with_Answer m l : msg_Answer (with_Answer m l) = l;
  Answer_SetReply m : msg_Answer (SetReply m) = [];
  Question_type m q : q ∈ msg_Question m → 0 ≤ q_type q < 2 ^ 16;
  Question_SetQuestion n t : 0 ≤ t < 2 ^ 16 → msg_Question (SetQuestion n t) = [{| q_name := n; q_type := t |}] }.

(** ** Upstreams *)

Inductive upstream := UDPUpstream (addr : bytes) | DoHUpstream (url : bytes) | DoTUpstream (addr serverName : bytes).

(** The upstream a configured string stands for. *)
Definition parse_upstream (addr : bytes) : upstream :=
  if has_prefix addr "https://" then DoHUpstream addr
  else if has_prefix addr "tls://" then
    let target := trim_prefix addr "tls://" in
    DoTUpstream target match SplitHostPort target with Ok (host, _) => host | _ => target end
  else UDPUpstream (if contains_byte colon addr then addr else addr ++ (":53" : bytes)).

Definition default_upstreams : list upstream := [UDPUpstream "119.29.29.29:53"; UDPUpstream "223.5.5.5:53"].

(** ** The race *)

Section resolver.
Context `{DNSMsg Msg} `{OutboundHandler Out}.

(** What [select] receives: a response, an error, or the end of the context. *)
Inductive race_event := GotResp (m : Msg) | GotErr (e : goerr) | CtxDone.

(** The loop over the channels, which runs [n] times; [None] is the wait for
    an event that has not come. *)
Fixpoint race_loop (n : nat) (evs : list race_event) (lastErr : res Msg) : option (res Msg) :=
  match n with
  | O => Some lastErr
  | S n' =>
      match evs with
      | GotResp m :: _ => Some (Ok m)
      | GotErr e :: evs' => race_loop n' evs' (Fail e)
      | CtxDone :: _ => Some (Fail (Errorf "context done"))
      | [] => None
      end
  end.

Definition event_of (r : res Msg) : race_event :=
  match r with Ok m => GotResp m | Fail e => GotErr e | Panic => CtxDone end.

(** [raceQuery]: [exchange] is what each upstream answers, [evs] the order in
    which the answers are received when there are several upstreams.  With
    no upstream the result would be a nil message, which [Query] excludes. *)
Definition raceQuery (ups : list upstream) (exchange : upstream → res Msg) (evs : list race_event) : option (res Msg) :=
  match ups with
  | [u] => Some (exchange u)
  | _ => race_loop (length ups) evs Panic
  end.

(** ** The state *)

Record SmartResolver := {
  cache : gmap bytes (Msg * Z);
  upstreams : gmap bytes (list upstream);
  fakeIPEnabled : bool;
  fakeIPPool : option FakeIPPool }.

Definition NewSmartResolver : SmartResolver :=
  {| cache := ∅; upstreams := ∅; fakeIPEnabled := false; fakeIPPool := None |}.

Definition set_pool (p : FakeIPPool) (sr : SmartResolver) : SmartResolver :=
  {| cache := cache sr; upstreams := upstreams sr; fakeIPEnabled := fakeIPEnabled sr; fakeIPPool := Some p |}.

Definition EnableFakeIP (cidr : bytes) (sr : SmartResolver) : res SmartResolver :=
  let! pool := NewFakeIPPool cidr in
  Ok {| cache := cache sr; upstreams := upstreams sr; fakeIPEnabled := true; fakeIPPool := Some pool |}.

Definition AddUpstreamByString (group addr : bytes) (sr : SmartResolver) : SmartResolver :=
  {| cache := cache sr; upstreams := <[group := default [] (upstreams sr !! group) ++ [parse_upstream addr]]> (upstreams sr);
     fakeIPEnabled := fakeIPEnabled sr; fakeIPPool := fakeIPPool sr |}.

Definition Flush (sr : SmartResolver) : SmartResolver :=
  {| cache := ∅; upstreams := upstreams sr; fakeIPEnabled := fakeIPEnabled sr; fakeIPPool := fakeIPPool sr |}.

(** A method call on a nil [FakeIPPool] dereferences it. *)
Definition pool_Get (domain : bytes) (sr : SmartResolver) : res (bytes * SmartResolver) :=
  match fakeIPPool sr with
  | None => Panic
  | Some p => let '(ip, p') := Get domain p in Ok (ip, set_pool p' sr)
  end.

Definition sr_ResolveFakeIP (sr : SmartResolver) (ip : bytes) : res (option bytes) :=
  if negb (fakeIPEnabled sr) then Ok None
  else match fakeIPPool sr with None => Panic | Some p => Lookup ip p end.

Definition as_resolver (sr : SmartResolver) : Resolver := {| ResolveFakeIP := sr_ResolveFakeIP sr |}.

(** ** Queries *)

Definition cacheKey (q : question) : bytes := q_name q ++ ("-" : bytes) ++ Itoa (q_type q).

Definition fake_answer (q : question) (ip : bytes) : RR := {| rr_name := q_name q; rr_ttl := 60; rr_data := RA ip |}.

Definition ttl_of (resp : Msg) : Z :=
  let ttl := match msg_Answer resp with rr :: _ => rr_ttl rr | [] => 600 end in
  let ttl := if bool_decide (ttl < 10) then 10 else ttl in
  if bool_decide (3600 < ttl) then 3600 else ttl.

Definition second : Z := 1000000000.

(** The group and its upstreams; [route] is the router's answer. *)
Definition group_of (route : res Out) : bytes :=
  match route with
  | Ok out => if negb (bool_decide (Name out = ("direct" : bytes))) then "remote" else "local"
  | _ => "local"
  end.

Definition upstreams_for (route : res Out) (sr : SmartResolver) : list upstream :=
  let ups := default [] (upstreams sr !! group_of route) in
  let ups := if bool_decide (length ups = 0)%nat then default [] (upstreams sr !! ("local" : bytes)) else ups in
  if bool_decide (length ups = 0)%nat then default_upstreams else ups.

(** [Query] up to the race: an answer, or the upstreams to ask. *)
Inductive begun := Answered (r : res Msg) | Ask (ups : list upstream).

Definition query_begin (m : Msg) (now : Z) (router : BaseRouter Out) (order : list Out) (sr : SmartResolver) :
  begun * SmartResolver :=
  match msg_Question m with
  | [] => (Answered (Fail (Errorf "no question")), sr)
  | q :: _ =>
      if fakeIPEnabled sr && bool_decide (q_type q = TypeA) then
        match pool_Get (trim_suffix (q_name q) ".") sr with
        | Ok (ip, sr') => (Answered (Ok (with_Answer (SetReply m) (msg_Answer (SetReply m) ++ [fake_answer q ip]))), sr')
        | Fail e => (Answered (Fail e), sr)
        | Panic => (Answered Panic, sr)
        end
      else
        let miss :=
          let meta := with_Target zeroMeta (JoinHostPort (trim_suffix (q_name q) ".") "443") in
          match Route order router meta with
          | Panic => (Answered Panic, sr)
          | route => (Ask (upstreams_for route sr), sr)
          end in
        match cache sr !! cacheKey q with
        | Some (msg, expiry) =>
            if bool_decide (now < expiry) then (Answered (Ok (with_Id msg (msg_Id m))), sr) else miss
        | None => miss
        end
  end.

(** The rest: the response is cached and returned. *)
Definition query_end (m : Msg) (now : Z) (resp : res Msg) (sr : SmartResolver) : res Msg * SmartResolver :=
  match resp, msg_Question m with
  | Ok r, q :: _ =>
      (Ok r, {| cache := <[cacheKey q := (r, now + ttl_of r * second)]> (cache sr); upstreams := upstreams sr;
                fakeIPEnabled := fakeIPEnabled sr; fakeIPPool := fakeIPPool sr |})
  | _, _ => (resp, sr)
  end.

(** The whole call, when nothing runs in between; [now'] is the time at which
    the race has ended. *)
Definition Query (m : Msg) (now now' : Z) (router : BaseRouter Out) (order : list Out)
    (exchange : upstream → res Msg) (evs : list race_event) (sr : SmartResolver) : option (res Msg * SmartResolver) :=
  match query_begin m now router order sr with
  | (Answered r, sr') => Some (r, sr')
  | (Ask ups, sr') => resp ← raceQuery ups exchange evs; Some (query_end m now' resp sr')
  end.

Definition answer_ips (resp : Msg) : list bytes :=
  flat_map (λ ans, match rr_data ans with RA ip => [ip] | RAAAA ip => [ip] | ROther => [] end) (msg_Answer resp).

Definition LookupIP (host : bytes) (now now' : Z) (router : BaseRouter Out) (order : list Out)
    (exchange : upstream → res Msg) (evs : list race_event) (sr : SmartResolver) : option (res (list bytes) * SmartResolver) :=
  match ParseIP host with
  | Some ip => Some (Ok [ip], sr)
  | None =>
      if fakeIPEnabled sr then
        match pool_Get host sr with
        | Ok (ip, sr') => Some (Ok [ip], sr')
        | Fail e => Some (Fail e, sr)
        | Panic => Some (Panic, sr)
        end
      else
        let fqdn := if negb (has_suffix host ".") then host ++ ("." : bytes) else host in
        '(resp, sr') ← Query (SetQuestion fqdn TypeA) now now' router order exchange evs sr;
        Some (res_bind resp (λ r, Ok (answer_ips r)), sr')
  end.

(** ** Concurrent queries *)

(** A response received from the upstreams, and an answer given to a caller,
    with the resolver as the call left it. *)
Record fetched := { f_question : question; f_resp : Msg; f_at : Z }.
Record given := { g_query : Msg; g_resp : Msg; g_at : Z; g_sr : SmartResolver }.

Record world := {
  w_sr : SmartResolver;
  w_now : Z;
  w_pending : list Msg;          (* queries whose race is running *)
  w_fetched : list fetched;
  w_given : list given }.

Definition start_world : world :=
  {| w_sr := NewSmartResolver; w_now := 0; w_pending := []; w_fetched := []; w_given := [] |}.

(** The steps; the clock may advance at any time.  A race ends with whatever
    the upstreams sent; fake addresses may be enabled at any time, also again
    with another range, and [LookupIP] then takes addresses of the pool
    ([StFake]; without them it is a query). *)
Inductive step : world → world → Prop :=
| StTick w t : w_now w ≤ t →
    step w {| w_sr := w_sr w; w_now := t; w_pending := w_pending w; w_fetched := w_fetched w; w_given := w_given w |}
| StAnswered w m router order r sr' :
    query_begin m (w_now w) router order (w_sr w) = (Answered (Ok r), sr') →
    step w {| w_sr := sr'; w_now := w_now w; w_pending := w_pending w; w_fetched := w_fetched w;
              w_given := {| g_query := m; g_resp := r; g_at := w_now w; g_sr := sr' |} :: w_given w |}
| StAsk w m router order ups sr' :
    query_begin m (w_now w) router order (w_sr w) = (Ask ups, sr') →
    step w {| w_sr := sr'; w_now := w_now w; w_pending := m :: w_pending w; w_fetched := w_fetched w; w_given := w_given w |}
| StResp w p1 m p2 q qs r :
    w_pending w = p1 ++ m :: p2 → msg_Question m = q :: qs →
    let sr' := (query_end m (w_now w) (Ok r) (w_sr w)).2 in
    step w {| w_sr := sr'; w_now := w_now w; w_pending := p1 ++ p2;
              w_fetched := {| f_question := q; f_resp := r; f_at := w_now w |} :: w_fetched w;
              w_given := {| g_query := m; g_resp := r; g_at := w_now w; g_sr := sr' |} :: w_given w |}
| StFailed w p1 m p2 e :
    w_pending w = p1 ++ m :: p2 →
    step w {| w_sr := (query_end m (w_now w) (Fail e) (w_sr w)).2; w_now := w_now w; w_pending := p1 ++ p2;
              w_fetched := w_fetched w; w_given := w_given w |}
| StUpstream w group addr :
    step w {| w_sr := AddUpstreamByString group addr (w_sr w); w_now := w_now w; w_pending := w_pending w;
              w_fetched := w_fetched w; w_given := w_given w |}
| StEnable w cidr sr' :
    EnableFakeIP cidr (w_sr w) = Ok sr' →
    step w {| w_sr := sr'; w_now := w_now w; w_pending := w_pending w; w_fetched := w_fetched w; w_given := w_given w |}
| StFake w host ip sr' :
    ParseIP host = None → fakeIPEnabled (w_sr w) = true → pool_Get host (w_sr w) = Ok (ip, sr') →
    step w {| w_sr := sr'; w_now := w_now w; w_pending := w_pending w; w_fetched := w_fetched w; w_given := w_given w |}
| StFlush w :
    step w {| w_sr := Flush (w_sr w); w_now := w_now w; w_pending := w_pending w; w_fetched := w_fetched w; w_given := w_given w |}.

End resolver.
Arguments race_event Msg : clear implicits.
Arguments SmartResolver Msg : clear implicits.
Arguments fetched Msg : clear implicits.
Arguments given Msg : clear implicits.
Arguments world Msg : clear implicits.

Module DnsThms.

Section thms.
Context `{DNSLaws Msg} `{OutboundHandler Out}.

(** ** Cache keys *)

Lemma last_sep_inj (c : byte) a a' b b' : c ∉ b → c ∉ b' → a ++ c :: b = a' ++ c :: b' → a = a' ∧ b = b'.
Proof.
  intros Hb Hb' He. pose proof (last_index_byte_app c a b Hb) as Hix. rewrite He, last_index_byte_app in Hix by done.
  injection Hix as Hl. apply app_inj_1 in He as [-> He]; [|done]. by injection He.
Qed.

(** Different questions have different keys. *)
Lemma cacheKey_inj q q' : 0 ≤ q_type q < 2 ^ 16 → 0 ≤ q_type q' < 2 ^ 16 → cacheKey q = cacheKey q' → q = q'.
Proof.
  intros Hq Hq' He. unfold cacheKey in He. apply (last_sep_inj Byte.x2d) in He as [Hn Ht].
  - apply (f_equal Atoi) in Ht. rewrite !Atoi_Itoa in Ht by lia. injection Ht as Ht. destruct q, q'. simpl in *. congruence.
  - apply Itoa_not_in; [lia|done].
  - apply Itoa_not_in; [lia|done].
Qed.

Lemma head_type (m : Msg) q qs : msg_Question m = q :: qs → 0 ≤ q_type q < 2 ^ 16.
Proof. intros Hm. apply (Question_type m). rewrite Hm. set_solver. Qed.

Lemma ttl_range (r : Msg) : 10 ≤ ttl_of r ≤ 3600.
Proof. unfold ttl_of. repeat case_bool_decide; lia. Qed.

(** ** Answers under concurrency *)

(** A response that may stand as the answer to [m] at time [t]. *)
Definition fresh_for (m : Msg) (r : Msg) (t : Z) (f : fetched Msg) : Prop :=
  head (msg_Question m) = Some (f_question f) ∧ (r = f_resp f ∨ r = with_Id (f_resp f) (msg_Id m)) ∧
  f_at f ≤ t ∧ t < f_at f + 3600 * second.

(** The fake answer to [m]: one A record, with the address the pool of [sr]
    holds for the name. *)
Definition fake_for (m r : Msg) (sr : SmartResolver Msg) : Prop :=
  ∃ q p n, head (msg_Question m) = Some q ∧ q_type q = TypeA ∧ fakeIPEnabled sr = true ∧ fakeIPPool sr = Some p ∧
    domainToIP p !! trim_suffix (q_name q) "." = Some n ∧
    r = with_Answer (SetReply m) [fake_answer q (uint32ToIP n)].

Definition world_inv (w : world Msg) : Prop :=
  (∀ key msg expiry, cache (w_sr w) !! key = Some (msg, expiry) →
     ∃ f, f ∈ w_fetched w ∧ 0 ≤ q_type (f_question f) < 2 ^ 16 ∧ cacheKey (f_question f) = key ∧ f_resp f = msg ∧
          expiry = f_at f + ttl_of msg * second ∧ f_at f ≤ w_now w) ∧
  (∀ g, g ∈ w_given w →
     (∃ f, f ∈ w_fetched w ∧ fresh_for (g_query g) (g_resp g) (g_at g) f) ∨ fake_for (g_query g) (g_resp g) (g_sr g)).

Lemma Get_held d p : ∃ n, domainToIP (Get d p).2 !! d = Some n ∧ (Get d p).1 = uint32ToIP n.
Proof.
  unfold Get. destruct (domainToIP p !! d) as [n|] eqn:E; [by exists n|].
  exists (current p). split; [apply lookup_insert_eq|done].
Qed.

(** The beginning of a query leaves the resolver alone and answers from the
    cache or not at all, or it is a fake answer and only the pool changes. *)
Lemma query_begin_cases m now (router : BaseRouter Out) order sr b sr' :
  query_begin m now router order sr = (b, sr') →
  (sr' = sr ∧
   ∀ r, b = Answered (Ok r) → ∃ q qs msg expiry, msg_Question m = q :: qs ∧
     cache sr !! cacheKey q = Some (msg, expiry) ∧ now < expiry ∧ r = with_Id msg (msg_Id m)) ∨
  (fakeIPEnabled sr = true ∧ cache sr' = cache sr ∧ ∃ r, b = Answered (Ok r) ∧ fake_for m r sr').
Proof.
  unfold query_begin, fake_for. destruct (msg_Question m) as [|q qs]; [intros [= <- <-]; by left|].
  set (miss := match Route _ _ _ with Panic => _ | _ => _ end).
  assert (∀ b sr', miss = (b, sr') → sr' = sr ∧ ∀ r, b ≠ Answered (Ok r)) as Hmiss.
  { intros b0 sr0. unfold miss. destruct (Route _ _ _); by intros [= <- <-]. }
  destruct (fakeIPEnabled sr && _) eqn:Ef.
  - apply andb_true_iff in Ef as [Hf Ht%bool_decide_eq_true]. unfold pool_Get.
    destruct (fakeIPPool sr) as [p|]; [|intros [= <- <-]; by left].
    destruct (Get_held (trim_suffix (q_name q) ".") p) as (n & Hd & Hi). destruct (Get _ p) as [ip p']. cbn [fst snd] in *.
    rewrite Answer_SetReply. intros [= <- <-]. right. cbn. rewrite Hi. naive_solver.
  - clear Ef. destruct (cache sr !! cacheKey q) as [[msg expiry]|] eqn:E; [case_bool_decide as Hn|].
    + intros [= <- <-]. left. split; [done|]. intros r [= <-]. by exists q, qs, msg, expiry.
    + intros [-> Hb]%Hmiss. left. split; [done|]. intros r Hr. by destruct (Hb r).
    + intros [-> Hb]%Hmiss. left. split; [done|]. intros r Hr. by destruct (Hb r).
Qed.

(** Without fake addresses, the beginning of a query changes nothing. *)
Lemma query_begin_plain m now (router : BaseRouter Out) order sr b sr' :
  fakeIPEnabled sr = false → query_begin m now router order sr = (b, sr') → sr' = sr.
Proof. intros Hf [[-> _]|[Ht _]]%query_begin_cases; congruence. Qed.

Lemma world_inv_step w w' : world_inv w → step (Out := Out) w w' → world_inv w'.
Proof.
  intros (Hc & Hg) Hs. destruct Hs as [w t Ht|w m router order r sr' Hb|w m router order ups sr' Hb
    |w p1 m p2 q qs r Hp Hq sr'|w p1 m p2 e Hp|w group addr|w cidr sr' He|w host ip sr' _ _ Hp|w]; unfold world_inv; cbn.
  - split; [|done]. intros key msg expiry (f & ? & ? & ? & ? & ? & ?)%Hc. exists f. naive_solver lia.
  - apply query_begin_cases in Hb as [[-> Ha]|(_ & Hce & r' & [= <-] & Hfake)]; (split; [by rewrite ?Hce|]);
      intros g [->|Hin]%elem_of_cons; (try by apply Hg); cbn.
    + left. destruct (Ha r eq_refl) as (q & qs & msg & expiry & Hq & (f & Hfin & Ht & Hk & <- & -> & Hle)%Hc & Hlt & ->).
      exists f. split; [done|]. assert (f_question f = q) as <-.
      { apply cacheKey_inj; [done|by apply (head_type m _ qs)|done]. }
      unfold fresh_for. rewrite Hq. split; [done|]. split; [by right|]. split; [done|].
      pose proof (ttl_range (f_resp f)). unfold second in *. lia.
    + by right.
  - by apply query_begin_cases in Hb as [[-> _]|(_ & _ & r & Hr & _)].
  - subst sr'. unfold query_end. rewrite Hq. cbn. split.
    + intros key msg expiry [[<- [= <- <-]]|[Hne Hin]]%lookup_insert_Some.
      * exists {| f_question := q; f_resp := r; f_at := w_now w |}. cbn.
        split; [set_solver|]. split; [by apply (head_type m _ qs)|]. repeat split; lia.
      * destruct (Hc _ _ _ Hin) as (f & Hfin & Hrest). exists f. set_solver.
    + intros g [->|Hin]%elem_of_cons; cbn.
      * left. exists {| f_question := q; f_resp := r; f_at := w_now w |}. split; [set_solver|].
        unfold fresh_for. cbn. rewrite Hq. repeat split; [by left|lia|unfold second; lia].
      * destruct (Hg g Hin) as [(f & Hfin & Hrest)|Hfake]; [|by right]. left. exists f. set_solver.
  - unfold query_end. by destruct (msg_Question m).
  - done.
  - unfold EnableFakeIP in He. destruct (NewFakeIPPool cidr); simplify_eq/=. done.
  - unfold pool_Get in Hp. destruct (fakeIPPool (w_sr w)); [|done]. destruct (Get _ _); simplify_eq/=. done.
  - split; [|done]. intros key msg expiry Hin. by apply lookup_empty_Some in Hin.
Qed.

Lemma start_inv : world_inv start_world.
Proof. split; [intros key msg expiry Hin; cbn in Hin; by apply lookup_empty_Some in Hin|intros g Hin; set_solver]. Qed.

(** C19: The resolver never answers the wrong question.  However queries,
    flushes, new upstreams and calls that enable fake addresses interleave,
    every answer given to a caller is either a response the upstreams sent to
    a query for the same name and type, received at most an hour before, with
    at most the identifier replaced by that of the query; or, for an A
    question and with fake addresses enabled, a reply whose one record is the
    address the pool holds for exactly that name. *)
Theorem dns_answers (w : world Msg) (m r : Msg) (t : Z) (sr : SmartResolver Msg) :
  rtc (step (Out := Out)) start_world w → {| g_query := m; g_resp := r; g_at := t; g_sr := sr |} ∈ w_given w →
  (∃ f, f ∈ w_fetched w ∧ head (msg_Question m) = Some (f_question f) ∧
       (r = f_resp f ∨ r = with_Id (f_resp f) (msg_Id m)) ∧ f_at f ≤ t < f_at f + 3600 * second) ∨
  (∃ q p n, head (msg_Question m) = Some q ∧ q_type q = TypeA ∧ fakeIPEnabled sr = true ∧ fakeIPPool sr = Some p ∧
     domainToIP p !! trim_suffix (q_name q) "." = Some n ∧ r = with_Answer (SetReply m) [fake_answer q (uint32ToIP n)]).
Proof.
  intros Hw Hin. assert (world_inv w) as (_ & Hg).
  { apply (rtc_invariant step start_world w); [intros ??; by apply world_inv_step|done|apply start_inv]. }
  destruct (Hg _ Hin) as [(f & Hf & ? & ? & ? & ?)|Hfake]; [left; eauto 10|by right].
Qed.

(** ** The cache *)

Lemma query_hit m now (router : BaseRouter Out) order exchange evs sr q qs msg expiry now' :
  msg_Question m = q :: qs → fakeIPEnabled sr && bool_decide (q_type q = TypeA) = false →
  cache sr !! cacheKey q = Some (msg, expiry) → now < expiry →
  Query m now now' router order exchange evs sr = Some (Ok (with_Id msg (msg_Id m)), sr).
Proof.
  intros Hq Hf Hc Hn. unfold Query, query_begin. rewrite Hq, Hf, Hc. by rewrite bool_decide_true.
Qed.

(** A resolved name is not asked again.  When a query has been answered by
    the upstreams at [now'], any query with the same first question within
    the time to live of the response, and within ten seconds in any case,
    gets that response under its own identifier, whatever the upstreams, the
    router and the race would do, and nothing changes. *)
Theorem query_cached (m m2 r : Msg) (now now' t t' : Z) (router router2 : BaseRouter Out) (order order2 : list Out)
    (exchange exchange2 : upstream → res Msg) (evs evs2 : list (race_event Msg)) (sr sr' : SmartResolver Msg)
    (q : question) (qs qs2 : list question) (ups : list upstream) :
  fakeIPEnabled sr = false → msg_Question m = q :: qs → msg_Question m2 = q :: qs2 →
  (query_begin m now router order sr).1 = Ask ups →
  Query m now now' router order exchange evs sr = Some (Ok r, sr') →
  t < now' + ttl_of r * second →
  Query m2 t t' router2 order2 exchange2 evs2 sr' = Some (Ok (with_Id r (msg_Id m2)), sr') ∧ 10 ≤ ttl_of r ≤ 3600.
Proof.
  intros Hf Hq Hq2 Ha HQ Ht. split; [|apply ttl_range]. unfold Query in HQ.
  destruct (query_begin m now router order sr) as [b sr1] eqn:Eb. cbn [fst] in Ha. subst b.
  pose proof (query_begin_plain _ _ _ _ _ _ _ Hf Eb) as ->.
  destruct (raceQuery ups exchange evs) as [resp|]; [|done]. cbn [mbind option_bind] in HQ.
  unfold query_end in HQ. rewrite Hq in HQ. destruct resp as [r'| |]; simplify_eq.
  eapply (query_hit m2 t _ _ _ _ _ q qs2); [done| |apply lookup_insert_eq|done]. cbn. by rewrite Hf.
Qed.

(** ** The race *)

Lemma race_loop_resp evs n last :
  (length evs ≤ n)%nat → CtxDone ∉ evs → (∃ m : Msg, GotResp m ∈ evs) →
  ∃ m, race_loop n evs last = Some (Ok m) ∧ GotResp m ∈ evs.
Proof.
  revert n last. induction evs as [|ev evs IH]; intros n last Hn Hd [m Hm]; [set_solver|].
  destruct n as [|n]; [simpl in Hn; lia|]. cbn [race_loop]. destruct ev as [m0|e|]; [set_solver| |set_solver].
  destruct (IH n (Fail e)) as (m' & -> & Hin); [simpl in Hn; lia|set_solver| |set_solver].
  exists m. set_solver.
Qed.

Lemma event_of_resp (r : res Msg) m : event_of r = GotResp m → r = Ok m.
Proof. destruct r; naive_solver. Qed.

(** One working upstream is enough.  Whatever the others answer and in
    whatever order the answers of all upstreams are received, the race
    returns a response that one of the upstreams gave; it fails only if all
    of them do. *)
Theorem race_one_suffices (ups : list upstream) (exchange : upstream → res Msg) (evs : list (race_event Msg)) :
  evs ≡ₚ (event_of ∘ exchange) <$> ups → (∀ u, u ∈ ups → exchange u ≠ Panic) → (∃ u m, u ∈ ups ∧ exchange u = Ok m) →
  ∃ u m, u ∈ ups ∧ exchange u = Ok m ∧ raceQuery ups exchange evs = Some (Ok m).
Proof.
  intros Hp Hnp (u & m & Hu & Hm).
  assert (∃ m, race_loop (length ups) evs Panic = Some (Ok m) ∧ GotResp m ∈ evs) as (m' & Hr & Hin).
  { apply race_loop_resp; [by rewrite Hp, length_fmap| |].
    - rewrite Hp, list_elem_of_fmap. intros (v & Hv & Hin). specialize (Hnp v Hin). unfold compose in Hv.
      by destruct (exchange v).
    - exists m. rewrite Hp. apply list_elem_of_fmap. exists u. split; [|done]. unfold compose. by rewrite Hm. }
  destruct ups as [|u1 [|u2 us]]; [set_solver| |].
  - exists u1, m. assert (u = u1) as -> by set_solver. split; [done|]. split; [done|]. cbn. by rewrite Hm.
  - rewrite Hp in Hin. apply list_elem_of_fmap in Hin as (v & Hv & Hvin). exists v, m'. split; [done|].
    split; [|exact Hr]. symmetry in Hv. by apply event_of_resp in Hv.
Qed.

(** ** Fake addresses *)

(** A pool that holds a name looks its address up again, also in the 16-byte
    form that [ParseIP] makes. *)
Lemma holds_Get d p l :
  holds p l → Z.of_nat (length l) < capacity p →
  ∃ ip p', Get d p = (ip, p') ∧ Get d p' = (ip, p') ∧ length ip = 4%nat ∧ Lookup (v4InV6Prefix ++ ip) p' = Ok (Some d).
Proof.
  intros Hh Hroom. destruct (FakeIPThms.Get_holds d p l Hh (or_intror Hroom)) as (Hh' & Hc & i & Hi & Hg).
  destruct (Get d p) as [ip p'] eqn:E. cbn [fst snd] in *. subst ip. exists (uint32ToIP (minIP p + Z.of_nat i)), p'.
  set (l' := if bool_decide _ then _ else _) in *.
  assert (minIP p' = minIP p) as Hm by (unfold Get in E; destruct (domainToIP p !! d); by simplify_eq).
  pose proof Hh' as (_ & Hmin & Hmax & Hlen & _ & _ & Hd & Hip). pose proof (lookup_lt_Some _ _ _ Hi).
  assert (domainToIP p' !! d = Some (minIP p + Z.of_nat i)) as Ed by (apply Hd; exists i; by rewrite Hm).
  assert (ipToDomain p' !! (minIP p + Z.of_nat i) = Some d) as Ei by (apply Hip; exists i; by rewrite Hm).
  split; [done|]. split; [unfold Get; by rewrite Ed|]. split; [unfold uint32ToIP; by rewrite length_be_put|].
  unfold Lookup, to4. rewrite To4_mapped by (unfold uint32ToIP; by rewrite length_be_put).
  change (default [] (Some (uint32ToIP (minIP p + Z.of_nat i)))) with (to4 (uint32ToIP (minIP p + Z.of_nat i))).
  rewrite FakeIPThms.Uint32_put. cbn [res_bind]. unfold capacity in *. rewrite Z.mod_small by lia. by rewrite Ei.
Qed.

Lemma trim_dot (name : bytes) : trim_suffix (name ++ ("." : bytes)) "." = name.
Proof.
  unfold trim_suffix. rewrite has_suffix_app, length_app.
  replace (length name + length ("." : bytes) - length ("." : bytes))%nat with (length name) by lia. apply take_app_length.
Qed.

(** Routing a fake address is routing the name behind it. *)
Lemma route_fake (router : BaseRouter Out) order (sr : SmartResolver Msg) p meta ip name port :
  fakeIPEnabled sr = true → fakeIPPool sr = Some p → length ip = 4%nat → Lookup (v4InV6Prefix ++ ip) p = Ok (Some name) →
  ParseIP name = None → lbrack ∉ name → rbrack ∉ name → colon ∉ port → lbrack ∉ port → rbrack ∉ port →
  Route order (SetResolver (as_resolver sr) router) (with_Target meta (JoinHostPort (IPString ip) port)) =
  Route order (SetResolver (as_resolver sr) router) (with_Target meta (JoinHostPort name port)).
Proof.
  intros Hf Hp Hl Hlk Hn N1 N2 P1 P2 P3. destruct (length4_inv ip Hl) as (a & b & c & d & ->).
  assert (SplitHostPort (JoinHostPort (IPString [a; b; c; d]) port) = Ok (IPString [a; b; c; d], port)) as S1.
  { apply SplitHostPort_JoinHostPort; try done; rewrite IPString_v4 by done; by apply string4_not_in. }
  pose proof (SplitHostPort_JoinHostPort name port N1 N2 P1 P2 P3) as S2.
  unfold Route, restore, host_of, port_of. cbn [Target with_Target]. rewrite S1, S2, Hn.
  rewrite ParseIP_IPString_v4 by done. cbn [SetResolver resolver as_resolver ResolveFakeIP].
  unfold sr_ResolveFakeIP. rewrite Hf, Hp, Hlk. reflexivity.
Qed.

(** C33: With fake addresses on and room left in the pool, the answer to a
    query leads back to the name.  An A query for [name.], where [name] is no
    address literal, is answered at once, whatever the upstreams, with one
    address, a lookup of [name] then gives the same address, and a session to
    that address is routed as a session to [name]. *)
Theorem fake_query_routes (m : Msg) (now now' : Z) (router : BaseRouter Out) (order : list Out)
    (exchange : upstream → res Msg) (evs : list (race_event Msg)) (sr : SmartResolver Msg) (p : FakeIPPool)
    (l : list bytes) (name port : bytes) (qs : list question) (meta : SessionMeta) :
  fakeIPEnabled sr = true → fakeIPPool sr = Some p → holds p l → Z.of_nat (length l) < capacity p →
  msg_Question m = {| q_name := name ++ ("." : bytes); q_type := TypeA |} :: qs →
  ParseIP name = None → lbrack ∉ name → rbrack ∉ name → colon ∉ port → lbrack ∉ port → rbrack ∉ port →
  ∃ resp sr' ip, Query m now now' router order exchange evs sr = Some (Ok resp, sr') ∧
    answer_ips resp = [ip] ∧
    LookupIP name now now' router order exchange evs sr' = Some (Ok [ip], sr') ∧
    Route order (SetResolver (as_resolver sr') router) (with_Target meta (JoinHostPort (IPString ip) port)) =
    Route order (SetResolver (as_resolver sr') router) (with_Target meta (JoinHostPort name port)).
Proof.
  intros Hf Hp Hh Hroom Hq Hn N1 N2 P1 P2 P3. destruct (holds_Get name p l Hh Hroom) as (ip & p' & G1 & G2 & Hlen & Hlk).
  exists (with_Answer (SetReply m) [fake_answer {| q_name := name ++ ("." : bytes); q_type := TypeA |} ip]),
    (set_pool p' sr), ip.
  split; [|split; [|split]].
  - unfold Query, query_begin. rewrite Hq, Hf. cbn [andb q_type q_name]. rewrite bool_decide_true by done.
    rewrite trim_dot. unfold pool_Get. rewrite Hp, G1. by rewrite Answer_SetReply.
  - unfold answer_ips. by rewrite Answer_with_Answer.
  - unfold LookupIP, pool_Get. rewrite Hn. cbn [set_pool fakeIPEnabled fakeIPPool]. by rewrite Hf, G2.
  - by apply (route_fake router order (set_pool p' sr) p').
Qed.

End thms.

(** ** Concrete runs *)

(** The laws can hold: messages as records, with types kept to 16 bits. *)
Record demo_msg := { dm_id : Z; dm_q : list (bytes * Z); dm_a : list RR }.

#[export] Instance demo_dns : DNSMsg demo_msg := {|
  msg_Id := dm_id;
  with_Id := λ m i, {| dm_id := i; dm_q := dm_q m; dm_a := dm_a m |};
  msg_Question := λ m, (λ '(n, t), {| q_name := n; q_type := u16 t |}) <$> dm_q m;
  msg_Answer := dm_a;
  with_Answer := λ m l, {| dm_id := dm_id m; dm_q := dm_q m; dm_a := l |};
  SetReply := λ m, {| dm_id := dm_id m; dm_q := dm_q m; dm_a := [] |};
  SetQuestion := λ n t, {| dm_id := 4242; dm_q := [(n, t)]; dm_a := [] |} |}.

#[export] Instance demo_dns_laws : DNSLaws demo_msg.
Proof.
  split; try done.
  - intros m q Hin. cbn in Hin. apply list_elem_of_fmap in Hin as ([n t] & -> & _). cbn. unfold u16.
    apply Z.mod_pos_bound. lia.
  - intros n t Ht. cbn. by rewrite u16_id.
Qed.

Definition demo_q (id : Z) : demo_msg := {| dm_id := id; dm_q := [("www.example." : bytes, 1)]; dm_a := [] |}.

Definition demo_resp : demo_msg :=
  {| dm_id := 7; dm_q := [("www.example." : bytes, 1)];
     dm_a := [{| rr_name := "www.example."; rr_ttl := 300; rr_data := RA [Byte.xc0; Byte.x00; Byte.x02; Byte.x01] |}] |}.

Definition demo_exchange (u : upstream) : res demo_msg :=
  match u with UDPUpstream _ => Ok demo_resp | _ => Fail (Errorf "unreachable") end.

Definition demo_sr : SmartResolver demo_msg :=
  AddUpstreamByString "local" "192.0.2.53" (AddUpstreamByString "local" "tls://dns.example:853" NewSmartResolver).

Definition demo_evs : list (race_event demo_msg) := [GotErr (Errorf "unreachable"); GotResp demo_resp].

Definition demo_sr' : SmartResolver demo_msg :=
  match Query (demo_q 7) 0 second RouterThms.demo_router RouterThms.demo_order demo_exchange demo_evs demo_sr with
  | Some (_, sr') => sr'
  | None => demo_sr
  end.

Lemma query_cached_witness :
  Query (demo_q 9) (100 * second) (100 * second) RouterThms.demo_fake RouterThms.demo_order demo_exchange [] demo_sr' =
  Some (Ok (with_Id demo_resp (msg_Id (demo_q 9))), demo_sr') ∧ 10 ≤ ttl_of demo_resp ≤ 3600.
Proof.
  apply (query_cached (demo_q 7) (demo_q 9) demo_resp 0 second (100 * second) (100 * second)
           RouterThms.demo_router RouterThms.demo_fake RouterThms.demo_order RouterThms.demo_order
           demo_exchange demo_exchange demo_evs [] demo_sr demo_sr'
           {| q_name := "www.example."; q_type := 1 |} [] [] [DoTUpstream "dns.example:853" "dns.example"; UDPUpstream "192.0.2.53:53"]);
    vm_compute; reflexivity.
Defined.

Lemma race_one_suffices_witness :
  ∃ u m, u ∈ [DoTUpstream "dns.example:853" "dns.example"; UDPUpstream "192.0.2.53:53"] ∧ demo_exchange u = Ok m ∧
    raceQuery [DoTUpstream "dns.example:853" "dns.example"; UDPUpstream "192.0.2.53:53"] demo_exchange
      [GotResp demo_resp; GotErr (Errorf "unreachable")] = Some (Ok m).
Proof.
  apply (race_one_suffices [DoTUpstream "dns.example:853" "dns.example"; UDPUpstream "192.0.2.53:53"] demo_exchange).
  - apply Permutation_swap.
  - intros u Hu. by destruct u.
  - exists (UDPUpstream "192.0.2.53:53"), demo_resp. split; [set_solver|done].
Defined.

Definition demo_fake_sr : SmartResolver demo_msg :=
  match EnableFakeIP "198.18.0.0/16" demo_sr with Ok sr => sr | _ => demo_sr end.

Lemma fake_query_routes_witness :
  ∃ resp sr' ip, Query (demo_q 7) 0 0 RouterThms.demo_router RouterThms.demo_order demo_exchange [] demo_fake_sr =
      Some (Ok resp, sr') ∧ answer_ips resp = [ip] ∧
    LookupIP "www.example" 0 0 RouterThms.demo_router RouterThms.demo_order demo_exchange [] sr' = Some (Ok [ip], sr') ∧
    Route RouterThms.demo_order (SetResolver (as_resolver sr') RouterThms.demo_router)
      (with_Target zeroMeta (JoinHostPort (IPString ip) "443")) =
    Route RouterThms.demo_order (SetResolver (as_resolver sr') RouterThms.demo_router)
      (with_Target zeroMeta (JoinHostPort "www.example" "443")).
Proof.
  destruct (FakeIPThms.NewFakeIPPool_v4 "198.18.0.0/16" (RouterThms.net_of "198.18.0.0/16") 16) as (p & E & Hh & _ & Hcap);
    [vm_compute; reflexivity|vm_compute; reflexivity|lia|].
  apply (fake_query_routes (demo_q 7) 0 0 RouterThms.demo_router RouterThms.demo_order demo_exchange [] demo_fake_sr p []
           "www.example" "443" []);
    [vm_compute; reflexivity|unfold demo_fake_sr, EnableFakeIP; by rewrite E|exact Hh|rewrite Hcap; vm_compute; done
    |reflexivity|vm_compute; reflexivity|..]; by apply contains_byte_false.
Defined.

(** A run with both kinds of answers: a query is answered by the upstreams
    and another one, under its own identifier, from the cache; then fake
    addresses are enabled and a third query gets one. *)
Lemma ask_hit_fake (m m2 r r3 : demo_msg) ups q qs sr sr3 :
  msg_Question m = q :: qs → head (msg_Question m2) = Some q →
  query_begin m 0 RouterThms.demo_router RouterThms.demo_order NewSmartResolver = (Ask ups, NewSmartResolver) →
  EnableFakeIP "198.18.0.0/16" (query_end m 0 (Ok r) NewSmartResolver).2 = Ok sr →
  query_begin m2 0 RouterThms.demo_router RouterThms.demo_order sr = (Answered (Ok r3), sr3) →
  ∃ w sr2, rtc (step (Out := handler)) start_world w ∧
    {| g_query := m2; g_resp := with_Id r (msg_Id m2); g_at := 0; g_sr := sr2 |} ∈ w_given w ∧
    {| g_query := m2; g_resp := r3; g_at := 0; g_sr := sr3 |} ∈ w_given w.
Proof.
  intros Hq Hq2 Hb He Hf. destruct (msg_Question m2) as [|q' qs2] eqn:Eq2; [done|]. injection Hq2 as ->.
  eexists _, _. split; [|split].
  - eapply rtc_l; [eapply (StAsk start_world m), Hb|].
    eapply rtc_l; [eapply (StResp _ [] m [] q qs r); [done|exact Hq]|].
    eapply rtc_l; [eapply (StAnswered _ m2 RouterThms.demo_router RouterThms.demo_order (with_Id r (msg_Id m2)))|].
    { unfold query_begin, query_end. rewrite Eq2, Hq. cbn. rewrite lookup_insert_eq.
      rewrite bool_decide_true; [reflexivity|]. pose proof (ttl_range r). unfold second. cbn in *. lia. }
    eapply rtc_l; [eapply (StEnable _ "198.18.0.0/16" sr)|].
    { cbn [w_sr]. unfold query_end in He. rewrite Hq in He. exact He. }
    eapply rtc_l; [|apply rtc_refl]. eapply (StAnswered _ m2 RouterThms.demo_router RouterThms.demo_order r3). exact Hf.
  - cbn. right. left.
  - cbn. left.
Qed.

Lemma dns_answers_witness :
  ∃ w sr, rtc (step (Out := handler)) start_world w ∧
    {| g_query := demo_q 9; g_resp := with_Id demo_resp 9; g_at := 0; g_sr := sr |} ∈ w_given w ∧
    ((∃ f, f ∈ w_fetched w ∧ head (msg_Question (demo_q 9)) = Some (f_question f) ∧
      (with_Id demo_resp 9 = f_resp f ∨ with_Id demo_resp 9 = with_Id (f_resp f) (msg_Id (demo_q 9))) ∧
      f_at f ≤ 0 < f_at f + 3600 * second) ∨
     (∃ q p n, head (msg_Question (demo_q 9)) = Some q ∧ q_type q = TypeA ∧ fakeIPEnabled sr = true ∧ fakeIPPool sr = Some p ∧
       domainToIP p !! trim_suffix (q_name q) "." = Some n ∧
       with_Id demo_resp 9 = with_Answer (SetReply (demo_q 9)) [fake_answer q (uint32ToIP n)])).
Proof.
  destruct (ask_hit_fake (demo_q 7) (demo_q 9) demo_resp (with_Answer (SetReply (demo_q 9))
      [fake_answer {| q_name := "www.example."; q_type := 1 |} [Byte.xc6; Byte.x12; Byte.x00; Byte.x01]])
      default_upstreams {| q_name := "www.example."; q_type := 1 |} []
      (match EnableFakeIP "198.18.0.0/16" (query_end (demo_q 7) 0 (Ok demo_resp) NewSmartResolver).2 with Ok sr => sr | _ => NewSmartResolver end)
      (query_begin (demo_q 9) 0 RouterThms.demo_router RouterThms.demo_order
        (match EnableFakeIP "198.18.0.0/16" (query_end (demo_q 7) 0 (Ok demo_resp) NewSmartResolver).2 with Ok sr => sr | _ => NewSmartResolver end)).2)
    as (w & sr2 & Hw & Hin & _); [vm_compute; reflexivity..|].
  exists w, sr2. split; [exact Hw|]. split; [exact Hin|].
  apply (dns_answers (Out := handler) w (demo_q 9) (with_Id demo_resp 9) 0 _ Hw Hin).
Defined.

End DnsThms.
