(* ===== verification/Config.v ===== *)
(** * Configuration: [internal/common/config.go], [config_manager.go]

    The configuration record with the source's fields, its validation and
    redaction, saving and loading through a file system, and the manager that
    swaps configurations at run time and notifies its subscribers on
    goroutines of their own.  The third-party [yaml] package is a pair of
    functions ([Yaml]); a value of type [interface{}] is [any]. *)

From S2P Require Import Prelude GoNet Obfs Outbound.

(** ** The record *)

(** A value a YAML document can put under [settings]. *)
Inductive any := AStr (s : bytes) | AList (l : list any) | AOther.

Record UserAuth := { Username : bytes; Password : bytes }.

Record AuthConfig := { Enabled : bool; Users : list UserAuth }.

Record InboundConfig := {
  in_Protocol : bytes;
  in_Listen : bytes;
  in_Transport : bytes;
  in_ProxyProtocol : bool;
  in_Obfuscation : ObfsConfig;
  in_Auth : AuthConfig;
  in_WSPath : bytes;
  in_WSHeader : gmap bytes bytes;
  in_Settings : gmap bytes any }.

Record OutboundConfig := {
  out_Name : bytes;
  out_Protocol : bytes;
  out_Group : bytes;
  out_Address : bytes;
  out_Transport : bytes;
  out_Obfuscation : ObfsConfig;
  out_MultiPath : bool;
  out_TLSSNI : bytes;
  out_WSPath : bytes;
  out_WSHeader : gmap bytes bytes;
  out_Settings : gmap bytes any }.

Record LimitsConfig := { MaxBandwidthMBps : Z; PerUserBandwidthMBps : Z; SessionTrafficThreshold : Z }.

Record NodeConfig := { n_ID : bytes; n_Type : bytes; n_AdminAddr : bytes; n_Tags : gmap bytes bytes }.

Record ControllerConfig := {
  ct_Enabled : bool; ct_Address : bytes; ct_Insecure : bool; ct_CertFile : bytes; ct_KeyFile : bytes; ct_CAFile : bytes }.

Record RoutingRuleConfig := {
  rr_Type : bytes; rr_Pattern : bytes; rr_Outbound : bytes; rr_OutboundGroup : bytes; rr_Strategy : bytes }.

Record FakeIPConfig := { fk_Enabled : bool; fk_Range : bytes }.

Record RoutingConfig := {
  rt_Rules : list RoutingRuleConfig;
  rt_DNSUpstreams : list bytes;
  rt_DNSIsolationThreshold : Z;
  rt_FakeIP : FakeIPConfig }.

Record TracingConfig := { tr_Enabled : bool; tr_Endpoint : bytes; tr_SampleRate : float64 }.

Record MetricsConfig := { mt_Enabled : bool; mt_Listen : bytes }.

Record LoggingConfig := { lg_Level : bytes; lg_Format : bytes; lg_Path : bytes }.

Record ObservabilityConfig := { ob_Tracing : TracingConfig; ob_Metrics : MetricsConfig; ob_Logging : LoggingConfig }.

Record Config := {
  Version : bytes;
  Node : NodeConfig;
  Controller : ControllerConfig;
  Inbounds : list InboundConfig;
  Outbounds : list OutboundConfig;
  Routing : RoutingConfig;
  Observability : ObservabilityConfig;
  Limits : LimitsConfig }.

(** The zero values a composite literal starts from. *)
Definition zeroObfs : ObfsConfig := {| oType := []; MaxPad := 0; Interval := 0; DummySize := 0 |}.

Definition zeroInbound : InboundConfig :=
  {| in_Protocol := []; in_Listen := []; in_Transport := []; in_ProxyProtocol := false; in_Obfuscation := zeroObfs;
     in_Auth := {| Enabled := false; Users := [] |}; in_WSPath := []; in_WSHeader := ∅; in_Settings := ∅ |}.

Definition zeroOutbound : OutboundConfig :=
  {| out_Name := []; out_Protocol := []; out_Group := []; out_Address := []; out_Transport := [];
     out_Obfuscation := zeroObfs; out_MultiPath := false; out_TLSSNI := []; out_WSPath := []; out_WSHeader := ∅;
     out_Settings := ∅ |}.

Definition zeroConfig : Config :=
  {| Version := []; Node := {| n_ID := []; n_Type := []; n_AdminAddr := []; n_Tags := ∅ |};
     Controller := {| ct_Enabled := false; ct_Address := []; ct_Insecure := false; ct_CertFile := []; ct_KeyFile := []; ct_CAFile := [] |};
     Inbounds := []; Outbounds := [];
     Routing := {| rt_Rules := []; rt_DNSUpstreams := []; rt_DNSIsolationThreshold := 0;
                   rt_FakeIP := {| fk_Enabled := false; fk_Range := [] |} |};
     Observability := {| ob_Tracing := {| tr_Enabled := false; tr_Endpoint := []; tr_SampleRate := f64 0 |};
                         ob_Metrics := {| mt_Enabled := false; mt_Listen := [] |};
                         ob_Logging := {| lg_Level := []; lg_Format := []; lg_Path := [] |} |};
     Limits := {| MaxBandwidthMBps := 0; PerUserBandwidthMBps := 0; SessionTrafficThreshold := 0 |} |}.

(** ** Validation and redaction *)

Definition Validate (c : Config) : option goerr :=
  if bool_decide (n_ID (Node c) = []) then Some (Errorf "node.id required") else None.

Definition with_users (i : InboundConfig) (us : list UserAuth) : InboundConfig :=
  {| in_Protocol := in_Protocol i; in_Listen := in_Listen i; in_Transport := in_Transport i;
     in_ProxyProtocol := in_ProxyProtocol i; in_Obfuscation := in_Obfuscation i;
     in_Auth := {| Enabled := Enabled (in_Auth i); Users := us |}; in_WSPath := in_WSPath i;
     in_WSHeader := in_WSHeader i; in_Settings := in_Settings i |}.

Definition with_inbounds (c : Config) (l : list InboundConfig) : Config :=
  {| Version := Version c; Node := Node c; Controller := Controller c; Inbounds := l; Outbounds := Outbounds c;
     Routing := Routing c; Observability := Observability c; Limits := Limits c |}.

Definition Redacted (c : Config) : Config := with_inbounds c ((λ i, with_users i []) <$> Inbounds c).

(** ** Files *)

Class Yaml := { yaml_Marshal : Config → bytes; yaml_Unmarshal : bytes → Config }.

(** A file system: the contents of the files and the directories, by clean
    path. *)
Record fs := { files : gmap bytes bytes; dirs : gset bytes }.

Definition slash : byte := Byte.x2f.

(** [filepath.Clean] and [filepath.Dir] with the separators of Unix. *)
Fixpoint clean_elems (rooted : bool) (es : list bytes) (stack : list bytes) : list bytes :=
  match es with
  | [] => rev stack
  | e :: r =>
      if bool_decide (e = [] ∨ e = [dot]) then clean_elems rooted r stack
      else if bool_decide (e = [dot; dot]) then
        match stack with
        | t :: stack' => if bool_decide (t = [dot; dot]) then clean_elems rooted r (e :: stack) else clean_elems rooted r stack'
        | [] => clean_elems rooted r (if rooted then [] else [e])
        end
      else clean_elems rooted r (e :: stack)
  end.

Fixpoint join_slash (es : list bytes) : bytes :=
  match es with [] => [] | [e] => e | e :: r => e ++ slash :: join_slash r end.

Definition Clean (path : bytes) : bytes :=
  let rooted := has_prefix path [slash] in
  let out := (if rooted then [slash] else []) ++ join_slash (clean_elems rooted (split_byte slash path) []) in
  if bool_decide (out = []) then [dot] else out.

Definition Dir (path : bytes) : bytes :=
  match last_index_byte slash path with Some i => Clean (take (S i) path) | None => [dot] end.

(** [os.WriteFile]: nothing happens when the directory is missing; [short]
    tells how much reached a disk that filled up. *)
Definition WriteFile (path data : bytes) (short : option nat) (f : fs) : fs :=
  if bool_decide (Dir path ∈ dirs f ∧ Clean path ∉ dirs f) then
    {| files := <[Clean path := match short with Some k => take k data | None => data end]> (files f); dirs := dirs f |}
  else f.

(** [os.MkdirAll] makes the directory and its parents. *)
Definition ancestors (path : bytes) : list bytes :=
  let es := split_byte slash path in
  (λ n, Clean (join_slash (take n es) ++ (if bool_decide (n = 1%nat) then [slash] else []))) <$> seq 1 (length es).

Definition MkdirAll (path : bytes) (f : fs) : fs :=
  {| files := files f; dirs := dirs f ∪ list_to_set (ancestors path) |}.

Definition Rename (old new : bytes) (f : fs) : res fs :=
  match files f !! Clean old with
  | Some data =>
      if bool_decide (Dir new ∈ dirs f ∧ Clean new ∉ dirs f) then
        Ok {| files := <[Clean new := data]> (delete (Clean old) (files f)); dirs := dirs f |}
      else Fail (Errorf "rename")
  | None => Fail (Errorf "no such file")
  end.

Definition tmp_of (path : bytes) : bytes := path ++ (".tmp" : bytes).

Definition Save `{Yaml} (path : bytes) (short : option nat) (c : Config) (f : fs) : option goerr * fs :=
  let data := yaml_Marshal c in
  let f1 := WriteFile (tmp_of path) data short f in
  let f2 := MkdirAll (Dir path) f1 in
  match Rename (tmp_of path) path f2 with
  | Ok f3 => (None, f3)
  | Fail e => (Some e, f2)
  | Panic => (None, f2)
  end.

Definition LoadConfig `{Yaml} (path : bytes) (f : fs) : res Config :=
  match files f !! Clean path with
  | Some data => Ok (yaml_Unmarshal data)
  | None => Fail (Errorf "no such file")
  end.

(** ** The manager *)

Record ConfigManager := { current : Config; subs : list nat }.

Definition NewConfigManager (initial : Config) : ConfigManager := {| current := initial; subs := [] |}.

Definition Get (cm : ConfigManager) : Config := current cm.

Definition Subscribe (cb : nat) (cm : ConfigManager) : ConfigManager := {| current := current cm; subs := subs cm ++ [cb] |}.

(** [Update]: the error, the new state and the callbacks that are started. *)
Definition Update (c : Config) (cm : ConfigManager) : option goerr * ConfigManager * list (nat * Config) :=
  match Validate c with
  | Some e => (Some e, cm, [])
  | None => (None, {| current := c; subs := subs cm |}, (λ cb, (cb, c)) <$> subs cm)
  end.

(** The goroutines of the callbacks run in any order; [applied] is the order
    in which they did.  [accepted] records the successful updates and how
    many subscribers each had. *)
Record world := {
  w_cm : ConfigManager;
  w_running : list (nat * Config);
  w_applied : list (nat * Config);
  w_accepted : list (Config * list nat) }.

Definition start_world (c : Config) : world :=
  {| w_cm := NewConfigManager c; w_running := []; w_applied := []; w_accepted := [] |}.

Inductive step : world → world → Prop :=
| StUpdate w c cm' started :
    Update c (w_cm w) = (None, cm', started) →
    step w {| w_cm := cm'; w_running := w_running w ++ started; w_applied := w_applied w;
              w_accepted := w_accepted w ++ [(c, subs (w_cm w))] |}
| StRefused w c cm' e :
    Update c (w_cm w) = (Some e, cm', []) →
    step w {| w_cm := cm'; w_running := w_running w; w_applied := w_applied w; w_accepted := w_accepted w |}
| StSubscribe w cb :
    step w {| w_cm := Subscribe cb (w_cm w); w_running := w_running w; w_applied := w_applied w; w_accepted := w_accepted w |}
| StCallback w r1 cb c r2 :
    w_running w = r1 ++ (cb, c) :: r2 →
    step w {| w_cm := w_cm w; w_running := r1 ++ r2; w_applied := w_applied w ++ [(cb, c)]; w_accepted := w_accepted w |}.

(** What a sequence of updates owes its subscribers. *)
Definition owed (accepted : list (Config * list nat)) : list (nat * Config) :=
  flat_map (λ '(c, cbs), (λ cb, (cb, c)) <$> cbs) accepted.

Module ConfigThms.

(** ** Redaction *)

(** A redacted configuration is free of credentials: it is the same for
    any two configurations that differ only in the users of their inbounds,
    lists no user, and keeps every other field. *)
Theorem redacted_hides (c : Config) (users : list (list UserAuth)) :
  length users = length (Inbounds c) →
  let c' := with_inbounds c (zip_with with_users (Inbounds c) users) in
  Redacted c' = Redacted c ∧ Forall (λ i, Users (in_Auth i) = []) (Inbounds (Redacted c)) ∧
  (Forall (λ i, Users (in_Auth i) = []) (Inbounds c) → Redacted c = c).
Proof.
  intros Hl c'. split; [|split].
  - unfold Redacted, c', with_inbounds. cbn. f_equal. clear c'. revert users Hl.
    induction (Inbounds c) as [|i l IH]; intros [|u us] Hl; simplify_eq/=; [done|]. by rewrite IH.
  - unfold Redacted. cbn. apply Forall_fmap, Forall_true. done.
  - clear c' Hl. intros Hu. unfold Redacted. destruct c as [v n ct ins outs rt ob li]. unfold with_inbounds. cbn in *. f_equal.
    induction Hu as [|i l Hi _ IH]; [done|]. cbn. rewrite IH. f_equal. destruct i as [? ? ? ? ? [e us] ? ? ?]. cbn in *. by subst.
Qed.

(** ** Saving and loading *)

Lemma last_index_byte_suffix c s t : c ∉ t → last_index_byte c (s ++ t) = last_index_byte c s.
Proof.
  intros Ht. induction s as [|x s IH]; [by apply last_index_byte_None|]. cbn [app last_index_byte]. by rewrite IH.
Qed.

Lemma last_index_byte_lt c s i : last_index_byte c s = Some i → (i < length s)%nat.
Proof.
  revert i. induction s as [|x s IH]; intros i; [done|]. cbn [last_index_byte length].
  destruct (last_index_byte c s) as [j|]; [intros [= <-]; specialize (IH j eq_refl); lia|].
  case_bool_decide; [intros [= <-]; lia|done].
Qed.

(** The temporary file is in the directory of the file. *)
Lemma Dir_tmp path : Dir (tmp_of path) = Dir path.
Proof.
  unfold Dir, tmp_of. rewrite last_index_byte_suffix by (by apply contains_byte_false).
  destruct (last_index_byte slash path) as [i|] eqn:E; [|done]. apply last_index_byte_lt in E.
  by rewrite take_app_le by lia.
Qed.

(** Where a save can work: the directory is there and neither name is one. *)
Record saveable (path : bytes) (f : fs) : Prop := {
  sv_dir : Dir path ∈ dirs f;
  sv_path : Clean path ∉ dirs f;
  sv_tmp : Clean (tmp_of path) ∉ dirs f;
  sv_other : Clean path ∉ ancestors (Dir path);
  sv_ne : Clean (tmp_of path) ≠ Clean path }.

Lemma Save_ok `{Yaml} path short c f :
  saveable path f →
  let data := match short with Some k => take k (yaml_Marshal c) | None => yaml_Marshal c end in
  ∃ f', Save path short c f = (None, f') ∧ files f' = <[Clean path := data]> (delete (Clean (tmp_of path)) (files f)).
Proof.
  intros [H1 H2 H3 H4 H5] data. unfold Save, WriteFile. rewrite Dir_tmp, bool_decide_true by done.
  unfold Rename, MkdirAll. cbn [files dirs]. rewrite lookup_insert_eq, bool_decide_true.
  - eexists. split; [done|]. cbn [files]. by rewrite delete_insert_eq.
  - split; [set_solver|]. intros [Hx|Hx%elem_of_list_to_set]%elem_of_union; done.
Qed.

(** A configuration that is saved is the one that is loaded.  In a
    directory that exists, [Save] succeeds, [LoadConfig] of the same path
    gives the configuration back (for a configuration the YAML package
    itself round-trips), no file other than the path and its temporary name
    changes, and until the final rename the path holds its old contents. *)
Theorem save_load `{Yaml} (path : bytes) (c : Config) (f : fs) :
  saveable path f → yaml_Unmarshal (yaml_Marshal c) = c →
  ∃ f', Save path None c f = (None, f') ∧ LoadConfig path f' = Ok c ∧
    (∀ p, p ≠ Clean path → p ≠ Clean (tmp_of path) → files f' !! p = files f !! p) ∧
    files (MkdirAll (Dir path) (WriteFile (tmp_of path) (yaml_Marshal c) None f)) !! Clean path = files f !! Clean path.
Proof.
  intros Hs Hy. destruct (Save_ok path None c f Hs) as (f' & E & Ef). exists f'. split; [done|]. split; [|split].
  - unfold LoadConfig. by rewrite Ef, lookup_insert_eq, Hy.
  - intros p Hp Ht. by rewrite Ef, lookup_insert_ne, lookup_delete_ne by done.
  - destruct Hs as [H1 H2 H3 H4 H5]. unfold WriteFile. rewrite Dir_tmp, bool_decide_true by done. cbn [MkdirAll files].
    by rewrite lookup_insert_ne.
Qed.

(** The errors a save drops.  When the directory does not exist yet, the
    first [Save] fails, because the temporary file is written before the
    directory is made; and when the disk fills up after [k] bytes, [Save]
    reports success and has replaced the file by its first [k] bytes. *)
Theorem save_drops_errors `{Yaml} (path : bytes) (c : Config) (f : fs) (k : nat) :
  (Dir path ∉ dirs f → files f !! Clean (tmp_of path) = None → ∃ e, (Save path None c f).1 = Some e) ∧
  (saveable path f →
   ∃ f', Save path (Some k) c f = (None, f') ∧ LoadConfig path f' = Ok (yaml_Unmarshal (take k (yaml_Marshal c)))).
Proof.
  split.
  - intros Hd Ht. unfold Save, WriteFile. rewrite Dir_tmp, bool_decide_false by naive_solver.
    unfold Rename, MkdirAll. cbn [files]. rewrite Ht. eauto.
  - intros Hs. destruct (Save_ok path (Some k) c f Hs) as (f' & E & Ef). exists f'. split; [done|].
    unfold LoadConfig. by rewrite Ef, lookup_insert_eq.
Qed.

(** ** Hot updates *)

Definition cfg_inv (c0 : Config) (w : world) : Prop :=
  w_running w ++ w_applied w ≡ₚ owed (w_accepted w) ∧ Forall (λ ca, Validate ca.1 = None) (w_accepted w) ∧
  current (w_cm w) = default c0 (last (w_accepted w).*1).

Lemma cfg_inv_step c0 w w' : cfg_inv c0 w → step w w' → cfg_inv c0 w'.
Proof.
  intros (Hp & Hv & Hc) Hs. destruct Hs as [w c cm' started Hu|w c cm' e Hu|w cb|w r1 cb c r2 Hr]; unfold cfg_inv; cbn.
  - unfold Update in Hu. destruct (Validate c) eqn:Ev; [done|]. injection Hu as <- <-. cbn. split; [|split].
    + unfold owed in *. rewrite flat_map_app. cbn. rewrite app_nil_r, <-Hp, <-!app_assoc. apply Permutation_app_head, Permutation_app_comm.
    + apply Forall_app. auto.
    + rewrite fmap_app. change ([(c, subs (w_cm w))].*1) with [c]. by rewrite last_snoc.
  - unfold Update in Hu. destruct (Validate c) eqn:Ev; [injection Hu as <- <-|]; done.
  - done.
  - split; [|done]. rewrite <-Hp, Hr. cbn. solve_Permutation.
Qed.

(** C24: Every accepted configuration reaches every subscriber exactly once.
    However updates, subscriptions and callback goroutines interleave: the
    callbacks that have run and those still to run are exactly one per
    accepted update and subscriber of that moment; every accepted update is
    valid, a refused one changes nothing, and [Get] gives the last accepted
    one. *)
Theorem config_delivery (c0 : Config) (w : world) :
  rtc step (start_world c0) w →
  w_running w ++ w_applied w ≡ₚ owed (w_accepted w) ∧
  Forall (λ ca, Validate ca.1 = None) (w_accepted w) ∧ current (w_cm w) = default c0 (last (w_accepted w).*1) ∧
  (w_running w = [] → w_applied w ≡ₚ owed (w_accepted w)).
Proof.
  intros Hw. assert (cfg_inv c0 w) as (Hp & Hv & Hc).
  { apply (rtc_invariant step (start_world c0) w); [intros ??; apply cfg_inv_step|done|]. split; [done|]. split; [constructor|done]. }
  split; [done|]. split; [done|]. split; [done|]. intros Hr. by rewrite Hr in Hp.
Qed.

Lemma stale_run (c0 c1 c2 : Config) (cb : nat) :
  Validate c1 = None → Validate c2 = None →
  ∃ w, rtc step (start_world c0) w ∧ w_running w = [] ∧ current (w_cm w) = c2 ∧ w_applied w = [(cb, c2); (cb, c1)].
Proof.
  intros H1 H2. eexists. split.
  - eapply rtc_l; [apply (StSubscribe _ cb)|].
    eapply rtc_l; [apply (StUpdate _ c1); unfold Update; rewrite H1; reflexivity|].
    eapply rtc_l; [apply (StUpdate _ c2); unfold Update; rewrite H2; reflexivity|].
    eapply rtc_l; [apply (StCallback _ [(cb, c1)] cb c2 []); reflexivity|].
    eapply rtc_l; [apply (StCallback _ [] cb c1 []); reflexivity|]. apply rtc_refl.
  - done.
Qed.

(** An older configuration can be applied last.  The callbacks are not
    ordered: for two valid configurations accepted one after the other there
    is a run after which nothing is left to do and a subscriber has applied
    the older one last, although [Get] gives the newer one. *)
Theorem config_stale_apply (c0 c1 c2 : Config) (cb : nat) :
  Validate c1 = None → Validate c2 = None →
  ∃ w, rtc step (start_world c0) w ∧ w_running w = [] ∧ current (w_cm w) = c2 ∧ w_applied w = [(cb, c2); (cb, c1)].
Proof. apply stale_run. Qed.

(** ** Concrete runs *)

Definition demo_cfg (id : bytes) : Config :=
  {| Version := "2.0"; Node := {| n_ID := id; n_Type := "ingress"; n_AdminAddr := []; n_Tags := ∅ |};
     Controller := Controller zeroConfig;
     Inbounds := [with_users zeroInbound [{| Username := "alice"; Password := "#secret" |}]];
     Outbounds := []; Routing := Routing zeroConfig; Observability := Observability zeroConfig; Limits := Limits zeroConfig |}.

(** A YAML package that knows one document. *)
Definition demo_yaml : Yaml := {| yaml_Marshal := λ _, "node: n1"; yaml_Unmarshal := λ _, demo_cfg "n1" |}.

Definition demo_fs : fs := {| files := {["etc/old.yaml" : bytes := "x" : bytes]}; dirs := {["etc" : bytes]} |}.

Lemma demo_saveable : saveable "etc/np.yaml" demo_fs.
Proof. split; apply (bool_decide_unpack _); vm_compute; exact I. Qed.

Lemma redacted_hides_witness :
  Redacted (with_inbounds (demo_cfg "n1") (zip_with with_users (Inbounds (demo_cfg "n1")) [[{| Username := "bob"; Password := "x" |}]])) =
  Redacted (demo_cfg "n1") ∧ Forall (λ i, Users (in_Auth i) = []) (Inbounds (Redacted (demo_cfg "n1"))).
Proof.
  destruct (redacted_hides (demo_cfg "n1") [[{| Username := "bob"; Password := "x" |}]] eq_refl) as (H1 & H2 & _).
  split; [exact H1|exact H2].
Defined.

Lemma save_load_witness :
  ∃ f', @Save demo_yaml "etc/np.yaml" None (demo_cfg "n1") demo_fs = (None, f') ∧
    @LoadConfig demo_yaml "etc/np.yaml" f' = Ok (demo_cfg "n1").
Proof.
  destruct (@save_load demo_yaml "etc/np.yaml" (demo_cfg "n1") demo_fs demo_saveable eq_refl) as (f' & H1 & H2 & _).
  exists f'. split; [exact H1|exact H2].
Defined.

Lemma save_drops_errors_witness :
  (∃ e, (@Save demo_yaml "configs/np.yaml" None (demo_cfg "n1") demo_fs).1 = Some e) ∧
  ∃ f', @Save demo_yaml "etc/np.yaml" (Some 3%nat) (demo_cfg "n1") demo_fs = (None, f').
Proof.
  destruct (@save_drops_errors demo_yaml "configs/np.yaml" (demo_cfg "n1") demo_fs 3) as [H1 _].
  destruct (@save_drops_errors demo_yaml "etc/np.yaml" (demo_cfg "n1") demo_fs 3) as [_ H2].
  split; [apply H1; [|vm_compute; reflexivity]|destruct (H2 demo_saveable) as (f' & E & _); exists f'; exact E].
  apply (bool_decide_unpack _). vm_compute. exact I.
Defined.

Lemma config_stale_apply_witness :
  ∃ w, rtc step (start_world (demo_cfg "n0")) w ∧ w_running w = [] ∧ current (w_cm w) = demo_cfg "n2" ∧
    w_applied w = [(0%nat, demo_cfg "n2"); (0%nat, demo_cfg "n1")].
Proof. apply config_stale_apply; reflexivity. Defined.

Lemma config_delivery_witness :
  ∃ w, rtc step (start_world (demo_cfg "n0")) w ∧ w_running w ++ w_applied w ≡ₚ owed (w_accepted w) ∧
    current (w_cm w) = default (demo_cfg "n0") (last (w_accepted w).*1).
Proof.
  destruct (stale_run (demo_cfg "n0") (demo_cfg "n1") (demo_cfg "n2") 0 eq_refl eq_refl) as (w & Hw & _).
  destruct (config_delivery (demo_cfg "n0") w Hw) as (H1 & _ & H3 & _). exists w. split; [exact Hw|]. split; [exact H1|exact H3].
Defined.

End ConfigThms.
