(* ===== verification/Inbound.v ===== *)
(** * Inbound handlers: [internal/inbound]

    An inbound handler accepts a client, finds out where it wants to go, asks
    the router for an outbound, dials through it and relays.  A handler is
    modelled up to the call of [DualRelay], whose arguments are its outcome.
    [Conn] is a small monad for the code that talks to the client: the
    connection's two directions and the 256-byte buffer the handlers read
    into, with early returns and panics; a read whose error the code drops
    leaves the old contents of the buffer, as in Go.

    What is outside the program is an argument: the dialed connection
    ([e_dial]), the fresh session identifier, the clock, the password check
    of the third-party [bcrypt] package. *)

From S2P Require Import Prelude GoNet Stream Types NPChain Obfs Limits Sniffer Outbound Router Config.

(** ** Talking to a client *)

Record conn_state := { c_in : stream; c_out : sink; c_buf : bytes }.

Inductive ctl (A : Type) := Cont (a : A) | Return | Crash.
Arguments Cont {A} _.
Arguments Return {A}.
Arguments Crash {A}.

Definition Conn (A : Type) : Type := conn_state → ctl A * conn_state.

#[export] Instance conn_ret : MRet Conn := λ A a st, (Cont a, st).

#[export] Instance conn_bind : MBind Conn := λ A B k m st,
  match m st with
  | (Cont a, st') => k a st'
  | (Return, st') => (Return, st')
  | (Crash, st') => (Crash, st')
  end.

#[export] Instance conn_fmap : FMap Conn := λ A B f m, a ← m; mret (f a).

Definition return_ {A} : Conn A := λ st, (Return, st).

Definition crash {A} : Conn A := λ st, (Crash, st).

Definition lift_res {A} (r : res A) : Conn A := λ st,
  match r with Ok a => (Cont a, st) | Fail _ => (Return, st) | Panic => (Crash, st) end.

(** [buf = make([]byte, 256)]. *)
Definition make_buf : Conn unit := λ st,
  (Cont (), {| c_in := c_in st; c_out := c_out st; c_buf := replicate 256 Byte.x00 |}).

(** [io.ReadFull(conn, buf[:n])]: the bytes read so far are in the buffer
    whatever the error. *)
Definition read_full (n : nat) : Conn (option goerr) := λ st,
  if bool_decide (n ≤ length (c_buf st))%nat then
    let '(got, e, s') := io_ReadFull n (c_in st) in
    (Cont e, {| c_in := s'; c_out := c_out st; c_buf := copy_into (c_buf st) got |})
  else (Crash, st).

(** [io.ReadFull] into another slice of [n] bytes, which is not used. *)
Definition read_other (n : nat) : Conn (option goerr) := λ st,
  let '(_, e, s') := io_ReadFull n (c_in st) in (Cont e, {| c_in := s'; c_out := c_out st; c_buf := c_buf st |}).

Definition buf_at (i : nat) : Conn byte := λ st, lift_res (index (c_buf st) i) st.

Definition buf_to (n : nat) : Conn bytes := λ st, lift_res (slice (c_buf st) 0 n) st.

(** [conn.Write(b)] with its error dropped. *)
Definition write (b : bytes) : Conn unit := λ st,
  (Cont (), {| c_in := c_in st; c_out := (sink_write b (c_out st)).2; c_buf := c_buf st |}).

(** ** Sessions *)

(** The client as [DualRelay] reads it: itself, or through the sniffer. *)
Inductive client := Raw (s : stream) | Peeked (b : bufio).

Definition client_bytes (c : client) : bytes :=
  match c with Raw s => stream_bytes s | Peeked b => bufio_bytes b end.

(** [common.SniffConn(conn)], which may replace the connection. *)
Definition sniff : Conn (option SniffedResult * client) := λ st,
  let '(r, br) := SniffConn (c_in st) in lift_res (res_bind r (λ o, Ok (o, Peeked br))) st.

Definition raw : Conn client := λ st, (Cont (Raw (c_in st)), st).

Section handlers.
Context `{OutboundHandler Out} {C : Type}.

Record env := {
  e_router : BaseRouter Out;
  e_order : list Out;                        (* the order of map iteration *)
  e_dial : Out → SessionMeta → res C;        (* what [Dial] returns *)
  e_uuid : bytes;                            (* [uuid.New().String()] *)
  e_now : Z;
  e_remote : bytes }.                        (* [conn.RemoteAddr()] *)

(** The arguments of [DualRelay], and the metadata the target was dialed with. *)
Record session := {
  s_meta : SessionMeta;
  s_out : Out;
  s_conn : C;
  s_client : client;
  s_user : bytes;
  s_limiter : option Rate.bucket;
  s_quota : bool }.

Definition new_meta (e : env) (target user : bytes) (hops : list bytes) : SessionMeta :=
  {| ID := e_uuid e; TraceID := []; UserID := user; Source := Some (e_remote e); Target := target;
     Network := "tcp"; HopChain := hops; RouteTags := ∅; CreatedAt := e_now e |}.

(** ** SOCKS5: [socks5.go] *)

(** The loop over the users; [bcrypt hash password] is the result of
    [CompareHashAndPassword]. *)
Definition check_users (bcrypt : bytes → bytes → bool) (users : list UserAuth) (username password : bytes) : bool :=
  existsb (λ u, bool_decide (Username u = username) && bcrypt (Password u) password) users.

Definition byte_len (b : byte) : nat := Z.to_nat (b2z b).

Definition socks5_auth (auth : AuthConfig) (bcrypt : bytes → bytes → bool) : Conn bytes :=
  if Enabled auth then
    _ ← write [Byte.x05; Byte.x02];
    e ← read_full 2; b0 ← buf_at 0;
    if bool_decide (e ≠ None ∨ b0 ≠ Byte.x01) then return_ else
    b1 ← buf_at 1;
    _ ← read_full (byte_len b1); username ← buf_to (byte_len b1);
    _ ← read_full 1;
    p0 ← buf_at 0;
    _ ← read_full (byte_len p0); password ← buf_to (byte_len p0);
    if check_users bcrypt (Users auth) username password then
      _ ← write [Byte.x01; Byte.x00]; mret username
    else _ ← write [Byte.x01; Byte.x01]; return_
  else _ ← write [Byte.x05; Byte.x00]; mret ("anonymous" : bytes).

Definition socks5_reply (code : byte) : bytes :=
  [Byte.x05; code; Byte.x00; Byte.x01; Byte.x00; Byte.x00; Byte.x00; Byte.x00; Byte.x00; Byte.x00].

(** [handleConnect]: the host, by address type; other types give the empty
    host. *)
Definition read_host (addrType : byte) : Conn bytes :=
  if bool_decide (addrType = Byte.x01) then
    _ ← read_full 4; ip ← buf_to 4; mret (IPString ip)
  else if bool_decide (addrType = Byte.x03) then
    _ ← read_full 1; l ← buf_at 0; _ ← read_full (byte_len l); buf_to (byte_len l)
  else if bool_decide (addrType = Byte.x04) then
    _ ← read_full 16; ip ← buf_to 16; mret (IPString ip)
  else mret [].

Definition handleConnect (e : env) (addrType : byte) (user : bytes) (limiter : option Rate.bucket) : Conn session :=
  _ ← make_buf;
  targetHost ← read_host addrType;
  _ ← read_full 2;
  pb ← buf_to 2;
  let target := JoinHostPort targetHost (Itoa (be_get pb)) in
  let meta := new_meta e target user [target] in
  match Route (e_order e) (e_router e) meta with
  | Panic => crash
  | Fail _ => _ ← write (socks5_reply Byte.x04); return_
  | Ok out =>
      match e_dial e out meta with
      | Panic => crash
      | Fail _ => _ ← write (socks5_reply Byte.x05); return_
      | Ok c =>
          _ ← write (socks5_reply Byte.x00);
          cl ← (if bool_decide (addrType ≠ Byte.x03) then snd <$> sniff else raw);
          mret {| s_meta := meta; s_out := out; s_conn := c; s_client := cl; s_user := user; s_limiter := limiter;
                  s_quota := true |}
      end
  end.

(** [handleUDPAssociate] up to its loops: [port] is the local port of the new
    socket, if one could be opened. *)
Definition handleUDPAssociate (port : option Z) : Conn unit :=
  match port with
  | None => return_
  | Some p => write ([Byte.x05; Byte.x00; Byte.x00; Byte.x01; Byte.x00; Byte.x00; Byte.x00; Byte.x00] ++ be_put 2 p)
  end.

Inductive socks5_result := Connected (s : session) | Associated (user : bytes) (limiter : option Rate.bucket).

Definition handleConnection (auth : AuthConfig) (bcrypt : bytes → bytes → bool) (lm : Rate.LimiterManager)
    (udp_port : option Z) (e : env) : Conn (socks5_result * Rate.LimiterManager) :=
  _ ← make_buf;
  e1 ← read_full 2; b0 ← buf_at 0;
  if bool_decide (e1 ≠ None ∨ b0 ≠ Byte.x05) then return_ else
  b1 ← buf_at 1;
  e2 ← read_other (byte_len b1);
  if bool_decide (e2 ≠ None) then return_ else
  user ← socks5_auth auth bcrypt;
  e3 ← read_full 4;
  if bool_decide (e3 ≠ None) then return_ else
  let '(limiter, lm') := Rate.GetOrCreate user lm in
  cmd ← buf_at 1;
  if bool_decide (cmd = Byte.x01) then
    at_ ← buf_at 3; s ← handleConnect e at_ user limiter; mret (Connected s, lm')
  else if bool_decide (cmd = Byte.x03) then
    _ ← handleUDPAssociate udp_port; mret (Associated user limiter, lm')
  else _ ← write (socks5_reply Byte.x07); return_.

(** ** Forwarders: [tcp_forward.go], [redirect.go], [tproxy_linux.go] *)

(** The sniffed domain, if any, with the port of the configured target. *)
Definition retarget (target : bytes) (r : option SniffedResult) : bytes :=
  match r with
  | Some r => if negb (bool_decide (Domain r = [])) then JoinHostPort (Domain r) (port_of target) else target
  | None => target
  end.

(** Route, dial and relay, with nothing said to the client on failure. *)
Definition open_session (e : env) (meta : SessionMeta) (user : bytes) (cl : client) : Conn session :=
  out ← lift_res (Route (e_order e) (e_router e) meta);
  c ← lift_res (e_dial e out meta);
  mret {| s_meta := meta; s_out := out; s_conn := c; s_client := cl; s_user := user; s_limiter := None; s_quota := false |}.

Definition tcp_forward_handle (targetAddr : bytes) (e : env) : Conn session :=
  '(r, cl) ← sniff;
  let target := retarget targetAddr r in
  open_session e (new_meta e target [] [target]) "anonymous" cl.

(** [dst] is the result of [getOriginalDst]. *)
Definition redirect_handle (dst : res bytes) (e : env) : Conn session :=
  target ← lift_res dst;
  '(r, cl) ← sniff;
  open_session e (new_meta e (retarget target r) [] []) "transparent" cl.

(** [local] is the printed local address of the connection. *)
Definition tproxy_handle (local : bytes) (e : env) : Conn session :=
  '(r, cl) ← sniff;
  open_session e (new_meta e (retarget local r) [] []) "tproxy" cl.

(** ** Balancing: [tcp_balance.go] *)

Record targetStatus := { t_outbound : Out; t_score : float64; t_updated : Z }.

Record TCPBalanceHandler := {
  targets : list bytes;
  counter : Z;
  targetStatuses : gmap bytes targetStatus }.

Definition NewTCPBalanceHandler (ts : list bytes) : TCPBalanceHandler :=
  {| targets := ts; counter := 0; targetStatuses := ∅ |}.

(** One round of [healthCheckLoop]. *)
Definition balance_check (router : BaseRouter Out) (order : list Out) (now : Z) (h : TCPBalanceHandler) :
  res TCPBalanceHandler :=
  fold_left (λ acc target,
    let! h := acc in
    match Route order router (with_Target zeroMeta target) with
    | Panic => Panic
    | Fail _ => Ok h
    | Ok out =>
        Ok {| targets := targets h; counter := counter h;
              targetStatuses := <[target := {| t_outbound := out; t_score := HealthCheck out; t_updated := now |}]>
                                  (targetStatuses h) |}
    end) (targets h) (Ok h).

(** The scan of the statuses in the order [statuses]. *)
Definition best_step (acc : option (bytes * Out) * float64) (ts : bytes * targetStatus) : option (bytes * Out) * float64 :=
  let '(best, maxScore) := acc in
  if f64_lt maxScore (t_score ts.2) then (Some (ts.1, t_outbound ts.2), t_score ts.2) else (best, maxScore).

Definition f64_tenth : float64 := f64_div (f64 1) (f64 10).

(** The choice of [handle]: the best status, or the next target in turn. *)
Definition balance_pick (router : BaseRouter Out) (order : list Out) (statuses : list (bytes * targetStatus))
    (h : TCPBalanceHandler) : res (option (bytes * Out)) * TCPBalanceHandler :=
  let '(best, maxScore) := fold_left best_step statuses (None, f64 (-1)) in
  if f64_lt maxScore f64_tenth then
    let c := u64 (counter h + 1) in
    let h' := {| targets := targets h; counter := c; targetStatuses := targetStatuses h |} in
    if bool_decide (targets h = []) then (Panic, h')
    else
      let target := nth (Z.to_nat (c mod Z.of_nat (length (targets h)))) (targets h) [] in
      (match Route order router (with_Target zeroMeta target) with
       | Panic => Panic
       | Fail _ => Ok None
       | Ok out => Ok (Some (target, out))
       end, h')
  else (Ok best, h).

Definition balance_handle (statuses : list (bytes * targetStatus)) (h : TCPBalanceHandler) (e : env) :
  Conn session * TCPBalanceHandler :=
  let '(pick, h') := balance_pick (e_router e) (e_order e) statuses h in
  ('(r, cl) ← sniff;
   p ← lift_res pick;
   match p with
   | None => return_
   | Some (best, out) =>
       let meta := {| ID := e_uuid e; TraceID := []; UserID := []; Source := Some (e_remote e); Target := retarget best r;
                      Network := "tcp"; HopChain := []; RouteTags := ∅; CreatedAt := 0 |} in
       c ← lift_res (e_dial e out meta);
       mret {| s_meta := meta; s_out := out; s_conn := c; s_client := cl; s_user := "anonymous"; s_limiter := None;
               s_quota := false |}
   end, h').

End handlers.
Arguments targetStatus Out : clear implicits.
Arguments TCPBalanceHandler Out : clear implicits.
Arguments env Out C : clear implicits.
Arguments session Out C : clear implicits.
Arguments socks5_result Out C : clear implicits.

(** A client: its stream and an open sending side. *)
Definition start_conn (s : stream) : conn_state := {| c_in := s; c_out := open_sink; c_buf := [] |}.

Module InboundThms.

(** ** Running the monad *)

Lemma bind_ok {A B} (m : Conn A) (k : A → Conn B) st a st1 : m st = (Cont a, st1) → (m ≫= k) st = k a st1.
Proof. intros E. unfold mbind, conn_bind. by rewrite E. Qed.

Lemma bind_Cont {A B} (m : Conn A) (k : A → Conn B) st b st' :
  (m ≫= k) st = (Cont b, st') → ∃ a st1, m st = (Cont a, st1) ∧ k a st1 = (Cont b, st').
Proof. unfold mbind, conn_bind. destruct (m st) as [[a| |] st1]; naive_solver. Qed.

(** Take a successful run apart, one call at a time. *)
Ltac run_inv H :=
  lazymatch type of H with
  | (_ ≫= _) _ = (Cont _, _) =>
      let a := fresh "a" in let st := fresh "st" in let E := fresh "E" in
      apply bind_Cont in H as (a & st & E & H); cbn beta in H
  end.

(** ** No panics *)

(** A computation that keeps the buffer and does not crash. *)
Definition safe {A} (m : Conn A) : Prop :=
  ∀ st, length (c_buf st) = 256%nat → (m st).1 ≠ Crash ∧ length (c_buf (m st).2) = 256%nat.

Lemma safe_bind {A B} (m : Conn A) (k : A → Conn B) : safe m → (∀ a, safe (k a)) → safe (m ≫= k).
Proof.
  intros Hm Hk st Hst. unfold mbind, conn_bind. destruct (Hm st Hst) as [Hc Hl].
  destruct (m st) as [[a| |] st1]; cbn in *; [by apply Hk|done|done].
Qed.

Lemma safe_bind_buf_to {B} n (k : bytes → Conn B) :
  (n ≤ 256)%nat → (∀ a, length a = n → safe (k a)) → safe (buf_to n ≫= k).
Proof.
  intros Hn Hk st Hst. unfold mbind, conn_bind, buf_to, lift_res. rewrite slice_ok by lia.
  apply Hk; [|done]. rewrite Nat.sub_0_r, drop_0, length_take. lia.
Qed.

Lemma safe_run {A} (m : Conn A) st : safe m → length (c_buf st) = 256%nat → (m st).1 ≠ Crash.
Proof. intros Hm Hst. by apply Hm. Qed.

Lemma safe_ret {A} (a : A) : safe (mret a).
Proof. by intros st Hst. Qed.

Lemma safe_return {A} : safe (return_ (A := A)).
Proof. by intros st Hst. Qed.

Lemma safe_write b : safe (write b).
Proof. by intros st Hst. Qed.

Lemma length_copy_into dst src : length (copy_into dst src) = length dst.
Proof. unfold copy_into. rewrite length_app, length_take, length_drop. lia. Qed.

Lemma safe_read_full n : (n ≤ 256)%nat → safe (read_full n).
Proof.
  intros Hn st Hst. unfold read_full. rewrite bool_decide_true by lia.
  destruct (io_ReadFull n (c_in st)) as [[got e] s']. cbn. by rewrite length_copy_into.
Qed.

Lemma safe_read_other n : safe (read_other n).
Proof. intros st Hst. unfold read_other. by destruct (io_ReadFull n (c_in st)) as [[got e] s']. Qed.

Lemma safe_buf_at i : (i < 256)%nat → safe (buf_at i).
Proof.
  intros Hi st Hst. unfold buf_at. destruct (index_ok (c_buf st) i) as (x & -> & _); [lia|]. done.
Qed.

Lemma safe_buf_to n : (n ≤ 256)%nat → safe (buf_to n).
Proof. intros Hn st Hst. unfold buf_to. by rewrite slice_ok by lia. Qed.

Lemma safe_sniff : safe sniff.
Proof.
  intros st Hst. unfold sniff. destruct (SnifferThms.SniffConn_safe (c_in st)) as (o & br & -> & _). done.
Qed.

Lemma safe_raw : safe raw.
Proof. by intros st Hst. Qed.

Lemma byte_len_le b : (byte_len b ≤ 256)%nat.
Proof. unfold byte_len. pose proof (b2z_range b). lia. Qed.

Create HintDb conn_safe.
#[export] Hint Resolve safe_ret safe_return safe_write safe_read_other safe_sniff safe_raw byte_len_le : conn_safe.

Ltac solve_safe :=
  repeat first
    [ progress auto with conn_safe
    | apply safe_read_full | apply safe_buf_at | apply safe_buf_to | lia
    | apply safe_bind; [|intros ?]
    | match goal with |- safe (if ?b then _ else _) => destruct b end ].

Section thms.
Context `{OutboundHandler Out} {C : Type}.

Lemma safe_socks5_auth auth bcrypt : safe (socks5_auth auth bcrypt).
Proof. unfold socks5_auth. solve_safe. Qed.

Lemma safe_read_host at_ : safe (read_host at_).
Proof. unfold read_host. solve_safe. Qed.

Lemma safe_handleConnect (e : env Out C) at_ user l :
  (∀ meta, Route (e_order e) (e_router e) meta ≠ Panic) → (∀ out meta, e_dial e out meta ≠ Panic) →
  safe (handleConnect e at_ user l).
Proof.
  intros Hr Hd. unfold handleConnect. apply safe_bind; [by intros st _|intros _].
  apply safe_bind; [apply safe_read_host|intros host]. apply safe_bind; [solve_safe|intros _].
  apply safe_bind_buf_to; [lia|intros pb _]. set (meta := new_meta _ _ _ _). specialize (Hr meta).
  destruct (Route _ _ _) as [out| |]; [|solve_safe|done]. specialize (Hd out meta).
  destruct (e_dial e out meta) as [c| |]; [|solve_safe|done]. unfold fmap, conn_fmap. solve_safe.
Qed.

Lemma safe_handleConnection auth bcrypt lm port (e : env Out C) :
  (∀ meta, Route (e_order e) (e_router e) meta ≠ Panic) → (∀ out meta, e_dial e out meta ≠ Panic) →
  ∀ st, (handleConnection auth bcrypt lm port e st).1 ≠ Crash.
Proof.
  intros Hr Hd st. unfold handleConnection. rewrite (bind_ok make_buf _ st () _ eq_refl).
  apply safe_run; [|reflexivity].
  do 2 (apply safe_bind; [solve_safe|intros ?]). case_bool_decide; [solve_safe|].
  do 2 (apply safe_bind; [solve_safe|intros ?]). case_bool_decide; [solve_safe|].
  apply safe_bind; [apply safe_socks5_auth|intros user]. apply safe_bind; [solve_safe|intros ?].
  case_bool_decide; [solve_safe|]. destruct (Rate.GetOrCreate user lm) as [l lm'].
  apply safe_bind; [solve_safe|intros cmd]. case_bool_decide.
  - apply safe_bind; [solve_safe|intros ?]. apply safe_bind; [by apply safe_handleConnect|intros ?]. solve_safe.
  - case_bool_decide; [|solve_safe]. unfold handleUDPAssociate. destruct port; solve_safe.
Qed.

(** ** Authentication *)

(** A read of a connection whose errors are final: when anything follows it,
    the buffer holds the bytes that came. *)
Lemma read_full_inv n st e st' :
  steady (c_in st) → read_full n st = (Cont e, st') →
  steady (c_in st') ∧ (e = None ∨ stream_bytes (c_in st') ≠ [] →
    stream_bytes (c_in st) = take n (c_buf st') ++ stream_bytes (c_in st') ∧ length (take n (c_buf st')) = n).
Proof.
  intros Hs. unfold read_full. case_bool_decide as Hn; [|done].
  destruct (io_ReadFull n (c_in st)) as [[got e1] s'] eqn:E. intros [= <- <-]. cbn [c_in c_buf].
  assert (rd_ok (c_in st)) as Hok by exact Hs. destruct (io_ReadFull_inv n (c_in st) _ _ _ Hok E) as (Hs' & Hb & Hl). split; [done|]. intros Hne.
  assert (length got = n) as Hg by (destruct e1; [by destruct Hne|done]).
  unfold copy_into. rewrite (take_ge got) by lia. rewrite <-Hg, take_app_length. done.
Qed.

Lemma buf_at_inv i st b st' : buf_at i st = (Cont b, st') → st' = st ∧ c_buf st !! i = Some b.
Proof. unfold buf_at, index. destruct (c_buf st !! i); intros E; by simplify_eq/=. Qed.

Lemma buf_to_inv n st bs st' : buf_to n st = (Cont bs, st') → st' = st ∧ bs = take n (c_buf st).
Proof.
  unfold buf_to, slice. case_bool_decide; intros E; simplify_eq/=. by rewrite Nat.sub_0_r.
Qed.

Lemma z2b_byte_len b : z2b (Z.of_nat (byte_len b)) = b.
Proof. unfold byte_len. pose proof (b2z_range b). rewrite Z2Nat.id by lia. apply z2b_b2z. Qed.

Lemma take_1 (l : bytes) b : l !! 0%nat = Some b → take 1 l = [b].
Proof. by destruct l; intros E; simplify_eq/=. Qed.

Lemma take_2 (l : bytes) b c : l !! 0%nat = Some b → l !! 1%nat = Some c → take 2 l = [b; c].
Proof. by destruct l as [|? [|]]; intros E E'; simplify_eq/=. Qed.

(** The user whose name and password came over the connection. *)
Lemma socks5_auth_sound auth bcrypt st user st' :
  Enabled auth = true → socks5_auth auth bcrypt st = (Cont user, st') →
  ∃ u password, u ∈ Users auth ∧ Username u = user ∧ bcrypt (Password u) password = true ∧
    (steady (c_in st) → steady (c_in st') ∧ (stream_bytes (c_in st') ≠ [] →
       stream_bytes (c_in st) = [Byte.x01; z2b (Z.of_nat (length user))] ++ user ++
                                [z2b (Z.of_nat (length password))] ++ password ++ stream_bytes (c_in st'))).
Proof.
  intros Hen. unfold socks5_auth. rewrite Hen. intros Hrun. do 3 run_inv Hrun. case_bool_decide as H1; [done|].
  do 7 run_inv Hrun. destruct (check_users _ _ _ _) eqn:Ec; [|run_inv Hrun; done].
  run_inv Hrun. injection Hrun as <- <-. unfold check_users in Ec. apply existsb_exists in Ec as (u & Hu & Hc).
  apply andb_true_iff in Hc as [Hn Hp]. apply bool_decide_eq_true in Hn.
  exists u, a8. split; [by apply list_elem_of_In|]. do 2 (split; [done|]). intros Hs.
  assert (a0 = None ∧ a1 = Byte.x01) as [-> ->] by (split; apply dec_stable; tauto).
  injection E as _ <-. injection E9 as _ <-. cbn [c_in].
  apply buf_at_inv in E1 as [-> B0]. apply buf_at_inv in E2 as [-> B1]. apply buf_to_inv in E4 as [-> ->].
  apply buf_at_inv in E6 as [-> B2]. apply buf_to_inv in E8 as [-> ->].
  apply read_full_inv in E0 as (S0 & R0); [|exact Hs]. destruct (read_full_inv _ _ _ _ S0 E3) as (S3 & R3).
  destruct (read_full_inv _ _ _ _ S3 E5) as (S5 & R5). destruct (read_full_inv _ _ _ _ S5 E7) as (S7 & R7).
  split; [exact S7|]. intros Hne. destruct R7 as [Eq7 L7]; [by right|]. destruct R0 as [Eq0 _]; [by left|].
  destruct R5 as [Eq5 _]; [right; rewrite Eq7; by intros [_ ?]%app_nil|].
  rewrite (take_1 _ _ B2) in Eq5. destruct R3 as [Eq3 L3]; [right; by rewrite Eq5|].
  rewrite (take_2 _ _ _ B0 B1) in Eq0. cbn [c_in] in Eq0. rewrite L3, L7, !z2b_byte_len.
  by rewrite Eq0, Eq3, Eq5, Eq7.
Qed.

Lemma handleConnect_Cont (e : env Out C) at_ user l st s st' :
  handleConnect e at_ user l st = (Cont s, st') →
  s_user s = user ∧ s_limiter s = l ∧ s_quota s = true ∧ UserID (s_meta s) = user ∧
  HopChain (s_meta s) = [Target (s_meta s)] ∧ Route (e_order e) (e_router e) (s_meta s) = Ok (s_out s) ∧
  e_dial e (s_out s) (s_meta s) = Ok (s_conn s).
Proof.
  unfold handleConnect. intros Hrun. do 4 run_inv Hrun. set (meta := new_meta _ _ _ _) in *.
  destruct (Route _ _ _) as [out| |] eqn:Er; [|by run_inv Hrun|done].
  destruct (e_dial e out meta) as [c| |] eqn:Ed; [|by run_inv Hrun|done].
  do 2 run_inv Hrun. injection Hrun as <- <-. done.
Qed.

Definition user_of (r : socks5_result Out C) : bytes :=
  match r with Connected s => s_user s | Associated user _ => user end.

Lemma handleConnection_user auth bcrypt lm lm' port (e : env Out C) s r st' :
  Enabled auth = true → handleConnection auth bcrypt lm port e (start_conn s) = (Cont (r, lm'), st') →
  ∃ u password, u ∈ Users auth ∧ Username u = user_of r ∧ bcrypt (Password u) password = true ∧
    (steady s → ∃ methods rest,
       stream_bytes s = [Byte.x05; z2b (Z.of_nat (length methods))] ++ methods ++
                        [Byte.x01; z2b (Z.of_nat (length (user_of r)))] ++ user_of r ++
                        [z2b (Z.of_nat (length password))] ++ password ++ rest) ∧
    match r with
    | Connected sess =>
        UserID (s_meta sess) = user_of r ∧ (s_limiter sess, lm') = Rate.GetOrCreate (user_of r) lm ∧
        s_quota sess = true ∧ Route (e_order e) (e_router e) (s_meta sess) = Ok (s_out sess)
    | Associated user l => (l, lm') = Rate.GetOrCreate user lm
    end.
Proof.
  intros Hen Hrun. unfold handleConnection in Hrun. do 3 run_inv Hrun. case_bool_decide as H1; [done|].
  do 2 run_inv Hrun. case_bool_decide as H2; [done|]. run_inv Hrun.
  apply socks5_auth_sound in E4 as (u & password & Hin & Hname & Hpass & Hbytes); [|done].
  run_inv Hrun. case_bool_decide as H3; [done|]. destruct (Rate.GetOrCreate a4 lm) as [l lm1] eqn:Eg.
  assert (steady s → ∃ methods rest,
    stream_bytes s = [Byte.x05; z2b (Z.of_nat (length methods))] ++ methods ++ [Byte.x01; z2b (Z.of_nat (length a4))] ++ a4 ++
                     [z2b (Z.of_nat (length password))] ++ password ++ rest) as Hwire.
  { intros Hs. injection E as _ <-. assert (a0 = None ∧ a1 = Byte.x05) as [-> ->] by (split; apply dec_stable; tauto).
    rewrite H2 in E3. rewrite H3 in E4.
    apply buf_at_inv in E1 as [-> B0]. apply buf_at_inv in E2 as [-> B1].
    apply read_full_inv in E0 as [S0 R0]; [|exact Hs]. destruct R0 as [Eq0 _]; [by left|]. rewrite (take_2 _ _ _ B0 B1) in Eq0.
    unfold read_other in E3. destruct (io_ReadFull _ _) as [[methods e2] s2] eqn:Er. injection E3 as -> <-.
    assert (rd_ok (c_in st0)) as Hok1 by exact S0.
    destruct (io_ReadFull_inv (byte_len a2) (c_in st0) _ _ _ Hok1 Er) as (S2 & Eq2 & L2).
    change (stream_bytes (c_in st0) = methods ++ stream_bytes s2) in Eq2. destruct (Hbytes S2) as [S4 Eq4].
    destruct (read_full_inv _ _ _ _ S4 E4) as [_ R5]. destruct R5 as [Eq5 L5]; [by left|].
    exists methods, (stream_bytes (c_in st4)). rewrite L2, z2b_byte_len. cbn [start_conn c_in] in Eq0. rewrite Eq0, Eq2.
    cbn [c_in] in Eq4. rewrite Eq4; [done|]. intros Hnil. rewrite Hnil in Eq5. by destruct (take 4 _). }
  exists u, password. split; [done|]. run_inv Hrun. case_bool_decide.
  - do 2 run_inv Hrun. apply handleConnect_Cont in E7 as (Hu & Hl & Hq & Hid & _ & Hr & _).
    injection Hrun as <- <- <-. cbn [user_of]. rewrite Hu, Hl, Eg. done.
  - case_bool_decide; [|by run_inv Hrun]. run_inv Hrun. injection Hrun as <- <- <-. cbn [user_of]. by rewrite Eg.
Qed.

(** C8: SOCKS5 authentication cannot be bypassed.  With authentication on,
    whatever a client sends, in whatever segments and cut off wherever, a
    session starts only for a user of the configuration whose password hash
    accepted the password received: on a connection whose errors are final,
    the name and the password are the ones in the client's bytes, behind the
    greeting and with their length bytes.  A CONNECT session carries that user's
    name in its metadata, has that user's shared limiter and the quota, and
    goes to the outbound the router chose for it. *)
Theorem socks5_authenticated (auth : AuthConfig) (bcrypt : bytes → bytes → bool) (lm lm' : Rate.LimiterManager)
    (port : option Z) (e : env Out C) (s : stream) (r : socks5_result Out C) (st' : conn_state) :
  Enabled auth = true → handleConnection auth bcrypt lm port e (start_conn s) = (Cont (r, lm'), st') →
  (∃ u password, u ∈ Users auth ∧ Username u = user_of r ∧ bcrypt (Password u) password = true ∧
     (steady s → ∃ methods rest,
        stream_bytes s = [Byte.x05; z2b (Z.of_nat (length methods))] ++ methods ++
                         [Byte.x01; z2b (Z.of_nat (length (user_of r)))] ++ user_of r ++
                         [z2b (Z.of_nat (length password))] ++ password ++ rest)) ∧
  match r with
  | Connected sess =>
      UserID (s_meta sess) = user_of r ∧ (s_limiter sess, lm') = Rate.GetOrCreate (user_of r) lm ∧
      s_quota sess = true ∧ Route (e_order e) (e_router e) (s_meta sess) = Ok (s_out sess)
  | Associated user l => (l, lm') = Rate.GetOrCreate user lm
  end.
Proof.
  intros Hen Hrun. destruct (handleConnection_user _ _ _ _ _ _ _ _ _ Hen Hrun) as (u & password & Hu & Hp & Hn & Hs & Hr).
  split; [by exists u, password|exact Hr].
Qed.

(** ** A client that follows the protocol *)

(** The state between two reads: what is still to come and what has been
    sent. *)
Definition at_point (st : conn_state) (rest : bytes) (sent : list bytes) : Prop :=
  steady (c_in st) ∧ stream_bytes (c_in st) = rest ∧ length (c_buf st) = 256%nat ∧
  c_out st = {| written := sent; budget := None |}.

Lemma read_full_ok a rest st sent :
  at_point st (a ++ rest) sent → (length a ≤ 256)%nat →
  ∃ st', read_full (length a) st = (Cont None, st') ∧ at_point st' rest sent ∧ take (length a) (c_buf st') = a.
Proof.
  intros (Hs & Hb & Hl & Ho) Ha. assert (rd_ok (c_in st)) as Hok by exact Hs.
  destruct (io_ReadFull_app (c_in st) a rest Hok Hb) as (s' & E & Hok' & Hb' & _).
  unfold read_full. rewrite bool_decide_true, E by lia. eexists. split; [done|].
  assert (copy_into (c_buf st) a = a ++ drop (length a) (c_buf st)) as Ec by (unfold copy_into; by rewrite take_ge by lia).
  split; [|cbn; by rewrite Ec, take_app_length]. repeat split; try done. cbn. by rewrite length_copy_into.
Qed.

Lemma read_other_ok a rest st sent :
  at_point st (a ++ rest) sent → ∃ st', read_other (length a) st = (Cont None, st') ∧ at_point st' rest sent.
Proof.
  intros (Hs & Hb & Hl & Ho). assert (rd_ok (c_in st)) as Hok by exact Hs.
  destruct (io_ReadFull_app (c_in st) a rest Hok Hb) as (s' & E & Hok' & Hb' & _).
  unfold read_other. rewrite E. eexists. split; [done|]. done.
Qed.

Lemma write_ok b st rest sent :
  at_point st rest sent → ∃ st', write b st = (Cont (), st') ∧ at_point st' rest (sent ++ [b]).
Proof.
  intros (Hs & Hb & Hl & Ho). eexists. split; [done|]. repeat split; try done. cbn. by rewrite Ho.
Qed.

Lemma buf_at_ok st a i x : take (length a) (c_buf st) = a → a !! i = Some x → buf_at i st = (Cont x, st).
Proof.
  intros Ht Hx. unfold buf_at, index.
  assert (c_buf st !! i = Some x) as ->; [|done]. rewrite <-Ht in Hx. by apply lookup_take_Some in Hx as [? _].
Qed.

Lemma buf_to_ok st a : (length a ≤ length (c_buf st))%nat → take (length a) (c_buf st) = a → buf_to (length a) st = (Cont a, st).
Proof.
  intros Hl Ht. unfold buf_to. rewrite slice_ok by lia. by rewrite Nat.sub_0_r, drop_0, Ht.
Qed.

(** A read followed by the use of its bytes. *)
Lemma read_get n a rest st sent :
  at_point st (a ++ rest) sent → length a = n → (n ≤ 256)%nat →
  ∃ st', (∀ B (k : bytes → Conn B), (_ ← read_full n; x ← buf_to n; k x) st = k a st') ∧ at_point st' rest sent.
Proof.
  intros Hp <- Hn. destruct (read_full_ok a rest st sent Hp Hn) as (st' & E & Hp' & Ht). exists st'.
  split; [|done]. intros B k.
  rewrite (bind_ok _ _ _ _ _ E). rewrite (bind_ok _ _ _ _ _ (buf_to_ok st' a ltac:(destruct Hp' as (_ & _ & -> & _); lia) Ht)).
  done.
Qed.

(** A read of two bytes that are then looked at. *)
Lemma read_two x y rest st sent :
  at_point st (x :: y :: rest) sent →
  ∃ st', (∀ B (k : option goerr → byte → Conn B), (e ← read_full 2; b0 ← buf_at 0; k e b0) st = k None x st') ∧
    at_point st' rest sent ∧ buf_at 1 st' = (Cont y, st').
Proof.
  intros Hp. destruct (read_full_ok [x; y] rest st sent Hp) as (st' & E & Hp' & Ht); [cbn; lia|]. exists st'.
  split; [intros B k; cbn [length] in E; by rewrite (bind_ok _ _ _ _ _ E), (bind_ok _ _ _ _ _ (buf_at_ok st' [x; y] 0 x Ht eq_refl))|].
  split; [done|]. by apply (buf_at_ok st' [x; y]).
Qed.

Lemma read_one x rest st sent :
  at_point st (x :: rest) sent →
  ∃ st', (∀ B (k : byte → Conn B), (_ ← read_full 1; b ← buf_at 0; k b) st = k x st') ∧ at_point st' rest sent.
Proof.
  intros Hp. destruct (read_full_ok [x] rest st sent Hp) as (st' & E & Hp' & Ht); [cbn; lia|]. exists st'.
  split; [|done]. intros B k. cbn [length] in E.
  by rewrite (bind_ok _ _ _ _ _ E), (bind_ok _ _ _ _ _ (buf_at_ok st' [x] 0 x Ht eq_refl)).
Qed.

Definition len_byte (b : bytes) : byte := z2b (Z.of_nat (length b)).

Lemma byte_len_len b : (length b ≤ 255)%nat → byte_len (len_byte b) = length b.
Proof. intros Hl. unfold byte_len, len_byte. rewrite b2z_z2b, Z.mod_small by lia. lia. Qed.

(** The client's part of the authentication, and the server's. *)
Definition client_auth (auth : AuthConfig) (user pass : bytes) : bytes :=
  if Enabled auth then Byte.x01 :: len_byte user :: user ++ len_byte pass :: pass else [].

Definition server_auth (auth : AuthConfig) (ok : bool) : list bytes :=
  if Enabled auth then [[Byte.x05; Byte.x02]; [Byte.x01; if ok then Byte.x00 else Byte.x01]] else [[Byte.x05; Byte.x00]].

Definition auth_name (auth : AuthConfig) (user : bytes) : bytes := if Enabled auth then user else ("anonymous" : bytes).

Lemma socks5_auth_run auth bcrypt user pass rest st sent :
  at_point st (client_auth auth user pass ++ rest) sent → (length user ≤ 255)%nat → (length pass ≤ 255)%nat →
  let ok := negb (Enabled auth) || check_users bcrypt (Users auth) user pass in
  ∃ st', at_point st' rest (sent ++ server_auth auth ok) ∧
    socks5_auth auth bcrypt st = (if ok then Cont (auth_name auth user) else Return, st').
Proof.
  unfold client_auth, server_auth, socks5_auth, auth_name. intros Hp Hu Hw. destruct (Enabled auth); cbn [negb orb].
  - destruct (write_ok [Byte.x05; Byte.x02] _ _ _ Hp) as (st1 & E1 & Hp1). rewrite (bind_ok _ _ _ _ _ E1).
    rewrite <-!app_comm_cons, <-app_assoc, <-app_comm_cons in Hp1.
    destruct (read_two _ _ _ _ _ Hp1) as (st2 & R2 & Hp2 & E2). rewrite R2.
    rewrite bool_decide_false by naive_solver. rewrite (bind_ok _ _ _ _ _ E2), byte_len_len by done.
    destruct (read_get _ _ _ _ _ Hp2 eq_refl ltac:(lia)) as (st3 & R3 & Hp3). rewrite R3.
    destruct (read_one _ _ _ _ Hp3) as (st4 & R4 & Hp4). rewrite R4. rewrite byte_len_len by done.
    destruct (read_get _ _ _ _ _ Hp4 eq_refl ltac:(lia)) as (st5 & R5 & Hp5). rewrite R5.
    destruct (check_users bcrypt (Users auth) user pass).
    + destruct (write_ok [Byte.x01; Byte.x00] _ _ _ Hp5) as (st6 & E6 & Hp6). exists st6.
      rewrite (bind_ok _ _ _ _ _ E6). by rewrite <-app_assoc in Hp6.
    + destruct (write_ok [Byte.x01; Byte.x01] _ _ _ Hp5) as (st6 & E6 & Hp6). exists st6.
      rewrite (bind_ok _ _ _ _ _ E6). by rewrite <-app_assoc in Hp6.
  - destruct (write_ok [Byte.x05; Byte.x00] _ _ _ Hp) as (st1 & E1 & Hp1). exists st1.
    by rewrite (bind_ok _ _ _ _ _ E1).
Qed.

(** An address as RFC 1928 encodes it. *)
Inductive socks_addr := AddrV4 (ip : bytes) | AddrName (name : bytes) | AddrV6 (ip : bytes).

Definition addr_ok (a : socks_addr) : Prop :=
  match a with AddrV4 ip => length ip = 4%nat | AddrName n => (length n ≤ 255)%nat | AddrV6 ip => length ip = 16%nat end.

Definition addr_type (a : socks_addr) : byte :=
  match a with AddrV4 _ => Byte.x01 | AddrName _ => Byte.x03 | AddrV6 _ => Byte.x04 end.

Definition addr_body (a : socks_addr) : bytes :=
  match a with AddrV4 ip => ip | AddrName n => len_byte n :: n | AddrV6 ip => ip end.

Definition addr_host (a : socks_addr) : bytes :=
  match a with AddrV4 ip => IPString ip | AddrName n => n | AddrV6 ip => IPString ip end.

Lemma read_host_run a rest st sent :
  at_point st (addr_body a ++ rest) sent → addr_ok a →
  ∃ st', read_host (addr_type a) st = (Cont (addr_host a), st') ∧ at_point st' rest sent.
Proof.
  intros Hp Ha. unfold read_host. destruct a as [ip|n|ip]; cbn [addr_type addr_body addr_host addr_ok] in *.
  - rewrite bool_decide_true by done. destruct (read_get _ _ _ _ _ Hp Ha ltac:(lia)) as (st1 & R1 & Hp1). rewrite R1. eauto.
  - rewrite bool_decide_false, bool_decide_true by done. rewrite <-app_comm_cons in Hp.
    destruct (read_one _ _ _ _ Hp) as (st1 & R1 & Hp1). rewrite R1, byte_len_len by done.
    destruct (read_get _ _ _ _ _ Hp1 eq_refl ltac:(lia)) as (st2 & R2 & Hp2). exists st2.
    split; [|done]. etransitivity; [|exact (R2 _ mret)]. unfold mbind, conn_bind, mret, conn_ret.
    destruct (read_full (length n) st1) as [[e| |] st3]; try done. by destruct (buf_to (length n) st3) as [[x| |] st4].
  - rewrite !bool_decide_false, bool_decide_true by done.
    destruct (read_get _ _ _ _ _ Hp Ha ltac:(lia)) as (st1 & R1 & Hp1). rewrite R1. eauto.
Qed.

(** What a client sends: the offered methods, the credentials if they are
    asked for, the request and then its own data. *)
Definition socks5_client (auth : AuthConfig) (methods user pass : bytes) (cmd : byte) (a : socks_addr) (port : Z)
    (payload : bytes) : bytes :=
  Byte.x05 :: len_byte methods :: methods ++ client_auth auth user pass ++
  [Byte.x05; cmd; Byte.x00; addr_type a] ++ addr_body a ++ be_put 2 port ++ payload.

(** The handshake up to the command. *)
Lemma handshake_run auth bcrypt lm uport (e : env Out C) s methods user pass cmd a port payload :
  steady s → stream_bytes s = socks5_client auth methods user pass cmd a port payload →
  (length methods ≤ 255)%nat → (length user ≤ 255)%nat → (length pass ≤ 255)%nat →
  let ok := negb (Enabled auth) || check_users bcrypt (Users auth) user pass in
  ∃ st', at_point st' (if ok then addr_body a ++ be_put 2 port ++ payload
                       else [Byte.x05; cmd; Byte.x00; addr_type a] ++ addr_body a ++ be_put 2 port ++ payload)
           (server_auth auth ok) ∧
    handleConnection auth bcrypt lm uport e (start_conn s) =
    if ok then
      let '(limiter, lm') := Rate.GetOrCreate (auth_name auth user) lm in
      (if bool_decide (cmd = Byte.x01) then
         s ← handleConnect e (addr_type a) (auth_name auth user) limiter; mret (Connected s, lm')
       else if bool_decide (cmd = Byte.x03) then
         _ ← handleUDPAssociate uport; mret (Associated (auth_name auth user) limiter, lm')
       else _ ← write (socks5_reply Byte.x07); return_) st'
    else (Return, st').
Proof.
  intros Hs Hb Hm Hu Hw ok. unfold handleConnection. rewrite (bind_ok make_buf _ _ () _ eq_refl).
  assert (at_point {| c_in := s; c_out := open_sink; c_buf := replicate 256 Byte.x00 |}
            (socks5_client auth methods user pass cmd a port payload) []) as Hp0 by done.
  unfold socks5_client in Hp0. change (c_in (start_conn s)) with s. change (c_out (start_conn s)) with open_sink.
  destruct (read_two _ _ _ _ _ Hp0) as (st1 & R1 & Hp1 & E1). rewrite R1.
  rewrite bool_decide_false by naive_solver. rewrite (bind_ok _ _ _ _ _ E1), byte_len_len by done.
  destruct (read_other_ok _ _ _ _ Hp1) as (st2 & E2 & Hp2). rewrite (bind_ok _ _ _ _ _ E2).
  rewrite bool_decide_false by naive_solver.
  destruct (socks5_auth_run auth bcrypt user pass _ _ _ Hp2 Hu Hw) as (st3 & Hp3 & E3). fold ok in Hp3, E3.
  destruct ok.
  - rewrite (bind_ok _ _ _ _ _ E3). cbn [app] in Hp3.
    destruct (read_full_ok [Byte.x05; cmd; Byte.x00; addr_type a] _ _ _ Hp3) as (st4 & E4 & Hp4 & Ht); [cbn; lia|].
    cbn [length] in E4. rewrite (bind_ok _ _ _ _ _ E4). rewrite bool_decide_false by naive_solver. exists st4.
    split; [exact Hp4|]. destruct (Rate.GetOrCreate _ lm) as [l lm'].
    rewrite (bind_ok _ _ _ _ _ (buf_at_ok st4 _ 1 cmd Ht eq_refl)). case_bool_decide; [|done].
    by rewrite (bind_ok _ _ _ _ _ (buf_at_ok st4 _ 3 (addr_type a) Ht eq_refl)).
  - exists st3. split; [exact Hp3|]. unfold mbind at 1, conn_bind at 1. by rewrite E3.
Qed.

Lemma handleConnect_run (e : env Out C) a user l port payload st sent :
  at_point st (addr_body a ++ be_put 2 port ++ payload) sent → addr_ok a → 0 ≤ port < 65536 →
  let meta := new_meta e (JoinHostPort (addr_host a) (Itoa port)) user [JoinHostPort (addr_host a) (Itoa port)] in
  match Route (e_order e) (e_router e) meta with
  | Panic => True
  | Fail _ => ∃ st', handleConnect e (addr_type a) user l st = (Return, st') ∧ at_point st' payload (sent ++ [socks5_reply Byte.x04])
  | Ok out =>
      match e_dial e out meta with
      | Panic => True
      | Fail _ => ∃ st', handleConnect e (addr_type a) user l st = (Return, st') ∧ at_point st' payload (sent ++ [socks5_reply Byte.x05])
      | Ok c => ∃ st' cl, handleConnect e (addr_type a) user l st =
            (Cont {| s_meta := meta; s_out := out; s_conn := c; s_client := cl; s_user := user; s_limiter := l; s_quota := true |}, st') ∧
          at_point st' payload (sent ++ [socks5_reply Byte.x00]) ∧ client_bytes cl = payload
      end
  end.
Proof.
  intros Hp Ha Hport meta. unfold handleConnect. rewrite (bind_ok make_buf _ _ () _ eq_refl).
  set (st0 := {| c_in := c_in st; c_out := c_out st; c_buf := replicate 256 Byte.x00 |}).
  assert (at_point st0 (addr_body a ++ be_put 2 port ++ payload) sent) as Hp0
    by (destruct Hp as (? & ? & ? & ?); repeat split; done).
  destruct (read_host_run a _ _ _ Hp0 Ha) as (st1 & E1 & Hp1). rewrite (bind_ok _ _ _ _ _ E1).
  destruct (read_get 2 _ _ _ _ Hp1) as (st2 & R2 & Hp2); [apply length_be_put|lia|]. rewrite R2.
  assert (be_get (be_put 2 port) = port) as -> by (rewrite be_get_put; apply Z.mod_small; lia).
  fold meta. destruct (Route _ _ meta) as [out| |]; [|by destruct (write_ok (socks5_reply Byte.x04) _ _ _ Hp2) as (st3 & E3 & Hp3);
    exists st3; rewrite (bind_ok _ _ _ _ _ E3)|done].
  destruct (e_dial e out meta) as [c| |]; [|by destruct (write_ok (socks5_reply Byte.x05) _ _ _ Hp2) as (st3 & E3 & Hp3);
    exists st3; rewrite (bind_ok _ _ _ _ _ E3)|done].
  destruct (write_ok (socks5_reply Byte.x00) _ _ _ Hp2) as (st3 & E3 & Hp3). exists st3. rewrite (bind_ok _ _ _ _ _ E3).
  destruct (SnifferThms.SniffConn_safe (c_in st3)) as (o & br & Es & Hb). pose proof Hp3 as (_ & Hb3 & _).
  case_bool_decide.
  - exists (Peeked br). split; [|split; [done|cbn; congruence]]. unfold fmap, conn_fmap.
    assert (sniff st3 = (Cont (o, Peeked br), st3)) as Eo by (unfold sniff; by rewrite Es).
    unfold mbind, conn_bind. by rewrite Eo.
  - exists (Raw (c_in st3)). by rewrite (bind_ok raw _ st3 (Raw (c_in st3)) st3 eq_refl).
Qed.

(** A SOCKS5 client that follows the protocol is served.  For every
    method offer, every valid user and every target address, in any
    segmentation of what the client sends, the handler answers the exact
    sequence of replies, the session goes to that host and port with the user
    name as owner, and the relay starts exactly at the client's own data;
    without a route or a connection the client is told so (codes 4 and 5) and
    no session starts; wrong credentials get the refusal and nothing else. *)
Theorem socks5_serves (auth : AuthConfig) (bcrypt : bytes → bytes → bool) (lm : Rate.LimiterManager) (uport : option Z)
    (e : env Out C) (s : stream) (methods user pass payload : bytes) (a : socks_addr) (port : Z) :
  steady s → stream_bytes s = socks5_client auth methods user pass Byte.x01 a port payload →
  (length methods ≤ 255)%nat → (length user ≤ 255)%nat → (length pass ≤ 255)%nat → addr_ok a → 0 ≤ port < 65536 →
  let ok := negb (Enabled auth) || check_users bcrypt (Users auth) user pass in
  let target := JoinHostPort (addr_host a) (Itoa port) in
  let meta := new_meta e target (auth_name auth user) [target] in
  let '(r, st') := handleConnection auth bcrypt lm uport e (start_conn s) in
  if negb ok then r = Return ∧ written (c_out st') = server_auth auth false
  else
    match Route (e_order e) (e_router e) meta with
    | Panic => True
    | Fail _ => r = Return ∧ written (c_out st') = server_auth auth true ++ [socks5_reply Byte.x04]
    | Ok out =>
        match e_dial e out meta with
        | Panic => True
        | Fail _ => r = Return ∧ written (c_out st') = server_auth auth true ++ [socks5_reply Byte.x05]
        | Ok c => ∃ sess lm', r = Cont (Connected sess, lm') ∧
            written (c_out st') = server_auth auth true ++ [socks5_reply Byte.x00] ∧
            s_meta sess = meta ∧ s_out sess = out ∧ s_conn sess = c ∧ client_bytes (s_client sess) = payload
        end
    end.
Proof.
  intros Hs Hb Hm Hu Hw Ha Hport ok target meta.
  destruct (handshake_run auth bcrypt lm uport e s methods user pass Byte.x01 a port payload Hs Hb Hm Hu Hw) as (st1 & Hp1 & ->).
  fold ok in Hp1 |- *. destruct ok; cbn [negb]; [|by destruct Hp1 as (_ & _ & _ & ->)].
  destruct (Rate.GetOrCreate (auth_name auth user) lm) as [l lm']. rewrite bool_decide_true by done.
  pose proof (handleConnect_run e a (auth_name auth user) l port payload st1 _ Hp1 Ha Hport) as Hc. cbn zeta in Hc.
  fold target meta in Hc. unfold mbind, conn_bind. destruct (Route _ _ meta) as [out| |].
  - destruct (e_dial e out meta) as [c| |].
    + destruct Hc as (st2 & cl & -> & (_ & _ & _ & Ho) & Hcl). cbn. rewrite Ho. eexists _, lm'. done.
    + destruct Hc as (st2 & -> & (_ & _ & _ & Ho)). cbn. by rewrite Ho.
    + by destruct (handleConnect _ _ _ _ _) as [[s0| |] st2].
  - destruct Hc as (st2 & -> & (_ & _ & _ & Ho)). cbn. by rewrite Ho.
  - by destruct (handleConnect _ _ _ _ _) as [[s0| |] st2].
Qed.

(** C31: The SOCKS5 handler does not crash on any input: whatever the client
    sends, no access to its buffer is out of range, provided that routing
    and dialing do not panic. *)
Theorem socks5_no_panic (auth : AuthConfig) (bcrypt : bytes → bytes → bool) (lm : Rate.LimiterManager)
    (port : option Z) (e : env Out C) (s : stream) :
  (∀ meta, Route (e_order e) (e_router e) meta ≠ Panic) → (∀ out meta, e_dial e out meta ≠ Panic) →
  (handleConnection auth bcrypt lm port e (start_conn s)).1 ≠ Crash.
Proof. intros Hr Hd. by apply safe_handleConnection. Qed.

(** ** Forwarders *)

Lemma sniff_run st : ∃ o br, sniff st = (Cont (o, Peeked br), st) ∧ bufio_bytes br = stream_bytes (c_in st).
Proof.
  unfold sniff. destruct (SnifferThms.SniffConn_safe (c_in st)) as (o & br & E & Hb). rewrite E. eauto.
Qed.

Lemma open_session_run (e : env Out C) meta user cl st :
  match Route (e_order e) (e_router e) meta with
  | Ok out =>
      match e_dial e out meta with
      | Ok c => open_session e meta user cl st =
          (Cont {| s_meta := meta; s_out := out; s_conn := c; s_client := cl; s_user := user; s_limiter := None;
                   s_quota := false |}, st)
      | Fail _ => open_session e meta user cl st = (Return, st)
      | Panic => open_session e meta user cl st = (Crash, st)
      end
  | Fail _ => open_session e meta user cl st = (Return, st)
  | Panic => open_session e meta user cl st = (Crash, st)
  end.
Proof.
  unfold open_session, mbind, conn_bind. destruct (Route _ _ meta) as [out| |]; cbn; [|done|done].
  by destruct (e_dial e out meta) as [c| |].
Qed.

(** The three forwarders differ in the target and the hop chain. *)
Inductive forwarder := FwdTCP (target : bytes) | FwdRedirect (dst : bytes) | FwdTProxy (local : bytes).

Definition fwd_handle (f : forwarder) (e : env Out C) : Conn (session Out C) :=
  match f with
  | FwdTCP t => tcp_forward_handle t e
  | FwdRedirect d => redirect_handle (Ok d) e
  | FwdTProxy l => tproxy_handle l e
  end.

Definition fwd_target (f : forwarder) : bytes := match f with FwdTCP t | FwdRedirect t | FwdTProxy t => t end.

Definition fwd_hops (f : forwarder) (t : bytes) : list bytes := match f with FwdTCP _ => [t] | _ => [] end.

Lemma fwd_run f (e : env Out C) st :
  ∃ o br user, fwd_handle f e st =
      open_session e (new_meta e (retarget (fwd_target f) o) [] (fwd_hops f (retarget (fwd_target f) o))) user (Peeked br) st ∧
    (SniffConn (c_in st)).1 = Ok o ∧ bufio_bytes br = stream_bytes (c_in st).
Proof.
  unfold fwd_handle, tcp_forward_handle, redirect_handle, tproxy_handle.
  destruct (SnifferThms.SniffConn_safe (c_in st)) as (o & br & E & Hb).
  assert (sniff st = (Cont (o, Peeked br), st)) as Es by (unfold sniff; by rewrite E).
  exists o, br. rewrite E. destruct f as [t|d|l]; cbn [fwd_target fwd_hops].
  - exists ("anonymous" : bytes). by rewrite (bind_ok _ _ _ _ _ Es).
  - exists ("transparent" : bytes). split; [|done].
    rewrite (bind_ok (lift_res (Ok d)) _ st d st eq_refl). by rewrite (bind_ok _ _ _ _ _ Es).
  - exists ("tproxy" : bytes). by rewrite (bind_ok _ _ _ _ _ Es).
Qed.

(** A forwarder sends a client where it should go.  Whatever the client
    sends, port forwarding, REDIRECT and TPROXY start a session to the
    configured (or original) address, with the host replaced by the domain
    the sniffer found and the port kept, through the outbound the router
    chooses for it; nothing is written to the client, and the relay starts
    with the first byte the client sent. *)
Theorem forward_session (f : forwarder) (e : env Out C) (s : stream) (sess : session Out C) (st' : conn_state) :
  fwd_handle f e (start_conn s) = (Cont sess, st') →
  (∃ o, (SniffConn s).1 = Ok o ∧ Target (s_meta sess) = retarget (fwd_target f) o) ∧
  Route (e_order e) (e_router e) (s_meta sess) = Ok (s_out sess) ∧
  e_dial e (s_out sess) (s_meta sess) = Ok (s_conn sess) ∧
  client_bytes (s_client sess) = stream_bytes s ∧ written (c_out st') = [].
Proof.
  intros Hrun. destruct (fwd_run f e (start_conn s)) as (o & br & user & E & Ho & Hb). rewrite E in Hrun.
  set (meta := new_meta _ _ _ _) in *. pose proof (open_session_run e meta user (Peeked br) (start_conn s)) as Hs.
  destruct (Route _ _ meta) as [out| |] eqn:Er; [|congruence|congruence].
  destruct (e_dial e out meta) as [c| |] eqn:Ed; [|congruence|congruence].
  rewrite Hs in Hrun. injection Hrun as <- <-. cbn. split; [by exists o|]. done.
Qed.

(** ** Balancing *)

Lemma pick_turns router order (h : TCPBalanceHandler Out) t :
  targets h ≠ [] → Route order router (with_Target zeroMeta t) ≠ Panic →
  nth (Z.to_nat (u64 (counter h + 1) mod Z.of_nat (length (targets h)))) (targets h) [] = t →
  (balance_pick router order [] h).2 = {| targets := targets h; counter := u64 (counter h + 1); targetStatuses := targetStatuses h |} ∧
  (∀ out, Route order router (with_Target zeroMeta t) = Ok out → (balance_pick router order [] h).1 = Ok (Some (t, out))).
Proof.
  intros Hne Hr Ht. unfold balance_pick. cbn [fold_left]. change (f64_lt (f64 (-1)) f64_tenth) with true. cbn iota.
  rewrite bool_decide_false, Ht by done. cbn [fst snd]. split; [done|]. intros out ->. done.
Qed.

(** [n] connections in a row that find no status: the targets they get. *)
Fixpoint turns (router : BaseRouter Out) (order : list Out) (n : nat) (h : TCPBalanceHandler Out) : list (res (option (bytes * Out))) :=
  match n with
  | O => []
  | S n' => (balance_pick router order [] h).1 :: turns router order n' (balance_pick router order [] h).2
  end.

Lemma turns_spec router order (out : bytes → Out) n ts c sts :
  ts ≠ [] → (∀ t, t ∈ ts → Route order router (with_Target zeroMeta t) = Ok (out t)) → 0 ≤ c → c + Z.of_nat n < 2 ^ 64 →
  turns router order n {| targets := ts; counter := c; targetStatuses := sts |} =
  (λ i, let t := nth (Z.to_nat ((c + 1 + Z.of_nat i) mod Z.of_nat (length ts))) ts [] in Ok (Some (t, out t))) <$> seq 0 n.
Proof.
  intros Hne Hr. revert c. induction n as [|n IH]; intros c Hc Hn; [done|]. cbn [turns seq].
  assert (u64 (c + 1) = c + 1) as Eu by (unfold u64; apply Z.mod_small; lia).
  set (t := nth (Z.to_nat ((c + 1) mod Z.of_nat (length ts))) ts []).
  assert (t ∈ ts) as Htin.
  { apply list_elem_of_In, nth_In. assert (0 < Z.of_nat (length ts)) by (destruct ts; [done|simpl; lia]).
    pose proof (Z.mod_pos_bound (c + 1) (Z.of_nat (length ts)) ltac:(lia)). lia. }
  destruct (pick_turns router order {| targets := ts; counter := c; targetStatuses := sts |} t) as [E2 E1];
    [done|by rewrite Hr|cbn; by rewrite Eu|]. cbn [targets counter targetStatuses] in E2. rewrite E2, Eu.
  rewrite (E1 (out t)) by auto. cbn [fmap list_fmap]. rewrite IH by lia.
  f_equal; [by rewrite Z.add_0_r|]. rewrite <-(fmap_S_seq 0 n), <-list_fmap_compose.
  apply list_fmap_ext. intros i x _. unfold compose. by replace (c + 1 + Z.of_nat (S x)) with (c + 1 + 1 + Z.of_nat x) by lia.
Qed.

(** Without health data the balancer takes turns.  As long as the counter
    does not wrap, as many connections as there are targets are given the
    targets in the configured order, starting anywhere and each exactly once,
    every one with the outbound the router has for it. *)
Theorem balance_round_robin (router : BaseRouter Out) (order : list Out) (out : bytes → Out) (ts : list bytes) (c : Z)
    (sts : gmap bytes (targetStatus Out)) :
  ts ≠ [] → (∀ t, t ∈ ts → Route order router (with_Target zeroMeta t) = Ok (out t)) →
  0 ≤ c → c + Z.of_nat (length ts) < 2 ^ 64 →
  turns router order (length ts) {| targets := ts; counter := c; targetStatuses := sts |} =
  (λ t, Ok (Some (t, out t))) <$> rotate (Z.to_nat (c + 1)) ts.
Proof.
  intros Hne Hr Hc Hn. rewrite (turns_spec _ _ out) by done.
  apply list_eq. intros i. rewrite !list_lookup_fmap. destruct (decide (i < length ts)%nat) as [Hi|Hi].
  - rewrite lookup_seq_lt, lookup_rotate_r by done. cbn [fmap option_fmap option_map Nat.add].
    unfold rotate_nat_add. rewrite Z2Nat.id by lia.
    set (j := Z.to_nat _). assert (ts !! j = Some (nth j ts [])) as ->; [|done].
    destruct (ts !! j) as [x|] eqn:Ej; [by rewrite (nth_lookup_Some _ _ [] _ Ej)|].
    apply lookup_ge_None in Ej. assert (0 < Z.of_nat (length ts)) by lia.
    pose proof (Z.mod_pos_bound (c + 1 + Z.of_nat i) (Z.of_nat (length ts)) ltac:(lia)). lia.
  - rewrite !lookup_ge_None_2; [done|rewrite length_rotate; lia|rewrite length_seq; lia].
Qed.

(** A round of health checks records every target with its outbound and that
    outbound's score. *)
Definition checked (out : bytes → Out) (now : Z) (t : bytes) : targetStatus Out :=
  {| t_outbound := out t; t_score := HealthCheck (out t); t_updated := now |}.

Lemma balance_check_spec router order (out : bytes → Out) now (h : TCPBalanceHandler Out) :
  (∀ t, t ∈ targets h → Route order router (with_Target zeroMeta t) = Ok (out t)) →
  ∃ h', balance_check router order now h = Ok h' ∧ targets h' = targets h ∧ counter h' = counter h ∧
    ∀ t, targetStatuses h' !! t = if bool_decide (t ∈ targets h) then Some (checked out now t) else targetStatuses h !! t.
Proof.
  unfold balance_check. generalize (targets h) at 1 2 4 5 as ts. intros ts. induction ts as [|t ts IH] using rev_ind; intros Hr.
  { exists h. split; [done|]. split; [done|]. split; [done|]. intros t. by rewrite bool_decide_false by apply not_elem_of_nil. }
  destruct IH as (h' & E & Ht & Hc & Hs); [set_solver|]. rewrite fold_left_app. cbn [fold_left]. rewrite E. cbn [res_bind].
  rewrite Hr by set_solver. eexists. split; [done|]. cbn [targets counter targetStatuses]. split; [done|]. split; [done|].
  intros x. destruct (decide (t = x)) as [<-|Hn]; [rewrite lookup_insert_eq, bool_decide_true by set_solver; done|].
  rewrite lookup_insert_ne, Hs by done. by rewrite (bool_decide_ext (x ∈ ts ++ [t]) (x ∈ ts)) by set_solver.
Qed.

End thms.

Section balance.
Context `{ScoreLaw Out}.

(** The target of the fallback: the counter after the increment, modulo the
    number of targets. *)
Lemma turn_target (h : TCPBalanceHandler Out) :
  targets h ≠ [] → let i := Z.to_nat (u64 (counter h + 1) mod Z.of_nat (length (targets h))) in
  targets h !! i = Some (nth i (targets h) []).
Proof.
  intros Hne i. destruct (nth_lookup_or_length (targets h) i []) as [E|Hge]; [done|]. exfalso. unfold i in Hge. assert (0 < Z.of_nat (length (targets h))) by (destruct (targets h); [done|cbn; lia]).
  pose proof (Z.mod_pos_bound (u64 (counter h + 1)) (Z.of_nat (length (targets h))) ltac:(lia)). lia.
Qed.

(** C30: the balancer follows the health of the targets.  After any round of
    health checks in which the router has an outbound for every target, and
    whatever the order in which the map is iterated, let [t] be a target no
    other target has a better score than.  If its score is at least 0.1, a
    connection gets such a target with the outbound the router chose for it,
    and the counter is untouched.  Otherwise the counter is incremented, and
    the connection gets the target at the counter modulo the number of
    targets. *)
Theorem balance_follows_health (router : BaseRouter Out) (order : list Out) (out : bytes → Out) (now : Z)
    (h0 h : TCPBalanceHandler Out) (statuses : list (bytes * targetStatus Out)) :
  targets h0 ≠ [] → (∀ t, t ∈ targets h0 → Route order router (with_Target zeroMeta t) = Ok (out t)) →
  (∀ t, is_Some (targetStatuses h0 !! t) → t ∈ targets h0) →
  balance_check router order now h0 = Ok h → statuses ≡ₚ map_to_list (targetStatuses h) →
  ∃ t, t ∈ targets h0 ∧ (∀ t', t' ∈ targets h0 → f64_lt (HealthCheck (out t)) (HealthCheck (out t')) = false) ∧
    if f64_lt (HealthCheck (out t)) f64_tenth then
      let c := u64 (counter h0 + 1) in
      ∃ next, targets h0 !! Z.to_nat (c mod Z.of_nat (length (targets h0))) = Some next ∧
        balance_pick router order statuses h =
          (Ok (Some (next, out next)), {| targets := targets h0; counter := c; targetStatuses := targetStatuses h |})
    else balance_pick router order statuses h = (Ok (Some (t, out t)), h).
Proof.
  intros Hne Hr Hdom Hc Hp. destruct (balance_check_spec router order out now h0 Hr) as (h' & E & Htg & Hcn & Hs).
  assert (h' = h) as -> by congruence.
  assert (∀ ts', ts' ∈ statuses ↔ ts'.1 ∈ targets h0 ∧ ts'.2 = checked out now ts'.1) as Hin.
  { intros [t s]. rewrite Hp, elem_of_map_to_list, Hs. cbn. case_bool_decide; [naive_solver|].
    split; [|naive_solver]. intros Hst. assert (t ∈ targets h0); [apply Hdom; by eexists|done]. }
  destruct (OutboundThms.best_fold (λ x : bytes * targetStatus Out, t_score x.2) (λ x, (x.1, t_outbound x.2)) best_step (λ _ _ _, eq_refl) statuses (f64 (-1)))
    as ([t s] & Hx & Ef & Hm).
  { destruct (targets h0) as [|t ts]; [done|]. intros ->. apply (not_elem_of_nil (t, checked out now t)). apply Hin. split; [left|done]. }
  { intros [t s] [_ Hst]%Hin. cbn in *. rewrite Hst. apply score_ok. }
  apply Hin in Hx as [Ht Hst]. cbn in Ht, Hst. subst s. exists t. split; [done|]. split.
  - intros t' Ht'. apply (Hm (t', checked out now t')). by apply Hin.
  - unfold balance_pick. rewrite Ef. cbn [snd checked t_score t_outbound fst].
    destruct (f64_lt (HealthCheck (out t)) f64_tenth); [|done]. pose proof (turn_target h0 Hne) as Hn. cbv zeta in Hn.
    eexists. split; [exact Hn|]. rewrite Htg, Hcn, bool_decide_false by done. by rewrite Hr by (by eapply list_elem_of_lookup_2).
Qed.

End balance.

(** ** Sessions over a chain *)

Section chain.
Context `{UUIDLaws}.

(** [Dial] of a chain outbound whose QUIC dial succeeds, and of a direct
    outbound whose [net.Dialer] succeeds, which writes nothing. *)
Definition chain_dial (g : rnd) (fg : frnd) (out : handler) (meta : SessionMeta) : res np_conn :=
  match out with
  | HNPChain h =>
      match (Dial g fg (Ok open_sink) meta h).1 with
      | Dialed c => Ok c
      | DialFailed e _ => Fail e
      | DialPanic => Panic
      end
  | HDirect d => let! peer := DirectDial d meta in Ok {| nc_peer := peer; nc_obfs := None; nc_sink := open_sink |}
  end.

Lemma socks5_chain_run (g : rnd) (fg : frnd) (auth : AuthConfig) (bcrypt : bytes → bytes → bool)
    (lm : Rate.LimiterManager) (uport : option Z) (e : env handler np_conn) (s : stream)
    (methods user pass payload : bytes) (a : socks_addr) (port : Z) (h : NPChainHandler) :
  let target := JoinHostPort (addr_host a) (Itoa port) in
  steady s → stream_bytes s = socks5_client auth methods user pass Byte.x01 a port payload →
  (length methods ≤ 255)%nat → (length user ≤ 255)%nat → (length pass ≤ 255)%nat → addr_ok a → 0 ≤ port < 65536 →
  Enabled auth = false ∨ check_users bcrypt (Users auth) user pass = true → good_hop target →
  e_dial e = chain_dial g fg → Route (e_order e) (e_router e) (new_meta e target (auth_name auth user) [target]) = Ok (HNPChain h) →
  np_transport h = ("quic" : bytes) → obfuscated (oType (np_obfs h)) (Interval (np_obfs h)) = false →
  ∃ sess lm' st', handleConnection auth bcrypt lm uport e (start_conn s) = (Cont (Connected sess, lm'), st') ∧
    s_meta sess = new_meta e target (auth_name auth user) [target] ∧ nc_peer (s_conn sess) = ("quic" : bytes, np_address h) ∧
    journey 1 (concat (written (nc_sink (s_conn sess))) ++ client_bytes (s_client sess)) =
      ([], Arrived ("tcp" : bytes) target payload).
Proof.
  intros target Hs Hb Hm Hu Hw Ha Hport Hok Hg Hd Hr Ht Ho.
  destruct (handshake_run auth bcrypt lm uport e s methods user pass Byte.x01 a port payload Hs Hb Hm Hu Hw) as (st1 & Hp1 & ->).
  assert (negb (Enabled auth) || check_users bcrypt (Users auth) user pass = true) as Eok
    by (destruct Hok as [->| ->]; [done|apply orb_true_r]). rewrite Eok in *.
  destruct (Rate.GetOrCreate (auth_name auth user) lm) as [l lm']. rewrite bool_decide_true by done.
  pose proof (handleConnect_run e a (auth_name auth user) l port payload st1 _ Hp1 Ha Hport) as Hc. cbn zeta in Hc.
  fold target in Hc. set (meta := new_meta e target _ _) in *. rewrite Hr, Hd in Hc.
  destruct (OutboundThms.dial_journey g fg meta h [] target payload) as (k & h' & Ed & Ej);
    [done|done|done|by constructor|done|by left|].
  unfold chain_dial in Hc. rewrite Ed in Hc. cbn [fst] in Hc. destruct Hc as (st2 & cl & Ec & _ & Hcl).
  unfold mbind, conn_bind. rewrite Ec. eexists _, lm', st2. do 3 (split; [done|]). cbn [s_conn nc_sink s_client]. by rewrite Hcl.
Qed.

(** C2: From the SOCKS5 client to the end of the chain.  A client of a user
    with valid credentials that asks for a host and port the chain can carry,
    routed to a chain outbound without obfuscation whose QUIC dial succeeds:
    the address of that outbound is dialed, and what the handler writes on
    the outbound connection, followed by what it relays from the client,
    arrives at the node behind that outbound as a TCP session to that host
    and port with exactly the client's data. *)
Theorem socks5_over_chain (g : rnd) (fg : frnd) (auth : AuthConfig) (bcrypt : bytes → bytes → bool)
    (lm : Rate.LimiterManager) (uport : option Z) (e : env handler np_conn) (s : stream)
    (methods user pass payload : bytes) (a : socks_addr) (port : Z) (h : NPChainHandler) :
  let target := JoinHostPort (addr_host a) (Itoa port) in
  steady s → stream_bytes s = socks5_client auth methods user pass Byte.x01 a port payload →
  (length methods ≤ 255)%nat → (length user ≤ 255)%nat → (length pass ≤ 255)%nat → addr_ok a → 0 ≤ port < 65536 →
  Enabled auth = false ∨ check_users bcrypt (Users auth) user pass = true → good_hop target →
  e_dial e = chain_dial g fg → Route (e_order e) (e_router e) (new_meta e target (auth_name auth user) [target]) = Ok (HNPChain h) →
  np_transport h = ("quic" : bytes) → obfuscated (oType (np_obfs h)) (Interval (np_obfs h)) = false →
  ∃ sess lm' st', handleConnection auth bcrypt lm uport e (start_conn s) = (Cont (Connected sess, lm'), st') ∧
    nc_peer (s_conn sess) = ("quic" : bytes, np_address h) ∧
    journey 1 (concat (written (nc_sink (s_conn sess))) ++ client_bytes (s_client sess)) =
      ([], Arrived ("tcp" : bytes) target payload).
Proof.
  intros target Hs Hb Hm Hu Hw Ha Hport Hok Hg Hd Hr Ht Ho.
  destruct (socks5_chain_run g fg auth bcrypt lm uport e s methods user pass payload a port h) as (sess & lm' & st' & E & _ & Epeer & Ej);
    [done..|]. by exists sess, lm', st'.
Qed.

(** Transparent sessions do not get through a chain.  REDIRECT and TPROXY
    sessions carry no hop chain: when the router gives them a chain outbound,
    the node behind it drops every one of them with the error of an exhausted
    chain, while the same session from the port forwarder arrives. *)
Theorem transparent_lost_in_chain (g : rnd) (fg : frnd) (f : forwarder) (e : env handler np_conn) (s : stream)
    (sess : session handler np_conn) (st' : conn_state) (h : NPChainHandler) :
  fwd_handle f e (start_conn s) = (Cont sess, st') → s_out sess = HNPChain h → e_dial e = chain_dial g fg →
  np_transport h = ("quic" : bytes) → obfuscated (oType (np_obfs h)) (Interval (np_obfs h)) = false →
  let sent := concat (written (nc_sink (s_conn sess))) ++ client_bytes (s_client sess) in
  match f with
  | FwdTCP _ => good_hop (Target (s_meta sess)) →
      journey 1 sent = ([], Arrived ("tcp" : bytes) (Target (s_meta sess)) (stream_bytes s))
  | _ => journey 1 sent = ([], Lost (Errorf "no more hops"))
  end.
Proof.
  intros Hrun Hout Hd Ht Ho sent. destruct (fwd_run f e (start_conn s)) as (o & br & user & E & _ & Hb). rewrite E in Hrun.
  set (meta := new_meta _ _ _ _) in *. pose proof (open_session_run e meta user (Peeked br) (start_conn s)) as Hs.
  destruct (Route _ _ meta) as [out| |] eqn:Er; [|congruence|congruence].
  destruct (e_dial e out meta) as [c| |] eqn:Ed; [|congruence|congruence].
  rewrite Hs in Hrun. injection Hrun as <- <-. cbn in Hout, sent |- *. subst out. rewrite Hd in Ed. unfold chain_dial in Ed.
  change (stream_bytes (c_in (start_conn s))) with (stream_bytes s) in Hb. unfold sent. rewrite Hb.
  destruct f as [t|d|t]; cbn [fwd_hops] in meta.
  - intros Hg. destruct (OutboundThms.dial_journey g fg meta h [] (Target meta) (stream_bytes s)) as (k & h' & Ek & Ej);
      [done|done|done|by constructor|done|by left|]. rewrite Ek in Ed. cbn in Ed. injection Ed as <-. exact Ej.
  - destruct (OutboundThms.dial_empty_chain g fg meta h (stream_bytes s)) as (k & h' & Ek & Ej); [done|done|done|].
    rewrite Ek in Ed. cbn in Ed. injection Ed as <-. exact Ej.
  - destruct (OutboundThms.dial_empty_chain g fg meta h (stream_bytes s)) as (k & h' & Ek & Ej); [done|done|done|].
    rewrite Ek in Ed. cbn in Ed. injection Ed as <-. exact Ej.
Qed.

End chain.

(** ** Concrete runs *)
Import DemoUUID.

Definition demo_frnd : frnd := {| f_len := Byte.x00; f_pad := λ _, Byte.x00 |}.

Definition demo_env : env handler np_conn :=
  {| e_router := RouterThms.demo_router; e_order := RouterThms.demo_order;
     e_dial := chain_dial (NPThms.demo_rnd Byte.x40) demo_frnd;
     e_uuid := uuid_String (replicate 16 Byte.x2a); e_now := 0; e_remote := "198.51.100.4:50000" |}.

Definition demo_auth : AuthConfig := {| Enabled := true; Users := [{| Username := "alice"; Password := "#secret" |}] |}.

(** A password check for the runs: the hash is the password behind a mark. *)
Definition demo_bcrypt (hash password : bytes) : bool := bool_decide (hash = ("#" : bytes) ++ password).

Definition demo_lm : Rate.LimiterManager := Rate.NewLimiterManager 10.

Definition demo_addr : socks_addr := AddrV4 [Byte.xc0; Byte.x00; Byte.x02; Byte.x07].

Definition demo_stream (pass : bytes) : stream :=
  mk_stream (socks5_client demo_auth [Byte.x00; Byte.x02] "alice" pass Byte.x01 demo_addr 443 "ping") EOF.

Definition demo_node : NPChainHandler :=
  match RouterThms.demo_np "n2" 30 with HNPChain h => h | HDirect _ => NewNPChainHandler [] [] [] [] {| oType := []; MaxPad := 0; Interval := 0; DummySize := 0 |} false end.

Lemma demo_steady b : steady (mk_stream b EOF).
Proof. repeat constructor. eauto. Qed.

Lemma mk_stream_bytes b e : stream_bytes (mk_stream b e) = b.
Proof. unfold stream_bytes, ev_bytes. simpl. apply app_nil_r. Qed.

Lemma demo_good_hop : good_hop (JoinHostPort (addr_host demo_addr) (Itoa 443)).
Proof. exists (addr_host demo_addr), 443. split; [done|]. split; [vm_compute; reflexivity|lia]. Qed.

Lemma socks5_over_chain_witness :
  ∃ sess lm' st', handleConnection demo_auth demo_bcrypt demo_lm None demo_env (start_conn (demo_stream "secret")) =
      (Cont (Connected sess, lm'), st') ∧
    nc_peer (s_conn sess) = ("quic" : bytes, np_address demo_node) ∧
    journey 1 (concat (written (nc_sink (s_conn sess))) ++ client_bytes (s_client sess)) =
      ([], Arrived ("tcp" : bytes) (JoinHostPort (addr_host demo_addr) (Itoa 443)) ("ping" : bytes)).
Proof.
  apply (socks5_over_chain (NPThms.demo_rnd Byte.x40) demo_frnd demo_auth demo_bcrypt demo_lm None demo_env (demo_stream "secret")
           [Byte.x00; Byte.x02] "alice" "secret" "ping" demo_addr 443 demo_node);
    [apply demo_steady|apply mk_stream_bytes|cbn; lia|cbn; lia|cbn; lia|reflexivity|lia|right; vm_compute; reflexivity
    |apply demo_good_hop|reflexivity|vm_compute; reflexivity|reflexivity|reflexivity].
Defined.

Lemma socks5_serves_witness :
  let '(r, st') := handleConnection demo_auth demo_bcrypt demo_lm None demo_env (start_conn (demo_stream "guess")) in
  r = Return ∧ written (c_out st') = [[Byte.x05; Byte.x02]; [Byte.x01; Byte.x01]].
Proof.
  pose proof (socks5_serves demo_auth demo_bcrypt demo_lm None demo_env (demo_stream "guess") [Byte.x00; Byte.x02] "alice" "guess"
                "ping" demo_addr 443 (demo_steady _) (mk_stream_bytes _ _) ltac:(cbn; lia) ltac:(cbn; lia) ltac:(cbn; lia) eq_refl ltac:(lia)) as Hr.
  destruct (handleConnection _ _ _ _ _ _) as [r st']. exact Hr.
Defined.

Definition demo_run := handleConnection demo_auth demo_bcrypt demo_lm None demo_env (start_conn (demo_stream "secret")).

Lemma socks5_authenticated_witness :
  match demo_run with
  | (Cont (r, lm'), _) =>
      ∃ u password, u ∈ Users demo_auth ∧ Username u = user_of r ∧ demo_bcrypt (Password u) password = true ∧
        ∃ methods rest, stream_bytes (demo_stream "secret") =
          [Byte.x05; z2b (Z.of_nat (length methods))] ++ methods ++ [Byte.x01; z2b (Z.of_nat (length (user_of r)))] ++ user_of r ++
          [z2b (Z.of_nat (length password))] ++ password ++ rest
  | _ => False
  end.
Proof.
  destruct demo_run as [[[r lm']| |] st'] eqn:E; [|vm_compute in E; discriminate|vm_compute in E; discriminate].
  destruct (socks5_authenticated demo_auth demo_bcrypt demo_lm lm' None demo_env (demo_stream "secret") r st' eq_refl E)
    as [(u & password & Hu & Hn & Hp & Hw) _].
  exists u, password. split; [exact Hu|]. split; [exact Hn|]. split; [exact Hp|]. apply Hw, demo_steady.
Defined.

(** A router with a single outbound, and dialing that always fails. *)
Definition demo_plain : env handler np_conn :=
  {| e_router := AddOutbound RouterThms.demo_direct NewRouter; e_order := [RouterThms.demo_direct];
     e_dial := λ _ _, Fail ErrTimeout; e_uuid := []; e_now := 0; e_remote := [] |}.

Lemma socks5_no_panic_witness :
  (handleConnection demo_auth demo_bcrypt demo_lm None demo_plain (start_conn (mk_stream [Byte.x05; Byte.xff; Byte.x00] EOF))).1 ≠ Crash.
Proof.
  apply socks5_no_panic; [|done]. intros meta. unfold Route, restore. cbn.
  destruct (ParseIP _); cbn; by destruct (_ !! _).
Defined.

Lemma forward_session_witness :
  match fwd_handle (FwdTCP "192.0.2.9:80") demo_env (start_conn (mk_stream "hello" EOF)) with
  | (Cont sess, st') =>
      (∃ o, (SniffConn (mk_stream "hello" EOF)).1 = Ok o ∧ Target (s_meta sess) = retarget "192.0.2.9:80" o) ∧
      client_bytes (s_client sess) = ("hello" : bytes) ∧ written (c_out st') = []
  | _ => False
  end.
Proof.
  destruct (fwd_handle (FwdTCP "192.0.2.9:80") demo_env (start_conn (mk_stream "hello" EOF))) as [[sess| |] st'] eqn:E;
    [|vm_compute in E; discriminate|vm_compute in E; discriminate].
  destruct (forward_session _ _ _ _ _ E) as (Ht & _ & _ & Hb & Hw). split; [exact Ht|]. split; [exact Hb|exact Hw].
Defined.

Lemma transparent_lost_in_chain_witness :
  match fwd_handle (FwdTProxy "192.0.2.9:80") demo_env (start_conn (mk_stream "hello" EOF)) with
  | (Cont sess, _) => journey 1 (concat (written (nc_sink (s_conn sess))) ++ client_bytes (s_client sess)) = ([], Lost (Errorf "no more hops"))
  | _ => False
  end.
Proof.
  destruct (fwd_handle (FwdTProxy "192.0.2.9:80") demo_env (start_conn (mk_stream "hello" EOF))) as [[sess| |] st'] eqn:E;
    [|vm_compute in E; discriminate|vm_compute in E; discriminate].
  apply (transparent_lost_in_chain (NPThms.demo_rnd Byte.x40) demo_frnd (FwdTProxy "192.0.2.9:80") demo_env
           (mk_stream "hello" EOF) sess st' demo_node E); [|reflexivity|reflexivity|reflexivity].
  clear -E. vm_compute in E. injection E as <- _. reflexivity.
Defined.

#[local] Existing Instance RouterThms.handler_scores.

Lemma balance_follows_health_witness :
  let ts := ["192.0.2.1:80" : bytes; "192.0.2.2:80" : bytes] in
  match balance_check RouterThms.demo_router RouterThms.demo_order 0 (NewTCPBalanceHandler ts) with
  | Ok h => ∃ t, t ∈ ts ∧ balance_pick RouterThms.demo_router RouterThms.demo_order (map_to_list (targetStatuses h)) h =
                   (Ok (Some (t, RouterThms.demo_np "n2" 30)), h)
  | _ => False
  end.
Proof.
  intros ts. destruct (balance_check _ _ _ _) as [h| |] eqn:E; [|vm_compute in E; discriminate|vm_compute in E; discriminate].
  destruct (balance_follows_health RouterThms.demo_router RouterThms.demo_order (λ _, RouterThms.demo_np "n2" 30) 0
    (NewTCPBalanceHandler ts) h (map_to_list (targetStatuses h))) as (t & Ht & _ & Ep); [discriminate| | |exact E|reflexivity|].
  - intros t Ht. apply list_elem_of_In in Ht. destruct Ht as [<-|[<-|[]]]; vm_compute; reflexivity.
  - intros t [s Hs]. exfalso. change (targetStatuses (NewTCPBalanceHandler ts) !! t) with ((∅ : gmap bytes (targetStatus handler)) !! t) in Hs.
    rewrite lookup_empty in Hs. discriminate Hs.
  - exists t. split; [exact Ht|]. exact Ep.
Defined.

Lemma balance_round_robin_witness :
  turns RouterThms.demo_router RouterThms.demo_order 3
    (NewTCPBalanceHandler ["192.0.2.1:80" : bytes; "192.0.2.2:80" : bytes; "192.0.2.3:80" : bytes]) =
  (λ t, Ok (Some (t, RouterThms.demo_np "n2" 30))) <$> ["192.0.2.2:80" : bytes; "192.0.2.3:80" : bytes; "192.0.2.1:80" : bytes].
Proof.
  apply (balance_round_robin RouterThms.demo_router RouterThms.demo_order (λ _, RouterThms.demo_np "n2" 30)
           ["192.0.2.1:80" : bytes; "192.0.2.2:80" : bytes; "192.0.2.3:80" : bytes] 0 ∅); [done| |lia|cbn; lia].
  intros t Ht. apply list_elem_of_In in Ht. destruct Ht as [<-|[<-|[<-|[]]]]; vm_compute; reflexivity.
Defined.

End InboundThms.
