(* ===== verification/UdpSession.v ===== *)
(** * UDP sessions: [internal/inbound/udp_session.go] and its callers

    A UDP inbound keeps one session per client (and target) and forwards
    every datagram on a goroutine of its own; the session's outbound
    connection is dialed by the first of them that gets the session's lock.
    Sessions are shared by pointer: the map may forget one that a goroutine
    still uses, so they live in a heap ([heap], never reused) and the map
    holds pointers.  [step] interleaves the atomic pieces of the receive
    loops, of any number of [ForwardPacket] calls, of the cleanup and of the
    reverse flow.  [received] and [owner] only record history. *)

From S2P Require Import Prelude GoNet Types Socks5Udp Limits Stream NPChain Obfs Outbound Router.
Import Quota.

Section udp.
Context `{OutboundHandler Out}.

Record udpSession := {
  us_outbound : Out;
  us_conn : option nat;          (* outboundConn *)
  us_sessionID : bytes;
  us_lastSeen : Z;
  us_clientAddr : bytes;
  us_inbound : nat;              (* inboundConn *)
  us_isSocks5 : bool }.

Record UDPSessionManager := {
  sessions : gmap bytes nat;
  heap : list udpSession;
  timeout : Z }.

Definition minute : Z := 60000000000.

Definition NewUDPSessionManager (t : Z) : UDPSessionManager :=
  {| sessions := ∅; heap := []; timeout := if bool_decide (t = 0) then 2 * minute else t |}.

Definition seen (now : Z) (s : udpSession) : udpSession :=
  {| us_outbound := us_outbound s; us_conn := us_conn s; us_sessionID := us_sessionID s; us_lastSeen := now;
     us_clientAddr := us_clientAddr s; us_inbound := us_inbound s; us_isSocks5 := us_isSocks5 s |}.

Definition connected (c : nat) (s : udpSession) : udpSession :=
  {| us_outbound := us_outbound s; us_conn := Some c; us_sessionID := us_sessionID s; us_lastSeen := us_lastSeen s;
     us_clientAddr := us_clientAddr s; us_inbound := us_inbound s; us_isSocks5 := us_isSocks5 s |}.

Definition on_session (p : nat) (f : udpSession → udpSession) (m : UDPSessionManager) : UDPSessionManager :=
  {| sessions := sessions m; heap := alter f p (heap m); timeout := timeout m |}.

(** What a receive loop hands to [GetOrCreate] and then to [ForwardPacket]. *)
Record packet := {
  p_key : bytes; p_target : bytes; p_client : bytes; p_inbound : nat; p_isSocks5 : bool; p_data : bytes; p_user : bytes }.

(** [GetOrCreate]: the look at the map, and what follows a miss. *)
Definition get_existing (key : bytes) (now : Z) (m : UDPSessionManager) : option (nat * UDPSessionManager) :=
  p ← sessions m !! key; Some (p, on_session p (seen now) m).

Definition new_udp_meta (id target : bytes) : SessionMeta :=
  {| ID := id; TraceID := []; UserID := []; Source := None; Target := target; Network := "udp";
     HopChain := [target]; RouteTags := ∅; CreatedAt := 0 |}.

Definition create (pk : packet) (id : bytes) (now : Z) (route : SessionMeta → res Out) (m : UDPSessionManager) :
  res (nat * UDPSessionManager) :=
  let! out := route (new_udp_meta id (p_target pk)) in
  let s := {| us_outbound := out; us_conn := None; us_sessionID := id; us_lastSeen := now;
              us_clientAddr := p_client pk; us_inbound := p_inbound pk; us_isSocks5 := p_isSocks5 pk |} in
  Ok (length (heap m),
      {| sessions := <[p_key pk := length (heap m)]> (sessions m); heap := heap m ++ [s]; timeout := timeout m |}).

Definition GetOrCreate (pk : packet) (id : bytes) (now : Z) (route : SessionMeta → res Out) (m : UDPSessionManager) :
  res (nat * bool * UDPSessionManager) :=
  match get_existing (p_key pk) now m with
  | Some (p, m') => Ok (p, false, m')
  | None => let! pm := create pk id now route m in Ok (pm.1, true, pm.2)
  end.

(** Outbound connections: what they were dialed with, what was written. *)
Record conn := { cn_out : Out; cn_meta : SessionMeta; cn_written : list bytes; cn_closed : bool }.

Definition close_conn (c : conn) : conn :=
  {| cn_out := cn_out c; cn_meta := cn_meta c; cn_written := cn_written c; cn_closed := true |}.

(** A write on a closed connection is lost. *)
Definition send (d : bytes) (c : conn) : conn :=
  if cn_closed c then c
  else {| cn_out := cn_out c; cn_meta := cn_meta c; cn_written := cn_written c ++ [d]; cn_closed := false |}.

(** One tick of [CleanupLoop]. *)
Definition expired (now : Z) (m : UDPSessionManager) (p : nat) : bool :=
  match heap m !! p with Some s => bool_decide (timeout m < now - us_lastSeen s) | None => false end.

(** The close of the connection of an expired session. *)
Definition close_session (m : UDPSessionManager) (cs : list conn) (kp : bytes * nat) : list conn :=
  match heap m !! kp.2 with
  | Some s => match us_conn s with Some c => alter close_conn c cs | None => cs end
  | None => cs
  end.

Definition cleanup (now : Z) (m : UDPSessionManager) (cs : list conn) : UDPSessionManager * list conn :=
  let dead := filter (λ kp, expired now m kp.2 = true) (map_to_list (sessions m)) in
  ({| sessions := filter (λ kp, expired now m kp.2 = false) (sessions m); heap := heap m; timeout := timeout m |},
   fold_left (close_session m) dead cs).

(** [ForwardPacket], the part under the session's lock: the connection to
    write to; [dialed] tells whether the dial succeeds. *)
Definition fwd_meta (s : udpSession) (target user : bytes) : SessionMeta :=
  {| ID := us_sessionID s; TraceID := []; UserID := user; Source := None; Target := target; Network := "udp";
     HopChain := []; RouteTags := ∅; CreatedAt := 0 |}.

Definition lock_conn (p : nat) (target user : bytes) (dialed : bool) (m : UDPSessionManager) (cs : list conn) :
  option (nat * UDPSessionManager * list conn) :=
  s ← heap m !! p;
  match us_conn s with
  | Some c => Some (c, m, cs)
  | None =>
      if dialed then
        let c := {| cn_out := us_outbound s; cn_meta := fwd_meta s target user; cn_written := []; cn_closed := false |} in
        Some (length cs, on_session p (connected (length cs)) m, cs ++ [c])
      else None
  end.

(** The quota test in front of it. *)
Definition charge (quota : option QuotaManager) (user data : bytes) : bool * option QuotaManager :=
  match quota with
  | Some q =>
      if bool_decide (user ≠ []) then
        let '(ex, q') := AddUsage user (Z.of_nat (length data)) q in (ex, Some q')
      else (false, quota)
  | None => (false, quota)
  end.

(** [handleReverseFlow]: the datagram sent back to the client. *)
Definition back_data (services : bytes → option Z) (isSocks5 : bool) (originalTarget data : bytes) : bytes :=
  if isSocks5 then match PackUDPPacket services originalTarget data with Ok b => b | _ => [] end else data.

(** ** The receive loops *)

(** [UDPForwardHandler.Start], [UDPRangeHandler.servePort] and
    [handleUDPAssociate]: the packet a datagram becomes. *)
Definition forward_packet (targetAddr raddr : bytes) (inb : nat) (data : bytes) : packet :=
  {| p_key := raddr; p_target := targetAddr; p_client := raddr; p_inbound := inb; p_isSocks5 := false;
     p_data := data; p_user := "anonymous" |}.

Definition range_packet (target raddr : bytes) (inb : nat) (data : bytes) : packet :=
  {| p_key := raddr ++ ("-" : bytes) ++ target; p_target := target; p_client := raddr; p_inbound := inb;
     p_isSocks5 := false; p_data := data; p_user := "anonymous" |}.

Definition socks5_packet (user raddr : bytes) (inb : nat) (datagram : bytes) : option packet :=
  match ParseUDPPacket datagram with
  | Ok u => Some {| p_key := raddr ++ ("-" : bytes) ++ Address u; p_target := Address u; p_client := raddr;
                    p_inbound := inb; p_isSocks5 := true; p_data := Data u; p_user := user |}
  | _ => None
  end.

(** ** Interleaving *)

Inductive job :=
| JCreate (pk : packet)                     (* missed in the map *)
| JForward (p : nat) (pk : packet)          (* in [ForwardPacket] *)
| JSend (c : nat) (pk : packet).            (* has the connection *)

Record world := {
  w_mgr : UDPSessionManager;
  w_conns : list conn;
  w_quota : option QuotaManager;
  w_jobs : list job;
  owner : list bytes;                       (* the key each session was made for *)
  received : list packet }.

Definition start_world (t : Z) (q : option QuotaManager) : world :=
  {| w_mgr := NewUDPSessionManager t; w_conns := []; w_quota := q; w_jobs := []; owner := []; received := [] |}.

Inductive step : world → world → Prop :=
| StHit w pk now p m' :
    get_existing (p_key pk) now (w_mgr w) = Some (p, m') →
    step w {| w_mgr := m'; w_conns := w_conns w; w_quota := w_quota w; w_jobs := JForward p pk :: w_jobs w;
              owner := owner w; received := pk :: received w |}
| StMiss w pk :
    sessions (w_mgr w) !! p_key pk = None →
    step w {| w_mgr := w_mgr w; w_conns := w_conns w; w_quota := w_quota w; w_jobs := JCreate pk :: w_jobs w;
              owner := owner w; received := pk :: received w |}
| StCreate w j1 pk j2 id now route p m' :
    w_jobs w = j1 ++ JCreate pk :: j2 → create pk id now route (w_mgr w) = Ok (p, m') →
    step w {| w_mgr := m'; w_conns := w_conns w; w_quota := w_quota w; w_jobs := JForward p pk :: j1 ++ j2;
              owner := owner w ++ [p_key pk]; received := received w |}
| StLock w j1 p pk j2 dialed q' c m' cs' :
    w_jobs w = j1 ++ JForward p pk :: j2 → charge (w_quota w) (p_user pk) (p_data pk) = (false, q') →
    lock_conn p (p_target pk) (p_user pk) dialed (w_mgr w) (w_conns w) = Some (c, m', cs') →
    step w {| w_mgr := m'; w_conns := cs'; w_quota := q'; w_jobs := JSend c pk :: j1 ++ j2;
              owner := owner w; received := received w |}
| StSend w j1 c pk j2 :
    w_jobs w = j1 ++ JSend c pk :: j2 →
    step w {| w_mgr := w_mgr w; w_conns := alter (send (p_data pk)) c (w_conns w); w_quota := w_quota w; w_jobs := j1 ++ j2;
              owner := owner w; received := received w |}
| StNoRoute w j1 pk j2 id now route e :
    w_jobs w = j1 ++ JCreate pk :: j2 → create pk id now route (w_mgr w) = Fail e →
    step w {| w_mgr := w_mgr w; w_conns := w_conns w; w_quota := w_quota w; w_jobs := j1 ++ j2; owner := owner w;
              received := received w |}
| StOverQuota w j1 p pk j2 q' :
    w_jobs w = j1 ++ JForward p pk :: j2 → charge (w_quota w) (p_user pk) (p_data pk) = (true, q') →
    step w {| w_mgr := w_mgr w; w_conns := w_conns w; w_quota := q'; w_jobs := j1 ++ j2; owner := owner w;
              received := received w |}
| StDialFailed w j1 p pk j2 q' :
    w_jobs w = j1 ++ JForward p pk :: j2 → charge (w_quota w) (p_user pk) (p_data pk) = (false, q') →
    lock_conn p (p_target pk) (p_user pk) false (w_mgr w) (w_conns w) = None →
    step w {| w_mgr := w_mgr w; w_conns := w_conns w; w_quota := q'; w_jobs := j1 ++ j2; owner := owner w;
              received := received w |}
| StCleanup w now :
    step w {| w_mgr := (cleanup now (w_mgr w) (w_conns w)).1; w_conns := (cleanup now (w_mgr w) (w_conns w)).2;
              w_quota := w_quota w; w_jobs := w_jobs w; owner := owner w; received := received w |}
| StReply w p now :        (* [handleReverseFlow] has sent a datagram back *)
    step w {| w_mgr := on_session p (seen now) (w_mgr w); w_conns := w_conns w; w_quota := w_quota w; w_jobs := w_jobs w;
              owner := owner w; received := received w |}.

End udp.
Arguments udpSession Out : clear implicits.
Arguments UDPSessionManager Out : clear implicits.
Arguments conn Out : clear implicits.
Arguments world Out : clear implicits.

Module UdpSessionThms.

Section thms.
Context `{OutboundHandler Out}.

(** ** What the invariant looks at *)

(** Of a session: its connection and its identifier. *)
Definition sview (m : UDPSessionManager Out) (p : nat) : option (option nat * bytes) :=
  (λ s, (us_conn s, us_sessionID s)) <$> heap m !! p.

(** Of a connection: what it was dialed with and what was written. *)
Definition cview (cs : list (conn Out)) : list (SessionMeta * list bytes) := (λ c, (cn_meta c, cn_written c)) <$> cs.

Lemma sview_seen p now m q : sview (on_session p (seen now) m) q = sview m q.
Proof.
  unfold sview, on_session. cbn. destruct (decide (p = q)) as [->|Hn]; [|by rewrite list_lookup_alter_ne].
  rewrite list_lookup_alter_eq. by destruct (heap m !! q).
Qed.

Lemma sview_connected p c m q :
  sview (on_session p (connected c) m) q = if bool_decide (p = q) then (λ v, (Some c, v.2)) <$> sview m q else sview m q.
Proof.
  unfold sview, on_session. cbn. case_bool_decide as Hq; [subst|by rewrite list_lookup_alter_ne].
  rewrite list_lookup_alter_eq. by destruct (heap m !! q).
Qed.

Lemma length_heap_on p f (m : UDPSessionManager Out) : length (heap (on_session p f m)) = length (heap m).
Proof. apply length_alter. Qed.

Lemma cview_close c cs : cview (alter close_conn c cs) = cview cs.
Proof.
  unfold cview. apply list_eq. intros i. rewrite !list_lookup_fmap.
  destruct (decide (c = i)) as [->|Hn]; [rewrite list_lookup_alter_eq|by rewrite list_lookup_alter_ne].
  by destruct (cs !! i).
Qed.

Lemma cview_cleanup now m cs : cview (cleanup now m cs).2 = cview cs.
Proof.
  unfold cleanup. cbn [snd]. generalize (filter (λ kp : bytes * nat, expired now m kp.2 = true) (map_to_list (sessions m))) as l.
  intros l. revert cs. induction l as [|[k p] l IH]; intros cs; [done|]. cbn [fold_left]. rewrite IH.
  unfold close_session. destruct (heap m !! _) as [s|]; [|done]. destruct (us_conn s); [apply cview_close|done].
Qed.

(** Writing adds at most the datagram. *)
Lemma cview_send d c cs i meta l :
  cview (alter (send d) c cs) !! i = Some (meta, l) →
  ∃ l0, cview cs !! i = Some (meta, l0) ∧ (l = l0 ∨ i = c ∧ l = l0 ++ [d]).
Proof.
  unfold cview. rewrite !list_lookup_fmap. destruct (decide (c = i)) as [->|Hn].
  - rewrite list_lookup_alter_eq. destruct (cs !! i) as [cn|]; cbn; [|done]. unfold send.
    destruct (cn_closed cn); cbn; intros [= <- <-]; eauto.
  - rewrite list_lookup_alter_ne by done. eauto.
Qed.

(** ** The invariant *)

(** A packet that came in under the key of session [p]. *)
Definition from_key (w : world Out) (p : nat) (pk : packet) : Prop := pk ∈ received w ∧ owner w !! p = Some (p_key pk).

Definition job_ok (w : world Out) (j : job) : Prop :=
  match j with
  | JCreate pk => pk ∈ received w
  | JForward p pk => from_key w p pk
  | JSend c pk => ∃ p id, sview (w_mgr w) p = Some (Some c, id) ∧ from_key w p pk
  end.

Definition conn_ok (w : world Out) (c : nat) (v : SessionMeta * list bytes) : Prop :=
  ∃ p id, sview (w_mgr w) p = Some (Some c, id) ∧ ID v.1 = id ∧ HopChain v.1 = [] ∧
    (∃ pk, from_key w p pk ∧ Target v.1 = p_target pk) ∧
    (∀ d, d ∈ v.2 → ∃ pk, from_key w p pk ∧ p_data pk = d).

Definition inv (w : world Out) : Prop :=
  length (owner w) = length (heap (w_mgr w)) ∧
  (∀ key p, sessions (w_mgr w) !! key = Some p → owner w !! p = Some key) ∧
  Forall (job_ok w) (w_jobs w) ∧
  (∀ c v, cview (w_conns w) !! c = Some v → conn_ok w c v) ∧
  (∀ p c id, sview (w_mgr w) p = Some (Some c, id) → (c < length (w_conns w))%nat) ∧
  (∀ p p' c id id', sview (w_mgr w) p = Some (Some c, id) → sview (w_mgr w) p' = Some (Some c, id') → p = p').

(** A world that knows at least as much. *)
Definition grows (w w' : world Out) : Prop :=
  (∀ pk, pk ∈ received w → pk ∈ received w') ∧ (∀ p key, owner w !! p = Some key → owner w' !! p = Some key) ∧
  (∀ p c id, sview (w_mgr w) p = Some (Some c, id) → sview (w_mgr w') p = Some (Some c, id)).

Lemma from_key_grows w w' p pk : grows w w' → from_key w p pk → from_key w' p pk.
Proof. intros (Hr & Ho & _) [H1 H2]. split; auto. Qed.

Lemma job_ok_grows w w' j : grows w w' → job_ok w j → job_ok w' j.
Proof.
  intros Hg. pose proof Hg as (Hr & Ho & Hs). destruct j as [pk|p pk|c pk]; cbn; [auto|by apply from_key_grows|].
  intros (p & id & Hv & Hf). exists p, id. split; [auto|]. by eapply from_key_grows.
Qed.

Lemma jobs_ok_grows w w' l : grows w w' → Forall (job_ok w) l → Forall (job_ok w') l.
Proof. intros Hg Hl. eapply Forall_impl; [exact Hl|]. intros j. by apply job_ok_grows. Qed.

Lemma conn_ok_grows w w' c v : grows w w' → conn_ok w c v → conn_ok w' c v.
Proof.
  intros Hg (p & id & Hv & Hid & Hh & (pk & Hpk & Ht) & Hd). pose proof Hg as (_ & _ & Hs). exists p, id.
  split; [auto|]. split; [done|]. split; [done|]. split; [exists pk; split; [by eapply from_key_grows|done]|].
  intros d (pk' & Hf & <-)%Hd. exists pk'. split; [by eapply from_key_grows|done].
Qed.

Lemma jobs_split w j1 j j2 : w_jobs w = j1 ++ j :: j2 → Forall (job_ok w) (w_jobs w) → job_ok w j ∧ Forall (job_ok w) (j1 ++ j2).
Proof. intros -> [H1 [Hj H2]%Forall_cons]%Forall_app. split; [done|]. by apply Forall_app. Qed.

(** A step that changes neither connections nor what the invariant sees of
    the sessions, and keeps, adds or removes jobs. *)
Lemma inv_same w w' :
  inv w → grows w w' → (∀ p, sview (w_mgr w') p = sview (w_mgr w) p) → cview (w_conns w') = cview (w_conns w) →
  length (owner w') = length (heap (w_mgr w')) →
  (∀ key p, sessions (w_mgr w') !! key = Some p → owner w' !! p = Some key) →
  Forall (job_ok w') (w_jobs w') → inv w'.
Proof.
  intros (_ & _ & _ & Hc & Hl & Hi) Hg Hv Hcv H1 H2 H3. unfold inv. split; [done|]. split; [done|]. split; [done|].
  split; [intros c v; rewrite Hcv; intros Hx; eapply conn_ok_grows; eauto|].
  assert (length (w_conns w') = length (w_conns w)) as ->.
  { apply (f_equal length) in Hcv. unfold cview in Hcv. by rewrite !length_fmap in Hcv. }
  split; [intros p c id|intros p p' c id id']; rewrite !Hv; eauto.
Qed.

Lemma inv_create w j1 pk j2 id now route p m' :
  inv w → w_jobs w = j1 ++ JCreate pk :: j2 → create pk id now route (w_mgr w) = Ok (p, m') →
  inv {| w_mgr := m'; w_conns := w_conns w; w_quota := w_quota w; w_jobs := JForward p pk :: j1 ++ j2;
         owner := owner w ++ [p_key pk]; received := received w |}.
Proof.
  intros Hinv Hj Hc. pose proof Hinv as (Ho & Hs & Hjobs & Hcs & Hl & Hi). unfold create in Hc.
  destruct (route _) as [out| |]; cbn in Hc; [|done|done]. injection Hc as <- <-.
  destruct (jobs_split _ _ _ _ Hj Hjobs) as [Hpk Hrest]. cbn in Hpk. set (w' := Build_world _ _ _ _ _ _).
  assert (∀ q c id', sview (w_mgr w') q = Some (Some c, id') ↔ sview (w_mgr w) q = Some (Some c, id')) as Hv.
  { intros q c id'. unfold sview, w'. cbn. destruct (decide (q < length (heap (w_mgr w)))%nat) as [Hq|Hq].
    - by rewrite lookup_app_l by done.
    - rewrite (lookup_ge_None_2 (heap (w_mgr w))), lookup_app_r by lia. split; [|done].
      destruct (q - length (heap (w_mgr w)))%nat as [|k]; done. }
  assert (grows w w') as Hg.
  { split; [done|]. split; [intros q key Hq; by apply lookup_app_l_Some|]. intros q c id'. apply Hv. }
  split; [cbn; rewrite !length_app; cbn; lia|]. split.
  { cbn. intros key q [[<- <-]|[Hne Hq]]%lookup_insert_Some; [by rewrite <-Ho, lookup_app_r, Nat.sub_diag|].
    apply lookup_app_l_Some. by apply Hs. }
  split; [constructor; [|by eapply jobs_ok_grows]|].
  { split; [done|]. cbn. by rewrite <-Ho, lookup_app_r, Nat.sub_diag. }
  split; [intros c v Hx; eapply conn_ok_grows; eauto|]. split.
  - intros q c id' Hq%Hv. by eapply Hl.
  - intros q q' c id1 id2 Hq1%Hv Hq2%Hv. by eapply Hi.
Qed.

(** A session that is locked without a connection gets a fresh one. *)
Lemma inv_dial w p pk s :
  inv w → heap (w_mgr w) !! p = Some s → us_conn s = None → from_key w p pk →
  let m' := on_session p (connected (length (w_conns w))) (w_mgr w) in
  let cs' := w_conns w ++ [{| cn_out := us_outbound s; cn_meta := fwd_meta s (p_target pk) (p_user pk); cn_written := [];
                              cn_closed := false |}] in
  ∀ q jobs, Forall (job_ok w) jobs →
  inv {| w_mgr := m'; w_conns := cs'; w_quota := q; w_jobs := JSend (length (w_conns w)) pk :: jobs; owner := owner w;
         received := received w |}.
Proof.
  intros Hinv Hp Hn Hf m' cs' q jobs Hjobs. pose proof Hinv as (Ho & Hs & _ & Hcs & Hl & Hi).
  set (w' := Build_world _ _ _ _ _ _). set (n := length (w_conns w)) in *.
  assert (sview (w_mgr w) p = Some (None, us_sessionID s)) as Hvp by (unfold sview; rewrite Hp; cbn; by rewrite Hn).
  assert (∀ x c id, sview (w_mgr w') x = Some (Some c, id) ↔
            sview (w_mgr w) x = Some (Some c, id) ∨ x = p ∧ c = n ∧ id = us_sessionID s) as Hv.
  { intros x c id. unfold w', m'. cbn. rewrite sview_connected. case_bool_decide as Hx; [subst|naive_solver].
    rewrite Hvp. cbn. split; [intros [= <- <-]; by right|intros [?|(_ & -> & ->)]; done]. }
  assert (grows w w') as Hg.
  { split; [done|]. split; [done|]. intros x c id Hx. apply Hv. by left. }
  assert (sview (w_mgr w') p = Some (Some n, us_sessionID s)) as Hvp' by (apply Hv; by right).
  split; [unfold w', m'; cbn; by rewrite length_alter|]. split; [done|].
  split; [constructor; [exists p, (us_sessionID s); split; [done|by eapply from_key_grows]|by eapply jobs_ok_grows]|].
  split.
  - intros c v Hx. unfold w', cs', cview in Hx. cbn in Hx. rewrite fmap_app in Hx.
    apply lookup_app_Some in Hx as [Hx|[Hge Hx]]; [eapply conn_ok_grows; [done|by apply Hcs]|].
    rewrite length_fmap in *. apply list_lookup_singleton_Some in Hx as [Hc <-].
    assert (c = n) as -> by (fold n in Hc; lia). exists p, (us_sessionID s). split; [done|]. cbn. split; [done|].
    split; [done|]. split; [exists pk; split; [by eapply from_key_grows|done]|]. set_solver.
  - unfold w', cs'. cbn [w_conns w_mgr]. rewrite length_app. cbn [length]. split.
    + intros x c id [Hx|(_ & -> & _)]%Hv; [apply Hl in Hx|]; subst n; lia.
    + intros x x' c id id' [Hx|(-> & -> & _)]%Hv [Hx'|(-> & Hc & _)]%Hv; [by eapply Hi| | |done].
      * apply Hl in Hx. subst n. lia.
      * apply Hl in Hx'. subst n. lia.
Qed.

Lemma inv_send w j1 c pk j2 :
  inv w → w_jobs w = j1 ++ JSend c pk :: j2 →
  inv {| w_mgr := w_mgr w; w_conns := alter (send (p_data pk)) c (w_conns w); w_quota := w_quota w; w_jobs := j1 ++ j2;
         owner := owner w; received := received w |}.
Proof.
  intros Hinv Hj. pose proof Hinv as (Ho & Hs & Hjobs & Hcs & Hl & Hi).
  destruct (jobs_split _ _ _ _ Hj Hjobs) as [(p & id & Hv & Hf) Hrest].
  split; [done|]. split; [done|]. split; [exact Hrest|]. split; [|split; [|done]].
  - intros i [meta l] Hx. apply cview_send in Hx as (l0 & Hx & Hl0). destruct (Hcs _ _ Hx) as (p' & id' & Hv' & Hid & Hh & Ht & Hd).
    exists p', id'. split; [done|]. split; [done|]. split; [done|]. split; [done|]. cbn in *.
    destruct Hl0 as [->|[-> ->]]; [done|]. intros d [Hin|Hin]%elem_of_app; [by apply Hd|].
    apply list_elem_of_singleton in Hin as ->. exists pk. split; [|done].
    assert (p' = p) as -> by (by eapply Hi). done.
  - cbn. intros q c' id' Hq. rewrite length_alter. by eapply Hl.
Qed.

Lemma inv_lock w j1 p pk j2 dialed q' c m' cs' :
  inv w → w_jobs w = j1 ++ JForward p pk :: j2 →
  lock_conn p (p_target pk) (p_user pk) dialed (w_mgr w) (w_conns w) = Some (c, m', cs') →
  inv {| w_mgr := m'; w_conns := cs'; w_quota := q'; w_jobs := JSend c pk :: j1 ++ j2; owner := owner w; received := received w |}.
Proof.
  intros Hinv Hj Hl. pose proof Hinv as (Ho & Hs & Hjobs & _). destruct (jobs_split _ _ _ _ Hj Hjobs) as [Hf Hrest].
  unfold lock_conn in Hl. destruct (heap (w_mgr w) !! p) as [s|] eqn:Hp; [|done]. cbn in Hl.
  destruct (us_conn s) as [c0|] eqn:Hc.
  - injection Hl as <- <- <-. eapply (inv_same w); try done. cbn. constructor; [|done].
    exists p, (us_sessionID s). split; [|done]. cbn [w_mgr]. unfold sview. rewrite Hp. cbn. by rewrite Hc.
  - destruct dialed; [|done]. injection Hl as <- <- <-. by apply inv_dial.
Qed.

Lemma udp_inv_step w w' : inv w → step w w' → inv w'.
Proof.
  intros Hinv Hs. pose proof Hinv as (Ho & Hk & Hjobs & _).
  destruct Hs as [w pk now p m' Hg|w pk Hm|w j1 pk j2 id now route p m' Hj Hc|w j1 p pk j2 dialed q' c m' cs' Hj Hq Hl
    |w j1 c pk j2 Hj|w j1 pk j2 id now route e Hj Hc|w j1 p pk j2 q' Hj Hq|w j1 p pk j2 q' Hj Hq Hl|w now|w p now].
  - unfold get_existing in Hg. destruct (sessions (w_mgr w) !! p_key pk) as [p0|] eqn:Hp; [|done].
    injection Hg as <- <-. assert (∀ q, sview (on_session p0 (seen now) (w_mgr w)) q = sview (w_mgr w) q) as Hv
      by (intros q; apply sview_seen).
    set (w' := Build_world _ _ _ _ _ _). assert (grows w w') as Hgr.
    { split; [set_solver|]. split; [done|]. intros q c id. cbn. by rewrite Hv. }
    apply (inv_same w); try done; [cbn; by rewrite length_alter|]. cbn. constructor; [|by eapply jobs_ok_grows].
    split; [set_solver|]. by apply Hk.
  - set (w' := Build_world _ _ _ _ _ _). assert (grows w w') as Hgr by (split; [set_solver|done]).
    apply (inv_same w); try done. cbn. constructor; [cbn; set_solver|by eapply jobs_ok_grows].
  - by eapply inv_create.
  - by eapply inv_lock.
  - by apply inv_send.
  - apply (inv_same w); try done. by destruct (jobs_split _ _ _ _ Hj Hjobs).
  - apply (inv_same w); try done. by destruct (jobs_split _ _ _ _ Hj Hjobs).
  - apply (inv_same w); try done. by destruct (jobs_split _ _ _ _ Hj Hjobs).
  - apply (inv_same w); try done; [apply cview_cleanup|]. cbn. intros key p [Hp _]%map_lookup_filter_Some. by apply Hk.
  - assert (∀ q, sview (on_session p (seen now) (w_mgr w)) q = sview (w_mgr w) q) as Hv by (intros q; apply sview_seen).
    set (w' := Build_world _ _ _ _ _ _). assert (grows w w') as Hgr.
    { split; [done|]. split; [done|]. intros q c id. cbn. by rewrite Hv. }
    apply (inv_same w); try done; [cbn; by rewrite length_alter|]. by eapply jobs_ok_grows.
Qed.

Lemma inv_start t q : inv (start_world t q).
Proof.
  split; [done|]. split; [intros key p Hp; cbn in Hp; by apply lookup_empty_Some in Hp|].
  split; [constructor|]. split; [done|]. split; done.
Qed.

Lemma inv_reachable t q (w : world Out) : rtc step (start_world t q) w → inv w.
Proof. intros Hw. apply (rtc_invariant step (start_world t q) w); [intros ??; apply udp_inv_step|done|apply inv_start]. Qed.

(** C11: UDP clients do not see each other's traffic.  However the receive
    loops, the forwarding goroutines, the cleanup and the reverse flows
    interleave: every outbound connection belongs to exactly one session,
    carries that session's identifier, was dialed for a target received under
    the session's key, and every datagram on it was received under that key. *)
Theorem udp_isolation (t : Z) (q : option QuotaManager) (w : world Out) (c : nat) (cn : conn Out) :
  rtc step (start_world t q) w → w_conns w !! c = Some cn →
  ∃ p s key, heap (w_mgr w) !! p = Some s ∧ us_conn s = Some c ∧ owner w !! p = Some key ∧ ID (cn_meta cn) = us_sessionID s ∧
    (∃ pk, pk ∈ received w ∧ p_key pk = key ∧ Target (cn_meta cn) = p_target pk) ∧
    (∀ d, d ∈ cn_written cn → ∃ pk, pk ∈ received w ∧ p_key pk = key ∧ p_data pk = d) ∧
    (∀ p' s', heap (w_mgr w) !! p' = Some s' → us_conn s' = Some c → p' = p).
Proof.
  intros Hw Hc. destruct (inv_reachable _ _ _ Hw) as (_ & _ & _ & Hcs & _ & Hi).
  destruct (Hcs c (cn_meta cn, cn_written cn)) as (p & id & Hv & Hid & _ & (pk & [Hr Ho] & Ht) & Hd).
  { unfold cview. by rewrite list_lookup_fmap, Hc. }
  unfold sview in Hv, Hi. destruct (heap (w_mgr w) !! p) as [s|] eqn:Hp; [|done]. injection Hv as Hsc <-.
  exists p, s, (p_key pk). split; [done|]. split; [done|]. split; [done|]. split; [done|].
  split; [by exists pk|]. split.
  - intros d (pk' & [Hr' Ho'] & <-)%Hd. exists pk'. split; [done|]. split; [congruence|done].
  - intros p' s' Hp' Hs'. eapply (Hi p' p c (us_sessionID s')); [by rewrite Hp'; cbn; rewrite Hs'|by rewrite Hp; cbn; rewrite Hsc].
Qed.

(** ** Cleanup *)

Lemma fold_close_lookup (m : UDPSessionManager Out) l cs c cn :
  fold_left (close_session m) l cs !! c = Some cn →
  ∃ cn0, cs !! c = Some cn0 ∧
    (cn = cn0 ∧ (∀ k p s, (k, p) ∈ l → heap m !! p = Some s → us_conn s ≠ Some c) ∨
     cn = close_conn cn0 ∧ ∃ k p s, (k, p) ∈ l ∧ heap m !! p = Some s ∧ us_conn s = Some c).
Proof.
  revert cs. induction l as [|[k p] l IH]; intros cs; cbn [fold_left].
  { intros Hc. exists cn. split; [done|]. left. split; [done|]. set_solver. }
  intros Hc. apply IH in Hc as (cn1 & Hc & Hcase). unfold close_session in Hc. cbn [snd] in Hc.
  destruct (heap m !! p) as [s|] eqn:Hp.
  2:{ exists cn1. split; [done|]. destruct Hcase as [[-> Hn]|[-> (k' & p' & s' & Hin & Hh & Hs)]]; [left|right]; (split; [done|]).
      - intros k' p' s' [[= -> ->]|Hin]%elem_of_cons Hh; [congruence|by eapply Hn].
      - exists k', p', s'. set_solver. }
  assert ((us_conn s = Some c ∧ ∃ cn0, cs !! c = Some cn0 ∧ cn1 = close_conn cn0) ∨ (us_conn s ≠ Some c ∧ cs !! c = Some cn1)) as Hs.
  { destruct (us_conn s) as [c0|]; [|by right].
    destruct (decide (c0 = c)) as [->|Hne].
    - left. split; [done|]. rewrite list_lookup_alter_eq in Hc. destruct (cs !! c) as [cn0|]; [|done]. injection Hc as <-. eauto.
    - right. split; [congruence|]. by rewrite list_lookup_alter_ne in Hc. }
  destruct Hs as [[Hs (cn0 & Hc0 & ->)]|[Hs Hc0]].
  - exists cn0. split; [done|]. right. split; [destruct Hcase as [[-> _]|[-> _]]; done|]. exists k, p, s. set_solver.
  - exists cn1. split; [done|]. destruct Hcase as [[-> Hn]|[-> (k' & p' & s' & Hin & Hh & Hs')]]; [left|right]; (split; [done|]).
    + intros k' p' s' [[= -> ->]|Hin]%elem_of_cons Hh; [by simplify_eq|by eapply Hn].
    + exists k', p', s'. set_solver.
Qed.

(** The cleanup removes exactly the idle sessions: a session stays in the
    map, with the same pointer, exactly if it was seen within the timeout;
    the connections of the removed ones are closed and no other connection
    is touched. *)
Theorem cleanup_exact (now : Z) (m : UDPSessionManager Out) (cs : list (conn Out)) (key : bytes) (c : nat) (cn : conn Out) :
  let '(m', cs') := cleanup now m cs in
  (∀ p, sessions m' !! key = Some p ↔ sessions m !! key = Some p ∧ expired now m p = false) ∧
  (cs' !! c = Some cn →
   ∃ cn0, cs !! c = Some cn0 ∧
     (cn = close_conn cn0 ∧ (∃ k p s, sessions m !! k = Some p ∧ heap m !! p = Some s ∧ expired now m p = true ∧ us_conn s = Some c) ∨
      cn = cn0 ∧ (∀ k p s, sessions m !! k = Some p → heap m !! p = Some s → us_conn s = Some c → expired now m p = false))).
Proof.
  unfold cleanup. cbn [sessions]. split; [intros p; by rewrite map_lookup_filter_Some|].
  intros Hc. apply fold_close_lookup in Hc as (cn0 & Hc & Hcase). exists cn0. split; [done|].
  destruct Hcase as [[-> Hn]|[-> (k & p & s & [He Hin]%list_elem_of_filter & Hh & Hs)]].
  - right. split; [done|]. intros k p s Hk Hh Hs. apply not_true_is_false. intros He. eapply Hn; [|exact Hh|exact Hs].
    apply list_elem_of_filter. split; [exact He|by apply elem_of_map_to_list].
  - left. split; [done|]. apply elem_of_map_to_list in Hin. exists k, p, s. done.
Qed.

End thms.

(** ** UDP over a chain *)

(** UDP sessions do not get through a chain.  [ForwardPacket] dials with
    metadata that has lost the hop chain [GetOrCreate] routed with: on every
    connection of every reachable state, a chain outbound writes a header
    that the node behind it drops. *)
Theorem udp_lost_in_chain `{UUIDLaws} (g : rnd) (fg : frnd) (t : Z) (q : option QuotaManager) (w : world handler) (c : nat)
    (cn : conn handler) (h : NPChainHandler) (payload : bytes) :
  rtc step (start_world t q) w → w_conns w !! c = Some cn → cn_out cn = HNPChain h →
  np_transport h = ("quic" : bytes) → obfuscated (oType (np_obfs h)) (Interval (np_obfs h)) = false →
  ∃ k h', Dial g fg (Ok open_sink) (cn_meta cn) h = (Dialed {| nc_peer := ("quic" : bytes, np_address h); nc_obfs := None; nc_sink := k |}, h') ∧
    journey 1 (concat (written k) ++ payload) = ([], Lost (Errorf "no more hops")).
Proof.
  intros Hw Hc _ Ht Ho. destruct (inv_reachable _ _ _ Hw) as (_ & _ & _ & Hcs & _).
  destruct (Hcs c (cn_meta cn, cn_written cn)) as (_ & _ & _ & _ & Hh & _).
  { unfold cview. by rewrite list_lookup_fmap, Hc. }
  by apply OutboundThms.dial_empty_chain.
Qed.


(** ** Concrete runs *)
Import DemoUUID.

Definition demo_packet : packet := forward_packet "192.0.2.9:53" "198.51.100.7:4000" 0 "query".

(** The first datagram of a client, from its arrival to the wire. *)
Lemma first_datagram `{OutboundHandler Out} (pk : packet) (id : bytes) (out : Out) :
  ∃ w, rtc step (start_world 0 None) w ∧
    w_conns w = [{| cn_out := out;
                    cn_meta := {| ID := id; TraceID := []; UserID := p_user pk; Source := None; Target := p_target pk; Network := "udp";
                                  HopChain := []; RouteTags := ∅; CreatedAt := 0 |};
                    cn_written := [p_data pk]; cn_closed := false |}].
Proof.
  eexists. split.
  - eapply rtc_l; [apply (StMiss _ pk); apply lookup_empty|].
    eapply rtc_l; [apply (StCreate _ [] pk [] id 0 (λ _, Ok out)); reflexivity|].
    eapply rtc_l; [apply (StLock _ [] 0 pk [] true None); reflexivity|].
    eapply rtc_l; [apply (StSend _ [] 0 pk []); reflexivity|]. apply rtc_refl.
  - reflexivity.
Qed.

Lemma udp_isolation_witness :
  ∃ w, rtc (step (Out := handler)) (start_world 0 None) w ∧
    ∃ p s key, heap (w_mgr w) !! p = Some s ∧ us_conn s = Some 0%nat ∧ owner w !! p = Some key ∧
      ∃ pk, pk ∈ received w ∧ p_key pk = key ∧ p_data pk = ("query" : bytes).
Proof.
  destruct (first_datagram demo_packet "s1" RouterThms.demo_direct) as (w & Hw & Hc). exists w. split; [exact Hw|].
  destruct (udp_isolation 0 None w 0 {| cn_out := RouterThms.demo_direct;
    cn_meta := {| ID := "s1"; TraceID := []; UserID := "anonymous"; Source := None; Target := "192.0.2.9:53"; Network := "udp";
                  HopChain := []; RouteTags := ∅; CreatedAt := 0 |}; cn_written := ["query" : bytes]; cn_closed := false |} Hw) as (p & s & key & Hp & Hs & Ho & _ & _ & Hd & _);
    [by rewrite Hc|].
  exists p, s, key. split; [exact Hp|]. split; [exact Hs|]. split; [exact Ho|]. apply Hd. cbn. left.
Defined.

Lemma udp_lost_in_chain_witness :
  ∃ w, rtc (step (Out := handler)) (start_world 0 None) w ∧
    ∃ cn k h', w_conns w !! 0%nat = Some cn ∧
      Dial (NPThms.demo_rnd Byte.x40) {| f_len := Byte.x00; f_pad := λ _, Byte.x00 |} (Ok open_sink) (cn_meta cn) (OutboundThms.demo_handler 30) =
        (Dialed {| nc_peer := ("quic" : bytes, np_address (OutboundThms.demo_handler 30)); nc_obfs := None; nc_sink := k |}, h') ∧
      journey 1 (concat (written k) ++ ("query" : bytes)) = ([], Lost (Errorf "no more hops")).
Proof.
  destruct (first_datagram demo_packet "s1" (HNPChain (OutboundThms.demo_handler 30))) as (w & Hw & Hc).
  exists w. split; [exact Hw|]. destruct (w_conns w) as [|cn l] eqn:Ec; [done|].
  destruct (udp_lost_in_chain (NPThms.demo_rnd Byte.x40) {| f_len := Byte.x00; f_pad := λ _, Byte.x00 |} 0 None w 0 cn
    (OutboundThms.demo_handler 30) ("query" : bytes) Hw) as (k & h' & Hk);
    [by rewrite Ec|by injection Hc as -> _|reflexivity|reflexivity|].
  exists cn, k, h'. split; [reflexivity|exact Hk].
Defined.

(** One idle and one fresh session, five minutes after the start. *)
Definition demo_session (c : nat) (seen_at : Z) : udpSession handler :=
  {| us_outbound := RouterThms.demo_direct; us_conn := Some c; us_sessionID := "s"; us_lastSeen := seen_at;
     us_clientAddr := []; us_inbound := 0; us_isSocks5 := false |}.

Definition demo_mgr : UDPSessionManager handler :=
  {| sessions := <["old" : bytes := 0%nat]> (<["new" : bytes := 1%nat]> ∅);
     heap := [demo_session 0 0; demo_session 1 (4 * minute)]; timeout := 2 * minute |}.

Definition demo_conn : conn handler :=
  {| cn_out := RouterThms.demo_direct; cn_meta := zeroMeta; cn_written := []; cn_closed := false |}.

Lemma cleanup_exact_witness :
  let '(m', cs') := cleanup (5 * minute) demo_mgr [demo_conn; demo_conn] in
  sessions m' !! ("new" : bytes) = Some 1%nat ∧ sessions m' !! ("old" : bytes) = None ∧
  cs' = [close_conn demo_conn; demo_conn] ∧
  ∃ cn0, [demo_conn; demo_conn] !! 0%nat = Some cn0 ∧
    (close_conn demo_conn = close_conn cn0 ∧
       (∃ k p s, sessions demo_mgr !! k = Some p ∧ heap demo_mgr !! p = Some s ∧ expired (5 * minute) demo_mgr p = true ∧ us_conn s = Some 0%nat) ∨
     close_conn demo_conn = cn0 ∧
       (∀ k p s, sessions demo_mgr !! k = Some p → heap demo_mgr !! p = Some s → us_conn s = Some 0%nat →
          expired (5 * minute) demo_mgr p = false)).
Proof.
  pose proof (cleanup_exact (5 * minute) demo_mgr [demo_conn; demo_conn] "new" 0 (close_conn demo_conn)) as Hx.
  destruct (cleanup (5 * minute) demo_mgr [demo_conn; demo_conn]) as [m' cs'] eqn:E. destruct Hx as [_ Hx].
  assert (sessions m' !! ("new" : bytes) = Some 1%nat ∧ sessions m' !! ("old" : bytes) = None ∧
          cs' = [close_conn demo_conn; demo_conn]) as (H1 & H2 & H3)
    by (vm_compute in E; injection E as <- <-; vm_compute; done).
  split; [exact H1|]. split; [exact H2|]. split; [exact H3|]. apply Hx. by rewrite H3.
Defined.

End UdpSessionThms.
