(* ===== verification/UdpRange.v ===== *)
(** * Port ranges: [UDPRangeHandler.Start] of [internal/inbound/udp_range.go]

    The handler opens a socket for every port of a range and forwards what
    arrives on it to the target's port at the same distance from the base.
    [bind] tells which ports could be bound.  The loop is described for end
    ports below the largest integer, where its counter does not overflow. *)

From S2P Require Import Prelude GoNet Types Socks5Udp Limits Stream NPChain Obfs Outbound Router UdpSession.

Definition hyphen : byte := Byte.x2d.

(** A socket of the range with the target it serves. *)
Record listener := { l_addr : bytes; l_sock : nat; l_target : bytes }.

Definition range_listener (bind : bytes → option nat) (host targetHost : bytes) (startPort targetBasePort p : Z) : option listener :=
  let addr := JoinHostPort host (Itoa p) in
  match bind addr with
  | None => None
  | Some c =>
      let targetPort := i64 (targetBasePort + i64 (p - startPort)) in
      Some {| l_addr := addr; l_sock := c; l_target := JoinHostPort targetHost (Itoa targetPort) |}
  end.

Definition range_Start (listenAddr targetBase : bytes) (bind : bytes → option nat) : res (list listener) :=
  let! (host, portRange) := SplitHostPort listenAddr in
  match split_byte hyphen portRange with
  | [p0; p1] =>
      let startPort := (Atoi p0).1 in
      let endPort := (Atoi p1).1 in
      let targetHost := host_of targetBase in
      let targetBasePort := (Atoi (port_of targetBase)).1 in
      Ok (omap (range_listener bind host targetHost startPort targetBasePort) (seqZ startPort (endPort - startPort + 1)))
  | _ => Fail (Errorf "invalid port range")
  end.

(** What [servePort] makes of a datagram on a listener's socket. *)
Definition range_receive (l : listener) (raddr data : bytes) : packet := range_packet (l_target l) raddr (l_sock l) data.

Module UdpRangeThms.

(** A range is mapped port by port.  For a listening range a-b and a base
    target port c, with ports in their range and hosts without brackets, a
    socket serves exactly the ports from a to b that could be bound, in
    order, and a datagram received on port p becomes a packet for port
    c + (p - a) of the target host, filed under its sender and that target;
    nothing else is served.  Where c + (p - a) passes 65535 the target has no
    valid port. *)
Theorem range_mapping (host thost : bytes) (a b c : Z) (bind : bytes → option nat) :
  lbrack ∉ host → rbrack ∉ host → lbrack ∉ thost → rbrack ∉ thost →
  0 ≤ a < 65536 → 0 ≤ b < 65536 → 0 ≤ c < 65536 →
  ∃ ls, range_Start (JoinHostPort host (Itoa a ++ hyphen :: Itoa b)) (JoinHostPort thost (Itoa c)) bind = Ok ls ∧
    (∀ l, l ∈ ls ↔ ∃ p, a ≤ p ≤ b ∧ bind (JoinHostPort host (Itoa p)) = Some (l_sock l) ∧
       l_addr l = JoinHostPort host (Itoa p) ∧ l_target l = JoinHostPort thost (Itoa (c + (p - a)))) ∧
    (∀ l raddr data, l ∈ ls → ∃ p, a ≤ p ≤ b ∧ p_target (range_receive l raddr data) = JoinHostPort thost (Itoa (c + (p - a))) ∧
       p_data (range_receive l raddr data) = data ∧
       p_key (range_receive l raddr data) = raddr ++ hyphen :: JoinHostPort thost (Itoa (c + (p - a)))).
Proof.
  intros Hl Hr Htl Htr Ha Hb Hc.
  assert (∀ x z, 0 ≤ z → is_digit x = false → x ∉ Itoa z) as Hd by (intros; by apply Itoa_not_in).
  assert (∀ x, is_digit x = false → x ≠ hyphen → x ∉ Itoa a ++ hyphen :: Itoa b) as Hx.
  { intros x Hx Hh. rewrite elem_of_app, elem_of_cons. pose proof (Hd x a ltac:(lia) Hx). pose proof (Hd x b ltac:(lia) Hx). naive_solver. }
  unfold range_Start. rewrite SplitHostPort_JoinHostPort by (done || by apply Hx). cbn [res_bind].
  rewrite split_byte_app, split_byte_none by (apply Hd; [lia|done]). rewrite !Atoi_Itoa by lia. unfold host_of, port_of.
  rewrite SplitHostPort_JoinHostPort by (done || (apply Hd; [lia|done])). cbn [fst]. rewrite Atoi_Itoa by lia. cbn [fst].
  set (ls := omap _ _).
  assert (∀ l, l ∈ ls ↔ ∃ p, a ≤ p ≤ b ∧ bind (JoinHostPort host (Itoa p)) = Some (l_sock l) ∧
       l_addr l = JoinHostPort host (Itoa p) ∧ l_target l = JoinHostPort thost (Itoa (c + (p - a)))) as Hls.
  { intros l. unfold ls. rewrite list_elem_of_omap. split.
    - intros (p & Hp & E). apply elem_of_seqZ in Hp. unfold range_listener in E.
      rewrite (i64_id (p - a)), i64_id in E by lia. destruct (bind _) as [s|] eqn:Eb; [|done]. injection E as <-.
      exists p. cbn. split; [lia|]. done.
    - intros (p & Hp & Eb & Ea & Et). exists p. rewrite elem_of_seqZ. split; [lia|]. unfold range_listener.
      rewrite Eb, (i64_id (p - a)), i64_id by lia. destruct l as [la lsk lt]. cbn in *. by subst. }
  exists ls. split; [done|]. split; [done|]. intros l raddr data (p & Hp & _ & _ & Et)%Hls. exists p. split; [done|].
  unfold range_receive, range_packet. cbn. by rewrite Et.
Qed.

Lemma range_mapping_witness :
  ∃ ls, range_Start "0.0.0.0:10000-10100" "192.0.2.1:20000" (λ _, Some 7%nat) = Ok ls ∧
    ({| l_addr := "0.0.0.0:10042"; l_sock := 7; l_target := "192.0.2.1:20042" |} ∈ ls).
Proof.
  destruct (range_mapping "0.0.0.0" "192.0.2.1" 10000 10100 20000 (λ _, Some 7%nat)) as (ls & E & Hl & _);
    [apply (bool_decide_unpack _); vm_compute; exact I..|lia|lia|lia|].
  exists ls. split; [exact E|]. apply Hl. exists 10042. split; [lia|]. split; [reflexivity|]. split; vm_compute; reflexivity.
Defined.

End UdpRangeThms.
