(* ===== verification/Transport.v ===== *)
(** * Transports: [internal/transport]

    [WSConn] turns a sequence of WebSocket messages into a byte stream; it is
    shown to be a reader in the sense of [ReaderSpec], so everything proved
    about readers holds over it.  [GenericDialer.Dial] chooses how to connect;
    [CertManager] reloads certificates under live TLS configurations;
    [QUICPool] shares connections between concurrent callers and is a step
    relation whose steps are its critical sections.  Establishing TLS, QUIC
    and WebSocket connections is the business of third-party packages and of
    the arguments here. *)

From S2P Require Import Prelude GoNet Stream Types NPChain.

(** ** WebSocket connections: [generic.go] *)

(** [rb] is the rest of the last message, [ws_msgs] the messages to come and
    [ws_err] the error behind them. *)
Record WSConn := { rb : bytes; ws_msgs : list bytes; ws_err : goerr }.

#[export] Instance ws_reader : GoReader WSConn := λ n w,
  match rb w with
  | [] =>
      match ws_msgs w with
      | [] => ([], Some (ws_err w), w)
      | msg :: ms => (take n msg, None, {| rb := drop n msg; ws_msgs := ms; ws_err := ws_err w |})
      end
  | _ => (take n (rb w), None, {| rb := drop n (rb w); ws_msgs := ws_msgs w; ws_err := ws_err w |})
  end.

(** [Write]: one binary message; the number of bytes and the error. *)
Definition ws_Write (b : bytes) (k : sink) : nat * option goerr * sink :=
  let '(e, k') := sink_write b k in
  match e with Some e => (0%nat, Some e, k') | None => (length b, None, k') end.

(** ** Dialing *)

Record tls_client := { tc_ServerName : bytes }.

Inductive dial_plan :=
| DialTCP (addr : bytes)
| DialTLS (addr : bytes) (tls : option tls_client)
| DialWS (url : bytes) (headers : list (bytes * bytes)) (tls : option tls_client).

(** [GenericDialer.Dial] up to the call that connects; [tls] is the
    [TLSConfig] of the dialer. *)
Definition generic_Dial (tls : option tls_client) (transport addr path sni : bytes) (headers : list (bytes * bytes)) : res dial_plan :=
  let! tlsCfg :=
    if bool_decide (sni = []) then Ok tls
    else match tls with Some _ => Ok (Some {| tc_ServerName := sni |}) | None => Panic end in
  if bool_decide (transport = ("tcp" : bytes)) then Ok (DialTCP addr)
  else if bool_decide (transport = ("tls" : bytes)) then Ok (DialTLS addr tlsCfg)
  else if bool_decide (transport = ("ws" : bytes) ∨ transport = ("wss" : bytes)) then
    let scheme : bytes := if bool_decide (transport = ("wss" : bytes)) then "wss" else "ws" in
    let path := if bool_decide (path = []) then ("/ws" : bytes) else path in
    Ok (DialWS (scheme ++ ("://" : bytes) ++ addr ++ path) headers tlsCfg)
  else Fail (Errorf "unsupported transport").

(** ** Certificates: [cert_manager.go] *)

Section certs.
Context {Cert Pool : Type}.

(** The contents of the files: the key pair and the CA file. *)
Record cert_files := { cf_pair : res Cert; cf_ca : res Pool }.

Record CertManager := { cm_cert : option Cert; cm_pool : option Pool; cm_insecure : bool }.

Definition Reload (f : cert_files) (cm : CertManager) : option goerr * CertManager :=
  match cf_pair f with
  | Ok c =>
      match cf_ca f with
      | Ok p => (None, {| cm_cert := Some c; cm_pool := Some p; cm_insecure := cm_insecure cm |})
      | _ => (Some (Errorf "failed to read CA"), cm)
      end
  | _ => (Some (Errorf "failed to load keypair"), cm)
  end.

Definition NewCertManager (f : cert_files) (insecure : bool) : res CertManager :=
  match Reload f {| cm_cert := None; cm_pool := None; cm_insecure := insecure |} with
  | (None, cm) => Ok cm
  | (Some e, _) => Fail e
  end.

(** A TLS configuration made by the manager: the pool is copied, the
    certificate asked for at every handshake. *)
Record tls_config := { tls_cas : option Pool; tls_name : bytes; tls_skip_verify : bool; tls_client_auth : bool }.

Definition GetTLSConfigServer (cm : CertManager) : tls_config :=
  {| tls_cas := cm_pool cm; tls_name := []; tls_skip_verify := false; tls_client_auth := true |}.

Definition GetTLSConfigClient (name : bytes) (cm : CertManager) : tls_config :=
  {| tls_cas := cm_pool cm; tls_name := name; tls_skip_verify := cm_insecure cm; tls_client_auth := false |}.

(** [GetCertificate] and [GetClientCertificate] at a handshake. *)
Definition presented (cm : CertManager) : res Cert := match cm_cert cm with Some c => Ok c | None => Panic end.

End certs.
Arguments cert_files Cert Pool : clear implicits.
Arguments CertManager Cert Pool : clear implicits.
Arguments tls_config Pool : clear implicits.

(** ** The pool of QUIC connections: [pool.go] *)

Module QPool.

(** The map, nil after [Close]; the calls of [Get] that are dialing; what
    [Get] has returned; for every connection its address and whether it is
    closed or its context done. *)
Record world := {
  conns : option (gmap bytes nat);
  dialing : list bytes;
  got : list (bytes * nat);
  made : list (bytes * bool);
  panicked : bool }.

Definition NewQUICPool : world := {| conns := Some ∅; dialing := []; got := []; made := []; panicked := false |}.

Definition lookup_conn (addr : bytes) (w : world) : option nat := match conns w with Some m => m !! addr | None => None end.

Definition kill (c : nat) (l : list (bytes * bool)) : list (bytes * bool) := alter (λ ab, (ab.1, true)) c l.

Definition is_dead (l : list (bytes * bool)) (c : nat) : bool := match l !! c with Some (_, d) => d | None => false end.

Definition close_all (m : gmap bytes nat) (l : list (bytes * bool)) : list (bytes * bool) := foldr kill l (map_to_list m).*2.

Inductive step : world → world → Prop :=
| GetHit w addr c :                                  (* [Get] finds a connection *)
    lookup_conn addr w = Some c →
    step w {| conns := conns w; dialing := dialing w; got := got w ++ [(addr, c)]; made := made w; panicked := panicked w |}
| GetMiss w addr :                                   (* [Get] does not and dials *)
    lookup_conn addr w = None →
    step w {| conns := conns w; dialing := dialing w ++ [addr]; got := got w; made := made w; panicked := panicked w |}
| DialErr w d1 addr d2 :
    dialing w = d1 ++ addr :: d2 →
    step w {| conns := conns w; dialing := d1 ++ d2; got := got w; made := made w; panicked := panicked w |}
| DialOk w d1 addr d2 :                              (* the new connection is stored, unless the map is nil *)
    dialing w = d1 ++ addr :: d2 →
    step w match conns w with
           | Some m =>
               {| conns := Some (<[addr := length (made w)]> m); dialing := d1 ++ d2; got := got w ++ [(addr, length (made w))];
                  made := made w ++ [(addr, false)]; panicked := panicked w |}
           | None =>
               {| conns := None; dialing := d1 ++ d2; got := got w; made := made w ++ [(addr, false)]; panicked := true |}
           end
| Die w c :                                          (* the peer or a timeout ends a connection *)
    step w {| conns := conns w; dialing := dialing w; got := got w; made := kill c (made w); panicked := panicked w |}
| Cleanup w :                                        (* a tick of [cleanupLoop] *)
    step w {| conns := filter (λ ac, is_dead (made w) ac.2 = false) <$> conns w; dialing := dialing w; got := got w;
              made := made w; panicked := panicked w |}
| Close w :
    step w {| conns := None; dialing := dialing w; got := got w;
              made := match conns w with Some m => close_all m (made w) | None => made w end; panicked := panicked w |}.

End QPool.

Module TransportThms.

(** ** WebSocket connections *)

Definition ws_bytes (w : WSConn) : bytes := rb w ++ concat (ws_msgs w).

Definition ws_ok (w : WSConn) : Prop := Forall (λ m, m ≠ []) (ws_msgs w).

Lemma take_nonempty {A} n (l : list A) : (0 < n)%nat → l ≠ [] → take n l ≠ [].
Proof. destruct n; [lia|]. by destruct l. Qed.

#[export] Program Instance ws_spec : ReaderSpec WSConn := {| rd_bytes := ws_bytes; rd_err := ws_err; rd_ok := ws_ok |}.
Next Obligation.
  intros n w got e w' Hok Hn E. unfold go_read, ws_reader in E. unfold ws_bytes, ws_ok in *.
  destruct (rb w) as [|x r] eqn:Er; [destruct (ws_msgs w) as [|m ms] eqn:Em|].
  - simplify_eq. rewrite Er, Em. repeat split; try done; simpl; lia.
  - simplify_eq. inversion Hok; subst. cbn. rewrite app_assoc, take_drop, length_take. repeat split; try done; [lia|].
    by apply take_nonempty.
  - simplify_eq. cbn [ws_msgs ws_err rb]. rewrite app_assoc, take_drop, length_take. repeat split; try done; [lia|].
    by apply take_nonempty.
Qed.

Lemma ws_written (ws : list bytes) (k : sink) :
  budget k = None → written (foldl (λ k b, (ws_Write b k).2) k ws) = written k ++ ws ∧ budget (foldl (λ k b, (ws_Write b k).2) k ws) = None.
Proof.
  revert k. induction ws as [|b ws IH]; intros k Hb; cbn [foldl]; [by rewrite app_nil_r|].
  assert ((ws_Write b k).2 = {| written := written k ++ [b]; budget := None |}) as ->
    by (unfold ws_Write, sink_write; by rewrite Hb).
  destruct (IH {| written := written k ++ [b]; budget := None |} eq_refl) as [-> ->]. cbn [written]. by rewrite <-app_assoc.
Qed.

(** A WebSocket connection is a byte stream.  Whatever non-empty pieces
    the sender writes and whatever amounts the receiver asks for, reading in
    full gives the next bytes of the concatenation of the pieces, nothing
    lost, repeated or reordered at message boundaries, and the error of the
    connection only behind the last byte. *)
Theorem ws_stream (ws : list bytes) (err : goerr) (sizes : list nat) :
  Forall (λ b, b ≠ []) ws → (sum_list sizes ≤ length (concat ws))%nat →
  let w0 := {| rb := []; ws_msgs := written (foldl (λ k b, (ws_Write b k).2) open_sink ws); ws_err := err |} in
  ∃ w, foldl (λ '(acc, w) n, let '(got, _, w') := io_ReadFull n w in (acc ++ got, w')) ([], w0) sizes =
    (take (sum_list sizes) (concat ws), w) ∧ ws_bytes w = drop (sum_list sizes) (concat ws) ∧
    (ws_bytes w = [] → ∀ n, (0 < n)%nat → go_read n w = ([], Some err, w)).
Proof.
  intros Hne Hsum w0. destruct (ws_written ws open_sink eq_refl) as [Hw _].
  assert (ws_ok w0 ∧ ws_bytes w0 = concat ws ∧ ws_err w0 = err) as (Hok & Hb & He)
    by (unfold w0, ws_ok, ws_bytes; cbn; rewrite Hw; done).
  assert (∀ acc w, ws_ok w → ws_err w = err → (sum_list sizes ≤ length (ws_bytes w))%nat → ∃ w',
    foldl (λ '(acc, w) n, let '(got, _, w') := io_ReadFull n w in (acc ++ got, w')) (acc, w) sizes =
      (acc ++ take (sum_list sizes) (ws_bytes w), w') ∧ ws_bytes w' = drop (sum_list sizes) (ws_bytes w) ∧ ws_ok w' ∧ ws_err w' = err) as Hl.
  { clear. induction sizes as [|n sizes IH]; intros acc w Hok He Hs; cbn [foldl sum_list] in *.
    - exists w. by rewrite take_0, app_nil_r, drop_0.
    - change (id n) with n in *. pose proof (io_ReadFull_spec n w) as Hrf. destruct (Hrf Hok) as (w1 & E & Hok1 & He1 & Hb1). rewrite E. cbn [rd_bytes rd_err ws_spec] in *.
      destruct (IH (acc ++ take n (ws_bytes w)) w1) as (w' & E' & Hb' & Hok' & He'); [done|congruence|rewrite Hb1, length_drop; lia|].
      exists w'. split; [|split; [rewrite Hb', Hb1, drop_drop; done|done]].
      rewrite E', Hb1, <-app_assoc. do 2 f_equal. rewrite <-(take_drop n (take (n + sum_list sizes) (ws_bytes w))).
      rewrite take_take, skipn_firstn_comm. do 2 f_equal; lia. }
  destruct (Hl [] w0 Hok He) as (w & E & Hbw & Hokw & Hew); [by rewrite Hb|]. rewrite Hb in E, Hbw. exists w. split; [exact E|]. split; [exact Hbw|].
  intros Hnil n Hn. unfold ws_bytes in Hnil. apply app_nil in Hnil as [H1 H2].
  unfold go_read, ws_reader. rewrite H1. destruct (ws_msgs w) as [|m ms] eqn:Em; [by rewrite Hew|].
  unfold ws_ok in Hokw. rewrite Em in Hokw. apply Forall_cons in Hokw as [Hm _]. cbn in H2. by destruct m.
Qed.

(** A chain header survives a WebSocket connection.  However the header
    and what follows are cut into messages, the node decodes the first hop
    and the session, and the relay starts exactly behind the header. *)
Theorem ws_carries_header `{UUIDLaws} (g : rnd) (meta : SessionMeta) (hop : bytes) (hops : list bytes) (rest hdr : bytes)
    (ws : list bytes) (err : goerr) :
  HopChain meta = hop :: hops → Forall good_hop (hop :: hops) → Z.of_nat (length hops) < 255 →
  hops = [] ∨ pad_len g meta = 0%nat → EncodeHeader g meta = Ok hdr →
  Forall (λ b, b ≠ []) ws → concat ws = hdr ++ rest →
  ∃ d w, DecodeNextHop {| rb := []; ws_msgs := ws; ws_err := err |} = (Ok d, w) ∧ nextHop d = hop ∧ hopErr d = None ∧
    sessionID d = uuid_String (session_bytes g meta) ∧ ws_bytes w = rest.
Proof.
  intros Hc Hg Hl Hp Henc Hne Hcat. set (w0 := {| rb := []; ws_msgs := ws; ws_err := err |}).
  pose proof (NPThms.decode_encoded w0 g meta hop hops rest Hc Hg Hl Hp) as Hdec. destruct (Hdec Hne) as (hdr' & es & Henc' & _ & Hd).
  rewrite Henc in Henc'. injection Henc' as <-. destruct (Hd Hcat) as (w & _ & Hb & _ & ->).
  eexists _, w. by repeat split.
Qed.

(** ** Certificates *)

(** A reload is all or nothing, and live configurations follow it only in
    part.  A reload that fails changes nothing; one that succeeds gives
    handshakes of every configuration made before or after it the new
    certificate, while the configurations made before keep verifying against
    the old pool of certificate authorities. *)
Theorem cert_reload {Cert Pool} (f f' : cert_files Cert Pool) (insecure : bool) (cm cm' : CertManager Cert Pool) (e : option goerr) :
  NewCertManager f insecure = Ok cm → Reload f' cm = (e, cm') →
  match e with
  | Some _ => cm' = cm
  | None =>
      ∃ c p, cf_pair f' = Ok c ∧ cf_ca f' = Ok p ∧ presented cm' = Ok c ∧ tls_cas (GetTLSConfigServer cm') = Some p
  end ∧
  (∃ c0 p0, cf_pair f = Ok c0 ∧ cf_ca f = Ok p0 ∧ presented cm = Ok c0 ∧ tls_cas (GetTLSConfigServer cm) = Some p0 ∧
    ∀ name, tls_cas (GetTLSConfigClient name cm) = Some p0 ∧ tls_skip_verify (GetTLSConfigClient name cm') = insecure).
Proof.
  unfold NewCertManager, Reload. intros Hn Hr.
  destruct (cf_pair f) as [c0| |], (cf_ca f) as [p0| |]; try done. injection Hn as <-. cbn in Hr.
  destruct (cf_pair f') as [c| |], (cf_ca f') as [p| |]; injection Hr as <- <-; split; try done; eauto 10.
Qed.

(** ** The pool *)

Section pool.
Import QPool.

Definition at_addr (w : world) (addr : bytes) (c : nat) : Prop := ∃ d, made w !! c = Some (addr, d).

Definition pool_inv (w : world) : Prop :=
  (∀ addr c, (addr, c) ∈ got w → at_addr w addr c) ∧ (∀ addr c, lookup_conn addr w = Some c → at_addr w addr c).

Lemma kill_addr c l c' addr d : l !! c' = Some (addr, d) → ∃ d', kill c l !! c' = Some (addr, d').
Proof.
  intros E. unfold kill. destruct (decide (c = c')) as [->|Hn].
  - rewrite list_lookup_alter_eq, E. eauto.
  - rewrite list_lookup_alter_ne by done. eauto.
Qed.

Lemma close_all_addr m l c addr d : l !! c = Some (addr, d) → ∃ d', close_all m l !! c = Some (addr, d').
Proof.
  intros E. unfold close_all. induction (map_to_list m).*2 as [|x xs IH]; cbn; [eauto|]. destruct IH as [d' E']. by apply (kill_addr _ _ _ _ d').
Qed.

Lemma pool_inv_step w w' : pool_inv w → step w w' → pool_inv w'.
Proof.
  intros [Hg Hc] Hs.
  destruct Hs as [w addr c E|w addr E|w d1 addr d2 E|w d1 addr d2 E|w c|w|w]; unfold pool_inv, at_addr, lookup_conn in *; cbn in *.
  - split; [|done]. intros a c'. rewrite elem_of_app, list_elem_of_singleton. intros [?|[= -> ->]]; auto.
  - done.
  - done.
  - assert (∀ a c, (∃ d, made w !! c = Some (a, d)) → ∃ d, (made w ++ [(addr, false)]) !! c = Some (a, d)) as Hm
      by (intros a c [d Hd]; exists d; by apply lookup_app_l_Some).
    destruct (conns w) as [m|]; cbn; (split; [|try done]); intros a c'.
    + rewrite elem_of_app, list_elem_of_singleton. intros [?|[= -> ->]]; [auto|]. exists false. by rewrite list_lookup_middle.
    + rewrite lookup_insert_Some. intros [[<- <-]|[_ ?]]; [exists false; by rewrite list_lookup_middle|auto].
    + auto.
  - split; intros a c' Hin; [destruct (Hg a c' Hin) as [d Hd]|destruct (Hc a c' Hin) as [d Hd]]; by apply (kill_addr _ _ _ _ d).
  - split; [done|]. intros a c'. destruct (conns w) as [m|]; cbn; [|done]. intros [? _]%map_lookup_filter_Some. auto.
  - split; [|done]. intros a c' Hin. destruct (Hg a c' Hin) as [d Hd]. destruct (conns w); [by apply (close_all_addr _ _ _ _ d)|eauto].
Qed.

(** The pool never mixes up addresses: in every interleaving of calls of
    [Get], dials, deaths, clean-ups and [Close], a connection [Get] returned
    for an address, and one the pool holds under it, was dialed to that
    address. *)
Theorem pool_addresses (w : world) :
  rtc step NewQUICPool w →
  (∀ addr c, (addr, c) ∈ got w → at_addr w addr c) ∧ (∀ addr c, lookup_conn addr w = Some c → at_addr w addr c).
Proof.
  intros Hw. apply (rtc_invariant step NewQUICPool w pool_inv pool_inv_step Hw).
  split; [by intros ? ? ?%not_elem_of_nil|done].
Qed.

Lemma leak_run (addr : bytes) :
  ∃ w, rtc step NewQUICPool w ∧ conns w = None ∧ got w = [(addr, 0%nat); (addr, 1%nat)] ∧
    made w = [(addr, false); (addr, true)] ∧ dialing w = [].
Proof.
  eexists. split.
  - eapply rtc_l; [apply (GetMiss _ addr); reflexivity|]. eapply rtc_l; [apply (GetMiss _ addr); reflexivity|].
    eapply rtc_l; [apply (DialOk _ [] addr [addr]); reflexivity|]. eapply rtc_l; [apply (DialOk _ [] addr []); reflexivity|].
    eapply rtc_l; [apply Close|]. apply rtc_refl.
  - cbn. rewrite insert_insert_eq. unfold close_all. by rewrite insert_empty, map_to_list_singleton.
Qed.

(** Concurrent calls leak a connection, and a call after [Close] panics.
    Two calls of [Get] for an address that start before either has dialed
    open two connections; the second replaces the first in the map, and
    [Close] does not close the first.  A call that misses after [Close] and
    whose dial succeeds writes to the nil map. *)
Theorem pool_leaks (addr : bytes) :
  ∃ w, rtc step NewQUICPool w ∧ conns w = None ∧ (addr, 0%nat) ∈ got w ∧ is_dead (made w) 0 = false ∧
    ∃ w', rtc step w w' ∧ panicked w' = true.
Proof.
  destruct (leak_run addr) as (w & Hw & Hc & Hg & Hm & Hd). exists w. split; [done|]. split; [done|].
  split; [rewrite Hg; left|]. split; [by rewrite Hm|].
  eexists. split; [eapply rtc_l; [apply (GetMiss w addr); unfold lookup_conn; by rewrite Hc|]; eapply rtc_l;
    [apply (DialOk _ [] addr []); cbn; by rewrite Hd|apply rtc_refl]|]. cbn. by rewrite Hc.
Qed.

End pool.

(** ** Concrete runs *)

Import DemoUUID.

Lemma ws_stream_witness :
  ∃ w, foldl (λ '(acc, w) n, let '(got, _, w') := io_ReadFull n w in (acc ++ got, w'))
      ([], {| rb := []; ws_msgs := written (foldl (λ k b, (ws_Write b k).2) open_sink ["hel" : bytes; "lo wor" : bytes; "ld" : bytes]);
              ws_err := EOF |}) [5%nat; 1%nat; 5%nat] = ("hello world" : bytes, w) ∧ go_read 4 w = ([], Some EOF, w).
Proof.
  destruct (ws_stream ["hel" : bytes; "lo wor" : bytes; "ld" : bytes] EOF [5%nat; 1%nat; 5%nat]) as (w & E & Hb & Hn);
    [repeat constructor; discriminate|cbn; lia|].
  exists w. split; [exact E|]. apply Hn; [rewrite Hb; reflexivity|lia].
Defined.

Lemma ws_carries_header_witness :
  let g := NPThms.demo_rnd Byte.x15 in let meta := NPThms.demo_meta ["192.0.2.7:80" : bytes] in
  let hdr := NPThms.encoded g meta in
  ∃ d w, DecodeNextHop {| rb := []; ws_msgs := [take 7 hdr; drop 7 hdr ++ ("pay" : bytes); "load" : bytes]; ws_err := EOF |} = (Ok d, w) ∧
    nextHop d = ("192.0.2.7:80" : bytes) ∧ hopErr d = None ∧ sessionID d = uuid_String (session_bytes g meta) ∧
    ws_bytes w = ("payload" : bytes).
Proof.
  intros g meta hdr. apply (ws_carries_header g meta ("192.0.2.7:80" : bytes) [] ("payload" : bytes) hdr);
    [reflexivity| |simpl; lia|by left|vm_compute; reflexivity|apply (bool_decide_unpack _); vm_compute; exact I|vm_compute; reflexivity].
  constructor; [|constructor]. exists ("192.0.2.7" : bytes), 80. split; [vm_compute; reflexivity|]. split; [vm_compute; reflexivity|lia].
Defined.

Lemma cert_reload_witness :
  let cm := {| cm_cert := Some 1; cm_pool := Some 10; cm_insecure := false |} in
  let cm' := {| cm_cert := Some 2; cm_pool := Some 20; cm_insecure := false |} in
  presented cm' = Ok 2 ∧ tls_cas (GetTLSConfigServer cm') = Some 20 ∧ tls_cas (GetTLSConfigServer cm) = Some 10.
Proof.
  intros cm cm'. pose proof (cert_reload {| cf_pair := Ok 1; cf_ca := Ok 10 |} {| cf_pair := Ok 2; cf_ca := Ok 20 |} false cm cm' None
    eq_refl eq_refl) as ((c & p & [= <-] & [= <-] & H1 & H2) & (c0 & p0 & _ & [= <-] & _ & H3 & _)).
  split; [exact H1|]. split; [exact H2|exact H3].
Defined.

Lemma pool_addresses_witness :
  ∃ w, rtc QPool.step QPool.NewQUICPool w ∧ QPool.got w = [("n1:443" : bytes, 0%nat); ("n1:443" : bytes, 1%nat)] ∧
    at_addr w ("n1:443" : bytes) 0.
Proof.
  destruct (leak_run ("n1:443" : bytes)) as (w & Hw & _ & Hg & _). exists w. split; [exact Hw|]. split; [exact Hg|].
  apply (proj1 (pool_addresses w Hw)). rewrite Hg. left.
Defined.

End TransportThms.
