(* ===== verification/Agent.v ===== *)
(** * The agent: [internal/agent], and [cmd/npctl]'s generated configuration

    The agent owns the router, the resolver, the running inbounds, the
    limiters and the quotas, applies configurations and policies to them and
    answers the administration interface.  A running inbound is described by
    what it was made from ([inbound_handler]); whether the certificate manager
    of [Transport.v] could be made from the configured files is the flag
    [a_cert] (the manager is nil otherwise).  The
    router's resolver is a pointer to the agent's own: [agent_router] is the
    router with that resolver as it is at the moment of a call. *)

From S2P Require Import Prelude GoNet Types Obfs NPChain Limits Relay FakeIP Outbound Router Dns Config Transport.

(** ** Maps of sessions: [udp_manager.go], [datagram_router.go] *)

Record UDPSession := { u_Conn : nat; u_ClientAddr : bytes }.

Definition NewUDPSessionManager : gmap bytes UDPSession := ∅.
Definition NewDatagramRouter : gmap bytes nat := ∅.

Definition udp_Add (id : bytes) (s : UDPSession) (m : gmap bytes UDPSession) : gmap bytes UDPSession := <[id := s]> m.
Definition udp_Get (id : bytes) (m : gmap bytes UDPSession) : option UDPSession := m !! id.
Definition udp_Remove (id : bytes) (m : gmap bytes UDPSession) : gmap bytes UDPSession := delete id m.

Definition dg_Register (id : bytes) (conn : nat) (t : gmap bytes nat) : gmap bytes nat := <[id := conn]> t.
Definition dg_Get (id : bytes) (t : gmap bytes nat) : option nat := t !! id.
Definition dg_Unregister (id : bytes) (t : gmap bytes nat) : gmap bytes nat := delete id t.

(** The datagram callback of the QUIC server: what is written where. *)
Definition on_datagram `{UUID} (data : bytes) (m : gmap bytes UDPSession) : res (option (nat * bytes * bytes)) :=
  match UnpackDatagram data with
  | Ok (sid, payload) =>
      Ok match udp_Get sid m with Some s => Some (u_Conn s, u_ClientAddr s, payload) | None => None end
  | Fail _ => Ok None
  | Panic => Panic
  end.

(** ** Outbounds and rules *)

(** The handler of a configured outbound, if its protocol is known; making a
    chain handler asks the certificate manager for a TLS configuration. *)
Definition new_outbound (cert : bool) (c : OutboundConfig) : res (option handler) :=
  if bool_decide (out_Protocol c = ("direct" : bytes)) then
    Ok (Some (HDirect (NewDirectHandler (out_Name c) (out_Group c))))
  else if bool_decide (out_Protocol c = ("npchain" : bytes)) then
    if bool_decide (out_Transport c = ("quic" : bytes)) then
      if cert then
        Ok (Some (HNPChain (NewNPChainHandler (out_Name c) (out_Group c) (out_Address c) (out_Transport c)
                              (out_Obfuscation c) (out_MultiPath c))))
      else Panic
    else Ok None
  else Ok None.

Definition rule_of (r : RoutingRuleConfig) : RoutingRule :=
  {| Type_ := rr_Type r; Pattern := rr_Pattern r; Types.Outbound := rr_Outbound r; OutboundGroup := rr_OutboundGroup r;
     Strategy := rr_Strategy r |}.

Fixpoint add_outbounds (cert : bool) (cs : list OutboundConfig) (r : BaseRouter handler) : res (BaseRouter handler) :=
  match cs with
  | [] => Ok r
  | c :: cs' =>
      let! h := new_outbound cert c in
      add_outbounds cert cs' match h with Some h => AddOutbound h r | None => r end
  end.

Definition applyConfigToRouter (cert : bool) (cfg : Config) (r : BaseRouter handler) : res (BaseRouter handler) :=
  let! r' := add_outbounds cert (Outbounds cfg) r in
  Ok (UpdateRules (rule_of <$> rt_Rules (Routing cfg)) r').

(** ** Inbounds *)

Inductive inbound_handler :=
| ISocks5 (listen : bytes) (proxy : bool) (auth : AuthConfig)
| IHTTP (listen : bytes) (proxy : bool) (auth : AuthConfig)
| ITCPForward (listen : bytes) (proxy : bool) (target : bytes)
| ITCPBalance (listen : bytes) (proxy : bool) (targets : list bytes)
| IUDPForward (listen target : bytes)
| IUDPRange (listen target : bytes)
| IRedirect (listen : bytes) (proxy : bool)
| ITProxy (listen : bytes) (proxy : bool).

(** The constructors of internal/inbound. *)
Definition NewSocks5Handler (listen : bytes) (useProxyProto : bool) (auth : AuthConfig) : inbound_handler := ISocks5 listen useProxyProto auth.
Definition NewHTTPProxyHandler (listen : bytes) (useProxyProto : bool) (auth : AuthConfig) : inbound_handler := IHTTP listen useProxyProto auth.
Definition NewTCPForwardHandler (listen : bytes) (useProxyProto : bool) (target : bytes) : inbound_handler := ITCPForward listen useProxyProto target.
Definition NewUDPForwardHandler (listen target : bytes) : inbound_handler := IUDPForward listen target.
Definition NewUDPRangeHandler (listen target : bytes) : inbound_handler := IUDPRange listen target.
Definition NewRedirectHandler (listen : bytes) (useProxyProto : bool) : inbound_handler := IRedirect listen useProxyProto.
Definition NewTProxyHandler (listen : bytes) (useProxyProto : bool) : inbound_handler := ITProxy listen useProxyProto.

(** [settings[k].(string)] and [settings[k].([]interface{})], with the zero
    value when the assertion fails. *)
Definition setting_str (m : gmap bytes any) (k : bytes) : bytes :=
  match m !! k with Some (AStr s) => s | _ => [] end.

Definition setting_strs (m : gmap bytes any) (k : bytes) : list bytes :=
  match m !! k with
  | Some (AList l) => flat_map (λ a, match a with AStr s => [s] | _ => [] end) l
  | _ => []
  end.

Definition new_inbound (c : InboundConfig) : option inbound_handler :=
  let p := in_Protocol c in
  if bool_decide (p = ("socks5" : bytes)) then Some (NewSocks5Handler (in_Listen c) (in_ProxyProtocol c) (in_Auth c))
  else if bool_decide (p = ("http" : bytes)) then Some (NewHTTPProxyHandler (in_Listen c) (in_ProxyProtocol c) (in_Auth c))
  else if bool_decide (p = ("tcp-forward" : bytes)) then
    Some (NewTCPForwardHandler (in_Listen c) (in_ProxyProtocol c) (setting_str (in_Settings c) "target"))
  else if bool_decide (p = ("tcp-balance" : bytes)) then
    Some (ITCPBalance (in_Listen c) (in_ProxyProtocol c) (setting_strs (in_Settings c) "targets"))
  else if bool_decide (p = ("udp-forward" : bytes)) then Some (NewUDPForwardHandler (in_Listen c) (setting_str (in_Settings c) "target"))
  else if bool_decide (p = ("udp-range" : bytes)) then Some (NewUDPRangeHandler (in_Listen c) (setting_str (in_Settings c) "target"))
  else if bool_decide (p = ("redirect" : bytes)) then Some (NewRedirectHandler (in_Listen c) (in_ProxyProtocol c))
  else if bool_decide (p = ("tproxy" : bytes)) then Some (NewTProxyHandler (in_Listen c) (in_ProxyProtocol c))
  else None.

Definition inbound_key (c : InboundConfig) : bytes := in_Protocol c ++ ("-" : bytes) ++ in_Listen c.

Definition inbound_map (l : list InboundConfig) : gmap bytes InboundConfig :=
  fold_left (λ m c, <[inbound_key c := c]> m) l ∅.

(** [syncInbounds]: the handlers that run afterwards, and those stopped and
    started on the way. *)
Record sync_result := {
  sr_active : gmap bytes inbound_handler; sr_stopped : gmap bytes inbound_handler; sr_started : gmap bytes inbound_handler }.

Definition syncInbounds (cfg : Config) (active : gmap bytes inbound_handler) : sync_result :=
  let new := inbound_map (Inbounds cfg) in
  let kept := filter (λ kh, is_Some (new !! kh.1)) active in
  let started := omap new_inbound (filter (λ kc, kept !! kc.1 = None) new) in
  {| sr_active := kept ∪ started; sr_stopped := filter (λ kh, ~ is_Some (new !! kh.1)) active; sr_started := started |}.

(** ** Policies *)

Record PolicyUpdate := { UserId : bytes; BandwidthMbps : Z; QuotaMb : Z; Revoke : bool }.

Definition apply_policy (p : PolicyUpdate) (lq : Rate.LimiterManager * Quota.QuotaManager) :
  Rate.LimiterManager * Quota.QuotaManager :=
  let '(lm, qm) := lq in
  if Revoke p then (lm, qm)
  else
    (if bool_decide (0 < BandwidthMbps p) then Rate.Update (UserId p) (BandwidthMbps p) lm else lm,
     if bool_decide (0 < QuotaMb p) then Quota.SetLimit (UserId p) (i64 (i64 (QuotaMb p * 1024) * 1024)) qm else qm).

Definition handlePolicyUpdate (ps : list PolicyUpdate) (lq : Rate.LimiterManager * Quota.QuotaManager) :
  Rate.LimiterManager * Quota.QuotaManager := fold_left (λ lq p, apply_policy p lq) ps lq.

(** ** The agent *)

Section agent.
Context `{DNSMsg Msg}.

Record Agent := {
  a_cfg : Config;
  a_state : Z;
  a_cert : bool;
  a_router : BaseRouter handler;
  a_dns : SmartResolver Msg;
  a_inbounds : gmap bytes inbound_handler;
  a_lm : Rate.LimiterManager;
  a_qm : Quota.QuotaManager;
  a_udp : gmap bytes UDPSession;
  a_dg : gmap bytes nat;
  a_admin : option bytes;              (* the address of the administration server *)
  a_quic : option (bytes * ObfsConfig); (* the address and obfuscation of the chain server *)
  a_control : bool;                    (* whether a control client runs *)
  a_ctx : option bool }.               (* the context, once made: whether it is cancelled *)

(** Before [Start] the router and the resolver are nil; nothing uses them, and
    the record holds the empty ones [Start] makes. *)
Definition New (cfg : Config) : Agent :=
  {| a_cfg := cfg; a_state := 0; a_cert := false; a_router := NewRouter; a_dns := NewSmartResolver; a_inbounds := ∅;
     a_lm := Rate.NewLimiterManager (PerUserBandwidthMBps (Config.Limits cfg)); a_qm := Quota.NewQuotaManager;
     a_udp := NewUDPSessionManager; a_dg := NewDatagramRouter; a_admin := None; a_quic := None; a_control := false; a_ctx := None |}.

(** The router with the agent's resolver. *)
Definition agent_router (a : Agent) : BaseRouter handler := SetResolver (as_resolver (a_dns a)) (a_router a).

(** The resolver [Start] makes; the error of [EnableFakeIP] is dropped. *)
Definition start_dns (cfg : Config) : res (SmartResolver Msg) :=
  let fk := rt_FakeIP (Routing cfg) in
  let! sr :=
    if fk_Enabled fk then
      match EnableFakeIP (if bool_decide (fk_Range fk = []) then "198.18.0.0/16" else fk_Range fk) NewSmartResolver with
      | Ok sr => Ok sr
      | Fail _ => Ok NewSmartResolver
      | Panic => Panic
      end
    else Ok NewSmartResolver in
  let sr := fold_left (λ sr u, AddUpstreamByString "local" u sr) (rt_DNSUpstreams (Routing cfg)) sr in
  Ok (AddUpstreamByString "remote" "https://dns.google/dns-query" (AddUpstreamByString "remote" "8.8.8.8:53" sr)).

(** The chain server: where it listens and how its streams are obfuscated. *)
Definition quic_of (cfg : Config) : option (bytes * ObfsConfig) :=
  if bool_decide (n_Type (Node cfg) = ("relay" : bytes) ∨ n_Type (Node cfg) = ("egress" : bytes) ∨
                  n_Type (Node cfg) = ("ingress" : bytes)) then
    Some (match Inbounds cfg with i :: _ => in_Listen i | [] => ("0.0.0.0:443" : bytes) end,
          match List.find (λ i, bool_decide (in_Protocol i = ("npchain" : bytes))) (Inbounds cfg) with
          | Some i => in_Obfuscation i
          | None => zeroObfs
          end)
  else None.

(** The files of the machine, and what [crypto/tls] makes of the contents of a
    certificate and a key file. *)
Record disk := { d_files : fs; d_pair : bytes → bytes → res bytes }.

Definition ReadFile (path : bytes) (f : fs) : res bytes :=
  match files f !! path with Some b => Ok b | None => Fail (Errorf "no such file or directory") end.

(** What [NewCertManager] finds under the configured names. *)
Definition cert_files_of (d : disk) (c : ControllerConfig) : cert_files bytes bytes :=
  {| cf_pair := let! cert := ReadFile (ct_CertFile c) (d_files d) in
                let! key := ReadFile (ct_KeyFile c) (d_files d) in d_pair d cert key;
     cf_ca := ReadFile (ct_CAFile c) (d_files d) |}.

(** The certificate manager is nil when the files do not load. *)
Definition cert_loaded (d : disk) (c : ControllerConfig) : bool :=
  match NewCertManager (cert_files_of d c) (ct_Insecure c) with Ok _ => true | _ => false end.

Definition Start (d : disk) (a : Agent) : res Agent :=
  if negb (bool_decide (a_state a = 0)) then Fail (Errorf "agent already running")
  else
    let cfg := a_cfg a in
    let cert := cert_loaded d (Controller cfg) in
    let! dns := start_dns cfg in
    let! r := applyConfigToRouter cert cfg NewRouter in
    if ct_Enabled (Controller cfg) && negb cert then Panic
    else
      Ok {| a_cfg := cfg; a_state := 1; a_cert := cert; a_router := r; a_dns := dns;
            a_inbounds := sr_active (syncInbounds cfg (a_inbounds a)); a_lm := a_lm a; a_qm := a_qm a; a_udp := a_udp a;
            a_dg := a_dg a;
            a_admin := if bool_decide (n_AdminAddr (Node cfg) = []) then None else Some (n_AdminAddr (Node cfg));
            a_quic := quic_of cfg; a_control := ct_Enabled (Controller cfg); a_ctx := Some false |}.

(** The callback [Start] subscribes to configuration changes. *)
Definition on_config (cfg : Config) (a : Agent) : res Agent :=
  let! r := applyConfigToRouter (a_cert a) cfg (a_router a) in
  Ok {| a_cfg := a_cfg a; a_state := a_state a; a_cert := a_cert a; a_router := r; a_dns := a_dns a;
        a_inbounds := sr_active (syncInbounds cfg (a_inbounds a)); a_lm := a_lm a; a_qm := a_qm a; a_udp := a_udp a;
        a_dg := a_dg a; a_admin := a_admin a; a_quic := a_quic a; a_control := a_control a; a_ctx := a_ctx a |}.

(** [Stop] calls the cancel function, nil before [Start]; the state stays 1. *)
Definition Stop (a : Agent) : res Agent :=
  match a_ctx a with
  | None => Panic
  | Some _ =>
      Ok {| a_cfg := a_cfg a; a_state := a_state a; a_cert := a_cert a; a_router := a_router a; a_dns := a_dns a;
            a_inbounds := a_inbounds a; a_lm := a_lm a; a_qm := a_qm a; a_udp := a_udp a; a_dg := a_dg a; a_admin := None;
            a_quic := None; a_control := false; a_ctx := Some true |}
  end.

Definition handleRemoteCommand (cmd : bytes) (a : Agent) : res Agent :=
  if bool_decide (cmd = ("shutdown" : bytes)) then Stop a else Ok a.

(** The policies a controller sends reach the agent's limiters and quotas. *)
Definition on_policies (ps : list PolicyUpdate) (a : Agent) : Agent :=
  let '(lm, qm) := handlePolicyUpdate ps (a_lm a, a_qm a) in
  {| a_cfg := a_cfg a; a_state := a_state a; a_cert := a_cert a; a_router := a_router a; a_dns := a_dns a;
     a_inbounds := a_inbounds a; a_lm := lm; a_qm := qm; a_udp := a_udp a; a_dg := a_dg a; a_admin := a_admin a;
     a_quic := a_quic a; a_control := a_control a; a_ctx := a_ctx a |}.

(** What can happen to an agent: configurations are stored by the manager at
    any time and delivered to the callback once [Start] subscribed it;
    commands and policies come from the control client. *)
Inductive agent_step : Agent → Agent → Prop :=
| as_start d a a' : Start d a = Ok a' → agent_step a a'
| as_store cfg a :
    agent_step a {| a_cfg := cfg; a_state := a_state a; a_cert := a_cert a; a_router := a_router a; a_dns := a_dns a;
                    a_inbounds := a_inbounds a; a_lm := a_lm a; a_qm := a_qm a; a_udp := a_udp a; a_dg := a_dg a;
                    a_admin := a_admin a; a_quic := a_quic a; a_control := a_control a; a_ctx := a_ctx a |}
| as_config cfg a a' : is_Some (a_ctx a) → on_config cfg a = Ok a' → agent_step a a'
| as_policies ps a : is_Some (a_ctx a) → agent_step a (on_policies ps a)
| as_command cmd a a' : is_Some (a_ctx a) → handleRemoteCommand cmd a = Ok a' → agent_step a a'
| as_stop a a' : Stop a = Ok a' → agent_step a a'.

End agent.
Arguments Agent Msg : clear implicits.

(** ** The administration interface *)

Definition OK : Z := 200.
Definition NotFound : Z := 404.
Definition InternalServerError : Z := 500.

(** The sessions that are cancelled, the status and the text. *)
Definition handleAdminKick (id : bytes) (m : sessions) : list bytes * Z * bytes :=
  match m !! id with
  | Some s => ([id], OK, "Session closed" : bytes)
  | None => ([], NotFound, "Session not found" : bytes)
  end.

Definition handleAdminKickUser (user : bytes) (m : sessions) : list bytes * Z * bytes :=
  ((map_to_list (filter (λ ks, siUserID ks.2 = user) m)).*1, OK, "User connections closed" : bytes).

Definition handleAdminConnections (m : sessions) : list SessionInfo := (map_to_list m).*2.

Fixpoint join_byte (sep : byte) (l : list bytes) : bytes :=
  match l with [] => [] | [w] => w | w :: r => w ++ sep :: join_byte sep r end.

(** [handleAdminConfig] writes the whole configuration; [handleAdminPorts]
    writes nothing. *)
Definition handleAdminConfig `{DNSMsg Msg} (a : Agent Msg) : Config := a_cfg a.

Definition handleAdminPorts : bytes := [].

(** [ApplyConfig] hands a configuration to the manager. *)
Definition ApplyConfig (cfg : Config) (cm : ConfigManager) : option goerr * ConfigManager * list (nat * Config) := Update cfg cm.

(** [data] is the result of reading the log file: its bytes, or the text of
    the error. *)
Definition handleAdminLogs (cfg : Config) (data : bytes + bytes) : Z * bytes :=
  let logPath := lg_Path (ob_Logging (Observability cfg)) in
  if bool_decide (logPath = []) then (NotFound, "Log path not configured" : bytes)
  else match data with
       | inl data =>
           let lines := split_byte lf data in
           let start := Z.of_nat (length lines) - 100 in
           let start := if bool_decide (start < 0) then 0 else start in
           (OK, join_byte lf (drop (Z.to_nat start) lines))
       | inr err => (InternalServerError, ("Failed to read logs: " : bytes) ++ err)
       end.

Definition handleAdminQuotaReset (user : bytes) (qm : Quota.QuotaManager) : Quota.QuotaManager * bytes :=
  (Quota.Reset user qm, "Quota reset" : bytes).

Definition handleAdminDNSFlush `{DNSMsg Msg} (dns : option (SmartResolver Msg)) : option (SmartResolver Msg) * Z * bytes :=
  match dns with
  | Some sr => (Some (Flush sr), OK, "DNS cache flushed" : bytes)
  | None => (None, InternalServerError, "DNS resolver not initialized" : bytes)
  end.

(** The fields of the status reply. *)
Record admin_status := {
  node_id : bytes; node_type : bytes; version : bytes; active_sessions : Z; total_bytes_in : Z; total_bytes_out : Z; state : Z }.

Definition handleAdminStatus `{DNSMsg Msg} (a : Agent Msg) (g : shared) : admin_status :=
  {| node_id := n_ID (Node (a_cfg a)); node_type := n_Type (Node (a_cfg a)); version := "2.0";
     active_sessions := Metrics.activeCount (s_count g); total_bytes_in := Metrics.totalBytesIn (s_count g); total_bytes_out := Metrics.totalBytesOut (s_count g);
     state := a_state a |}.

(** ** [npctl init-config] *)

Definition generateInitConfig : Config :=
  {| Version := "2.0";
     Node := {| n_ID := "agent-auto"; n_Type := "ingress"; n_AdminAddr := []; n_Tags := ∅ |};
     Controller := Controller zeroConfig;
     Inbounds := [{| in_Protocol := "socks5"; in_Listen := "127.0.0.1:1080"; in_Transport := []; in_ProxyProtocol := false;
                     in_Obfuscation := zeroObfs; in_Auth := {| Enabled := false; Users := [] |}; in_WSPath := [];
                     in_WSHeader := ∅; in_Settings := ∅ |}];
     Outbounds :=
       [ {| out_Name := "direct"; out_Protocol := "direct"; out_Group := "default"; out_Address := []; out_Transport := [];
            out_Obfuscation := zeroObfs; out_MultiPath := false; out_TLSSNI := []; out_WSPath := []; out_WSHeader := ∅;
            out_Settings := ∅ |};
         {| out_Name := "proxy-node"; out_Protocol := "np-chain"; out_Group := []; out_Address := "YOUR_RELAY_IP:443";
            out_Transport := "quic"; out_Obfuscation := zeroObfs; out_MultiPath := false; out_TLSSNI := []; out_WSPath := [];
            out_WSHeader := ∅; out_Settings := ∅ |} ];
     Routing := {| rt_Rules := (λ r, {| rr_Type := Type_ r; rr_Pattern := Pattern r; rr_Outbound := Types.Outbound r;
                                        rr_OutboundGroup := []; rr_Strategy := [] |}) <$> GenerateDefaultSplitConfig "proxy-node";
                   rt_DNSUpstreams := []; rt_DNSIsolationThreshold := 0; rt_FakeIP := {| fk_Enabled := false; fk_Range := [] |} |};
     Observability := {| ob_Tracing := ob_Tracing (Observability zeroConfig);
                         ob_Metrics := {| mt_Enabled := true; mt_Listen := "0.0.0.0:9090" |};
                         ob_Logging := {| lg_Level := "info"; lg_Format := "console"; lg_Path := [] |} |};
     Config.Limits := Config.Limits zeroConfig |}.

Module AgentThms.

(** ** Inbounds *)

Lemma sync_lookup cfg active key :
  sr_active (syncInbounds cfg active) !! key =
  match inbound_map (Inbounds cfg) !! key with
  | None => None
  | Some c => match active !! key with Some h => Some h | None => new_inbound c end
  end.
Proof.
  unfold syncInbounds. cbn [sr_active]. set (new := inbound_map (Inbounds cfg)).
  set (kept := filter (λ kh : bytes * inbound_handler, is_Some (new !! kh.1)) active).
  assert (kept !! key = match new !! key with Some _ => active !! key | None => None end) as Hk.
  { unfold kept. destruct (new !! key) eqn:En.
    - destruct (active !! key) as [h|] eqn:Ea; [|by apply map_lookup_filter_None; left].
      apply map_lookup_filter_Some. split; [done|]. cbn. by rewrite En.
    - apply map_lookup_filter_None. right. intros h _. cbn. rewrite En. by intros [? ?]. }
  rewrite lookup_union, lookup_omap, Hk. destruct (new !! key) as [c|] eqn:En.
  - destruct (active !! key) as [h|] eqn:Ea.
    + destruct (filter _ new !! key ≫= new_inbound) eqn:E; [|done].
      exfalso. destruct (filter _ new !! key) eqn:E2; [|done]. apply map_lookup_filter_Some in E2 as [_ E2]. cbn in E2.
      rewrite Hk in E2. done.
    + rewrite (proj2 (map_lookup_filter_Some _ _ _ c)); [cbn; by destruct (new_inbound c)|]. split; [done|]. cbn. by rewrite Hk.
  - rewrite (proj2 (map_lookup_filter_None _ _ _)); [done|]. by left.
Qed.

(** The table of inbounds after a reload: a configured key keeps the handler
    under it, or gets the one its configuration describes, if its protocol
    has one; every other handler is stopped.  Applying the same configuration
    again stops and starts nothing. *)
Theorem sync_inbounds_exact (cfg : Config) (active : gmap bytes inbound_handler) (key : bytes) :
  let r := syncInbounds cfg active in
  (sr_active r !! key =
     match inbound_map (Inbounds cfg) !! key with
     | None => None
     | Some c => match active !! key with Some h => Some h | None => new_inbound c end
     end) ∧
  (sr_stopped r !! key = if bool_decide (is_Some (inbound_map (Inbounds cfg) !! key)) then None else active !! key) ∧
  sr_active (syncInbounds cfg (sr_active r)) = sr_active r ∧ sr_stopped (syncInbounds cfg (sr_active r)) = ∅.
Proof.
  intros r. split; [apply sync_lookup|]. split; [|split].
  - unfold r, syncInbounds. cbn. case_bool_decide as Hs.
    + apply map_lookup_filter_None. right. naive_solver.
    + destruct (active !! key) as [h|] eqn:E; [by apply map_lookup_filter_Some|]. apply map_lookup_filter_None. by left.
  - apply map_eq. intros k. rewrite sync_lookup. unfold r. rewrite !sync_lookup.
    destruct (inbound_map (Inbounds cfg) !! k); [|done]. destruct (active !! k); [done|]. by destruct (new_inbound _).
  - apply map_empty. intros k. apply map_lookup_filter_None. right. intros h Hk Hn. apply Hn. cbn. unfold r in Hk.
    rewrite sync_lookup in Hk. destruct (inbound_map (Inbounds cfg) !! k); [eauto|done].
Qed.

Lemma inbound_map_snoc l c : inbound_map (l ++ [c]) = <[inbound_key c := c]> (inbound_map l).
Proof. unfold inbound_map. by rewrite fold_left_app. Qed.

Lemma inbound_map_elem l c : c ∈ l → is_Some (inbound_map l !! inbound_key c).
Proof.
  induction l as [|d l IH] using rev_ind; [set_solver|]. rewrite inbound_map_snoc.
  destruct (decide (inbound_key d = inbound_key c)) as [->|Hn]; [rewrite lookup_insert_eq; eauto|].
  rewrite lookup_insert_ne by done. intros [?|?%list_elem_of_singleton]%elem_of_app; [auto|congruence].
Qed.

(** A reload does not change a running inbound.  The key of an inbound is
    its protocol and its listen address: a new configuration with other
    users, another target or other settings under the same key leaves the
    handler made from the old one. *)
Theorem reload_keeps_old_settings (cfg : Config) (active : gmap bytes inbound_handler) (c : InboundConfig) (h : inbound_handler) :
  c ∈ Inbounds cfg → active !! inbound_key c = Some h →
  sr_active (syncInbounds cfg active) !! inbound_key c = Some h ∧ sr_started (syncInbounds cfg active) !! inbound_key c = None.
Proof.
  intros Hin Ha. apply inbound_map_elem in Hin as [c' Hc]. split; [by rewrite sync_lookup, Hc, Ha|].
  unfold syncInbounds. cbn [sr_started]. rewrite lookup_omap. rewrite (proj2 (map_lookup_filter_None _ _ _)); [done|].
  right. intros x _. cbn. rewrite (proj2 (map_lookup_filter_Some _ _ _ h)); [done|]. split; [done|]. cbn. by rewrite Hc.
Qed.

(** ** Outbounds *)

(** The handlers a list of outbounds gives. *)
Definition handlers (cert : bool) (cs : list OutboundConfig) : list handler :=
  flat_map (λ c, match new_outbound cert c with Ok (Some h) => [h] | _ => [] end) cs.

Definition last_named (name : bytes) (hs : list handler) : option handler := last (filter (λ h, Name h = name) hs).

Lemma last_named_cons name h hs :
  last_named name (h :: hs) =
  match last_named name hs with Some x => Some x | None => if bool_decide (Name h = name) then Some h else None end.
Proof.
  unfold last_named. rewrite filter_cons. case_decide as Hn.
  - rewrite (bool_decide_true (Name h = name)) by done. rewrite last_cons. by destruct (last _).
  - rewrite (bool_decide_false (Name h = name)) by done. by destruct (last _).
Qed.

Lemma add_outbounds_spec cert cs r :
  (∀ c, c ∈ cs → new_outbound cert c ≠ Panic) →
  ∃ r', add_outbounds cert cs r = Ok r' ∧ geoip r' = geoip r ∧ resolver r' = resolver r ∧
    ∀ name, outbounds r' !! name = match last_named name (handlers cert cs) with Some h => Some h | None => outbounds r !! name end.
Proof.
  revert r. induction cs as [|c cs IH]; intros r Hc; [by exists r|]. cbn [add_outbounds].
  pose proof (Hc c ltac:(left)) as Hn.
  assert (∀ e, new_outbound cert c ≠ Fail e) as Hf by (unfold new_outbound; repeat case_bool_decide; by destruct cert).
  unfold handlers. cbn [flat_map]. destruct (new_outbound cert c) as [o|e|] eqn:E; [|by destruct (Hf e)|done]. cbn [res_bind].
  destruct (IH match o with Some h => AddOutbound h r | None => r end) as (r' & E' & Hg & Hr & Ho); [set_solver|].
  exists r'. split; [done|]. destruct o as [h|]; cbn in Hg, Hr; (split; [done|]); (split; [done|]); intros name; rewrite Ho; [|done].
  fold (handlers cert cs). cbn [app]. rewrite last_named_cons. destruct (last_named name (handlers cert cs)); [done|]. cbn.
  case_bool_decide as Hnm; [subst; by rewrite lookup_insert_eq|by rewrite lookup_insert_ne].
Qed.

(** A configuration is applied to the router as written: the rules are
    replaced by the configured ones in their order, and every name gets the
    last configured outbound of that name.  An outbound that is no longer
    configured stays: whatever names the new configuration does not mention
    route as before. *)
Theorem apply_config_exact (cert : bool) (cfg : Config) (r : BaseRouter handler) :
  (∀ c, c ∈ Outbounds cfg → new_outbound cert c ≠ Panic) →
  ∃ r', applyConfigToRouter cert cfg r = Ok r' ∧ rules r' = rule_of <$> rt_Rules (Routing cfg) ∧ resolver r' = resolver r ∧
    ∀ name, outbounds r' !! name =
      match last_named name (handlers cert (Outbounds cfg)) with Some h => Some h | None => outbounds r !! name end.
Proof.
  intros Hc. unfold applyConfigToRouter. destruct (add_outbounds_spec cert (Outbounds cfg) r Hc) as (r' & -> & _ & Hr & Ho).
  cbn [res_bind]. eexists. split; [done|]. done.
Qed.

(** ** The generated configuration *)

Lemma init_rules : rule_of <$> rt_Rules (Routing generateInitConfig) = GenerateDefaultSplitConfig "proxy-node".
Proof. reflexivity. Qed.

(** The configuration [npctl] generates does not reach its proxy.  An
    agent started with it (no certificate is needed) sends IPv4 sessions to
    loopback and the two private ranges directly and refuses every other one:
    the generated outbound says "np-chain" where the agent knows "npchain", so
    no outbound of the name "proxy-node" exists. *)
Theorem init_config_routes `{DNSMsg Msg} (dk : disk) (order : list handler) (meta : SessionMeta) (ip : bytes) (a b c d : byte) :
  ParseIP (host_of (Target meta)) = Some ip → To4 ip = Some [a; b; c; d] →
  ∃ ag, Start dk (New (Msg := Msg) generateInitConfig) = Ok ag ∧
    Route order (agent_router ag) meta =
      if bool_decide (b2z a = 127 ∨ b2z a = 10 ∨ b2z a = 192 ∧ b2z b = 168)
      then Ok (HDirect (NewDirectHandler "direct" "default")) else Fail ErrNoAvailableOutbound.
Proof.
  intros Hip Ha. eexists. split; [reflexivity|]. set (r := agent_router _).
  assert (restore r meta = Ok meta) as Hr by (unfold restore; rewrite Hip; reflexivity).
  pose proof (RouterThms.split_find r "proxy-node" meta ip a b c d eq_refl Hip Ha) as Hf.
  unfold Route. rewrite Hr. cbn [res_bind]. change (rules r) with (GenerateDefaultSplitConfig "proxy-node").
  destruct (List.find _ _) as [rule|]; [|done]. injection Hf as Hf. rewrite Hf.
  case_bool_decide; rewrite bool_decide_false by done; reflexivity.
Qed.

(** ** Life cycle *)

(** The key a handler belongs under. *)
Definition handler_key (h : inbound_handler) : bytes :=
  match h with
  | ISocks5 l _ _ => "socks5-" ++ l | IHTTP l _ _ => "http-" ++ l | ITCPForward l _ _ => "tcp-forward-" ++ l
  | ITCPBalance l _ _ => "tcp-balance-" ++ l | IUDPForward l _ => "udp-forward-" ++ l | IUDPRange l _ => "udp-range-" ++ l
  | IRedirect l _ => "redirect-" ++ l | ITProxy l _ => "tproxy-" ++ l
  end.

Lemma new_inbound_key c h : new_inbound c = Some h → handler_key h = inbound_key c.
Proof. unfold new_inbound, inbound_key. intros E. repeat case_bool_decide; try done;
    injection E as <-; cbn [handler_key]; match goal with Hp : in_Protocol c = _ |- _ => by rewrite Hp end.
Qed.

Lemma inbound_map_key l key c : inbound_map l !! key = Some c → inbound_key c = key.
Proof.
  induction l as [|d l IH] using rev_ind; [done|]. rewrite inbound_map_snoc. rewrite lookup_insert_Some. naive_solver.
Qed.

Definition keyed (active : gmap bytes inbound_handler) : Prop := ∀ key h, active !! key = Some h → handler_key h = key.

Lemma sync_keyed cfg active : keyed active → keyed (sr_active (syncInbounds cfg active)).
Proof.
  intros Hk key h. rewrite sync_lookup. destruct (inbound_map _ !! key) as [c|] eqn:E; [|done].
  apply inbound_map_key in E as <-. destruct (active !! _) eqn:Ea; [intros [= <-]; by apply Hk|apply new_inbound_key].
Qed.

Definition agent_inv `{DNSMsg Msg} (a : Agent Msg) : Prop :=
  keyed (a_inbounds a) ∧
  match a_ctx a with
  | None => a_state a = 0 ∧ a_inbounds a = ∅ ∧ a_admin a = None ∧ a_quic a = None ∧ a_control a = false
  | Some cancelled => a_state a = 1 ∧ (cancelled = true → a_admin a = None ∧ a_quic a = None ∧ a_control a = false)
  end.

Lemma Start_Ok `{DNSMsg Msg} cert (a a' : Agent Msg) :
  Start cert a = Ok a' →
  a_state a = 0 ∧ a_inbounds a' = sr_active (syncInbounds (a_cfg a) (a_inbounds a)) ∧ a_state a' = 1 ∧ a_ctx a' = Some false.
Proof.
  unfold Start. case_bool_decide; cbn [negb]; [|done]. destruct (start_dns _) as [dns| |]; cbn [res_bind]; [|done|done].
  destruct (applyConfigToRouter _ _ _) as [r| |]; cbn [res_bind]; [|done|done]. destruct (_ && _); [done|]. by intros [= <-].
Qed.

Lemma Stop_inv `{DNSMsg Msg} (a a' : Agent Msg) : agent_inv a → Stop a = Ok a' → agent_inv a'.
Proof. intros [Hk Hc]. unfold Stop. destruct (a_ctx a) eqn:E; [|done]. intros [= <-]. split; [done|]. by destruct Hc as [? _]. Qed.

Lemma agent_inv_step `{DNSMsg Msg} (a a' : Agent Msg) : agent_inv a → agent_step a a' → agent_inv a'.
Proof.
  intros Hi. destruct 1 as [cert a a' E|cfg a|cfg a a' Hs E|ps a Hs|cmd a a' Hs E|a a' E].
  - apply Start_Ok in E as (_ & Ei & Es & Ec). split; [rewrite Ei; apply sync_keyed, Hi|]. by rewrite Ec.
  - done.
  - unfold on_config in E. destruct (applyConfigToRouter _ _ _); [|done|done]. injection E as <-. destruct Hi as [Hk Hc].
    split; [by apply sync_keyed|]. cbn. by destruct (a_ctx a); [|destruct Hs].
  - unfold on_policies. by destruct (handlePolicyUpdate _ _).
  - unfold handleRemoteCommand in E. case_bool_decide; [by apply (Stop_inv a)|by injection E as <-].
  - by apply (Stop_inv a).
Qed.

(** C23: The life of an agent.  Whatever sequence of starts, configurations,
    policies, commands and stops it goes through, it starts at most once (a
    stopped agent cannot be started again), stopping it before it was started
    panics and afterwards always succeeds, a stopped agent has no
    administration, chain or control server left, and every running inbound
    is held under the key of its own protocol and address. *)
Theorem agent_lifecycle `{DNSMsg Msg} (cfg : Config) (a : Agent Msg) :
  rtc agent_step (New cfg) a →
  keyed (a_inbounds a) ∧
  match a_ctx a with
  | None => a_inbounds a = ∅ ∧ Stop a = Panic
  | Some cancelled =>
      (∀ d, Start d a = Fail (Errorf "agent already running")) ∧
      (∃ a', Stop a = Ok a' ∧ a_ctx a' = Some true ∧ a_inbounds a' = a_inbounds a) ∧
      (cancelled = true → a_admin a = None ∧ a_quic a = None ∧ a_control a = false)
  end.
Proof.
  intros Hr. assert (agent_inv a) as [Hk Hc].
  { apply (rtc_invariant _ (New cfg) a agent_inv (λ u v Hu Hs, agent_inv_step u v Hu Hs)); [done|]. split; [|done].
    intros k h. cbn. by rewrite lookup_empty. }
  split; [done|]. unfold Stop, Start. destruct (a_ctx a) as [b|]; [|naive_solver]. destruct Hc as [Hs Hb]. rewrite Hs.
  split; [done|]. split; [|done]. eexists. done.
Qed.

(** ** Policies *)

Lemma mib_id q : 0 < q < 2 ^ 43 → i64 (i64 (q * 1024) * 1024) = q * 1048576.
Proof. intros Hq. rewrite (i64_id (q * 1024)) by lia. rewrite i64_id by lia. lia. Qed.

(** A policy takes effect as sent.  After a list of policies, the last
    one for a user, unless it revokes, has set the user's limiter to its
    bandwidth and the user's quota to its volume, in units of 2^20 bytes and
    without overflow below 2^43 units; a zero leaves the value it finds, and
    other users are not affected by it.  A revoking policy changes nothing. *)
Theorem policy_applied (ps : list PolicyUpdate) (p : PolicyUpdate) (lq : Rate.LimiterManager * Quota.QuotaManager) (v : bytes) :
  BandwidthMbps p < 2 ^ 43 → QuotaMb p < 2 ^ 43 →
  let '(lm, qm) := handlePolicyUpdate ps lq in
  let '(lm', qm') := handlePolicyUpdate (ps ++ [p]) lq in
  if Revoke p then lm' = lm ∧ qm' = qm
  else
    (Quota.limit_of qm' (UserId p) = if bool_decide (0 < QuotaMb p) then QuotaMb p * 1048576 else Quota.limit_of qm (UserId p)) ∧
    (0 < BandwidthMbps p → ∃ b, Rate.limiters lm' !! UserId p = Some (Some b) ∧ Rate.b_rate b = BandwidthMbps p * 1048576) ∧
    (BandwidthMbps p ≤ 0 → lm' = lm) ∧
    (v ≠ UserId p → Quota.limit_of qm' v = Quota.limit_of qm v ∧ Rate.limiters lm' !! v = Rate.limiters lm !! v).
Proof.
  intros Hb Hq. unfold handlePolicyUpdate. rewrite fold_left_app. cbn [fold_left].
  destruct (fold_left _ ps lq) as [lm qm]. unfold apply_policy. destruct (Revoke p); [done|].
  split; [|split; [|split]].
  - case_bool_decide; [|done]. unfold Quota.limit_of, Quota.SetLimit. cbn. rewrite lookup_insert_eq. cbn. apply mib_id. lia.
  - intros H0. rewrite bool_decide_true by done. unfold Rate.Update. cbn. rewrite lookup_insert_eq, mib_id by lia.
    unfold Rate.NewBandwidthLimiter. rewrite bool_decide_false by lia. eexists. split; [done|]. done.
  - intros H0. by rewrite bool_decide_false by lia.
  - intros Hv. split; case_bool_decide; [|done| |done]; unfold Quota.limit_of; cbn; by rewrite lookup_insert_ne.
Qed.

(** ** The log view *)

Lemma split_byte_nonempty sep s : split_byte sep s ≠ [].
Proof. destruct s as [|x s]; [done|]. cbn. case_bool_decide; [done|]. by destruct (split_byte sep s). Qed.

Lemma join_byte_cons sep w ws : ws ≠ [] → join_byte sep (w :: ws) = w ++ sep :: join_byte sep ws.
Proof. by destruct ws. Qed.

(** Joining undoes splitting. *)
Lemma join_split sep s : join_byte sep (split_byte sep s) = s.
Proof.
  induction s as [|x s IH]; [done|]. cbn [split_byte]. case_bool_decide as Hx.
  - rewrite join_byte_cons, IH by apply split_byte_nonempty. by subst.
  - pose proof (split_byte_nonempty sep s). destruct (split_byte sep s) as [|w ws]; [done|].
    destruct ws as [|w' ws]; cbn in *; by rewrite <-IH.
Qed.

Lemma join_drop sep ws n : (n < length ws)%nat → ∃ pre, join_byte sep ws = pre ++ join_byte sep (drop n ws).
Proof.
  revert n. induction ws as [|w ws IH]; intros n Hn; [simpl in Hn; lia|]. destruct n as [|n]; [by exists []|].
  simpl in Hn. destruct (IH n) as [pre Hp]; [lia|]. rewrite join_byte_cons by (intros ->; simpl in Hn; lia).
  cbn [drop]. rewrite Hp. exists (w ++ sep :: pre). by rewrite <-app_assoc.
Qed.

(** The log view is the end of the log: what it returns is a suffix of the
    file of at most one hundred lines, and the whole file if it has no more. *)
Theorem logs_tail (cfg : Config) (data : bytes) :
  lg_Path (ob_Logging (Observability cfg)) ≠ [] →
  ∃ out pre, handleAdminLogs cfg (inl data) = (OK, out) ∧ data = pre ++ out ∧
    (length (split_byte lf data) ≤ 100 → out = data)%nat ∧
    ∃ ls, out = join_byte lf ls ∧ ls `suffix_of` split_byte lf data ∧ length ls = Nat.min 100 (length (split_byte lf data)).
Proof.
  intros Hp. unfold handleAdminLogs. rewrite bool_decide_false by done. set (ls := split_byte lf data).
  assert (0 < length ls)%nat as Hl by (pose proof (split_byte_nonempty lf data); fold ls in H; destruct ls; [done|simpl; lia]).
  replace (Z.to_nat _) with (length ls - 100)%nat by (case_bool_decide; lia).
  destruct (join_drop lf ls (length ls - 100)) as [pre Hpre]; [lia|]. eexists _, pre. split; [done|].
  split; [by rewrite <-Hpre; symmetry; apply join_split|]. split.
  - intros Hle. replace (length ls - 100)%nat with 0%nat by lia. apply join_split.
  - exists (drop (length ls - 100) ls). split; [done|]. split; [apply suffix_drop|]. rewrite length_drop. lia.
Qed.

(** ** Returning datagrams *)

(** A datagram that comes back over QUIC reaches its client and no other:
    a payload packed for the session identifier under which a client was
    registered is written to that client's address on its socket; for an
    identifier that is not registered nothing is written. *)
Theorem datagram_returns `{UUIDLaws} (u payload : bytes) (m : gmap bytes UDPSession) (s : UDPSession) :
  length u = 16%nat →
  ∃ d, PackDatagram (uuid_String u) payload = Ok d ∧
    on_datagram d (udp_Add (uuid_String u) s m) = Ok (Some (u_Conn s, u_ClientAddr s, payload)) ∧
    on_datagram d (udp_Remove (uuid_String u) m) = Ok None.
Proof.
  intros Hu. pose proof (NPThms.datagram_packs (uuid_String u) payload) as Hd. rewrite uuid_Parse_String in Hd by done.
  destruct Hd as (d & E & _ & Eu & _). exists d. split; [done|]. unfold on_datagram. rewrite Eu.
  unfold udp_Get, udp_Add, udp_Remove. by rewrite lookup_insert_eq, lookup_delete_eq.
Qed.

(** ** Cancelling sessions *)

(** Kicking a user cancels exactly the sessions of that user. *)
Lemma kick_user_exact (user id : bytes) (m : sessions) :
  id ∈ (handleAdminKickUser user m).1.1 ↔ ∃ s, m !! id = Some s ∧ siUserID s = user.
Proof.
  unfold handleAdminKickUser. cbn. rewrite list_elem_of_fmap. split.
  - intros ([k s] & -> & [Hm Hu]%elem_of_map_to_list%map_lookup_filter_Some). eauto.
  - intros (s & Hm & Hu). exists (id, s). split; [done|]. apply elem_of_map_to_list, map_lookup_filter_Some. done.
Qed.

(** ** Concrete runs *)

Import DemoUUID.
#[local] Existing Instance DnsThms.demo_dns.

Definition no_files : disk := {| d_files := {| files := ∅; dirs := ∅ |}; d_pair := λ _ _, Fail ErrClosed |}.

Definition demo_users (password : bytes) : AuthConfig :=
  {| Enabled := true; Users := [{| Username := "alice"; Password := password |}] |}.

Definition demo_socks (password : bytes) : InboundConfig :=
  {| in_Protocol := "socks5"; in_Listen := "127.0.0.1:1080"; in_Transport := []; in_ProxyProtocol := false;
     in_Obfuscation := zeroObfs; in_Auth := demo_users password; in_WSPath := []; in_WSHeader := ∅; in_Settings := ∅ |}.

(** The password of a user is changed and the configuration applied. *)
Lemma reload_keeps_old_settings_witness :
  let active := sr_active (syncInbounds (with_inbounds zeroConfig [demo_socks "#old"]) ∅) in
  let r := syncInbounds (with_inbounds zeroConfig [demo_socks "#new"]) active in
  sr_active r !! ("socks5-127.0.0.1:1080" : bytes) = Some (ISocks5 "127.0.0.1:1080" false (demo_users "#old")) ∧
  sr_started r !! ("socks5-127.0.0.1:1080" : bytes) = None.
Proof.
  apply (reload_keeps_old_settings (with_inbounds zeroConfig [demo_socks "#new"])
           (sr_active (syncInbounds (with_inbounds zeroConfig [demo_socks "#old"]) ∅)) (demo_socks "#new")
           (ISocks5 "127.0.0.1:1080" false (demo_users "#old"))); [left|vm_compute; reflexivity].
Defined.

Lemma apply_config_exact_witness :
  ∃ r', applyConfigToRouter false generateInitConfig RouterThms.demo_router = Ok r' ∧
    rules r' = rule_of <$> rt_Rules (Routing generateInitConfig) ∧ resolver r' = resolver RouterThms.demo_router ∧
    ∀ name, outbounds r' !! name =
      match last_named name (handlers false (Outbounds generateInitConfig)) with
      | Some h => Some h
      | None => outbounds RouterThms.demo_router !! name
      end.
Proof.
  apply (apply_config_exact false generateInitConfig RouterThms.demo_router).
  intros c [->|[->|[]%not_elem_of_nil]%elem_of_cons]%elem_of_cons; vm_compute; discriminate.
Defined.

Lemma init_config_routes_witness :
  ∃ ag, Start no_files (New (Msg := DnsThms.demo_msg) generateInitConfig) = Ok ag ∧
    Route [] (agent_router ag) (RouterThms.to "203.0.113.7:443") = Fail ErrNoAvailableOutbound.
Proof.
  destruct (init_config_routes (Msg := DnsThms.demo_msg) no_files [] (RouterThms.to "203.0.113.7:443")
              (v4InV6Prefix ++ [Byte.xcb; Byte.x00; Byte.x71; Byte.x07]) Byte.xcb Byte.x00 Byte.x71 Byte.x07) as (ag & E & Hr);
    [vm_compute; reflexivity|vm_compute; reflexivity|].
  exists ag. split; [exact E|]. rewrite Hr. reflexivity.
Defined.

Lemma agent_lifecycle_witness :
  ∃ a : Agent DnsThms.demo_msg, rtc agent_step (New generateInitConfig) a ∧ a_ctx a = Some true ∧
    keyed (a_inbounds a) ∧ (∀ d, Start d a = Fail (Errorf "agent already running")).
Proof.
  destruct (Start no_files (New (Msg := DnsThms.demo_msg) generateInitConfig)) as [a1| |] eqn:E1; [|discriminate E1|discriminate E1].
  pose proof (Start_Ok _ _ _ E1) as (_ & _ & _ & Ec).
  destruct (Stop a1) as [a2| |] eqn:E2; [|unfold Stop in E2; rewrite Ec in E2; discriminate E2..].
  assert (a_ctx a2 = Some true) as Hc by (unfold Stop in E2; rewrite Ec in E2; by injection E2 as <-).
  assert (rtc agent_step (New generateInitConfig) a2) as Hr.
  { eapply rtc_l; [exact (as_start _ _ _ E1)|]. eapply rtc_l; [|apply rtc_refl]. by apply (as_command "shutdown"); [rewrite Ec|]. }
  exists a2. pose proof (agent_lifecycle generateInitConfig a2 Hr) as [Hk Hl]. rewrite Hc in Hl. destruct Hl as [Hs _]. done.
Defined.

Definition demo_policy : PolicyUpdate := {| UserId := "alice"; BandwidthMbps := 20; QuotaMb := 500; Revoke := false |}.

Lemma policy_applied_witness :
  let '(lm', qm') := handlePolicyUpdate [demo_policy] (Rate.NewLimiterManager 10, Quota.NewQuotaManager) in
  Quota.limit_of qm' "alice" = 524288000 ∧
  ∃ b, Rate.limiters lm' !! ("alice" : bytes) = Some (Some b) ∧ Rate.b_rate b = 20971520.
Proof.
  destruct (policy_applied [] demo_policy (Rate.NewLimiterManager 10, Quota.NewQuotaManager) "bob") as (Hq & Hb & _);
    [cbn; lia|cbn; lia|]. split; [exact Hq|]. apply Hb. cbn. lia.
Defined.

Definition demo_log_config : Config :=
  {| Version := []; Node := Node zeroConfig; Controller := Controller zeroConfig; Inbounds := []; Outbounds := [];
     Routing := Routing zeroConfig;
     Observability := {| ob_Tracing := ob_Tracing (Observability zeroConfig); ob_Metrics := ob_Metrics (Observability zeroConfig);
                         ob_Logging := {| lg_Level := []; lg_Format := []; lg_Path := "logs/agent.log" |} |};
     Config.Limits := Config.Limits zeroConfig |}.

Definition demo_log : bytes := concat (replicate 120 ("entry" ++ [lf])).

Lemma logs_tail_witness :
  ∃ out pre, handleAdminLogs demo_log_config (inl demo_log) = (OK, out) ∧ demo_log = pre ++ out ∧
    ∃ ls, out = join_byte lf ls ∧ ls `suffix_of` split_byte lf demo_log ∧ length ls = 100%nat.
Proof.
  destruct (logs_tail demo_log_config demo_log) as (out & pre & E & Hp & _ & ls & Ho & Hs & Hl); [discriminate|].
  exists out, pre. split; [exact E|]. split; [exact Hp|]. exists ls. split; [exact Ho|]. split; [exact Hs|].
  rewrite Hl. vm_compute. reflexivity.
Defined.

Lemma datagram_returns_witness :
  ∃ d, PackDatagram (uuid_String (replicate 16 Byte.x2a)) "pong" = Ok d ∧
    on_datagram d (udp_Add (uuid_String (replicate 16 Byte.x2a)) {| u_Conn := 3; u_ClientAddr := "192.0.2.9:5353" |} ∅) =
      Ok (Some (3%nat, "192.0.2.9:5353" : bytes, "pong" : bytes)) ∧
    on_datagram d (udp_Remove (uuid_String (replicate 16 Byte.x2a)) ∅) = Ok None.
Proof. apply (datagram_returns (replicate 16 Byte.x2a) "pong" ∅ {| u_Conn := 3; u_ClientAddr := "192.0.2.9:5353" |}). reflexivity. Defined.

End AgentThms.
