(* ===== verification/HttpProxy.v ===== *)
(** * The HTTP proxy: [internal/inbound/http_proxy.go]

    The handler works on requests the server of [net/http] has parsed; a
    request is the fields the handler looks at.  [Hijack] gives the client's
    connection and what the server had already buffered from it; the handler
    drops the buffer.  As in [Inbound] a session is described by the arguments
    of [DualRelay]; the request written to the target of a plain request is
    part of the outcome. *)

From S2P Require Import Prelude GoNet Stream Types NPChain Obfs Limits Sniffer Outbound Router Config Inbound.

(** ** [encoding/base64] (standard encoding) *)

Definition b64_alphabet : bytes := "ABCDEFGHIJKLMNOPQRSTUVWXYZabcdefghijklmnopqrstuvwxyz0123456789+/".

Definition b64_pad : byte := Byte.x3d.

Definition b64_char (v : Z) : byte := nth (Z.to_nat v) b64_alphabet b64_pad.

Definition b64_val (c : byte) : option Z := Z.of_nat <$> index_byte c b64_alphabet.

Fixpoint b64_encode (s : bytes) : bytes :=
  match s with
  | a :: b :: c :: r =>
      let v := b2z a * 65536 + b2z b * 256 + b2z c in
      [b64_char (v / 262144); b64_char (v / 4096 mod 64); b64_char (v / 64 mod 64); b64_char (v mod 64)] ++ b64_encode r
  | [a; b] =>
      let v := b2z a * 65536 + b2z b * 256 in
      [b64_char (v / 262144); b64_char (v / 4096 mod 64); b64_char (v / 64 mod 64); b64_pad]
  | [a] =>
      let v := b2z a * 65536 in [b64_char (v / 262144); b64_char (v / 4096 mod 64); b64_pad; b64_pad]
  | [] => []
  end.

(** Four characters at a time; padding ends the text. *)
Fixpoint b64_quanta (s : bytes) : option bytes :=
  match s with
  | [] => Some []
  | a :: b :: c :: d :: r =>
      va ← b64_val a; vb ← b64_val b;
      if bool_decide (c = b64_pad) then
        if bool_decide (d = b64_pad ∧ r = []) then Some [z2b ((va * 262144 + vb * 4096) / 65536)] else None
      else
        vc ← b64_val c;
        if bool_decide (d = b64_pad) then
          if bool_decide (r = []) then
            let v := va * 262144 + vb * 4096 + vc * 64 in Some [z2b (v / 65536); z2b (v / 256)]
          else None
        else
          vd ← b64_val d;
          let v := va * 262144 + vb * 4096 + vc * 64 + vd in
          rest ← b64_quanta r;
          Some ([z2b (v / 65536); z2b (v / 256); z2b v] ++ rest)
  | _ => None
  end.

(** [DecodeString]: line breaks are skipped wherever they are. *)
Definition b64_decode (s : bytes) : option bytes :=
  b64_quanta (filter (λ c, c ≠ Byte.x0a ∧ c ≠ Byte.x0d) s).

(** ** Requests *)

Record http_request := {
  r_Method : bytes;
  r_URLHost : bytes;                (* [r.URL.Host] *)
  r_Host : bytes;
  r_Header : list (bytes * bytes);  (* canonical keys *)
  r_Body : bytes }.

Definition Header_Get (key : bytes) (h : list (bytes * bytes)) : bytes :=
  match List.find (λ kv, bool_decide (kv.1 = key)) h with Some (_, v) => v | None => [] end.

Definition Header_Del (key : bytes) (h : list (bytes * bytes)) : list (bytes * bytes) := filter (λ kv, kv.1 ≠ key) h.

Definition ProxyAuthorization : bytes := "Proxy-Authorization".
Definition ProxyConnection : bytes := "Proxy-Connection".

(** A response through the [ResponseWriter]: header lines, text, status. *)
Record http_response := { p_headers : list (bytes * bytes); p_text : bytes; p_status : Z }.

Definition http_Error (text : bytes) (code : Z) : http_response := {| p_headers := []; p_text := text; p_status := code |}.

Definition StatusBadRequest : Z := 400.
Definition StatusForbidden : Z := 403.
Definition StatusProxyAuthRequired : Z := 407.
Definition StatusInternalServerError : Z := 500.
Definition StatusBadGateway : Z := 502.
Definition StatusServiceUnavailable : Z := 503.
Definition StatusGatewayTimeout : Z := 504.

Definition crlf : bytes := [Byte.x0d; Byte.x0a].
Definition quote : byte := Byte.x22.

(** The challenge of a 407 response. *)
Definition challenge : bytes := ("Basic realm=" : bytes) ++ [quote] ++ ("NodePro Proxy" : bytes) ++ [quote].

(** ** Authentication *)

Definition http_auth (auth : AuthConfig) (bcrypt : bytes → bytes → bool) (r : http_request) : http_response + bytes :=
  if Enabled auth then
    let authHeader := Header_Get ProxyAuthorization (r_Header r) in
    if bool_decide (authHeader = []) then
      inl {| p_headers := [("Proxy-Authenticate" : bytes, challenge)]; p_text := "Proxy Authentication Required";
             p_status := StatusProxyAuthRequired |}
    else
      match SplitN2 Byte.x20 authHeader with
      | [scheme; cred] =>
          if negb (bool_decide (scheme = ("Basic" : bytes))) then inl (http_Error "Invalid Proxy-Authorization Header" StatusBadRequest)
          else
            match b64_decode cred with
            | None => inl (http_Error "Failed to decode Proxy-Authorization" StatusBadRequest)
            | Some payload =>
                match SplitN2 colon payload with
                | [username; password] =>
                    if check_users bcrypt (Users auth) username password then inr username
                    else inl (http_Error "Forbidden: Invalid credentials" StatusForbidden)
                | _ => inl (http_Error "Invalid Proxy-Authorization credentials" StatusBadRequest)
                end
            end
      | _ => inl (http_Error "Invalid Proxy-Authorization Header" StatusBadRequest)
      end
  else inr ("anonymous" : bytes).

(** ** Requests to targets *)

Definition with_port (host port : bytes) : bytes := if contains_byte colon host then host else JoinHostPort host port.

(** [w.(http.Hijacker)] and [Hijack]: what the server had buffered behind the
    request, and the connection. *)
Inductive hijack := NoHijacker | HijackError | HijackOk (buffered : bytes) (st : conn_state).

Section http.
Context `{OutboundHandler Out} {C : Type}.

Inductive http_outcome :=
| Reply (p : http_response)
| NoReply
| PanicReply
| OnConn (r : ctl (session Out C)) (st : conn_state)                     (* a tunnel on the hijacked connection *)
| Plain (sent : http_request) (s : session Out C)                        (* the request is sent on and the rest relayed *)
| Copied (sent : http_request) (status : Z) (headers : list (bytes * bytes)).

Definition connect_conn (e : env Out C) (r : http_request) (user : bytes) (limiter : option Rate.bucket) : Conn (session Out C) :=
  let target := with_port (r_URLHost r) "443" in
  let meta := new_meta e target user [target] in
  match Route (e_order e) (e_router e) meta with
  | Panic => crash
  | Fail _ => _ ← write ("HTTP/1.1 502 Bad Gateway" ++ crlf ++ crlf); return_
  | Ok out =>
      match e_dial e out meta with
      | Panic => crash
      | Fail _ => _ ← write ("HTTP/1.1 504 Gateway Timeout" ++ crlf ++ crlf); return_
      | Ok c =>
          _ ← write ("HTTP/1.1 200 Connection Established" ++ crlf ++ crlf);
          cl ← (snd <$> sniff);
          mret {| s_meta := meta; s_out := out; s_conn := c; s_client := cl; s_user := user; s_limiter := limiter; s_quota := true |}
      end
  end.

Definition http_handleConnect (e : env Out C) (r : http_request) (user : bytes) (limiter : option Rate.bucket) (hj : hijack) :
  http_outcome :=
  match hj with
  | NoHijacker => Reply (http_Error "Hijacking not supported" StatusInternalServerError)
  | HijackError => NoReply
  | HijackOk _ st => let '(c, st') := connect_conn e r user limiter st in OnConn c st'
  end.

(** The metadata of a plain request has no source address. *)
Definition plain_meta (e : env Out C) (target user : bytes) : SessionMeta :=
  {| ID := e_uuid e; TraceID := []; UserID := user; Source := None; Target := target; Network := "tcp";
     HopChain := [target]; RouteTags := ∅; CreatedAt := e_now e |}.

Definition strip_headers (r : http_request) : http_request :=
  {| r_Method := r_Method r; r_URLHost := r_URLHost r; r_Host := r_Host r;
     r_Header := Header_Del ProxyConnection (Header_Del ProxyAuthorization (r_Header r)); r_Body := r_Body r |}.

(** [wr] is the error of [r.Write(targetConn)] and [resp] the result of
    [http.ReadResponse]. *)
Definition handlePlainHTTP (e : env Out C) (r : http_request) (user : bytes) (limiter : option Rate.bucket) (hj : hijack)
    (wr : option goerr) (resp : res (Z * list (bytes * bytes))) : http_outcome :=
  let target := with_port (r_Host r) "80" in
  let meta := plain_meta e target user in
  match Route (e_order e) (e_router e) meta with
  | Panic => PanicReply
  | Fail _ => Reply (http_Error "Gateway Error" StatusBadGateway)
  | Ok out =>
      match e_dial e out meta with
      | Panic => PanicReply
      | Fail _ => Reply (http_Error "Gateway Timeout" StatusGatewayTimeout)
      | Ok c =>
          let r' := strip_headers r in
          match hj with
          | HijackOk _ st =>
              match wr with
              | Some _ => NoReply
              | None =>
                  Plain r' {| s_meta := meta; s_out := out; s_conn := c; s_client := Raw (c_in st); s_user := user;
                              s_limiter := limiter; s_quota := true |}
              end
          | _ =>
              match wr, resp with
              | Some _, _ => NoReply
              | None, Ok (status, headers) => Copied r' status headers
              | None, _ => Reply (http_Error "Remote Service Unreachable" StatusServiceUnavailable)
              end
          end
      end
  end.

Definition handleHTTP (auth : AuthConfig) (bcrypt : bytes → bytes → bool) (lm : Rate.LimiterManager) (e : env Out C)
    (r : http_request) (hj : hijack) (wr : option goerr) (resp : res (Z * list (bytes * bytes))) :
  http_outcome * Rate.LimiterManager :=
  match http_auth auth bcrypt r with
  | inl p => (Reply p, lm)
  | inr userID =>
      let '(limiter, lm') := Rate.GetOrCreate userID lm in
      (if bool_decide (r_Method r = ("CONNECT" : bytes)) then http_handleConnect e r userID limiter hj
       else handlePlainHTTP e r userID limiter hj wr resp, lm')
  end.

End http.
Arguments http_outcome Out C : clear implicits.

Module HttpThms.
Import InboundThms.

(** ** Base64 *)

Lemma b64_val_char v : 0 ≤ v < 64 → b64_val (b64_char v) = Some v ∧ b64_char v ≠ b64_pad.
Proof.
  intros Hv. assert (Forall (λ n, b64_val (b64_char (Z.of_nat n)) = Some (Z.of_nat n) ∧ b64_char (Z.of_nat n) ≠ b64_pad) (seq 0 64))
    as Hall by (apply (bool_decide_unpack _); vm_compute; exact I).
  rewrite Forall_forall in Hall. specialize (Hall (Z.to_nat v)). rewrite Z2Nat.id in Hall by lia.
  apply Hall, elem_of_seq. lia.
Qed.

Lemma b64_char_text v : b64_char v ≠ Byte.x0a ∧ b64_char v ≠ Byte.x0d.
Proof.
  assert (Forall (λ c, c ≠ Byte.x0a ∧ c ≠ Byte.x0d) (b64_pad :: b64_alphabet)) as Hall
    by (apply (bool_decide_unpack _); vm_compute; exact I).
  rewrite Forall_forall in Hall. apply Hall. unfold b64_char.
  destruct (nth_in_or_default (Z.to_nat v) b64_alphabet b64_pad) as [Hin| ->]; [right; by apply list_elem_of_In|left].
Qed.

Lemma list_ind3 {A} (P : list A → Prop) :
  P [] → (∀ a, P [a]) → (∀ a b, P [a; b]) → (∀ a b c r, P r → P (a :: b :: c :: r)) → ∀ l, P l.
Proof.
  intros H0 H1 H2 H3 l. assert (P l ∧ (∀ a, P (a :: l)) ∧ ∀ a b, P (a :: b :: l)) as [Hl _]; [|done].
  induction l as [|x l (IH0 & IH1 & IH2)]; [done|]. split; [done|]. split; [done|]. intros a b. by apply H3.
Qed.

Lemma b64_encode_text s : Forall (λ c, c ≠ Byte.x0a ∧ c ≠ Byte.x0d) (b64_encode s).
Proof.
  induction s as [|a|a b|a b c r IH] using list_ind3; cbn [b64_encode app];
    repeat (constructor; [by (apply b64_char_text || done)|]); done.
Qed.

Ltac b64_digits :=
  repeat match goal with
         | |- context [b64_char ?v] =>
             let E1 := fresh in let E2 := fresh in
             destruct (b64_val_char v) as [E1 E2]; [Z.div_mod_to_equations; lia|];
             rewrite ?E1; rewrite ?(bool_decide_false _ E2); clear E1 E2; generalize (b64_char v); intros ?
         end; cbn [option_bind mbind].

Lemma z2b_of (a : byte) z : b2z a = z mod 256 → z2b z = a.
Proof. intros E. apply b2z_inj. by rewrite b2z_z2b, E. Qed.

Lemma b64_quanta_encode s : b64_quanta (b64_encode s) = Some s.
Proof.
  induction s as [|a|a b|a b c r IH] using list_ind3; [done|..]; pose proof (b2z_range a);
    [|pose proof (b2z_range b) | pose proof (b2z_range b); pose proof (b2z_range c)];
    cbn [b64_encode app b64_quanta]; b64_digits; repeat (rewrite bool_decide_true by done).
  - do 2 f_equal. apply z2b_of. Z.div_mod_to_equations. lia.
  - f_equal. f_equal; [|f_equal]; apply z2b_of; Z.div_mod_to_equations; lia.
  - rewrite IH. cbn [mbind option_bind]. f_equal. f_equal; [|f_equal; [|f_equal]]; apply z2b_of; Z.div_mod_to_equations; lia.
Qed.

Lemma filter_Forall {A} (P : A → Prop) `{∀ x, Decision (P x)} (l : list A) : Forall P l → filter P l = l.
Proof. induction 1 as [|x l Hx _ IH]; [done|]. by rewrite filter_cons_True, IH. Qed.

(** Decoding undoes encoding. *)
Lemma b64_roundtrip s : b64_decode (b64_encode s) = Some s.
Proof. unfold b64_decode. rewrite filter_Forall by apply b64_encode_text. apply b64_quanta_encode. Qed.

Section http_thms.
Context `{OutboundHandler Out} {C : Type}.

(** ** Authentication *)

(** The header with which a client presents its credentials. *)
Definition basic (user pass : bytes) : bytes := ("Basic " : bytes) ++ b64_encode (user ++ colon :: pass).

Lemma http_auth_sound auth bcrypt r user :
  Enabled auth = true → http_auth auth bcrypt r = inr user →
  ∃ u cred pass, u ∈ Users auth ∧ Username u = user ∧ bcrypt (Password u) pass = true ∧
    Header_Get ProxyAuthorization (r_Header r) = ("Basic " : bytes) ++ cred ∧ b64_decode cred = Some (user ++ colon :: pass).
Proof.
  intros Hen. unfold http_auth. rewrite Hen. case_bool_decide; [done|].
  destruct (SplitN2 Byte.x20 _) as [|scheme [|cred [|? ?]]] eqn:Es; try done. case_bool_decide as Hb; [|done]. cbn [negb].
  destruct (b64_decode cred) as [payload|] eqn:Ed; [|done].
  destruct (SplitN2 colon payload) as [|username [|password [|? ?]]] eqn:Ep; try done.
  destruct (check_users _ _ _ _) eqn:Ec; [|done]. intros [= <-]. apply existsb_exists in Ec as (u & Hu & Hc).
  apply andb_true_iff in Hc as [Hn Hp]. apply bool_decide_eq_true in Hn.
  apply SplitN2_two in Es as Es'. apply SplitN2_two in Ep as Ep'. subst.
  exists u, cred, password. split; [by apply list_elem_of_In|]. done.
Qed.

Definition session_of (o : http_outcome Out C) : option (session Out C) :=
  match o with OnConn (Cont s) _ => Some s | Plain _ s => Some s | _ => None end.

Lemma connect_conn_Cont (e : env Out C) r user l st s st' :
  connect_conn e r user l st = (Cont s, st') →
  s_user s = user ∧ s_limiter s = l ∧ s_quota s = true ∧ UserID (s_meta s) = user ∧
  Route (e_order e) (e_router e) (s_meta s) = Ok (s_out s) ∧ e_dial e (s_out s) (s_meta s) = Ok (s_conn s).
Proof.
  unfold connect_conn. intros Hrun. set (meta := new_meta _ _ _ _) in *.
  destruct (Route _ _ _) as [out| |] eqn:Er; [|done|done].
  destruct (e_dial e out meta) as [c| |] eqn:Ed; [|done|done].
  do 2 run_inv Hrun. injection Hrun as <- <-. done.
Qed.

Lemma served_session (e : env Out C) r user l hj wr resp s :
  session_of (if bool_decide (r_Method r = ("CONNECT" : bytes)) then http_handleConnect e r user l hj
              else handlePlainHTTP e r user l hj wr resp) = Some s →
  s_user s = user ∧ s_limiter s = l ∧ s_quota s = true ∧ UserID (s_meta s) = user ∧
  Route (e_order e) (e_router e) (s_meta s) = Ok (s_out s) ∧ e_dial e (s_out s) (s_meta s) = Ok (s_conn s).
Proof.
  case_bool_decide.
  - unfold http_handleConnect. destruct hj as [| |buf st]; [done|done|].
    destruct (connect_conn e r user l st) as [[s'| |] st'] eqn:E; [|done|done]. intros [= <-]. by apply connect_conn_Cont in E.
  - unfold handlePlainHTTP. destruct (Route _ _ _) as [out| |] eqn:Er; [|done|done].
    destruct (e_dial e out _) as [c| |] eqn:Ed; [|done|done].
    destruct hj, wr; try done; [destruct resp as [[? ?]| |]; done..|]. by intros [= <-].
Qed.

(** C9: HTTP authentication cannot be bypassed.  With authentication on, the
    only thing a request can get before its credentials are accepted is one
    of the refusals 400, 403 and 407, with nothing of the server's state
    changed: for every other outcome the request carried a Basic header that
    decodes to the name of a configured user and a password the user's hash
    accepts, and the session, if one starts, belongs to that user, runs under
    the user's shared limiter and the quota, and goes where the router sent
    that user's metadata. *)
Theorem http_authenticated (auth : AuthConfig) (bcrypt : bytes → bytes → bool) (lm lm' : Rate.LimiterManager) (e : env Out C)
    (r : http_request) (hj : hijack) (wr : option goerr) (resp : res (Z * list (bytes * bytes))) (o : http_outcome Out C) :
  Enabled auth = true → handleHTTP auth bcrypt lm e r hj wr resp = (o, lm') →
  (∃ p, o = Reply p ∧ p_status p ∈ [400; 403; 407] ∧ lm' = lm) ∨
  ∃ u cred pass, u ∈ Users auth ∧ bcrypt (Password u) pass = true ∧
    Header_Get ProxyAuthorization (r_Header r) = ("Basic " : bytes) ++ cred ∧
    b64_decode cred = Some (Username u ++ colon :: pass) ∧
    ∀ s, session_of o = Some s →
      s_user s = Username u ∧ UserID (s_meta s) = Username u ∧ (s_limiter s, lm') = Rate.GetOrCreate (Username u) lm ∧
      s_quota s = true ∧ Route (e_order e) (e_router e) (s_meta s) = Ok (s_out s).
Proof.
  intros Hen. unfold handleHTTP. destruct (http_auth auth bcrypt r) as [p|user] eqn:Ea.
  - intros [= <- <-]. left. exists p. split; [done|]. split; [|done]. revert Ea. unfold http_auth. rewrite Hen.
    repeat (case_match || case_bool_decide); intros [= <-]; cbn; set_solver.
  - apply http_auth_sound in Ea as (u & cred & pass & Hu & <- & Hp & Hh & Hd); [|done].
    destruct (Rate.GetOrCreate (Username u) lm) as [l lm1] eqn:Eg. intros [= <- <-]. right. exists u, cred, pass.
    do 4 (split; [done|]). intros s Hs. apply served_session in Hs as (Hus & Hl & Hq & Hid & Hr & _). by rewrite Hl.
Qed.

(** ** CONNECT and SOCKS5 *)

Lemma http_auth_basic auth bcrypt r user pass :
  Header_Get ProxyAuthorization (r_Header r) = basic user pass → colon ∉ user →
  if negb (Enabled auth) || check_users bcrypt (Users auth) user pass then http_auth auth bcrypt r = inr (auth_name auth user)
  else ∃ p, http_auth auth bcrypt r = inl p.
Proof.
  intros Hh Hu. unfold http_auth, auth_name. destruct (Enabled auth); [|done]. cbn [negb orb]. rewrite Hh.
  rewrite bool_decide_false by done. unfold basic.
  change (("Basic " : bytes) ++ ?x) with (("Basic" : bytes) ++ Byte.x20 :: x).
  rewrite SplitN2_sep by (apply (bool_decide_unpack _); vm_compute; exact I). rewrite bool_decide_true by done. cbn [negb].
  rewrite b64_roundtrip, SplitN2_sep by done. destruct (check_users _ _ _ _); [done|eauto].
Qed.

Lemma connect_conn_run (e : env Out C) r user l st target :
  with_port (r_URLHost r) "443" = target →
  match Route (e_order e) (e_router e) (new_meta e target user [target]) with
  | Panic => True
  | Fail _ => ∃ st', connect_conn e r user l st = (Return, st')
  | Ok out =>
      match e_dial e out (new_meta e target user [target]) with
      | Panic => True
      | Fail _ => ∃ st', connect_conn e r user l st = (Return, st')
      | Ok c => ∃ cl st', connect_conn e r user l st =
            (Cont {| s_meta := new_meta e target user [target]; s_out := out; s_conn := c; s_client := cl; s_user := user;
                     s_limiter := l; s_quota := true |}, st') ∧ client_bytes cl = stream_bytes (c_in st)
      end
  end.
Proof.
  intros Ht. unfold connect_conn. rewrite Ht. set (meta := new_meta _ _ _ _). destruct (Route _ _ _) as [out| |]; [|by eexists|done].
  destruct (e_dial e out meta) as [c| |]; [|by eexists|done].
  rewrite (bind_ok (write _) _ st () _ eq_refl). set (st1 := Build_conn_state _ _ _). destruct (sniff_run st1) as (o & br & Es & Hb).
  exists (Peeked br), st1. split; [|exact Hb]. unfold mbind, conn_bind, fmap, conn_fmap, mbind, conn_bind. by rewrite Es.
Qed.

(** C10: a CONNECT request and a SOCKS5 CONNECT are the same session.  For
    every user name without a colon (which Basic credentials cannot carry),
    password, address, port and payload: a client that sends them as a
    CONNECT request with Basic credentials and one that goes through the
    SOCKS5 handshake, to handlers with the same configuration, are either
    both refused or get sessions with the same metadata, outbound, target
    connection, owner, limiter and quota.  The SOCKS5 session relays the whole
    payload; the CONNECT session relays it without what the HTTP server had
    already read when the connection was hijacked, so all of it when the
    client waits for the answer to its request. *)
Theorem http_connect_like_socks5 (auth : AuthConfig) (bcrypt : bytes → bytes → bool) (lm : Rate.LimiterManager)
    (uport : option Z) (e : env Out C) (s : stream) (st : conn_state) (r : http_request) (wr : option goerr)
    (resp : res (Z * list (bytes * bytes))) (methods user pass buffered payload : bytes) (a : socks_addr) (port : Z) :
  steady s → stream_bytes s = socks5_client auth methods user pass Byte.x01 a port payload →
  (length methods ≤ 255)%nat → (length user ≤ 255)%nat → (length pass ≤ 255)%nat → addr_ok a →
  0 ≤ port < 65536 → colon ∉ user →
  r_Method r = ("CONNECT" : bytes) → r_URLHost r = JoinHostPort (addr_host a) (Itoa port) →
  Header_Get ProxyAuthorization (r_Header r) = basic user pass → buffered ++ stream_bytes (c_in st) = payload →
  (∀ meta, Route (e_order e) (e_router e) meta ≠ Panic) → (∀ out meta, e_dial e out meta ≠ Panic) →
  let rs := (handleConnection auth bcrypt lm uport e (start_conn s)).1 in
  match handleHTTP auth bcrypt lm e r (HijackOk buffered st) wr resp with
  | (OnConn (Cont sh) _, lm') =>
      ∃ ss, rs = Cont (Connected ss, lm') ∧ s_meta ss = s_meta sh ∧ s_out ss = s_out sh ∧ s_conn ss = s_conn sh ∧
        s_user ss = s_user sh ∧ s_limiter ss = s_limiter sh ∧ s_quota ss = s_quota sh ∧
        client_bytes (s_client ss) = buffered ++ client_bytes (s_client sh)
  | (OnConn Return _, _) | (Reply _, _) => rs = Return
  | _ => False
  end.
Proof.
  intros Hs Hb Hm Hu Hw Ha Hport Hc HM HU Hh Hst Hr Hd rs. subst rs.
  destruct (handshake_run auth bcrypt lm uport e s methods user pass Byte.x01 a port payload Hs Hb Hm Hu Hw)
    as (st1 & Hp1 & ->).
  pose proof (http_auth_basic auth bcrypt r user pass Hh Hc) as Hauth. unfold handleHTTP.
  destruct (negb (Enabled auth) || _); [|destruct Hauth as [p ->]; done]. rewrite Hauth.
  destruct (Rate.GetOrCreate (auth_name auth user) lm) as [l lm']. rewrite !bool_decide_true by done.
  pose proof (handleConnect_run e a (auth_name auth user) l port payload st1 _ Hp1 Ha Hport) as Hcs. cbn zeta in Hcs.
  set (target := JoinHostPort _ _) in Hcs. unfold http_handleConnect.
  assert (with_port (r_URLHost r) "443" = target) as Ht.
  { unfold with_port. rewrite HU. fold target. destruct (contains_byte colon target) eqn:Ec; [done|].
    apply contains_byte_false in Ec. destruct Ec. unfold target, JoinHostPort. destruct (contains_byte colon (addr_host a)); set_solver. }
  pose proof (connect_conn_run e r (auth_name auth user) l st target Ht) as Hch.
  unfold mbind, conn_bind. pose proof (Hr (new_meta e target (auth_name auth user) [target])).
  destruct (Route _ _ _) as [out| |]; [|destruct Hcs as (? & -> & _), Hch as (? & ->); done|done].
  pose proof (Hd out (new_meta e target (auth_name auth user) [target])).
  destruct (e_dial e out _) as [c| |]; [|destruct Hcs as (? & -> & _), Hch as (? & ->); done|done].
  destruct Hcs as (st2 & cl & -> & _ & Hcl), Hch as (cl' & st2' & -> & Hcl'). eexists. split; [done|]. cbn. by rewrite Hcl, Hcl', Hst.
Qed.

(** ** Plain requests *)

Lemma header_gone key h : (∀ kv, kv ∈ h → kv.1 ≠ key) → Header_Get key h = [].
Proof.
  intros Hn. unfold Header_Get. destruct (List.find _ h) as [[k v]|] eqn:E; [|done].
  apply find_some in E as [Hin Hk]. apply bool_decide_eq_true in Hk. by destruct (Hn (k, v)); [apply list_elem_of_In|].
Qed.

(** The proxy keeps the proxy credentials to itself and everything else
    intact.  The request a target receives has no Proxy-Authorization and no
    Proxy-Connection header; all its other headers are the client's, in their
    order, and its method, host and body are the client's; it goes to the
    host of the request, port 80 unless the request names one.  Behind that
    first request the connection is relayed as it is. *)
Theorem plain_forwards (auth : AuthConfig) (bcrypt : bytes → bytes → bool) (lm lm' : Rate.LimiterManager) (e : env Out C)
    (r r' : http_request) (hj : hijack) (wr : option goerr) (resp : res (Z * list (bytes * bytes))) (s : session Out C) :
  handleHTTP auth bcrypt lm e r hj wr resp = (Plain r' s, lm') →
  Header_Get ProxyAuthorization (r_Header r') = [] ∧ Header_Get ProxyConnection (r_Header r') = [] ∧
  (∀ key, key ≠ ProxyAuthorization → key ≠ ProxyConnection →
     filter (λ kv, kv.1 = key) (r_Header r') = filter (λ kv, kv.1 = key) (r_Header r)) ∧
  r_Method r' = r_Method r ∧ r_Host r' = r_Host r ∧ r_Body r' = r_Body r ∧
  Target (s_meta s) = with_port (r_Host r) "80" ∧ HopChain (s_meta s) = [Target (s_meta s)] ∧
  ∃ buf st, hj = HijackOk buf st ∧ client_bytes (s_client s) = stream_bytes (c_in st).
Proof.
  unfold handleHTTP. destruct (http_auth auth bcrypt r) as [p|user]; [done|]. destruct (Rate.GetOrCreate user lm) as [l lm1].
  case_bool_decide; [unfold http_handleConnect; destruct hj as [| |? st]; [done..|by destruct (connect_conn e r user l st)]|].
  unfold handlePlainHTTP. destruct (Route _ _ _) as [out| |]; [|done|done]. destruct (e_dial e out _) as [c| |]; [|done|done].
  destruct hj as [| |buf st], wr; try done; [by destruct resp as [[? ?]| |]..|]. intros [= <- <- <-].
  split; [|split; [|split]]; [..|naive_solver].
  - apply header_gone. intros kv [_ [Hk _]%list_elem_of_filter]%list_elem_of_filter. done.
  - by apply header_gone; intros kv [Hk _]%list_elem_of_filter.
  - intros key H1 H2. cbn [r_Header strip_headers]. unfold Header_Del.
    by rewrite !list_filter_filter_l by (intros ? ->; done).
Qed.

End http_thms.

(** ** Concrete runs *)

Definition demo_open : env handler unit :=
  {| e_router := AddOutbound (HDirect (NewDirectHandler "default" "local")) NewRouter; e_order := [];
     e_dial := λ _ _, Ok (); e_uuid := "id"; e_now := 0; e_remote := "198.51.100.4:50000" |}.

Definition demo_get : http_request :=
  {| r_Method := "GET"; r_URLHost := "example.org"; r_Host := "example.org";
     r_Header := [("Accept" : bytes, "*/*" : bytes); (ProxyAuthorization, basic "alice" "secret");
                  (ProxyConnection, "keep-alive" : bytes)]; r_Body := [] |}.

Definition demo_connect : http_request :=
  {| r_Method := "CONNECT"; r_URLHost := "example.org:443"; r_Host := "example.org:443";
     r_Header := [(ProxyAuthorization, basic "alice" "secret")]; r_Body := [] |}.

Definition demo_hijack : hijack := HijackOk [] (start_conn (mk_stream "ping" EOF)).

Definition is_plain (o : http_outcome handler unit) : bool := match o with Plain _ _ => true | _ => false end.

Lemma http_authenticated_witness :
  ∃ u cred pass, u ∈ Users demo_auth ∧ demo_bcrypt (Password u) pass = true ∧
    Header_Get ProxyAuthorization (r_Header demo_get) = ("Basic " : bytes) ++ cred ∧
    b64_decode cred = Some (Username u ++ colon :: pass).
Proof.
  destruct (handleHTTP demo_auth demo_bcrypt demo_lm demo_open demo_get demo_hijack None (Fail EOF)) as [o lm'] eqn:E.
  destruct (http_authenticated demo_auth demo_bcrypt demo_lm lm' demo_open demo_get demo_hijack None (Fail EOF) o eq_refl E)
    as [(p & -> & _)|(u & cred & pass & Hu & Hp & Hh & Hd & _)]; [vm_compute in E; discriminate|].
  exact (ex_intro _ u (ex_intro _ cred (ex_intro _ pass (conj Hu (conj Hp (conj Hh Hd)))))).
Defined.

Lemma plain_forwards_witness :
  match handleHTTP demo_auth demo_bcrypt demo_lm demo_open demo_get demo_hijack None (Fail EOF) with
  | (Plain r' s, _) =>
      Header_Get ProxyAuthorization (r_Header r') = [] ∧ Target (s_meta s) = ("example.org:80" : bytes)
  | _ => False
  end.
Proof.
  destruct (handleHTTP demo_auth demo_bcrypt demo_lm demo_open demo_get demo_hijack None (Fail EOF)) as [o lm'] eqn:E.
  assert (is_plain (handleHTTP demo_auth demo_bcrypt demo_lm demo_open demo_get demo_hijack None (Fail EOF)).1 = true) as Ep
    by (vm_compute; reflexivity). rewrite E in Ep. destruct o; try discriminate Ep.
  pose proof (plain_forwards demo_auth demo_bcrypt demo_lm lm' demo_open demo_get sent demo_hijack None (Fail EOF) s E)
    as (Hg & _ & _ & _ & _ & _ & Ht & _). split; [exact Hg|exact Ht].
Defined.

Definition is_tunnel (o : http_outcome handler unit) : bool := match o with OnConn (Cont _) _ => true | _ => false end.

Definition demo_socks : stream :=
  mk_stream (socks5_client demo_auth [Byte.x02] "alice" "secret" Byte.x01 (AddrName "example.org") 443 "ping") EOF.

Lemma http_connect_like_socks5_witness :
  match handleHTTP demo_auth demo_bcrypt demo_lm demo_open demo_connect demo_hijack None (Fail EOF) with
  | (OnConn (Cont sh) _, lm') => ∃ ss, (handleConnection demo_auth demo_bcrypt demo_lm None demo_open (start_conn demo_socks)).1 =
      Cont (Connected ss, lm') ∧ s_meta ss = s_meta sh
  | _ => False
  end.
Proof.
  pose proof (http_connect_like_socks5 demo_auth demo_bcrypt demo_lm None demo_open demo_socks (start_conn (mk_stream "ping" EOF))
    demo_connect None (Fail EOF) [Byte.x02] "alice" "secret" [] "ping" (AddrName "example.org") 443 (demo_steady _) (mk_stream_bytes _ _)
    ltac:(cbn; lia) ltac:(cbn; lia) ltac:(cbn; lia) ltac:(cbn; lia) ltac:(lia)
    ltac:(apply (bool_decide_unpack _); vm_compute; exact I)
    ltac:(reflexivity) ltac:(vm_compute; reflexivity) ltac:(vm_compute; reflexivity) ltac:(vm_compute; reflexivity)
    ltac:(intros meta; unfold Route, restore; cbn; destruct (ParseIP _); done) ltac:(done)) as Hw.
  cbv zeta in Hw. unfold demo_hijack.
  assert (is_tunnel (handleHTTP demo_auth demo_bcrypt demo_lm demo_open demo_connect demo_hijack None (Fail EOF)).1 = true) as E
    by (vm_compute; reflexivity). unfold demo_hijack in E.
  destruct (handleHTTP demo_auth demo_bcrypt demo_lm demo_open demo_connect _ None (Fail EOF)) as [o lm'].
  destruct o as [| | |[sh| |] st'| |]; try discriminate E.
  destruct Hw as (ss & Hs & Hm & _). exists ss. split; [exact Hs|exact Hm].
Defined.

End HttpThms.
