(* ===== verification/Control.v ===== *)
(** * The control client: [internal/control/client.go]

    The client dials the controller, registers, sends a heartbeat every
    thirty seconds and hands what the answers carry to the callbacks of its
    owner; when anything fails it closes the connection and tries again after
    a growing pause.  The network and the clock are the arguments of a run: an
    [attempt] says how one round went.  [agent_callbacks] are the callbacks
    the agent installs. *)

From S2P Require Import Prelude GoNet Types Limits Relay Outbound Router Dns Config Agent.

Record HeartbeatResponse := { ConfigUpdated : bool; Command : bytes; Policies : list PolicyUpdate }.

(** The callbacks, nil until [SetHandlers]; [S] is the owner's state. *)
Record callbacks (S : Type) := {
  onConfigUpdate : option (Config → S → S);
  onCommand : option (bytes → S → res S);
  onPolicyUpdate : option (list PolicyUpdate → S → S) }.
Arguments onConfigUpdate {S} _.
Arguments onCommand {S} _.
Arguments onPolicyUpdate {S} _.

Definition secs : Z := 1000000000.

Section client.
Context {S : Type}.

(** [cc_beats] are the tokens of the heartbeats sent so far, [cc_fetches] the
    number of goroutines started to fetch a configuration. *)
Record ControlClient := {
  cc_conn : bool;
  cc_token : bytes;
  cc_cb : callbacks S;
  cc_beats : list bytes;
  cc_fetches : nat;
  cc_owner : S }.

Definition NewControlClient (s : S) : ControlClient :=
  {| cc_conn := false; cc_token := []; cc_cb := {| onConfigUpdate := None; onCommand := None; onPolicyUpdate := None |};
     cc_beats := []; cc_fetches := 0; cc_owner := s |}.

Definition SetHandlers (cb : callbacks S) (c : ControlClient) : ControlClient :=
  {| cc_conn := cc_conn c; cc_token := cc_token c; cc_cb := cb; cc_beats := cc_beats c; cc_fetches := cc_fetches c;
     cc_owner := cc_owner c |}.

Definition set_conn (b : bool) (c : ControlClient) : ControlClient :=
  {| cc_conn := b; cc_token := cc_token c; cc_cb := cc_cb c; cc_beats := cc_beats c; cc_fetches := cc_fetches c;
     cc_owner := cc_owner c |}.

(** [register]: the answer is a token or an error. *)
Definition register (resp : res bytes) (c : ControlClient) : option goerr * ControlClient :=
  match resp with
  | Ok token =>
      (None, {| cc_conn := cc_conn c; cc_token := token; cc_cb := cc_cb c; cc_beats := cc_beats c; cc_fetches := cc_fetches c;
                cc_owner := cc_owner c |})
  | Fail e => (Some e, c)
  | Panic => (Some ErrClosed, c)
  end.

(** What a heartbeat's answer does to the owner: a command, then policies;
    a new configuration is fetched on a goroutine. *)
Definition dispatch (resp : HeartbeatResponse) (c : ControlClient) : res ControlClient :=
  let fetch := ConfigUpdated resp && bool_decide (is_Some (onConfigUpdate (cc_cb c))) in
  let! s1 :=
    match onCommand (cc_cb c) with
    | Some f => if bool_decide (Command resp = []) then Ok (cc_owner c) else f (Command resp) (cc_owner c)
    | None => Ok (cc_owner c)
    end in
  let s2 :=
    match onPolicyUpdate (cc_cb c) with
    | Some f => if bool_decide (Policies resp = []) then s1 else f (Policies resp) s1
    | None => s1
    end in
  Ok {| cc_conn := cc_conn c; cc_token := cc_token c; cc_cb := cc_cb c; cc_beats := cc_beats c;
        cc_fetches := if fetch then Datatypes.S (cc_fetches c) else cc_fetches c; cc_owner := s2 |}.

Definition send_beat (c : ControlClient) : ControlClient :=
  {| cc_conn := cc_conn c; cc_token := cc_token c; cc_cb := cc_cb c; cc_beats := cc_beats c ++ [cc_token c];
     cc_fetches := cc_fetches c; cc_owner := cc_owner c |}.

(** [heartbeatLoop]: a tick with the result of its call, or the end of the
    context. *)
Inductive beat := Tick (resp : res HeartbeatResponse) | CtxDone.

Inductive beat_end := Lost | Cancelled | Beating.

Fixpoint heartbeatLoop (bs : list beat) (c : ControlClient) : res (beat_end * ControlClient) :=
  match bs with
  | [] => Ok (Beating, c)
  | CtxDone :: _ => Ok (Cancelled, c)
  | Tick (Ok resp) :: bs' => let! c' := dispatch resp (send_beat c) in heartbeatLoop bs' c'
  | Tick _ :: _ => Ok (Lost, send_beat c)
  end.

(** One round of [reconnectLoop]: the error of the dial, the answer to the
    registration, the heartbeats, and whether the pause ended by the timer
    (otherwise by the context). *)
Record attempt := { at_dial : option goerr; at_register : res bytes; at_beats : list beat; at_timer : bool }.

Inductive round_end := Paused (backoff : Z) (c : ControlClient) | StillBeating (c : ControlClient).

Definition connect_once (a : attempt) (backoff : Z) (c : ControlClient) : res round_end :=
  let c := set_conn false c in
  match at_dial a with
  | Some _ => Ok (Paused backoff c)
  | None =>
      let '(rerr, c1) := register (at_register a) (set_conn true c) in
      match rerr with
      | None =>
          let! (e, c2) := heartbeatLoop (at_beats a) c1 in
          Ok match e with Beating => StillBeating c2 | _ => Paused secs c2 end
      | Some _ => Ok (Paused backoff c1)
      end
  end.

Definition next_backoff (backoff : Z) : Z :=
  let b := i64 (backoff * 2) in if bool_decide (b > 60 * secs) then 60 * secs else b.

(** The pauses it makes, and where it is at the end of the rounds: returned,
    in a pause's wake or beating. *)
Inductive loop_end := Returned | Dialing | InSession.

Fixpoint reconnectLoop (backoff : Z) (l : list attempt) (c : ControlClient) : res (list Z * loop_end * ControlClient) :=
  match l with
  | [] => Ok ([], Dialing, c)
  | a :: l' =>
      let! r := connect_once a backoff c in
      match r with
      | StillBeating c' => Ok ([], InSession, c')
      | Paused b c' =>
          if at_timer a then
            let! (pauses, e, c'') := reconnectLoop (next_backoff b) l' c' in Ok (b :: pauses, e, c'')
          else Ok ([b], Returned, c')
      end
  end.

(** [fetchAndApplyConfig]: the answer of the controller and the YAML package. *)
Definition fetchAndApplyConfig (unmarshal : bytes → res Config) (resp : res bytes) (c : ControlClient) : res ControlClient :=
  match resp with
  | Ok data =>
      match unmarshal data with
      | Ok newCfg =>
          match onConfigUpdate (cc_cb c) with
          | Some f =>
              Ok {| cc_conn := cc_conn c; cc_token := cc_token c; cc_cb := cc_cb c; cc_beats := cc_beats c;
                    cc_fetches := cc_fetches c; cc_owner := f newCfg (cc_owner c) |}
          | None => Panic
          end
      | _ => Ok c
      end
  | _ => Ok c
  end.

(** [Start]: the options every dial of [reconnectLoop] is made with. *)
Inductive dial_option := WithInsecure | WithTLS | WithKeepalive (time timeout : Z) (withoutStream : bool).

Definition control_Start (cfg : ControllerConfig) : list dial_option :=
  (if ct_Insecure cfg then [WithInsecure] else [WithTLS]) ++ [WithKeepalive (10 * secs) (3 * secs) true].

(** [getContext]: the metadata of a call. *)
Definition getContext (c : ControlClient) : list (bytes * bytes) := [("authorization" : bytes, ("Bearer " : bytes) ++ cc_token c)].

(** [Stop]: the context is cancelled, which ends the loops at their next wait,
    and the connection is closed. *)
Definition control_Stop (c : ControlClient) : ControlClient := set_conn false c.

End client.
Arguments ControlClient S : clear implicits.

(** The agent's callbacks; the owner is the agent and the notifications the
    configuration manager has started. *)
Definition agent_callbacks `{DNSMsg Msg} : callbacks (Agent Msg * list Config) := {|
  onConfigUpdate := Some (λ cfg '(a, pending),
    match Validate cfg with
    | Some _ => (a, pending)
    | None =>
        ({| a_cfg := cfg; a_state := a_state a; a_cert := a_cert a; a_router := a_router a; a_dns := a_dns a;
            a_inbounds := a_inbounds a; a_lm := a_lm a; a_qm := a_qm a; a_udp := a_udp a; a_dg := a_dg a;
            a_admin := a_admin a; a_quic := a_quic a; a_control := a_control a; a_ctx := a_ctx a |}, pending ++ [cfg])
    end);
  onCommand := Some (λ cmd '(a, pending), let! a' := handleRemoteCommand cmd a in Ok (a', pending));
  onPolicyUpdate := Some (λ ps '(a, pending), (on_policies ps a, pending)) |}.

Module ControlThms.
Section thms.
Context {S : Type}.
Implicit Types c : ControlClient S.

(** ** Reconnecting *)

Definition registered (a : attempt) : bool :=
  match at_dial a, at_register a with None, Ok _ => true | _, _ => false end.

Definition pause (k : nat) : Z := Z.min (2 ^ Z.of_nat k) 60 * secs.

(** The reference: [k] rounds have failed since the last registration. *)
Fixpoint schedule (k : nat) (l : list attempt) : list Z :=
  match l with
  | [] => []
  | a :: l' => let k' := if registered a then 0%nat else k in pause k' :: schedule (Datatypes.S k') l'
  end.

Lemma pause_range k : secs ≤ pause k ≤ 60 * secs.
Proof. unfold pause, secs. pose proof (Z.pow_pos_nonneg 2 (Z.of_nat k) ltac:(lia) ltac:(lia)). lia. Qed.

Lemma next_pause k : next_backoff (pause k) = pause (Datatypes.S k).
Proof.
  unfold next_backoff. pose proof (pause_range k). rewrite i64_id by (unfold secs in *; lia).
  unfold pause, secs in *. rewrite Nat2Z.inj_succ, Z.pow_succ_r by lia. case_bool_decide; lia.
Qed.

Definition total (cb : callbacks S) : Prop :=
  match onCommand cb with Some f => ∀ cmd s, ∃ s', f cmd s = Ok s' | None => True end.

Lemma dispatch_total resp c : total (cc_cb c) → ∃ c', dispatch resp c = Ok c' ∧ cc_cb c' = cc_cb c ∧ cc_token c' = cc_token c ∧
  cc_beats c' = cc_beats c.
Proof.
  unfold total, dispatch. destruct (onCommand (cc_cb c)) as [f|]; cbn [res_bind].
  - intros Hf. case_bool_decide; cbn [res_bind]; [by eexists|]. destruct (Hf (Command resp) (cc_owner c)) as [s' ->].
    cbn [res_bind]. by eexists.
  - intros _. by eexists.
Qed.

Lemma heartbeat_run bs c :
  total (cc_cb c) → ∃ e c', heartbeatLoop bs c = Ok (e, c') ∧ cc_cb c' = cc_cb c ∧ cc_token c' = cc_token c ∧
    ∃ n, cc_beats c' = cc_beats c ++ replicate n (cc_token c).
Proof.
  revert c. induction bs as [|b bs IH]; intros c Ht.
  - exists Beating, c. do 3 (split; [done|]). exists 0%nat. by rewrite app_nil_r.
  - destruct b as [[resp| |]|]; cbn [heartbeatLoop].
    + destruct (dispatch_total resp (send_beat c) Ht) as (c1 & -> & Hcb & Htok & Hb). cbn [res_bind].
      destruct (IH c1) as (e & c' & E & Hcb' & Htok' & n & Hb'); [by rewrite Hcb|]. exists e, c'. split; [done|].
      split; [by rewrite Hcb', Hcb|]. split; [by rewrite Htok', Htok|]. exists (Datatypes.S n). rewrite Hb', Hb, Htok. cbn.
      by rewrite <-app_assoc.
    + exists Lost, (send_beat c). do 3 (split; [done|]). by exists 1%nat.
    + exists Lost, (send_beat c). do 3 (split; [done|]). by exists 1%nat.
    + exists Cancelled, c. do 3 (split; [done|]). exists 0%nat. by rewrite app_nil_r.
Qed.

(** The heartbeats of a run: each carries a token some registration of the
    run returned. *)
Definition beats_ok (l : list attempt) c c' : Prop :=
  ∃ sent, cc_beats c' = cc_beats c ++ sent ∧ ∀ t, t ∈ sent → ∃ a, a ∈ l ∧ registered a = true ∧ at_register a = Ok t.

Lemma connect_once_run a b c :
  total (cc_cb c) →
  ∃ r c', connect_once a b c = Ok r ∧
    (r = StillBeating c' ∧ registered a = true ∨ r = Paused (if registered a then secs else b) c') ∧
    cc_cb c' = cc_cb c ∧ beats_ok [a] c c'.
Proof.
  intros Ht. unfold connect_once, registered, beats_ok. destruct (at_dial a) as [e|] eqn:Ed.
  - exists (Paused b (set_conn false c)), (set_conn false c). split; [done|]. split; [by right|]. split; [done|].
    exists []. split; [by rewrite app_nil_r|set_solver].
  - unfold register. destruct (at_register a) as [tok|e|] eqn:Er.
    + set (c1 := Build_ControlClient _ _ _ _ _ _).
      destruct (heartbeat_run (at_beats a) c1 Ht) as (e & c' & E & Hcb & Htok & n & Hb).
      rewrite E. cbn [res_bind]. eexists _, c'. split; [done|]. split; [by destruct e; eauto|]. split; [done|].
      exists (replicate n tok). split; [done|]. intros t [-> _]%elem_of_replicate. exists a. split; [by left|].
      unfold registered. by rewrite Ed, Er.
    + eexists _, _. split; [done|]. split; [by right|]. split; [done|]. exists []. split; [by rewrite app_nil_r|set_solver].
    + eexists _, _. split; [done|]. split; [by right|]. split; [done|]. exists []. split; [by rewrite app_nil_r|set_solver].
Qed.

Lemma beats_ok_cons a l c c1 c2 : beats_ok [a] c c1 → beats_ok l c1 c2 → beats_ok (a :: l) c c2.
Proof.
  intros (s1 & E1 & H1) (s2 & E2 & H2). exists (s1 ++ s2). split; [by rewrite E2, E1, app_assoc|].
  intros t [Ht|Ht]%elem_of_app; [destruct (H1 t Ht) as (x & Hx & ?)|destruct (H2 t Ht) as (x & Hx & ?)]; exists x; set_solver.
Qed.

Lemma reconnect_run l k c :
  total (cc_cb c) → Forall (λ a, at_timer a = true) l →
  ∃ pauses e c', reconnectLoop (pause k) l c = Ok (pauses, e, c') ∧ e ≠ Returned ∧ pauses `prefix_of` schedule k l ∧
    (e = Dialing → pauses = schedule k l) ∧ beats_ok l c c'.
Proof.
  revert k c. induction l as [|a l IH]; intros k c Ht Hl.
  - exists [], Dialing, c. do 4 (split; [done|]). exists []. split; [by rewrite app_nil_r|set_solver].
  - inversion Hl as [|? ? Ha Hl']; subst. cbn [reconnectLoop].
    destruct (connect_once_run a (pause k) c Ht) as (r & c1 & -> & Hr & Hcb & Hb). cbn [res_bind].
    destruct Hr as [[-> Hreg]| ->].
    + exists [], InSession, c1. split; [done|]. split; [done|]. split; [apply prefix_nil|]. split; [done|].
      apply (beats_ok_cons _ _ _ c1); [done|]. exists []. split; [by rewrite app_nil_r|set_solver].
    + rewrite Ha. set (k' := if registered a then 0%nat else k).
      assert ((if registered a then secs else pause k) = pause k') as -> by (unfold k'; by destruct (registered a)).
      rewrite next_pause. destruct (IH (Datatypes.S k') c1) as (ps & e & c' & -> & He & Hp & Hd & Hb'); [by rewrite Hcb|done|].
      cbn [res_bind schedule]. fold k'. exists (pause k' :: ps), e, c'. do 2 (split; [done|]).
      split; [by apply prefix_cons|]. split; [intros E; by rewrite Hd|]. by apply (beats_ok_cons _ _ _ c1).
Qed.

Lemma schedule_range k l : Forall (λ p, secs ≤ p ≤ 60 * secs) (schedule k l).
Proof. revert k. induction l; intros k; constructor; [apply pause_range|auto]. Qed.

(** C25: the client never gives up and never hurries.  As long as its context
    is not cancelled and the callbacks return, whatever the network does to
    its dials, registrations and heartbeats, the reconnect loop does not
    return: it is in a session or has made every round, and its pauses are
    those of the reference schedule, 1, 2, 4, ... seconds doubling with every
    round without a registration up to a minute and starting over after each
    registration, so that every pause lies between a second and a minute. *)
Theorem reconnect_schedule (l : list attempt) (s : S) (cb : callbacks S) :
  total cb → Forall (λ a, at_timer a = true) l →
  ∃ pauses e c', reconnectLoop secs l (SetHandlers cb (NewControlClient s)) = Ok (pauses, e, c') ∧ e ≠ Returned ∧
    pauses `prefix_of` schedule 0 l ∧ (e = Dialing → pauses = schedule 0 l) ∧ Forall (λ p, secs ≤ p ≤ 60 * secs) pauses.
Proof.
  intros Ht Hl. destruct (reconnect_run l 0 (SetHandlers cb (NewControlClient s)) Ht Hl) as (ps & e & c' & E & He & Hp & Hd & _).
  exists ps, e, c'. do 4 (split; [done|]). destruct Hp as [rest Hr]. pose proof (schedule_range 0 l) as Hs. rewrite Hr in Hs.
  by apply Forall_app in Hs as [Hs _].
Qed.

(** Heartbeats are sent only after a registration and carry its token:
    every heartbeat of a run presents a token some registration of that run
    returned. *)
Theorem heartbeat_tokens (l : list attempt) (s : S) (cb : callbacks S) :
  total cb → Forall (λ a, at_timer a = true) l →
  ∃ pauses e c', reconnectLoop secs l (SetHandlers cb (NewControlClient s)) = Ok (pauses, e, c') ∧
    ∀ t, t ∈ cc_beats c' → ∃ a, a ∈ l ∧ at_dial a = None ∧ at_register a = Ok t.
Proof.
  intros Ht Hl. destruct (reconnect_run l 0 (SetHandlers cb (NewControlClient s)) Ht Hl) as (ps & e & c' & E & _ & _ & _ & sent & Hb & Hs).
  exists ps, e, c'. split; [done|]. intros t Hin. rewrite Hb in Hin. destruct (Hs t Hin) as (a & Ha & Hreg & Et). exists a.
  split; [done|]. unfold registered in Hreg. by destruct (at_dial a).
Qed.

End thms.

(** ** The controller and the agent *)

Section agent.
Context `{DNSMsg Msg}.

Lemma command_run cmd (a : Agent Msg) b :
  a_ctx a = Some b →
  ∃ a1, handleRemoteCommand cmd a = Ok a1 ∧ a_lm a1 = a_lm a ∧ a_qm a1 = a_qm a ∧ a_inbounds a1 = a_inbounds a ∧
    a_router a1 = a_router a ∧ a_ctx a1 = (if bool_decide (cmd = ("shutdown" : bytes)) then Some true else Some b) ∧
    (cmd = [] → a1 = a).
Proof.
  intros Hctx. unfold handleRemoteCommand, Stop. rewrite Hctx. case_bool_decide as Hc; eexists; [|done].
  do 6 (split; [done|]). by subst.
Qed.

Lemma policies_run ps (a : Agent Msg) :
  (a_lm (on_policies ps a), a_qm (on_policies ps a)) = handlePolicyUpdate ps (a_lm a, a_qm a) ∧
  a_ctx (on_policies ps a) = a_ctx a ∧ a_inbounds (on_policies ps a) = a_inbounds a ∧ a_router (on_policies ps a) = a_router a.
Proof. unfold on_policies. by destruct (handlePolicyUpdate _ _). Qed.

(** What the controller answers to a heartbeat takes effect at once.  For
    a started agent, an answer applies its command, then all its policies, in
    their order, to the agent's limiters and quotas, also when the command is
    the shutdown, and starts one fetch if a new configuration is announced;
    running inbounds are not touched. *)
Theorem heartbeat_applies (c : ControlClient (Agent Msg * list Config)) (a : Agent Msg) (pending : list Config) (b : bool)
    (resp : HeartbeatResponse) :
  cc_cb c = agent_callbacks → cc_owner c = (a, pending) → a_ctx a = Some b →
  ∃ c' a', heartbeatLoop [Tick (Ok resp)] c = Ok (Beating, c') ∧ cc_owner c' = (a', pending) ∧
    (a_lm a', a_qm a') = handlePolicyUpdate (Policies resp) (a_lm a, a_qm a) ∧
    a_ctx a' = (if bool_decide (Command resp = ("shutdown" : bytes)) then Some true else Some b) ∧
    a_inbounds a' = a_inbounds a ∧ a_router a' = a_router a ∧
    cc_fetches c' = ((if ConfigUpdated resp then 1 else 0) + cc_fetches c)%nat.
Proof.
  intros Hcb Ho Hctx. cbn [heartbeatLoop]. unfold dispatch. cbn [send_beat cc_cb cc_owner]. rewrite Hcb, Ho.
  cbn [agent_callbacks onCommand onPolicyUpdate onConfigUpdate]. rewrite (bool_decide_true (is_Some (Some _))) by eauto.
  rewrite andb_true_r. destruct (command_run (Command resp) a b Hctx) as (a1 & E1 & Hl & Hq & Hi & Hr & Hx & Hn).
  pose proof (policies_run (Policies resp) a1) as (P1 & P2 & P3 & P4). rewrite Hl, Hq in P1.
  assert ((if bool_decide (Command resp = []) then Ok (a, pending)
           else let! a' := handleRemoteCommand (Command resp) a in Ok (a', pending)) = Ok (a1, pending)) as ->.
  { destruct (decide (Command resp = [])) as [Hc|Hc]; [by rewrite bool_decide_true, (Hn Hc)|by rewrite bool_decide_false, E1]. }
  cbn [res_bind]. eexists _, (if bool_decide (Policies resp = []) then a1 else on_policies (Policies resp) a1).
  split; [done|]. cbn [cc_owner cc_fetches]. split; [by destruct (bool_decide (Policies resp = []))|].
  destruct (decide (Policies resp = [])) as [Hp|Hp]; [rewrite bool_decide_true, Hp by done; cbn [handlePolicyUpdate fold_left]|
    rewrite bool_decide_false by done]; repeat split; try congruence; by destruct (ConfigUpdated resp).
Qed.

(** A configuration from the controller is applied in full or not at all.
    When the answer is an error, cannot be parsed or has no node identifier,
    nothing changes; otherwise the manager holds it, one notification is
    started, and when that runs the router has exactly its rules and the
    inbounds are those [syncInbounds] describes. *)
Theorem remote_config_applies (unmarshal : bytes → res Config) (resp : res bytes)
    (c : ControlClient (Agent Msg * list Config)) (a : Agent Msg) (pending : list Config) :
  cc_cb c = agent_callbacks → cc_owner c = (a, pending) →
  ∃ c' a', fetchAndApplyConfig unmarshal resp c = Ok c' ∧
    match (let! data := resp in unmarshal data) with
    | Ok cfg =>
        if bool_decide (Validate cfg = None) then
          cc_owner c' = (a', pending ++ [cfg]) ∧ a_cfg a' = cfg ∧
          ((∀ o, o ∈ Outbounds cfg → new_outbound (a_cert a) o ≠ Panic) →
           ∃ a'', on_config cfg a' = Ok a'' ∧ rules (a_router a'') = rule_of <$> rt_Rules (Routing cfg) ∧
             a_inbounds a'' = sr_active (syncInbounds cfg (a_inbounds a)))
        else cc_owner c' = (a, pending)
    | _ => c' = c
    end.
Proof.
  intros Hcb Ho. unfold fetchAndApplyConfig. destruct resp as [data| |]; cbn [res_bind]; [|by exists c, a|by exists c, a].
  destruct (unmarshal data) as [cfg| |]; [|by exists c, a|by exists c, a].
  rewrite Hcb. cbn [agent_callbacks onConfigUpdate]. rewrite Ho. destruct (Validate cfg); eexists.
  - exists a. split; [done|]. by rewrite bool_decide_false.
  - eexists. split; [done|]. rewrite bool_decide_true by done. cbn [cc_owner]. split; [done|]. split; [done|].
    intros Hn. unfold on_config. cbn [a_cert a_router a_inbounds]. unfold applyConfigToRouter.
    destruct (AgentThms.add_outbounds_spec (a_cert a) (Outbounds cfg) (a_router a) Hn) as (r' & -> & _). cbn [res_bind].
    eexists. split; [done|]. done.
Qed.

End agent.

(** ** Concrete runs *)

#[local] Existing Instance DnsThms.demo_dns.

Definition refused : attempt := {| at_dial := Some ErrTimeout; at_register := Fail EOF; at_beats := []; at_timer := true |}.

Definition served (token : bytes) : attempt :=
  {| at_dial := None; at_register := Ok token;
     at_beats := [Tick (Ok {| ConfigUpdated := false; Command := []; Policies := [] |}); Tick (Fail ErrTimeout)]; at_timer := true |}.

Definition no_callbacks : callbacks unit := {| onConfigUpdate := None; onCommand := None; onPolicyUpdate := None |}.

Definition demo_rounds : list attempt := replicate 8 refused ++ [served "t1"; refused; served "t2"].

Lemma demo_timers : Forall (λ a, at_timer a = true) demo_rounds.
Proof. repeat constructor. Qed.

Lemma reconnect_schedule_witness :
  ∃ pauses e c', reconnectLoop secs demo_rounds (SetHandlers no_callbacks (NewControlClient ())) = Ok (pauses, e, c') ∧
    e = Dialing ∧ pauses = (λ n, n * secs) <$> [1; 2; 4; 8; 16; 32; 60; 60; 1; 2; 1].
Proof.
  destruct (reconnect_schedule demo_rounds () no_callbacks I demo_timers) as (ps & e & c' & E & _ & _ & Hd & _).
  exists ps, e, c'. split; [exact E|]. assert (e = Dialing) as He by (vm_compute in E; by injection E as _ <- _).
  split; [exact He|]. rewrite (Hd He). vm_compute. reflexivity.
Defined.

Lemma heartbeat_tokens_witness :
  ∃ pauses e c', reconnectLoop secs demo_rounds (SetHandlers no_callbacks (NewControlClient ())) = Ok (pauses, e, c') ∧
    length (cc_beats c') = 4%nat ∧ ∀ t, t ∈ cc_beats c' → ∃ a, a ∈ demo_rounds ∧ at_dial a = None ∧ at_register a = Ok t.
Proof.
  destruct (heartbeat_tokens demo_rounds () no_callbacks I demo_timers) as (ps & e & c' & E & Ht).
  exists ps, e, c'. split; [exact E|]. split; [|exact Ht]. vm_compute in E. by injection E as _ _ <-.
Defined.

Definition demo_client (a : Agent DnsThms.demo_msg) : ControlClient (Agent DnsThms.demo_msg * list Config) :=
  SetHandlers agent_callbacks (NewControlClient (a, [])).

Definition demo_answer : HeartbeatResponse :=
  {| ConfigUpdated := true; Command := "shutdown"; Policies := [AgentThms.demo_policy] |}.

Lemma heartbeat_applies_witness :
  ∃ a : Agent DnsThms.demo_msg, Start AgentThms.no_files (New generateInitConfig) = Ok a ∧
    ∃ c' a', heartbeatLoop [Tick (Ok demo_answer)] (demo_client a) = Ok (Beating, c') ∧ cc_owner c' = (a', []) ∧
      (a_lm a', a_qm a') = handlePolicyUpdate [AgentThms.demo_policy] (a_lm a, a_qm a) ∧ a_ctx a' = Some true.
Proof.
  destruct (Start AgentThms.no_files (New (Msg := DnsThms.demo_msg) generateInitConfig)) as [a| |] eqn:E; [|discriminate E|discriminate E].
  exists a. split; [reflexivity|]. pose proof (AgentThms.Start_Ok _ _ _ E) as (_ & _ & _ & Hc).
  destruct (heartbeat_applies (demo_client a) a [] false demo_answer eq_refl eq_refl Hc) as (c' & a' & H1 & H2 & H3 & H4 & _).
  exists c', a'. split; [exact H1|]. split; [exact H2|]. split; [exact H3|exact H4].
Defined.

Lemma remote_config_applies_witness :
  let a := New (Msg := DnsThms.demo_msg) generateInitConfig in
  ∃ c' a', fetchAndApplyConfig (λ _, Ok (ConfigThms.demo_cfg "n1")) (Ok ("node: n1" : bytes)) (demo_client a) = Ok c' ∧
    cc_owner c' = (a', [ConfigThms.demo_cfg "n1"]) ∧ a_cfg a' = ConfigThms.demo_cfg "n1".
Proof.
  intros a. destruct (remote_config_applies (λ _, Ok (ConfigThms.demo_cfg "n1")) (Ok ("node: n1" : bytes)) (demo_client a) a []
                        eq_refl eq_refl) as (c' & a' & E & Hw & Hcfg & _).
  exists c', a'. split; [exact E|]. split; [exact Hw|exact Hcfg].
Defined.

End ControlThms.
