(* ===== verification/Npctl.v ===== *)
(** * The administration interface end to end: [startHTTPServices] and [cmd/npctl]

    The agent's administration server dispatches on the path of a request and
    reads its arguments from the query; [npctl] builds the URLs.  The URL is
    split and the query parsed as [net/http] and [net/url] do. *)

From S2P Require Import Prelude GoNet Types Limits Relay Outbound Router Dns Config Agent.

(** ** [net/url] *)

Definition amp : byte := Byte.x26.
Definition equals : byte := Byte.x3d.
Definition plus_sign : byte := Byte.x2b.
Definition semicolon : byte := Byte.x3b.
Definition question_mark : byte := Byte.x3f.
Definition hash_sign : byte := Byte.x23.

(** [QueryUnescape]. *)
Fixpoint unescape (s : bytes) : option bytes :=
  match s with
  | [] => Some []
  | c :: r =>
      if bool_decide (c = percent) then
        match r with
        | x :: y :: r' => h ← hex_val x; l ← hex_val y; cons (z2b (h * 16 + l)) <$> unescape r'
        | _ => None
        end
      else cons (if bool_decide (c = plus_sign) then Byte.x20 else c) <$> unescape r
  end.

(** One [key=value] of a query; [None] for what [Query] leaves out. *)
Definition query_pair (seg : bytes) : option (bytes * bytes) :=
  if bool_decide (seg = []) || contains_byte semicolon seg then None
  else
    let '(k, v) := match SplitN2 equals seg with [k; v] => (k, v) | _ => (seg, []) end in
    k' ← unescape k; v' ← unescape v; Some (k', v').

(** [URL.Query().Get(key)]. *)
Definition query_get (key query : bytes) : bytes :=
  match List.find (λ kv, bool_decide (kv.1 = key)) (omap query_pair (split_byte amp query)) with
  | Some (_, v) => v
  | None => []
  end.

(** The path and the query of a URL behind its host. *)
Definition url_split (s : bytes) : bytes * bytes :=
  let s := match SplitN2 hash_sign s with [u; _] => u | _ => s end in
  match SplitN2 question_mark s with [p; q] => (p, q) | _ => (s, []) end.

(** ** The server *)

Section admin.
Context `{DNSMsg Msg}.

Inductive admin_reply :=
| AStatus (s : admin_status)
| AConfig (c : Config)
| ASessions (l : list SessionInfo)
| AMetrics
| AText (code : Z) (text : bytes).

(** The reply, the sessions that were cancelled and the agent afterwards. *)
Record admin_result := { ar_reply : admin_reply; ar_cancelled : list bytes; ar_agent : Agent Msg }.

Definition with_dns (a : Agent Msg) (d : SmartResolver Msg) : Agent Msg :=
  {| a_cfg := a_cfg a; a_state := a_state a; a_cert := a_cert a; a_router := a_router a; a_dns := d;
     a_inbounds := a_inbounds a; a_lm := a_lm a; a_qm := a_qm a; a_udp := a_udp a; a_dg := a_dg a; a_admin := a_admin a;
     a_quic := a_quic a; a_control := a_control a; a_ctx := a_ctx a |}.

Definition with_qm (a : Agent Msg) (q : Quota.QuotaManager) : Agent Msg :=
  {| a_cfg := a_cfg a; a_state := a_state a; a_cert := a_cert a; a_router := a_router a; a_dns := a_dns a;
     a_inbounds := a_inbounds a; a_lm := a_lm a; a_qm := q; a_udp := a_udp a; a_dg := a_dg a; a_admin := a_admin a;
     a_quic := a_quic a; a_control := a_control a; a_ctx := a_ctx a |}.

(** The routes of [startHTTPServices]; [g] and [m] are the counters and the
    session table, [log] the log file. *)
Definition admin_serve (path query : bytes) (a : Agent Msg) (g : shared) (m : sessions) (log : bytes + bytes) : admin_result :=
  let same r := {| ar_reply := r; ar_cancelled := []; ar_agent := a |} in
  if bool_decide (path = ("/status" : bytes)) then same (AStatus (handleAdminStatus a g))
  else if bool_decide (path = ("/config" : bytes)) then same (AConfig (handleAdminConfig a))
  else if bool_decide (path = ("/connections" : bytes)) then same (ASessions (handleAdminConnections m))
  else if bool_decide (path = ("/connections/close" : bytes)) then
    let '(ids, code, text) := handleAdminKick (query_get "id" query) m in
    {| ar_reply := AText code text; ar_cancelled := ids; ar_agent := a |}
  else if bool_decide (path = ("/users/kick" : bytes)) then
    let '(ids, code, text) := handleAdminKickUser (query_get "user_id" query) m in
    {| ar_reply := AText code text; ar_cancelled := ids; ar_agent := a |}
  else if bool_decide (path = ("/dns/flush" : bytes)) then
    let '(d, code, text) := handleAdminDNSFlush (Some (a_dns a)) in
    {| ar_reply := AText code text; ar_cancelled := []; ar_agent := match d with Some d => with_dns a d | None => a end |}
  else if bool_decide (path = ("/users/quota/reset" : bytes)) then
    let '(q, text) := handleAdminQuotaReset (query_get "user_id" query) (a_qm a) in
    {| ar_reply := AText OK text; ar_cancelled := []; ar_agent := with_qm a q |}
  else if bool_decide (path = ("/logs" : bytes)) then
    let '(code, text) := handleAdminLogs (a_cfg a) log in same (AText code text)
  else if bool_decide (path = ("/metrics" : bytes)) then same AMetrics
  else same (AText NotFound "404 page not found").

End admin.
Arguments admin_reply : clear implicits.
Arguments admin_result Msg : clear implicits.

(** ** [npctl] *)

Inductive npctl_action := CallAPI (url : bytes) | PostAPI (url : bytes) | WriteInitConfig | Exit1 (text : bytes).

(** The [switch] of [main]; URLs without the address of the server. *)
Definition npctl (cmd id : bytes) : npctl_action :=
  let needs_id usage act := if bool_decide (id = []) then Exit1 usage else act in
  if bool_decide (cmd = ("status" : bytes)) then CallAPI "/status"
  else if bool_decide (cmd = ("config" : bytes)) then CallAPI "/config"
  else if bool_decide (cmd = ("metrics" : bytes)) then CallAPI "/metrics"
  else if bool_decide (cmd = ("logs" : bytes)) then CallAPI "/logs"
  else if bool_decide (cmd = ("connections" : bytes)) then CallAPI "/connections"
  else if bool_decide (cmd = ("kick" : bytes)) then
    needs_id "Usage: npctl --cmd kick --id <session_id>" (PostAPI ("/connections/close?id=" ++ id))
  else if bool_decide (cmd = ("kick-user" : bytes)) then
    needs_id "Usage: npctl --cmd kick-user --id <user_id>" (PostAPI ("/users/kick?user_id=" ++ id))
  else if bool_decide (cmd = ("dns-flush" : bytes)) then PostAPI "/dns/flush"
  else if bool_decide (cmd = ("quota-reset" : bytes)) then
    needs_id "Usage: npctl --cmd quota-reset --id <user_id>" (PostAPI ("/users/quota/reset?user_id=" ++ id))
  else if bool_decide (cmd = ("init-config" : bytes)) then WriteInitConfig
  else Exit1 (("Unknown command: " : bytes) ++ cmd).

(** A request of [npctl] served by the agent. *)
Definition npctl_run `{DNSMsg Msg} (cmd id : bytes) (a : Agent Msg) (g : shared) (m : sessions) (log : bytes + bytes) :
  option (admin_result Msg) :=
  match npctl cmd id with
  | CallAPI url | PostAPI url => let '(p, q) := url_split url in Some (admin_serve p q a g m log)
  | _ => None
  end.

(** A response: its status, its content type and its body. *)
Record api_response := { resp_code : Z; resp_type : bytes; resp_body : bytes }.

(** [printResp]; [indent] is [json.Unmarshal] followed by [MarshalIndent]. *)
Definition printResp (indent : bytes → bytes) (r : api_response) : bytes :=
  if bool_decide (resp_type r = ("application/json" : bytes)) then indent (resp_body r) else resp_body r.

(** What [callAPI] and [postAPI] print, for a response or the text of an
    error of the HTTP client. *)
Definition call_output (indent : bytes → bytes) (r : bytes + api_response) : bytes :=
  match r with inl e => ("Error: " : bytes) ++ e | inr r => printResp indent r end.

Definition post_output (indent : bytes → bytes) (r : bytes + api_response) : bytes :=
  match r with
  | inl e => ("Error: " : bytes) ++ e
  | inr r => if bool_decide (200 ≤ resp_code r < 300) then "Success" else printResp indent r
  end.

(** What the agent answers, as a response: [http.Error] and plain text set
    this content type. *)
Definition text_response (code : Z) (text : bytes) : api_response :=
  {| resp_code := code; resp_type := "text/plain; charset=utf-8"; resp_body := text |}.

Module NpctlThms.

(** Kicking a session prints "Success" exactly when it was there, and
    otherwise that it was not found. *)
Theorem kick_reports (indent : bytes → bytes) (id : bytes) (m : sessions) :
  let '(ids, code, text) := handleAdminKick id m in
  post_output indent (inr (text_response code text)) =
    (if bool_decide (is_Some (m !! id)) then ("Success" : bytes) else ("Session not found" : bytes)) ∧
  ids = if bool_decide (is_Some (m !! id)) then [id] else [].
Proof. unfold handleAdminKick. by destruct (m !! id). Qed.

(** The administration interface shows the password hashes.  Whoever asks
    for the configuration gets every inbound with its users, which
    [Redacted] would have taken out. *)
Theorem config_exposes_users `{DNSMsg Msg} (a : Agent Msg) (g : shared) (m : sessions) (log : bytes + bytes) (i : InboundConfig) :
  i ∈ Inbounds (a_cfg a) → Users (in_Auth i) ≠ [] →
  ∃ cfg, npctl_run "config" [] a g m log = Some {| ar_reply := AConfig cfg; ar_cancelled := []; ar_agent := a |} ∧
    i ∈ Inbounds cfg ∧ i ∉ Inbounds (Redacted cfg).
Proof.
  intros Hi Hu. exists (a_cfg a). split; [done|]. split; [done|]. unfold Redacted. cbn. rewrite list_elem_of_fmap.
  intros (j & Hj & _). apply Hu. by rewrite Hj.
Qed.

(** The characters that stand for themselves in a query value. *)
Definition plain_byte (c : byte) : Prop :=
  32 < b2z c < 127 ∧ c ∉ [amp; equals; plus_sign; semicolon; question_mark; hash_sign; percent].

#[export] Instance plain_byte_dec c : Decision (plain_byte c).
Proof. unfold plain_byte. apply _. Defined.

Lemma unescape_plain s : Forall plain_byte s → unescape s = Some s.
Proof.
  induction 1 as [|c s Hc _ IH]; [done|]. cbn [unescape]. destruct Hc as [_ Hc].
  rewrite !bool_decide_false by set_solver. by rewrite IH.
Qed.

Lemma plain_not_in s c : Forall plain_byte s → c ∈ [amp; equals; plus_sign; semicolon; question_mark; hash_sign; percent] → c ∉ s.
Proof. intros Hs Hc Hin. rewrite Forall_forall in Hs. by destruct (Hs c Hin) as [_ []]. Qed.

Lemma SplitN2_none sep s : sep ∉ s → SplitN2 sep s = [s].
Proof. intros Hn. unfold SplitN2. by rewrite (proj2 (index_byte_None sep s)). Qed.

Lemma query_pair_plain k v : k ≠ [] → Forall plain_byte k → Forall plain_byte v → query_pair (k ++ equals :: v) = Some (k, v).
Proof.
  intros Hk Hpk Hpv. unfold query_pair. rewrite bool_decide_false by (by destruct k).
  rewrite (proj2 (contains_byte_false semicolon _)); cbn [orb].
  - rewrite SplitN2_sep by (apply plain_not_in; [done|set_solver]). by rewrite !unescape_plain.
  - pose proof (plain_not_in k semicolon Hpk ltac:(set_solver)). pose proof (plain_not_in v semicolon Hpv ltac:(set_solver)).
    rewrite elem_of_app, elem_of_cons. naive_solver.
Qed.

(** The first argument of a query that starts with [key=value]. *)
Lemma query_get_first key v rest :
  key ≠ [] → Forall plain_byte key → Forall plain_byte v →
  query_get key (key ++ equals :: v) = v ∧ query_get key (key ++ equals :: v ++ amp :: rest) = v.
Proof.
  intros Hk Hpk Hpv. assert (amp ∉ key ++ equals :: v) as Ha.
  { pose proof (plain_not_in key amp Hpk ltac:(set_solver)). pose proof (plain_not_in v amp Hpv ltac:(set_solver)).
    rewrite elem_of_app, elem_of_cons. naive_solver. }
  unfold query_get. split.
  - rewrite split_byte_none by done. cbn [omap list_omap]. rewrite query_pair_plain by done. cbn. by rewrite bool_decide_true.
  - change (key ++ equals :: v ++ amp :: rest) with (key ++ (equals :: v) ++ amp :: rest). rewrite app_assoc.
    rewrite split_byte_app by done. cbn [omap list_omap]. rewrite query_pair_plain by done. cbn. by rewrite bool_decide_true.
Qed.

Lemma url_split_query p q : question_mark ∉ p → hash_sign ∉ p → hash_sign ∉ q → url_split (p ++ question_mark :: q) = (p, q).
Proof.
  intros Hp H1 H2. unfold url_split. rewrite (SplitN2_none hash_sign) by (rewrite elem_of_app, elem_of_cons; naive_solver).
  cbv beta iota zeta. by rewrite SplitN2_sep.
Qed.

(** What an argument command of [npctl] asks the agent. *)
Lemma npctl_arg `{DNSMsg Msg} path key id rest (a : Agent Msg) g m log :
  question_mark ∉ path → hash_sign ∉ path → key ≠ [] → Forall plain_byte key → Forall plain_byte id → hash_sign ∉ rest →
  (let '(p, q) := url_split (path ++ question_mark :: key ++ equals :: id) in Some (admin_serve p q a g m log)) =
    Some (admin_serve path (key ++ equals :: id) a g m log) ∧
  (let '(p, q) := url_split (path ++ question_mark :: key ++ equals :: id ++ amp :: rest) in Some (admin_serve p q a g m log)) =
    Some (admin_serve path (key ++ equals :: id ++ amp :: rest) a g m log) ∧
  query_get key (key ++ equals :: id) = id ∧ query_get key (key ++ equals :: id ++ amp :: rest) = id.
Proof.
  intros Hq Hh Hk Hpk Hpi Hr. pose proof (plain_not_in key hash_sign Hpk ltac:(set_solver)).
  pose proof (plain_not_in id hash_sign Hpi ltac:(set_solver)).
  rewrite !url_split_query; [|done|done|repeat (rewrite ?elem_of_app, ?elem_of_cons); naive_solver..].
  destruct (query_get_first key id rest Hk Hpk Hpi). done.
Qed.

(** The routes and requests with an argument. *)
Lemma serve_kick `{DNSMsg Msg} q (a : Agent Msg) g m log :
  admin_serve "/connections/close" q a g m log =
  let '(ids, code, text) := handleAdminKick (query_get "id" q) m in
  {| ar_reply := AText code text; ar_cancelled := ids; ar_agent := a |}.
Proof. reflexivity. Qed.

Lemma serve_kick_user `{DNSMsg Msg} q (a : Agent Msg) g m log :
  admin_serve "/users/kick" q a g m log =
  let '(ids, code, text) := handleAdminKickUser (query_get "user_id" q) m in
  {| ar_reply := AText code text; ar_cancelled := ids; ar_agent := a |}.
Proof. reflexivity. Qed.

Lemma serve_reset `{DNSMsg Msg} q (a : Agent Msg) g m log :
  admin_serve "/users/quota/reset" q a g m log =
  {| ar_reply := AText OK "Quota reset"; ar_cancelled := []; ar_agent := with_qm a (Quota.Reset (query_get "user_id" q) (a_qm a)) |}.
Proof. reflexivity. Qed.

Lemma npctl_url id :
  id ≠ [] → npctl "kick" id = PostAPI (("/connections/close" : bytes) ++ question_mark :: ("id" : bytes) ++ equals :: id) ∧
  npctl "kick-user" id = PostAPI (("/users/kick" : bytes) ++ question_mark :: ("user_id" : bytes) ++ equals :: id) ∧
  npctl "quota-reset" id = PostAPI (("/users/quota/reset" : bytes) ++ question_mark :: ("user_id" : bytes) ++ equals :: id).
Proof. by destruct id. Qed.

Ltac by_bytes := apply (bool_decide_unpack _); vm_compute; exact I.

(** The commands of [npctl] do what they name.  For an identifier of
    characters that stand for themselves in a URL: "kick" cancels the session
    of that identifier and no other, or reports that there is none;
    "kick-user" cancels exactly the sessions of that user; "quota-reset" puts
    that user's usage to zero and leaves every other user's usage and all
    limits; the cancelling commands leave the agent as it is. *)
Theorem npctl_controls `{DNSMsg Msg} (id : bytes) (a : Agent Msg) (g : shared) (m : sessions) (log : bytes + bytes) :
  id ≠ [] → Forall plain_byte id →
  (∃ r, npctl_run "kick" id a g m log = Some r ∧ ar_agent r = a ∧
     match m !! id with
     | Some _ => ar_cancelled r = [id] ∧ ar_reply r = AText 200 "Session closed"
     | None => ar_cancelled r = [] ∧ ar_reply r = AText 404 "Session not found"
     end) ∧
  (∃ r, npctl_run "kick-user" id a g m log = Some r ∧ ar_agent r = a ∧
     ∀ sid, sid ∈ ar_cancelled r ↔ ∃ s, m !! sid = Some s ∧ siUserID s = id) ∧
  (∃ r, npctl_run "quota-reset" id a g m log = Some r ∧ ar_cancelled r = [] ∧ Quota.used_of (a_qm (ar_agent r)) id = 0 ∧
     (∀ v, v ≠ id → Quota.used_of (a_qm (ar_agent r)) v = Quota.used_of (a_qm a) v) ∧
     ∀ v, Quota.limit_of (a_qm (ar_agent r)) v = Quota.limit_of (a_qm a) v).
Proof.
  intros Hi Hp. destruct (npctl_url id Hi) as (U1 & U2 & U3). unfold npctl_run. rewrite U1, U2, U3. split; [|split].
  - destruct (npctl_arg "/connections/close" "id" id [] a g m log) as (E & _ & Eq & _); [by_bytes..|done|set_solver|].
    eexists. split; [exact E|]. rewrite serve_kick, Eq. unfold handleAdminKick. by destruct (m !! id).
  - destruct (npctl_arg "/users/kick" "user_id" id [] a g m log) as (E & _ & Eq & _); [by_bytes..|done|set_solver|].
    eexists. split; [exact E|]. rewrite serve_kick_user, Eq. pose proof (λ sid, AgentThms.kick_user_exact id sid m) as Hx.
    by destruct (handleAdminKickUser id m) as [[ids code] text].
  - destruct (npctl_arg "/users/quota/reset" "user_id" id [] a g m log) as (E & _ & Eq & _); [by_bytes..|done|set_solver|].
    eexists. split; [exact E|]. rewrite serve_reset, Eq. cbn [ar_cancelled ar_agent with_qm a_qm]. split; [done|].
    unfold Quota.Reset, Quota.used_of, Quota.limit_of. destruct (Quota.used (a_qm a) !! id) eqn:Eu; cbn [Quota.used Quota.limits].
    + rewrite lookup_insert_eq. split; [done|]. split; [|done]. intros v Hv. by rewrite lookup_insert_ne.
    + by rewrite Eu.
Qed.

(** Identifiers are not escaped.  A user whose name contains an ampersand
    cannot be kicked: the request cancels exactly the sessions of the user
    whose name is the part in front of it. *)
Theorem npctl_not_escaped `{DNSMsg Msg} (user rest : bytes) (a : Agent Msg) (g : shared) (m : sessions) (log : bytes + bytes) :
  Forall plain_byte user → Forall plain_byte rest →
  ∃ r, npctl_run "kick-user" (user ++ amp :: rest) a g m log = Some r ∧
    ∀ sid, sid ∈ ar_cancelled r ↔ ∃ s, m !! sid = Some s ∧ siUserID s = user.
Proof.
  intros Hu Hr. pose proof (plain_not_in rest hash_sign Hr ltac:(set_solver)).
  destruct (npctl_arg "/users/kick" "user_id" user rest a g m log) as (_ & E & _ & Eq); [by_bytes..|done|done|].
  destruct (npctl_url (user ++ amp :: rest)) as (_ & U & _); [by destruct user|]. unfold npctl_run. rewrite U.
  eexists. split; [exact E|]. rewrite serve_kick_user, Eq. pose proof (λ sid, AgentThms.kick_user_exact user sid m) as Hx.
  by destruct (handleAdminKickUser user m) as [[ids code] text].
Qed.

(** ** Concrete runs *)

#[local] Existing Instance DnsThms.demo_dns.

Definition demo_info (id user : bytes) : SessionInfo :=
  {| siID := id; siUserID := user; siSrc := []; siDst := []; siStartTime := 0; siBytesSent := 0 |}.

Definition demo_table : sessions :=
  <["s1" : bytes := demo_info "s1" "alice"]> (<["s2" : bytes := demo_info "s2" "bob"]> (<["s3" : bytes := demo_info "s3" "bob"]> ∅)).

Definition demo_agent : Agent DnsThms.demo_msg := New generateInitConfig.

Lemma npctl_controls_witness :
  ∃ r, npctl_run "kick-user" "bob" demo_agent RelayThms.demo_shared demo_table (inl []) = Some r ∧ ar_agent r = demo_agent ∧
    ∀ sid, sid ∈ ar_cancelled r ↔ ∃ s, demo_table !! sid = Some s ∧ siUserID s = ("bob" : bytes).
Proof.
  destruct (npctl_controls "bob" demo_agent RelayThms.demo_shared demo_table (inl [])) as (_ & Hu & _);
    [discriminate|by_bytes|exact Hu].
Defined.

Lemma npctl_not_escaped_witness :
  ∃ r, npctl_run "kick-user" (("bob" : bytes) ++ amp :: ("co" : bytes)) demo_agent RelayThms.demo_shared demo_table (inl []) = Some r ∧
    ∀ sid, sid ∈ ar_cancelled r ↔ ∃ s, demo_table !! sid = Some s ∧ siUserID s = ("bob" : bytes).
Proof. apply (npctl_not_escaped "bob" "co"); by_bytes. Defined.

End NpctlThms.
