(* ===== verification/Listener.v ===== *)
(** * Listening: [common.Listen] and the accept loops of the inbound handlers

    All TCP inbounds but the HTTP proxy run the same loop: accept, start a
    goroutine for the connection, and on an error return if the context is
    done and go on otherwise.  The step relation is the loop, the clients that
    connect and talk, and the two ways an inbound is told to stop: [Stop],
    which closes the listener, and the cancellation of the context.  With the
    PROXY protocol [Accept] reads the client's header, and so waits for it. *)

From S2P Require Import Prelude GoNet Stream ProxyProto.

(** [queue]: the connections the kernel has accepted, with what each has sent
    so far ([None]: not enough to decide); [served] the connections handed to
    a handler, [errs] the errors the loop has passed over. *)
Record listener := {
  proxy : bool;
  is_open : bool;
  queue : list (nat * option stream);
  ctx_done : bool;
  looping : bool;
  served : list nat;
  errs : nat }.

(** [Listen(network, address, useProxyProto)]; [bind] is the result of
    [net.Listen]. *)
Definition Listen (bind : option goerr) (useProxyProto : bool) : res listener :=
  match bind with
  | Some e => Fail e
  | None => Ok {| proxy := useProxyProto; is_open := true; queue := []; ctx_done := false; looping := true; served := []; errs := 0 |}
  end.

(** [listener.Accept()]; [None] while it waits. *)
Definition listener_Accept (l : listener) : option (res nat) :=
  match queue l with
  | (c, data) :: _ =>
      if proxy l then
        match data with
        | Some s => Some (let! _ := Accept (Ok s) in Ok c)
        | None => None
        end
      else Some (Ok c)
  | [] => if is_open l then None else Some (Fail ErrClosed)
  end.

(** A turn of the loop of [Start]. *)
Definition accept_turn (l : listener) : option listener :=
  match listener_Accept l with
  | Some (Ok c) =>
      Some {| proxy := proxy l; is_open := is_open l; queue := tail (queue l); ctx_done := ctx_done l; looping := looping l;
              served := served l ++ [c]; errs := errs l |}
  | Some (Fail _) =>
      Some {| proxy := proxy l; is_open := is_open l; queue := tail (queue l); ctx_done := ctx_done l;
              looping := negb (ctx_done l); served := served l; errs := if ctx_done l then errs l else S (errs l) |}
  | _ => None
  end.

(** [Stop] closes the listener, and with it the connections it holds. *)
Definition listener_Stop (l : listener) : listener :=
  {| proxy := proxy l; is_open := false; queue := []; ctx_done := ctx_done l; looping := looping l; served := served l; errs := errs l |}.

Definition cancel_ctx (l : listener) : listener :=
  {| proxy := proxy l; is_open := is_open l; queue := queue l; ctx_done := true; looping := looping l; served := served l; errs := errs l |}.

Definition enqueue (c : nat) (l : listener) : listener :=
  {| proxy := proxy l; is_open := is_open l; queue := queue l ++ [(c, None)]; ctx_done := ctx_done l; looping := looping l;
     served := served l; errs := errs l |}.

Definition speak (i : nat) (s : stream) (l : listener) : listener :=
  {| proxy := proxy l; is_open := is_open l; queue := alter (λ cd, (cd.1, Some s)) i (queue l); ctx_done := ctx_done l;
     looping := looping l; served := served l; errs := errs l |}.

Inductive label := LArrive (c : nat) | LSpeak (i : nat) (s : stream) | LTurn | LStop | LCancel.

Inductive lstep : label → listener → listener → Prop :=
| ls_arrive l c : is_open l = true → lstep (LArrive c) l (enqueue c l)
| ls_speak l i s : lstep (LSpeak i s) l (speak i s l)
| ls_turn l l' : looping l = true → accept_turn l = Some l' → lstep LTurn l l'
| ls_stop l : lstep LStop l (listener_Stop l)
| ls_cancel l : lstep LCancel l (cancel_ctx l).

Inductive lrun : list label → listener → listener → Prop :=
| lrun_nil l : lrun [] l l
| lrun_cons x t l l' l'' : lstep x l l' → lrun t l' l'' → lrun (x :: t) l l''.

(** The connections of a run, in the order of their arrival. *)
Definition arrivals (t : list label) : list nat := omap (λ x, match x with LArrive c => Some c | _ => None end) t.

Module ListenerThms.

Lemma lrun_app t1 t2 l1 l2 l3 : lrun t1 l1 l2 → lrun t2 l2 l3 → lrun (t1 ++ t2) l1 l3.
Proof. induction 1; [done|]. intros. econstructor; eauto. Qed.

Definition ids (l : listener) : list nat := served l ++ (queue l).*1.

Lemma accept_turn_ids l l' :
  accept_turn l = Some l' →
  ids l' `sublist_of` ids l ∧ (proxy l = false → is_open l = true → ids l' = ids l ∧ proxy l' = false ∧ is_open l' = true).
Proof.
  unfold accept_turn, listener_Accept, ids. destruct (queue l) as [|[c d] q].
  - destruct (is_open l); [done|]. by intros [= <-].
  - destruct (proxy l); [destruct d as [s|]; [|done]; destruct (Accept (Ok s)); [| |done]|]; intros [= <-]; cbn.
    + by rewrite <-app_assoc.
    + split; [|done]. apply sublist_app; [done|]. by apply sublist_cons.
    + by rewrite <-app_assoc.
Qed.

Lemma speak_ids i s (q : list (nat * option stream)) : (alter (λ cd, (cd.1, Some s)) i q).*1 = q.*1.
Proof. revert i. induction q as [|[c d] q IH]; intros [|i]; cbn; [done..|]. f_equal. apply IH. Qed.

Lemma lstep_ids x l l' :
  lstep x l l' →
  ids l' `sublist_of` (ids l ++ arrivals [x]) ∧
  (proxy l = false → is_open l = true → x ≠ LStop → ids l' = ids l ++ arrivals [x] ∧ proxy l' = false ∧ is_open l' = true).
Proof.
  destruct 1 as [l c|l i s|l l' Hl Ht|l|l]; unfold ids; cbn; rewrite ?app_nil_r.
  - by rewrite fmap_app, app_assoc.
  - by rewrite speak_ids.
  - apply accept_turn_ids in Ht as [H1 H2]. split; [exact H1|]. intros Hp Ho _. by apply H2.
  - split; [|done]. apply sublist_inserts_r. done.
  - done.
Qed.

(** Connections are served in the order they arrive and at most once; of
    a listener that is not stopped and without the PROXY protocol none is
    passed over: what is served is the beginning of what arrived, and what is
    waiting is the rest. *)
Theorem accept_in_order (useProxyProto : bool) (l0 l : listener) (t : list label) :
  Listen None useProxyProto = Ok l0 → lrun t l0 l →
  (served l ++ (queue l).*1) `sublist_of` arrivals t ∧
  (useProxyProto = false → LStop ∉ t → served l ++ (queue l).*1 = arrivals t).
Proof.
  intros [= <-] Hr. set (l0 := Build_listener _ _ _ _ _ _ _) in Hr.
  assert (∀ x t, arrivals (x :: t) = arrivals [x] ++ arrivals t) as Ha by (by intros [] ?).
  assert (ids l `sublist_of` (ids l0 ++ arrivals t) ∧
          (proxy l0 = false → is_open l0 = true → LStop ∉ t → ids l = ids l0 ++ arrivals t)) as [H1 H2]; [|naive_solver].
  induction Hr as [l|x t l l1 l2 Hs _ [IH1 IH2]]; [by rewrite app_nil_r|].
  apply lstep_ids in Hs as [Hs1 Hs2]. rewrite Ha, app_assoc. split.
  - etrans; [exact IH1|]. by apply sublist_app.
  - intros Hp Ho Hn. destruct Hs2 as (E & Hp1 & Ho1); [done|done|set_solver|]. rewrite <-E. apply IH2; [done|done|set_solver].
Qed.

(** ** Stopping *)

Definition stopped (l : listener) : Prop := is_open l = false ∧ queue l = [] ∧ ctx_done l = false ∧ looping l = true.

Lemma stopped_step x l l' : stopped l → x ≠ LCancel → lstep x l l' → stopped l' ∧ served l' = served l.
Proof.
  intros (Ho & Hq & Hc & Hl) Hx. destruct 1 as [l c Hop|l i s|l l' _ Ht|l|l]; [congruence| | |done|done].
  - unfold stopped, speak. cbn. by rewrite Hq.
  - unfold accept_turn, listener_Accept in Ht. rewrite Hq, Ho in Ht. injection Ht as <-. unfold stopped. cbn. by rewrite Hc.
Qed.

(** An inbound that is removed from the configuration never stops
    spinning.  Once [Stop] has closed the listener of a running loop whose
    context is still alive, then until the context is cancelled nothing is
    served any more, yet the loop never returns: at every moment it can take
    another turn, which fails and is passed over. *)
Theorem stop_spins (l l' : listener) (t : list label) :
  looping l = true → ctx_done l = false → LCancel ∉ t → lrun t (listener_Stop l) l' →
  looping l' = true ∧ served l' = served l ∧
  ∃ l'', accept_turn l' = Some l'' ∧ errs l'' = S (errs l') ∧ looping l'' = true.
Proof.
  intros Hl Hc Hn Hr. assert (stopped (listener_Stop l)) as H0 by done.
  change (served l) with (served (listener_Stop l)). clear Hl Hc.
  induction Hr as [l1|x t l1 l2 l3 Hs _ IH].
  - destruct H0 as (Ho & Hq & Hc & Hl). split; [done|]. split; [done|]. unfold accept_turn, listener_Accept. rewrite Hq, Ho, Hc.
    eexists. done.
  - destruct (stopped_step x l1 l2 H0) as [H2 <-]; [set_solver|done|]. apply IH; [set_solver|done].
Qed.

(** A listener nothing has happened to but cancellation. *)
Definition idle (b : bool) (l : listener) : Prop :=
  is_open l = true ∧ queue l = [] ∧ served l = [] ∧ looping l = true ∧ proxy l = b.

Lemma idle_run b t l l' : lrun t l l' → LStop ∉ t → LTurn ∉ t → arrivals t = [] → idle b l → idle b l'.
Proof.
  unfold idle. induction 1 as [l|x t l l1 l2 Hstep _ IH]; [done|]. intros Hs Ht Ha (Ho & Hq & Hsv & Hl & Hp).
  destruct Hstep as [l c'|l i s'| | |]; [done| |set_solver|set_solver|].
  - apply IH; [set_solver|set_solver|done|]. cbn. by rewrite Hq.
  - apply IH; [set_solver|set_solver|done|done].
Qed.

(** A stopped agent keeps serving.  Cancelling the context does not wake
    the loop: a client that connects afterwards, with any PROXY setting that
    accepts it, is still served, and the loop goes on. *)
Theorem shutdown_still_serves (useProxyProto : bool) (l0 l : listener) (t : list label) (c : nat) (s : stream) :
  Listen None useProxyProto = Ok l0 → lrun t l0 l → LStop ∉ t → LTurn ∉ t → arrivals t = [] →
  (useProxyProto = true → ∃ p, Accept (Ok s) = Ok p) →
  ∃ l', lrun [LCancel; LArrive c; LSpeak 0 s; LTurn] l l' ∧ served l' = [c] ∧ looping l' = true.
Proof.
  intros [= <-] Hr Hs Ht Ha Hp. assert (idle useProxyProto l) as (Ho & Hq & Hsv & Hl & Hpr) by (by apply (idle_run _ _ _ _ Hr)).
  eexists. split.
  - econstructor; [constructor|]. econstructor; [by constructor|]. econstructor; [constructor|]. econstructor; [constructor; [done|]|constructor].
    unfold accept_turn, listener_Accept. cbn [speak enqueue cancel_ctx queue proxy]. rewrite Hq, Hpr. cbn [app alter list_alter].
    destruct useProxyProto; [|done]. cbn [fst]. destruct (Hp eq_refl) as [p ->]. done.
  - cbn. by rewrite Hsv.
Qed.

(** With the PROXY protocol one silent client blocks all others: while
    the client at the head of the queue sends nothing, the loop cannot take a
    turn, however many clients arrive behind it and whatever they send. *)
Theorem silent_client_blocks (l l' : listener) (t : list label) (c : nat) (q : list (nat * option stream)) :
  proxy l = true → queue l = (c, None) :: q → LStop ∉ t → (∀ s, LSpeak 0 s ∉ t) → lrun t l l' →
  served l' = served l ∧ accept_turn l' = None.
Proof.
  intros Hp Hq Hs Hk Hr. revert q Hq. induction Hr as [l|x t l l1 l2 Hstep Hr IH]; intros q Hq.
  - split; [done|]. unfold accept_turn, listener_Accept. by rewrite Hq, Hp.
  - destruct Hstep as [l c' Ho|l i s|l l' Hl Ht|l|l].
    + apply (IH Hp ltac:(set_solver) ltac:(set_solver) (q ++ [(c', None)])). cbn. by rewrite Hq.
    + destruct i as [|i]; [by destruct (Hk s); left|].
      apply (IH Hp ltac:(set_solver) ltac:(set_solver) (alter (λ cd, (cd.1, Some s)) i q)). cbn. by rewrite Hq.
    + unfold accept_turn, listener_Accept in Ht. by rewrite Hq, Hp in Ht.
    + by destruct Hs; left.
    + by apply (IH Hp ltac:(set_solver) ltac:(set_solver) q).
Qed.

(** ** Concrete runs *)

Definition demo_l (b : bool) : listener :=
  {| proxy := b; is_open := true; queue := []; ctx_done := false; looping := true; served := []; errs := 0 |}.

Definition turn_of (l : listener) : listener := default l (accept_turn l).

Lemma demo_run2 :
  lrun [LArrive 1; LArrive 2; LTurn] (demo_l false) (turn_of (enqueue 2 (enqueue 1 (demo_l false)))).
Proof. econstructor; [by constructor|]. econstructor; [by constructor|]. econstructor; [by constructor|]. constructor. Qed.

Lemma accept_in_order_witness :
  let l := turn_of (enqueue 2 (enqueue 1 (demo_l false))) in served l = [1%nat] ∧ served l ++ (queue l).*1 = [1%nat; 2%nat].
Proof.
  intros l. split; [reflexivity|]. destruct (accept_in_order false (demo_l false) l _ eq_refl demo_run2) as [_ He].
  apply He; [reflexivity|]. intros [|[|[|[]%elem_of_nil]%elem_of_cons]%elem_of_cons]%elem_of_cons; discriminate.
Defined.

Lemma stop_spins_witness :
  let l := listener_Stop (demo_l false) in
  looping (turn_of (turn_of l)) = true ∧ served (turn_of (turn_of l)) = [] ∧
  ∃ l'', accept_turn (turn_of (turn_of l)) = Some l'' ∧ errs l'' = 3%nat ∧ looping l'' = true.
Proof.
  intros l. apply (stop_spins (demo_l false) (turn_of (turn_of l)) [LTurn; LTurn]); [reflexivity|reflexivity|set_solver|].
  econstructor; [by constructor|]. econstructor; [by constructor|]. constructor.
Defined.

Lemma shutdown_still_serves_witness :
  ∃ l', lrun [LCancel; LArrive 7; LSpeak 0 (mk_stream [] EOF); LTurn] (demo_l false) l' ∧ served l' = [7%nat] ∧ looping l' = true.
Proof.
  apply (shutdown_still_serves false (demo_l false) (demo_l false) [] 7 (mk_stream [] EOF));
    [reflexivity|constructor|set_solver|set_solver|reflexivity|discriminate].
Defined.

Lemma silent_client_blocks_witness :
  let l := enqueue 1 (demo_l true) in let l' := enqueue 2 l in served l' = [] ∧ accept_turn l' = None.
Proof.
  intros l l'. apply (silent_client_blocks l l' [LArrive 2] 1 []);
    [reflexivity|reflexivity|set_solver|set_solver|econstructor; [by constructor|constructor]].
Defined.

End ListenerThms.
