(* ===== verification/OrigDst.v ===== *)
(** * Original destinations: [internal/inbound/original_dst_linux.go]

    A connection that iptables redirected to the REDIRECT inbound remembers
    where it was going; the kernel returns it as a socket address.  The two
    socket options are arguments (their result is memory the kernel filled),
    the layout of that memory is the one of the C structures, and the code
    that takes it apart is modelled, with the byte order of the machine as a
    parameter.  The theorems connect it to the handler of [redirect.go]. *)

From S2P Require Import Prelude GoNet Stream Types ProxyProto NPChain Obfs Sniffer Outbound Router Config Inbound.

(** ** Sockets *)

(** What the calls on a TCP socket return: [SyscallConn], [Control], the
    [Multiaddr] array of [GetsockoptIPv4Mreq] and the memory [getsockopt]
    filled for IPv6. *)
Record tcp_sock := { sk_raw : option goerr; sk_control : option goerr; sk_v4 : res bytes; sk_v6 : res bytes }.

(** The dynamic type of an accepted connection. *)
Inductive net_conn := TCPConn (k : tcp_sock) | ProxyConn (c : ProxyProtoConn).

(** A [uint16] field in the machine's byte order. *)
Definition native_u16 (little : bool) (b : bytes) : Z := be_get (if little then reverse b else b).

(** [net.IPv4(a, b, c, d)]. *)
Definition net_IPv4 (a b c d : byte) : bytes := v4InV6Prefix ++ [a; b; c; d].

(** An index outside the array is an error already when the code is compiled;
    here it is the panic of [index]. *)
Definition getOriginalDstIPv4 (multiaddr : res bytes) : res bytes :=
  let! m := multiaddr in
  let! a := index m 4 in
  let! b := index m 5 in
  let! c := index m 6 in
  let! d := index m 7 in
  let! hi := index m 2 in
  let! lo := index m 3 in
  let port := u16 (u16 (Z.shiftl (b2z hi) 8) + b2z lo) in
  Ok (JoinHostPort (IPString (net_IPv4 a b c d)) (Itoa port)).

(** [Port] and [Addr] of [RawSockaddrInet6] are at offsets 2 and 8. *)
Definition getOriginalDstIPv6 (little : bool) (sockaddr : res bytes) : res bytes :=
  let! m := sockaddr in
  let! p := slice m 2 4 in
  let! ip := slice m 8 24 in
  let Port := native_u16 little p in
  let port := Z.lor (Z.shiftr Port 8) (u16 (Z.shiftl Port 8)) in
  Ok (JoinHostPort (IPString ip) (Itoa port)).

Definition getOriginalDst (little : bool) (conn : net_conn) : res bytes :=
  match conn with
  | ProxyConn _ => Fail (Errorf "not a TCP connection")
  | TCPConn k =>
      match sk_raw k with
      | Some e => Fail e
      | None =>
          match sk_control k with
          | Some e => Fail e
          | None =>
              match getOriginalDstIPv4 (sk_v4 k) with
              | Fail _ => getOriginalDstIPv6 little (sk_v6 k)
              | r => r
              end
          end
      end
  end.

(** The same function and the TPROXY inbound on other systems. *)
Definition getOriginalDst_other (conn : net_conn) : res bytes :=
  Fail (Errorf "transparent proxy (REDIRECT) is only supported on Linux").

Definition tproxy_Start_other : res unit := Fail (Errorf "TPROXY is only supported on Linux").

(** ** The structures the kernel fills *)

Definition sockaddr_in (family : bytes) (ip : bytes) (port : Z) (zero : bytes) : bytes := family ++ be_put 2 port ++ ip ++ zero.

Definition sockaddr_in6 (family : bytes) (ip : bytes) (port : Z) (flow scope : bytes) : bytes :=
  family ++ be_put 2 port ++ flow ++ ip ++ scope.

(** ** The connections the REDIRECT inbound accepts *)

(** [common.Listen]'s listener returns the socket's connection, or with the
    PROXY protocol the wrapped one. *)
Definition redirect_accept (useProxyProto : bool) (k : tcp_sock) (s : stream) : res net_conn :=
  if useProxyProto then let! c := Accept (Ok s) in Ok (ProxyConn c) else Ok (TCPConn k).

Module OrigDstThms.

(** ** Byte order *)

Lemma lor_bytes x y : 0 ≤ x < 256 → Z.lor x (y * 256) = y * 256 + x.
Proof.
  intros Hx. pose proof (Z.add_lor_land x (y * 256)) as Es.
  pose proof (land_bytes 0 y x 0 Hx ltac:(lia)) as E. rewrite Z.land_0_r, Z.land_0_l in E.
  rewrite Z.mul_0_l, !Z.add_0_l, Z.add_0_r in E. lia.
Qed.

(** The swap of the two bytes of a [uint16]. *)
Lemma swap_u16 p :
  0 ≤ p < 2 ^ 16 → Z.lor (Z.shiftr p 8) (u16 (Z.shiftl p 8)) = p mod 256 * 256 + p / 256.
Proof.
  intros Hp. rewrite Z.shiftr_div_pow2, Z.shiftl_mul_pow2 by lia. change (2 ^ 8) with 256.
  unfold u16. change (2 ^ 16) with (256 * 256). rewrite Z.mul_mod_distr_r by lia.
  rewrite lor_bytes; [done|]. Z.to_euclidean_division_equations. lia.
Qed.

Lemma be_put_2 p : 0 ≤ p < 65536 → be_put 2 p = [z2b (p / 256); z2b p].
Proof. done. Qed.

Lemma native_port little p :
  0 ≤ p < 65536 →
  let q := native_u16 little (be_put 2 p) in
  Z.lor (Z.shiftr q 8) (u16 (Z.shiftl q 8)) = if little then p else p mod 256 * 256 + p / 256.
Proof.
  intros Hp q. assert (0 ≤ q < 2 ^ 16 ∧ q = if little then p mod 256 * 256 + p / 256 else p) as [Hq Eq].
  { unfold q, native_u16. rewrite be_put_2 by done. destruct little.
    - change (reverse _) with [z2b p; z2b (p / 256)]. unfold be_get. cbn [fold_left]. rewrite !b2z_z2b.
      Z.to_euclidean_division_equations. lia.
    - unfold be_get. cbn [fold_left]. rewrite !b2z_z2b. Z.to_euclidean_division_equations. lia. }
  rewrite swap_u16, Eq by done. destruct little; [|done].
  Z.to_euclidean_division_equations. lia.
Qed.

(** ** The address *)

Lemma dst_v4 (w : nat) (family ip zero : bytes) (port : Z) :
  length family = 2%nat → length ip = 4%nat → 0 ≤ port < 65536 → (8 ≤ w)%nat →
  getOriginalDstIPv4 (Ok (take w (sockaddr_in family ip port zero))) = Ok (JoinHostPort (IPString ip) (Itoa port)).
Proof.
  intros Hf Hi Hp Hw. destruct family as [|f1 [|f2 []]]; try done. destruct (length4_inv ip Hi) as (a & b & c & d & ->).
  unfold sockaddr_in. rewrite be_put_2 by done. do 8 (destruct w as [|w]; [lia|]). cbn [app take].
  unfold getOriginalDstIPv4. cbn [res_bind index lookup list_lookup]. f_equal. f_equal.
  f_equal. rewrite !b2z_z2b, Z.shiftl_mul_pow2 by lia. unfold u16. change (2 ^ 8) with 256.
  Z.to_euclidean_division_equations. lia.
Qed.

Lemma dst_v4_short (m : bytes) : (length m ≤ 4)%nat → getOriginalDstIPv4 (Ok m) = Panic.
Proof. intros Hl. unfold getOriginalDstIPv4, index. cbn [res_bind]. by rewrite lookup_ge_None_2 by lia. Qed.

Lemma dst_v6 (little : bool) (family ip flow scope : bytes) (port : Z) :
  length family = 2%nat → length flow = 4%nat → length ip = 16%nat → 0 ≤ port < 65536 →
  getOriginalDstIPv6 little (Ok (sockaddr_in6 family ip port flow scope)) =
  Ok (JoinHostPort (IPString ip) (Itoa (if little then port else port mod 256 * 256 + port / 256))).
Proof.
  intros Hf Hw Hi Hp. unfold getOriginalDstIPv6. cbn [res_bind]. set (m := sockaddr_in6 _ _ _ _ _).
  assert (at_pos m 0 (family ++ be_put 2 port ++ flow ++ ip ++ scope)) as H0 by apply at_pos_start.
  pose proof (at_pos_app _ _ _ _ 2 H0 Hf) as H2.
  pose proof (at_pos_app _ _ _ _ 2 H2 (length_be_put 2 port)) as H4. pose proof (at_pos_app _ _ _ _ 4 H4 Hw) as H8.
  assert (slice m 2 4 = Ok (be_put 2 port)) as -> by exact (at_pos_slice _ _ _ _ 2 H2 (length_be_put 2 port)).
  assert (slice m 8 24 = Ok ip) as -> by exact (at_pos_slice _ _ _ _ 16 H8 Hi).
  cbn [res_bind]. do 3 f_equal. by apply native_port.
Qed.

(** The original destination of a redirected connection.  When the kernel
    has recorded an IPv4 destination, the result is that address and port, if
    the array the package returns is long enough to hold it; the four bytes
    it has are too short.  When it has recorded an IPv6 destination, the
    result is its address and port on a little-endian machine, and the port
    with its bytes exchanged on a big-endian one. *)
Theorem original_dst (little : bool) (k : tcp_sock) (family ip : bytes) (port : Z) :
  sk_raw k = None → sk_control k = None → length family = 2%nat → 0 ≤ port < 65536 →
  (∀ w zero, length ip = 4%nat → sk_v4 k = Ok (take w (sockaddr_in family ip port zero)) →
     ((8 ≤ w)%nat → getOriginalDst little (TCPConn k) = Ok (JoinHostPort (IPString ip) (Itoa port))) ∧
     (w = 4%nat → getOriginalDst little (TCPConn k) = Panic)) ∧
  (∀ e flow scope, length ip = 16%nat → length flow = 4%nat → sk_v4 k = Fail e →
     sk_v6 k = Ok (sockaddr_in6 family ip port flow scope) →
     getOriginalDst little (TCPConn k) =
       Ok (JoinHostPort (IPString ip) (Itoa (if little then port else port mod 256 * 256 + port / 256)))).
Proof.
  intros Hr Hc Hf Hp. unfold getOriginalDst. rewrite Hr, Hc. split.
  - intros w zero Hi ->. split; intros Hw; [by rewrite dst_v4|]. subst w. rewrite dst_v4_short; [done|].
    rewrite length_take. lia.
  - intros e flow scope Hi Hw -> ->. cbn [getOriginalDstIPv4 res_bind]. by apply dst_v6.
Qed.

(** ** The REDIRECT inbound *)

Section redirect.
Context `{OutboundHandler Out} {C : Type}.

(** REDIRECT restores the destination of a client.  A client whose
    connection the kernel redirected from an IPv6 destination (on a
    little-endian machine) is given a session to that address and port, with
    the host replaced by the domain the sniffer found, if the router and the
    outbound accept it, and is turned away without a word otherwise; the
    relay starts with the first byte the client sent. *)
Theorem redirect_restores (e : env Out C) (k : tcp_sock) (c : net_conn) (s : stream) (family ip flow scope : bytes)
    (port : Z) (ev4 : goerr) :
  sk_raw k = None → sk_control k = None → sk_v4 k = Fail ev4 → sk_v6 k = Ok (sockaddr_in6 family ip port flow scope) →
  length family = 2%nat → length flow = 4%nat → length ip = 16%nat → 0 ≤ port < 65536 →
  redirect_accept false k s = Ok c →
  ∃ o cl, (SniffConn s).1 = Ok o ∧ client_bytes cl = stream_bytes s ∧
    let meta := new_meta e (retarget (JoinHostPort (IPString ip) (Itoa port)) o) [] [] in
    redirect_handle (getOriginalDst true c) e (start_conn s) =
      (match Route (e_order e) (e_router e) meta with
       | Ok out =>
           match e_dial e out meta with
           | Ok tc => Cont {| s_meta := meta; s_out := out; s_conn := tc; s_client := cl; s_user := "transparent";
                              s_limiter := None; s_quota := false |}
           | Fail _ => Return
           | Panic => Crash
           end
       | Fail _ => Return
       | Panic => Crash
       end, start_conn s).
Proof.
  intros Hr Hc H4 H6 Hf Hw Hi Hp [= <-].
  unfold getOriginalDst. rewrite Hr, Hc, H4, H6. cbn [getOriginalDstIPv4 res_bind]. rewrite dst_v6 by done.
  destruct (SnifferThms.SniffConn_safe s) as (o & br & E & Hb). exists o, (Peeked br). rewrite E.
  split; [done|]. split; [done|]. set (meta := new_meta _ _ _ _). unfold redirect_handle.
  rewrite (InboundThms.bind_ok _ _ _ (JoinHostPort (IPString ip) (Itoa port)) _ eq_refl).
  rewrite (InboundThms.bind_ok sniff _ (start_conn s) (o, Peeked br) (start_conn s)); [|unfold sniff; cbn; by rewrite E].
  pose proof (InboundThms.open_session_run e meta "transparent" (Peeked br) (start_conn s)) as Ho.
  destruct (Route _ _ meta) as [out| |]; [|done|done]. by destruct (e_dial e out meta).
Qed.

(** With the PROXY protocol REDIRECT serves nobody.  Every connection the
    listener accepts is a wrapped one, from which no original destination can
    be read: whatever the client sends, and whatever the kernel has recorded,
    it is turned away. *)
Theorem redirect_proxy_refuses (little : bool) (e : env Out C) (k : tcp_sock) (c : net_conn) (s : stream) (st : conn_state) :
  redirect_accept true k s = Ok c → redirect_handle (getOriginalDst little c) e st = (Return, st).
Proof. unfold redirect_accept. destruct (Accept (Ok s)) as [pc| |]; intros Hc; by simplify_eq/=. Qed.

End redirect.

(** ** Concrete runs *)

(** A connection to [2001:db8::7]:443, recorded on a little-endian machine. *)
Definition demo_ip6 : bytes := [Byte.x20; Byte.x01; Byte.x0d; Byte.xb8] ++ replicate 11 Byte.x00 ++ [Byte.x07].

Definition demo_sock : tcp_sock :=
  {| sk_raw := None; sk_control := None; sk_v4 := Fail (Errorf "no such file or directory");
     sk_v6 := Ok (sockaddr_in6 [Byte.x0a; Byte.x00] demo_ip6 443 (replicate 4 Byte.x00) (replicate 4 Byte.x00)) |}.

Lemma original_dst_witness :
  getOriginalDst true (TCPConn demo_sock) = Ok ("[2001:db8::7]:443" : bytes) ∧
  getOriginalDst false (TCPConn demo_sock) = Ok (JoinHostPort (IPString demo_ip6) (Itoa 47873)).
Proof.
  split; [vm_compute; reflexivity|].
  destruct (original_dst false demo_sock [Byte.x0a; Byte.x00] demo_ip6 443 eq_refl eq_refl eq_refl ltac:(lia)) as [_ H].
  apply (H (Errorf "no such file or directory") (replicate 4 Byte.x00) (replicate 4 Byte.x00)); reflexivity.
Defined.

Lemma redirect_restores_witness :
  match redirect_handle (getOriginalDst true (TCPConn demo_sock)) InboundThms.demo_env (start_conn (mk_stream "hello" EOF)) with
  | (Cont sess, _) => Target (s_meta sess) = ("[2001:db8::7]:443" : bytes) ∧ client_bytes (s_client sess) = ("hello" : bytes)
  | _ => False
  end.
Proof.
  destruct (redirect_restores InboundThms.demo_env demo_sock (TCPConn demo_sock) (mk_stream "hello" EOF) [Byte.x0a; Byte.x00]
    demo_ip6 (replicate 4 Byte.x00) (replicate 4 Byte.x00) 443 (Errorf "no such file or directory")) as (o & cl & Ho & Hb & E);
    [reflexivity|reflexivity|reflexivity|reflexivity|reflexivity|reflexivity|reflexivity|lia|reflexivity|].
  destruct (redirect_handle _ _ _) as [[sess| |] st] eqn:Er; [|vm_compute in Er; discriminate|vm_compute in Er; discriminate].
  split; [vm_compute in Er; injection Er as <- _; reflexivity|].
  assert (s_client sess = cl) as ->.
  { cbv zeta in E. destruct (Route _ _ _) as [out| |]; [|discriminate|discriminate]. destruct (e_dial _ _ _); [|discriminate|discriminate].
    injection E as -> _. reflexivity. }
  rewrite Hb. vm_compute. reflexivity.
Defined.

Lemma redirect_proxy_refuses_witness :
  match redirect_accept true demo_sock (mk_stream "GET / HTTP/1.1" EOF) with
  | Ok c => redirect_handle (getOriginalDst true c) InboundThms.demo_env (start_conn (mk_stream [] EOF)) = (Return, start_conn (mk_stream [] EOF))
  | _ => False
  end.
Proof.
  destruct (redirect_accept true demo_sock (mk_stream "GET / HTTP/1.1" EOF)) as [c| |] eqn:E; [|vm_compute in E; discriminate|vm_compute in E; discriminate].
  apply (redirect_proxy_refuses true InboundThms.demo_env demo_sock c (mk_stream "GET / HTTP/1.1" EOF) (start_conn (mk_stream [] EOF)) E).
Defined.

End OrigDstThms.
