(* ===== verification/Quic.v ===== *)
(** * QUIC: [internal/transport/quic.go], [quic_server.go]

    The dialer opens a connection and one stream on it; the server accepts
    connections, and for each of them runs one goroutine that hands its
    datagrams and one that hands its streams to the callbacks of [Start].
    quic-go is third-party code: what its calls return is an argument of the
    dialer and the choice of the steps of the server, which are the turns of
    the three loops and what the peers do.  [calls] is the sequence of calls
    of the two callbacks. *)

From S2P Require Import Prelude GoNet Stream Types NPChain Transport.

(** ** Configurations *)

Record quic_config := {
  MaxIdleTimeout : Z; KeepAlivePeriod : Z; EnableDatagrams : bool; MaxStreamReceiveWindow : Z; MaxConnectionReceiveWindow : Z }.

Definition dialer_config : quic_config :=
  {| MaxIdleTimeout := 30 * 1000000000; KeepAlivePeriod := 10 * 1000000000; EnableDatagrams := true;
     MaxStreamReceiveWindow := 16 * 1024 * 1024; MaxConnectionReceiveWindow := 32 * 1024 * 1024 |}.

Definition server_config : quic_config :=
  {| MaxIdleTimeout := 30 * 1000000000; KeepAlivePeriod := 10 * 1000000000; EnableDatagrams := true;
     MaxStreamReceiveWindow := 16 * 1024 * 1024; MaxConnectionReceiveWindow := 32 * 1024 * 1024 |}.

Section tls.
Context {Cert Pool : Type}.

(** A TLS configuration with its certificate in it. *)
Record tls_static := { ts_cert : Cert; ts_cas : Pool; ts_name : bytes; ts_skip_verify : bool; ts_client_auth : bool; ts_protos : list bytes }.

Definition load_static (f : cert_files Cert Pool) (k : Cert → Pool → tls_static) : res tls_static :=
  let! cert := cf_pair f in let! pool := cf_ca f in Ok (k cert pool).

Definition NewClientTLSConfig (f : cert_files Cert Pool) (serverName : bytes) (insecure : bool) : res tls_static :=
  load_static f (λ cert pool, {| ts_cert := cert; ts_cas := pool; ts_name := serverName; ts_skip_verify := insecure;
                                 ts_client_auth := false; ts_protos := ["nodepass-2.0" : bytes] |}).

Definition NewServerTLSConfig (f : cert_files Cert Pool) : res tls_static :=
  load_static f (λ cert pool, {| ts_cert := cert; ts_cas := pool; ts_name := []; ts_skip_verify := false;
                                 ts_client_auth := true; ts_protos := ["nodepass-2.0" : bytes] |}).

Definition NewQUICDialer (f : cert_files Cert Pool) (serverName : bytes) (insecure : bool) : res (tls_static * quic_config) :=
  let! tlsCfg := NewClientTLSConfig f serverName insecure in Ok (tlsCfg, dialer_config).

End tls.
Arguments tls_static Cert Pool : clear implicits.

(** ** Dialing *)

(** [StreamConn]: the stream and the connection it belongs to. *)
Record StreamConn := { sc_stream : nat; sc_raw : nat }.

(** [QUICDialer.Dial]: [dial] and [open] are the results of [DialAddr] and of
    [OpenStreamSync]; next to the result, the connections left open. *)
Definition quic_Dial (dial : res nat) (open : res nat) : res StreamConn * list nat :=
  match dial with
  | Ok c =>
      match open with
      | Ok s => (Ok {| sc_stream := s; sc_raw := c |}, [c])
      | Fail e => (Fail e, [])
      | Panic => (Panic, [c])
      end
  | Fail e => (Fail e, [])
  | Panic => (Panic, [])
  end.

(** ** The server *)

(** A connection as the server sees it: the loops of [handleConnection], if
    they have been started, what has arrived and the server has not yet taken,
    and all streams and datagrams of its peer that have arrived. *)
Record qconn := {
  q_alive : bool;
  q_loops : option (bool * bool);     (* the loops over the streams and the datagrams *)
  q_streams : list nat;
  q_spawned : list nat;               (* streams whose goroutine has not called the handler yet *)
  q_dgrams : list bytes;
  q_opened : list nat;
  q_sent : list bytes }.

Inductive call := CallStream (c s : nat) | CallDatagram (c : nat) (data : bytes).

Record server := {
  conns : list qconn;
  backlog : list nat;                 (* connections [Accept] has not returned yet *)
  ctx_done : bool;
  returned : bool;                    (* [Start] has returned nil *)
  calls : list call }.

Definition quic_listen (bind : option goerr) : res server :=
  match bind with
  | Some e => Fail e
  | None => Ok {| conns := []; backlog := []; ctx_done := false; returned := false; calls := [] |}
  end.

Definition new_qconn : qconn :=
  {| q_alive := true; q_loops := None; q_streams := []; q_spawned := []; q_dgrams := []; q_opened := []; q_sent := [] |}.

Definition on_conn (c : nat) (f : qconn → qconn) (w : server) : server :=
  {| conns := alter f c (conns w); backlog := backlog w; ctx_done := ctx_done w; returned := returned w; calls := calls w |}.

Definition log_call (x : call) (w : server) : server :=
  {| conns := conns w; backlog := backlog w; ctx_done := ctx_done w; returned := returned w; calls := calls w ++ [x] |}.

(** What a peer does. *)
Definition peer_open (s : nat) (q : qconn) : qconn :=
  {| q_alive := q_alive q; q_loops := q_loops q; q_streams := q_streams q ++ [s]; q_spawned := q_spawned q; q_dgrams := q_dgrams q;
     q_opened := q_opened q ++ [s]; q_sent := q_sent q |}.

Definition peer_send (d : bytes) (q : qconn) : qconn :=
  {| q_alive := q_alive q; q_loops := q_loops q; q_streams := q_streams q; q_spawned := q_spawned q; q_dgrams := q_dgrams q ++ [d];
     q_opened := q_opened q; q_sent := q_sent q ++ [d] |}.

Definition peer_close (q : qconn) : qconn :=
  {| q_alive := false; q_loops := q_loops q; q_streams := q_streams q; q_spawned := q_spawned q; q_dgrams := q_dgrams q; q_opened := q_opened q;
     q_sent := q_sent q |}.

(** What the loops do: [handleConnection] starts both, a turn takes the next
    stream, and starts a goroutine for it, or the next datagram; an error ends
    a loop. *)
Definition set_loops (l : bool * bool) (q : qconn) : qconn :=
  {| q_alive := q_alive q; q_loops := Some l; q_streams := q_streams q; q_spawned := q_spawned q; q_dgrams := q_dgrams q; q_opened := q_opened q;
     q_sent := q_sent q |}.

Definition take_stream (q : qconn) : qconn :=
  {| q_alive := q_alive q; q_loops := q_loops q; q_streams := tail (q_streams q);
     q_spawned := q_spawned q ++ take 1 (q_streams q); q_dgrams := q_dgrams q;
     q_opened := q_opened q; q_sent := q_sent q |}.

(** A goroutine has called the handler: the others are left. *)
Definition set_spawned (l : list nat) (q : qconn) : qconn :=
  {| q_alive := q_alive q; q_loops := q_loops q; q_streams := q_streams q; q_spawned := l; q_dgrams := q_dgrams q;
     q_opened := q_opened q; q_sent := q_sent q |}.

Definition take_dgram (q : qconn) : qconn :=
  {| q_alive := q_alive q; q_loops := q_loops q; q_streams := q_streams q; q_spawned := q_spawned q; q_dgrams := tail (q_dgrams q);
     q_opened := q_opened q; q_sent := q_sent q |}.

(** [Start] returns nil when [Accept] fails and the context is done; another
    error of [Accept] is passed over.  [dh]: the datagram callback is not nil. *)
Inductive qstep (dh : bool) : server → server → Prop :=
| q_connect w :
    returned w = false →
    qstep dh w {| conns := conns w ++ [new_qconn]; backlog := backlog w ++ [length (conns w)]; ctx_done := ctx_done w;
                  returned := returned w; calls := calls w |}
| q_open w c s : qstep dh w (on_conn c (peer_open s) w)
| q_send w c d : qstep dh w (on_conn c (peer_send d) w)
| q_close w c : qstep dh w (on_conn c peer_close w)
| q_accept w c b :
    returned w = false → backlog w = c :: b →
    qstep dh w (on_conn c (set_loops (true, true))
                 {| conns := conns w; backlog := b; ctx_done := ctx_done w; returned := returned w; calls := calls w |})
| q_accept_err w :
    returned w = false →
    qstep dh w {| conns := conns w; backlog := backlog w; ctx_done := ctx_done w; returned := ctx_done w; calls := calls w |}
| q_stream w c q s r dl :
    conns w !! c = Some q → q_alive q = true → q_loops q = Some (true, dl) → q_streams q = s :: r →
    qstep dh w (on_conn c take_stream w)
| q_run w c q s l1 l2 :
    conns w !! c = Some q → q_spawned q = l1 ++ s :: l2 →
    qstep dh w (log_call (CallStream c s) (on_conn c (set_spawned (l1 ++ l2)) w))
| q_stream_end w c q dl :
    conns w !! c = Some q → q_alive q = false ∨ ctx_done w = true → q_loops q = Some (true, dl) →
    qstep dh w (on_conn c (set_loops (false, dl)) w)
| q_dgram w c q d r sl :
    conns w !! c = Some q → q_alive q = true → q_loops q = Some (sl, true) → q_dgrams q = d :: r →
    qstep dh w (if dh then log_call (CallDatagram c d) (on_conn c take_dgram w) else on_conn c take_dgram w)
| q_dgram_end w c q sl :
    conns w !! c = Some q → q_alive q = false ∨ ctx_done w = true → q_loops q = Some (sl, true) →
    qstep dh w (on_conn c (set_loops (sl, false)) w)
| q_cancel w :
    qstep dh w {| conns := conns w; backlog := backlog w; ctx_done := true; returned := returned w; calls := calls w |}.

(** What the peers and the context have done. *)
Definition peers (w : server) : list (bool * list nat * list bytes) * bool :=
  ((λ q, (q_alive q, q_opened q, q_sent q)) <$> conns w, ctx_done w).

(** The steps of the server itself. *)
Definition own_step (dh : bool) (w w' : server) : Prop := qstep dh w w' ∧ peers w' = peers w.

(** The calls for one connection. *)
Definition streams_of (c : nat) (l : list call) : list nat :=
  omap (λ x, match x with CallStream c' s => if bool_decide (c' = c) then Some s else None | CallDatagram _ _ => None end) l.

Definition dgrams_of (c : nat) (l : list call) : list bytes :=
  omap (λ x, match x with CallDatagram c' d => if bool_decide (c' = c) then Some d else None | CallStream _ _ => None end) l.

Module QuicThms.

(** ** Configurations *)

(** The static configurations of this file and the ones the certificate
    manager makes from the same files agree on everything both have: who is
    trusted, the name that is checked, whether it is checked and whether
    clients must authenticate; the server of one accepts the application
    protocol of the client of the other. *)
Theorem static_like_manager {Cert Pool} (f : cert_files Cert Pool) (name : bytes) (insecure : bool) (cm : CertManager Cert Pool) :
  NewCertManager f insecure = Ok cm →
  ∃ c s, NewClientTLSConfig f name insecure = Ok c ∧ NewServerTLSConfig f = Ok s ∧
    GetTLSConfigClient name cm =
      {| tls_cas := Some (ts_cas c); tls_name := ts_name c; tls_skip_verify := ts_skip_verify c; tls_client_auth := ts_client_auth c |} ∧
    GetTLSConfigServer cm =
      {| tls_cas := Some (ts_cas s); tls_name := ts_name s; tls_skip_verify := ts_skip_verify s; tls_client_auth := ts_client_auth s |} ∧
    presented cm = Ok (ts_cert c) ∧ presented cm = Ok (ts_cert s) ∧ ts_protos c = ts_protos s.
Proof.
  unfold NewCertManager, Reload, NewClientTLSConfig, NewServerTLSConfig, load_static.
  destruct (cf_pair f) as [cert| |]; [|done|done]. destruct (cf_ca f) as [pool| |]; [|done|done].
  intros [= <-]. eexists _, _. repeat split.
Qed.

(** A dial that fails leaves no connection open. *)
Lemma dial_no_leak dial open e : (quic_Dial dial open).1 = Fail e → (quic_Dial dial open).2 = [].
Proof. unfold quic_Dial. destruct dial; [destruct open|..]; by intros [=]. Qed.

(** ** The calls of one connection *)

Lemma streams_of_snoc c l x : streams_of c (l ++ [x]) = streams_of c l ++ streams_of c [x].
Proof. apply omap_app. Qed.

Lemma dgrams_of_snoc c l x : dgrams_of c (l ++ [x]) = dgrams_of c l ++ dgrams_of c [x].
Proof. apply omap_app. Qed.

Lemma streams_of_call c c' s : streams_of c [CallStream c' s] = if bool_decide (c' = c) then [s] else [].
Proof. unfold streams_of. simpl. by case_bool_decide. Qed.

Lemma dgrams_of_call c c' d : dgrams_of c [CallDatagram c' d] = if bool_decide (c' = c) then [d] else [].
Proof. unfold dgrams_of. simpl. by case_bool_decide. Qed.

Lemma lookup_on_conn c f w c' :
  conns (on_conn c f w) !! c' = if bool_decide (c = c') then f <$> conns w !! c' else conns w !! c'.
Proof. cbn. case_bool_decide as Hc; [subst; apply list_lookup_alter_eq|by apply list_lookup_alter_ne]. Qed.

(** What holds of one connection: the streams were taken in order, and each
    was handed to the handler or has its goroutine; the datagrams were handled
    in order; before [handleConnection] nothing is handled. *)
Definition conn_inv (dh : bool) (l : list call) (c : nat) (q : qconn) : Prop :=
  (∃ taken, q_opened q = taken ++ q_streams q ∧ streams_of c l ++ q_spawned q ≡ₚ taken) ∧
  (if dh then dgrams_of c l ++ q_dgrams q = q_sent q else dgrams_of c l = []) ∧
  (q_loops q = None → streams_of c l = [] ∧ dgrams_of c l = [] ∧ q_spawned q = []).

(** What holds of the server: the connections that wait are the last ones,
    and the ones before have their loops. *)
Definition srv_inv (dh : bool) (w : server) : Prop :=
  (∀ c q, conns w !! c = Some q → conn_inv dh (calls w) c q) ∧
  (∀ c, (length (conns w) ≤ c)%nat → streams_of c (calls w) = [] ∧ dgrams_of c (calls w) = []) ∧
  (∃ k, (k ≤ length (conns w))%nat ∧ backlog w = seq k (length (conns w) - k) ∧
        ∀ c q, conns w !! c = Some q → q_loops q = None ↔ (k ≤ c)%nat).

Lemma srv_inv_on_conn dh w c f :
  srv_inv dh w → (∀ q, conns w !! c = Some q → q_loops (f q) = None ↔ q_loops q = None) →
  (∀ q, conns w !! c = Some q → conn_inv dh (calls w) c q → conn_inv dh (calls w) c (f q)) → srv_inv dh (on_conn c f w).
Proof.
  intros (Hc & Hn & k & Hk & Hb & Hl) Hlo Hf. split; [|split].
  - intros c' q. rewrite lookup_on_conn. case_bool_decide as E; [|apply Hc]. subst c'.
    intros (q0 & Hq & ->)%fmap_Some. apply Hf; [done|]. by apply Hc.
  - cbn. rewrite length_alter. exact Hn.
  - exists k. cbn. rewrite length_alter. split; [done|]. split; [done|]. intros c' q.
    change (alter f c (conns w) !! c') with (conns (on_conn c f w) !! c'). rewrite lookup_on_conn.
    case_bool_decide as E; [|apply Hl]. subst c'. intros (q0 & Hq & ->)%fmap_Some. rewrite Hlo by done. by apply Hl.
Qed.

(** A turn of a loop of a running connection: [x] is logged and taken. *)
Lemma srv_inv_turn dh w c f q x :
  srv_inv dh w → conns w !! c = Some q → q_loops q ≠ None → q_loops (f q) = q_loops q →
  (∀ c', c' ≠ c → streams_of c' [x] = [] ∧ dgrams_of c' [x] = []) →
  conn_inv dh (calls w ++ [x]) c (f q) → srv_inv dh (log_call x (on_conn c f w)).
Proof.
  intros (Hc & Hn & k & Hk & Hb & Hl) Hq Hlo Hlf Hx Hf.
  assert (∀ c' q', conns (on_conn c f w) !! c' = Some q' →
    c' = c ∧ q' = f q ∨ c' ≠ c ∧ conns w !! c' = Some q') as Hlook.
  { intros c' q'. rewrite lookup_on_conn. case_bool_decide as E; [subst c'; rewrite Hq; intros [= <-]; by left|by right]. }
  assert (c < length (conns w))%nat as Hlt by (by apply lookup_lt_is_Some_1; eauto).
  split; [|split]; cbn [calls log_call on_conn].
  - intros c' q' [[-> ->]|[Hne Hq']]%Hlook; [done|]. destruct (Hx c' Hne) as [E1 E2]. specialize (Hc c' q' Hq').
    unfold conn_inv in *. by rewrite streams_of_snoc, dgrams_of_snoc, E1, E2, !app_nil_r.
  - intros c'. cbn. rewrite length_alter. intros Hge. destruct (Hx c') as [E1 E2]; [lia|].
    rewrite streams_of_snoc, dgrams_of_snoc, E1, E2, !app_nil_r. by apply Hn.
  - exists k. cbn. rewrite length_alter. split; [done|]. split; [done|]. intros c' q' [[-> ->]|[_ Hq']]%Hlook; [|by apply Hl].
    rewrite Hlf. split; [done|]. intros Hge. exfalso. apply Hlo. by apply (Hl c q Hq).
Qed.

Lemma srv_inv_connect dh w :
  srv_inv dh w →
  srv_inv dh {| conns := conns w ++ [new_qconn]; backlog := backlog w ++ [length (conns w)]; ctx_done := ctx_done w;
                returned := returned w; calls := calls w |}.
Proof.
  intros (Hc & Hn & k & Hk & Hb & Hl). split; [|split]; cbn [conns calls backlog].
  - intros c q [Hq|[Hge Hq]]%lookup_app_Some; [by apply Hc|]. apply list_lookup_singleton_Some in Hq as [H0 <-].
    destruct (Hn c Hge) as [E1 E2]. unfold conn_inv. rewrite E1, E2. split; [by exists []|]. by destruct dh.
  - intros c. rewrite length_app. cbn. intros Hge. apply Hn. lia.
  - exists k. rewrite length_app. cbn [length]. split; [lia|]. split.
    + rewrite Hb. replace (length (conns w) + 1 - k)%nat with (length (conns w) - k + 1)%nat by lia.
      rewrite seq_app. cbn. by replace (k + (length (conns w) - k))%nat with (length (conns w)) by lia.
    + intros c q [Hq|[Hge Hq]]%lookup_app_Some; [by apply Hl|]. apply list_lookup_singleton_Some in Hq as [_ <-].
      split; [intros _; lia|done].
Qed.

Lemma srv_inv_accept dh w c b :
  srv_inv dh w → backlog w = c :: b →
  srv_inv dh (on_conn c (set_loops (true, true))
    {| conns := conns w; backlog := b; ctx_done := ctx_done w; returned := returned w; calls := calls w |}).
Proof.
  intros (Hc & Hn & k & Hk & Hb & Hl) Hcb. rewrite Hb in Hcb.
  destruct (length (conns w) - k)%nat as [|n] eqn:En; [done|]. injection Hcb as <- <-.
  set (w' := Build_server _ _ _ _ _). split; [|split].
  - intros c' q. rewrite lookup_on_conn. case_bool_decide as E; [|apply Hc]. subst c'.
    intros (q0 & Hq & ->)%fmap_Some. destruct (Hc k q0 Hq) as (H1 & H2 & _). done.
  - cbn. rewrite length_alter. exact Hn.
  - exists (S k). cbn. rewrite length_alter. split; [lia|]. split; [f_equal; lia|]. intros c' q.
    change (alter ?f ?x (conns w) !! c') with (conns (on_conn x f w') !! c'). rewrite lookup_on_conn.
    case_bool_decide as E.
    + subst c'. intros (q0 & _ & ->)%fmap_Some. cbn. split; [done|lia].
    + intros Hq. rewrite (Hl c' q Hq). lia.
Qed.

Lemma srv_inv_step dh w w' : srv_inv dh w → qstep dh w w' → srv_inv dh w'.
Proof.
  intros Hi. destruct 1 as [w Hr|w c s|w c d|w c|w c b Hr Hb|w Hr|w c q s r dl Hq Ha Hlo Hs|w c q s l1 l2 Hq Hsp|w c q dl Hq Ha Hlo
    |w c q d r sl Hq Ha Hlo Hd|w c q sl Hq Ha Hlo|w].
  - by apply srv_inv_connect.
  - apply srv_inv_on_conn; [done|done|]. intros q _ ((tk & H1 & Hp) & H2 & H3). split; [|done]. exists tk. cbn. by rewrite app_assoc, <-H1.
  - apply srv_inv_on_conn; [done|done|]. intros q _ (H1 & H2 & H3). split; [done|]. split; [|done].
    destruct dh; [|done]. cbn. by rewrite app_assoc, H2.
  - by apply srv_inv_on_conn.
  - by eapply srv_inv_accept.
  - exact Hi.
  - apply srv_inv_on_conn; [done|done|]. intros q' Hq' ((tk & H1 & Hp) & H2 & H3). simplify_eq. split; [|split; [done|]].
    + exists (tk ++ [s]). cbn. rewrite Hs in *. cbn. split; [by rewrite <-app_assoc|]. by rewrite app_assoc, Hp.
    + cbn. by rewrite Hlo.
  - destruct Hi as (Hc & Hn & Hb). destruct (Hc c q Hq) as ((tk & H1 & Hp) & H2 & H3).
    assert (q_loops q ≠ None) as Hlo by (intros E; destruct (H3 E) as (_ & _ & E'); rewrite E' in Hsp; by destruct l1).
    eapply srv_inv_turn; [by split|done|done|done| |].
    { intros c' Hne. rewrite streams_of_call, bool_decide_false by done. done. }
    unfold conn_inv. rewrite streams_of_snoc, dgrams_of_snoc, streams_of_call, bool_decide_true by done.
    cbn [set_spawned q_streams q_spawned q_dgrams q_opened q_sent q_loops]. rewrite app_nil_r. split; [|done].
    exists tk. split; [done|]. rewrite <-Hp, Hsp, <-app_assoc. by rewrite (Permutation_middle l1 l2 s).
  - apply srv_inv_on_conn; [done|intros q' Hq'; simplify_eq; by rewrite Hlo|]. intros q' _ (H1 & H2 & _). done.
  - destruct Hi as (Hc & Hn & Hb). destruct (Hc c q Hq) as (H1 & H2 & H3). destruct dh.
    + eapply srv_inv_turn; [by split|done|by rewrite Hlo|done| |].
      { intros c' Hne. rewrite dgrams_of_call, bool_decide_false by done. done. }
      rewrite Hd in H2. unfold conn_inv. rewrite streams_of_snoc, dgrams_of_snoc, dgrams_of_call, bool_decide_true by done.
      cbn [take_dgram q_streams q_dgrams q_opened q_sent q_loops]. rewrite Hd, Hlo, app_nil_r. cbn [tail].
      split; [done|]. split; [by rewrite <-app_assoc|done].
    + by apply srv_inv_on_conn.
  - apply srv_inv_on_conn; [done|intros q' Hq'; simplify_eq; by rewrite Hlo|]. intros q' _ (H1 & H2 & _). done.
  - exact Hi.
Qed.

Lemma srv_inv_reachable dh w0 w : quic_listen None = Ok w0 → rtc (qstep dh) w0 w → srv_inv dh w.
Proof.
  intros [= <-] Hr. eapply rtc_invariant; [apply srv_inv_step|exact Hr|]. split; [done|]. split; [done|].
  exists 0%nat. cbn. split; [lia|done].
Qed.

(** C26: the server dispatches every stream and every datagram exactly once.
    In every reachable state, whatever the interleaving of the loops of all
    connections and of the goroutines they start: the streams of a connection
    are accepted in the order its peer opened them, and each accepted one has
    been handed to the stream callback once or has a goroutine that will call
    it, in whatever order these run; the datagrams handed to the datagram
    callback, followed by those that wait, are the ones that came, in order;
    nothing is handed out before [handleConnection] has started, connections
    are taken in the order they came, and [Start] returns only when its
    context is done. *)
Theorem quic_dispatch (w0 w : server) (c : nat) (q : qconn) :
  quic_listen None = Ok w0 → rtc (qstep true) w0 w → conns w !! c = Some q →
  (∃ accepted, q_opened q = accepted ++ q_streams q ∧ streams_of c (calls w) ++ q_spawned q ≡ₚ accepted) ∧
  dgrams_of c (calls w) ++ q_dgrams q = q_sent q ∧
  (q_loops q = None → streams_of c (calls w) = [] ∧ dgrams_of c (calls w) = [] ∧ q_spawned q = []) ∧
  (∃ k, backlog w = seq k (length (conns w) - k) ∧ (q_loops q = None ↔ (k ≤ c)%nat)) ∧
  (returned w = true → ctx_done w = true).
Proof.
  intros H0 Hr Hq. pose proof (srv_inv_reachable true w0 w H0 Hr) as (Hc & _ & k & _ & Hb & Hl).
  destruct (Hc c q Hq) as (H1 & H2 & H3). split; [done|]. split; [done|]. split; [done|].
  split; [exists k; split; [done|by apply Hl]|].
  refine (rtc_invariant (qstep true) w0 w (λ w, returned w = true → ctx_done w = true) _ Hr _).
  - intros u v Hu. by destruct 1.
  - by injection H0 as <-.
Qed.

(** ** Progress *)

Lemma peers_on_conn c f w :
  (∀ q, q_alive (f q) = q_alive q ∧ q_opened (f q) = q_opened q ∧ q_sent (f q) = q_sent q) → peers (on_conn c f w) = peers w.
Proof.
  intros Hf. unfold peers, on_conn. cbn. f_equal. apply list_eq. intros i. rewrite !list_lookup_fmap.
  destruct (decide (i = c)) as [->|Hne]; [rewrite list_lookup_alter_eq|by rewrite list_lookup_alter_ne by done].
  destruct (conns w !! c) as [q|]; [|done]. cbn. by destruct (Hf q) as (-> & -> & ->).
Qed.

Lemma accept_until dh w c q k n :
  returned w = false → backlog w = seq k n → conns w !! c = Some q → (k ≤ c < k + n)%nat →
  ∃ w', rtc (own_step dh) w w' ∧ conns w' !! c = Some (set_loops (true, true) q).
Proof.
  revert w k. induction n as [|n IH]; intros w k Hr Hb Hq Hc; [lia|]. cbn in Hb.
  pose proof (q_accept dh w k (seq (S k) n) Hr Hb) as Hs. set (w1 := on_conn _ _ _) in Hs.
  assert (own_step dh w w1) as Ho by (split; [done|]; etrans; [by apply peers_on_conn|done]).
  destruct (decide (k = c)) as [->|Hne].
  - exists w1. split; [by apply rtc_once|]. unfold w1. rewrite lookup_on_conn, bool_decide_true by done. cbn. by rewrite Hq.
  - destruct (IH w1 (S k) Hr eq_refl) as (w' & Hw' & E); [unfold w1; by rewrite lookup_on_conn, bool_decide_false by done|lia|].
    exists w'. split; [|done]. by eapply rtc_l.
Qed.

Lemma drain_streams dh w c q :
  conns w !! c = Some q → q_alive q = true → q_loops q = Some (true, true) →
  ∃ w' sp, rtc (own_step dh) w w' ∧
    conns w' !! c = Some {| q_alive := true; q_loops := q_loops q; q_streams := []; q_spawned := sp; q_dgrams := q_dgrams q;
                            q_opened := q_opened q; q_sent := q_sent q |}.
Proof.
  remember (q_streams q) as l eqn:El. revert w q El. induction l as [|s l IH]; intros w q El Hq Ha Hl.
  - exists w, (q_spawned q). split; [done|]. rewrite Hq. destruct q. cbn in *. by subst.
  - pose proof (q_stream dh w c q s l true Hq Ha Hl (eq_sym El)) as Hs.
    destruct (IH (on_conn c take_stream w) (take_stream q)) as (w' & sp & Hw' & E); [cbn; by rewrite <-El| |done|done|].
    { by rewrite lookup_on_conn, bool_decide_true, Hq by done. }
    exists w', sp. split; [|done]. eapply rtc_l; [|done]. split; [done|]. exact (peers_on_conn c take_stream w (λ _, conj eq_refl (conj eq_refl eq_refl))).
Qed.

(** The goroutines of the accepted streams can all run. *)
Lemma drain_spawned dh w c q :
  conns w !! c = Some q →
  ∃ w', rtc (own_step dh) w w' ∧ conns w' !! c = Some (set_spawned [] q).
Proof.
  remember (q_spawned q) as l eqn:El. revert w q El. induction l as [|s l IH]; intros w q El Hq.
  - exists w. split; [done|]. rewrite Hq. destruct q. cbn in *. by subst.
  - pose proof (q_run dh w c q s [] l Hq (eq_sym El)) as Hs.
    destruct (IH (log_call (CallStream c s) (on_conn c (set_spawned l) w)) (set_spawned l q)) as (w' & Hw' & E); [done| |].
    { change (conns (on_conn c (set_spawned l) w) !! c = Some (set_spawned l q)). by rewrite lookup_on_conn, bool_decide_true, Hq by done. }
    exists w'. split; [|exact E]. eapply rtc_l; [|done]. split; [done|].
    exact (peers_on_conn c (set_spawned l) w (λ _, conj eq_refl (conj eq_refl eq_refl))).
Qed.

Lemma drain_dgrams dh w c q :
  conns w !! c = Some q → q_alive q = true → q_loops q = Some (true, true) →
  ∃ w', rtc (own_step dh) w w' ∧
    conns w' !! c = Some {| q_alive := true; q_loops := q_loops q; q_streams := q_streams q; q_spawned := q_spawned q; q_dgrams := [];
                            q_opened := q_opened q; q_sent := q_sent q |}.
Proof.
  remember (q_dgrams q) as l eqn:El. revert w q El. induction l as [|d l IH]; intros w q El Hq Ha Hl.
  - exists w. split; [done|]. rewrite Hq. destruct q. cbn in *. by subst.
  - pose proof (q_dgram dh w c q d l true Hq Ha Hl (eq_sym El)) as Hs. set (w1 := if dh then _ else _) in Hs.
    assert (conns w1 !! c = Some (take_dgram q)) as Hq1.
    { assert (conns w1 = conns (on_conn c take_dgram w)) as -> by (unfold w1; by destruct dh).
      by rewrite lookup_on_conn, bool_decide_true, Hq by done. }
    destruct (IH w1 (take_dgram q)) as (w' & Hw' & E); [cbn; by rewrite <-El|done|done|done|].
    exists w'. split; [eapply rtc_l; [split; [exact Hs|]|done]|done].
  transitivity (peers (on_conn c take_dgram w)); [unfold w1; by destruct dh|by apply peers_on_conn].
Qed.

(** Nothing a living peer sends is forgotten.  From every reachable state
    of a server that runs, a connection whose peer is there, waiting to be
    accepted or with its loops running, can be served to the end by steps of
    the server alone: all its streams and all its datagrams are handed out. *)
Theorem quic_serves (w0 w : server) (c : nat) (q : qconn) :
  quic_listen None = Ok w0 → rtc (qstep true) w0 w → conns w !! c = Some q → q_alive q = true →
  returned w = false → q_loops q = None ∨ q_loops q = Some (true, true) →
  ∃ w', rtc (own_step true) w w' ∧ streams_of c (calls w') ≡ₚ q_opened q ∧ dgrams_of c (calls w') = q_sent q.
Proof.
  intros H0 Hr Hq Ha Hret Hlo.
  assert (∃ w1, rtc (own_step true) w w1 ∧ conns w1 !! c = Some (set_loops (true, true) q)) as (w1 & Hw1 & Hq1).
  { destruct Hlo as [Hn|Hs].
    - pose proof (srv_inv_reachable true w0 w H0 Hr) as (_ & _ & k & Hk & Hb & Hl). apply (Hl c q Hq) in Hn.
      apply lookup_lt_Some in Hq as Hlt. eapply accept_until; [done|done|done|lia].
    - exists w. split; [done|]. rewrite Hq. destruct q. cbn in *. by subst. }
  destruct (drain_streams true w1 c _ Hq1 Ha eq_refl) as (w2 & sp & Hw2 & Hq2).
  destruct (drain_spawned true w2 c _ Hq2) as (w2' & Hw2' & Hq2').
  destruct (drain_dgrams true w2' c _ Hq2' eq_refl eq_refl) as (w3 & Hw3 & Hq3).
  exists w3. assert (rtc (own_step true) w w3) as Hw by (etrans; [exact Hw1|]; etrans; [exact Hw2|]; by etrans). split; [done|].
  pose proof (srv_inv_reachable true w0 w3 H0) as Hi. destruct Hi as (Hc & _ & _); [etrans; [done|]; by eapply rtc_subrel; [|exact Hw]; intros ?? []|].
  destruct (Hc c _ Hq3) as ((tk & H1 & Hp) & H2 & _). cbn in H1, H2, Hp. rewrite app_nil_r in H1, H2, Hp. by rewrite Hp, <-H1.
Qed.

(** ** Concrete runs *)

(** A peer connects, opens a stream and sends a datagram. *)
Definition demo_server : server :=
  {| conns := [{| q_alive := true; q_loops := None; q_streams := [4%nat]; q_spawned := []; q_dgrams := ["hi" : bytes]; q_opened := [4%nat]; q_sent := ["hi" : bytes] |}];
     backlog := [0%nat]; ctx_done := false; returned := false; calls := [] |}.

Lemma demo_reachable : ∃ w0, quic_listen None = Ok w0 ∧ rtc (qstep true) w0 demo_server.
Proof.
  eexists. split; [reflexivity|]. eapply rtc_l; [by apply q_connect|]. eapply rtc_l; [apply (q_open true _ 0 4)|].
  eapply rtc_l; [apply (q_send true _ 0 "hi")|]. apply rtc_refl.
Qed.

Lemma quic_serves_witness :
  ∃ w', rtc (own_step true) demo_server w' ∧ streams_of 0 (calls w') ≡ₚ [4%nat] ∧ dgrams_of 0 (calls w') = ["hi" : bytes].
Proof.
  destruct demo_reachable as (w0 & H0 & Hr).
  apply (quic_serves w0 demo_server 0 _ H0 Hr eq_refl); [reflexivity|reflexivity|left; reflexivity].
Defined.

(** It is accepted, its stream is taken, and the goroutine calls the handler. *)
Definition demo_called : server :=
  log_call (CallStream 0 4) (on_conn 0 (set_spawned []) (on_conn 0 take_stream (on_conn 0 (set_loops (true, true))
    {| conns := conns demo_server; backlog := []; ctx_done := false; returned := false; calls := [] |}))).

Lemma quic_dispatch_witness :
  ∃ q, conns demo_called !! 0%nat = Some q ∧
    (∃ accepted, q_opened q = accepted ++ q_streams q ∧ streams_of 0 (calls demo_called) ++ q_spawned q ≡ₚ accepted) ∧
    dgrams_of 0 (calls demo_called) ++ q_dgrams q = q_sent q.
Proof.
  set (q := set_spawned [] (take_stream (set_loops (true, true) (nth 0 (conns demo_server) new_qconn)))).
  exists q. split; [reflexivity|]. destruct demo_reachable as (w0 & H0 & Hr).
  assert (rtc (qstep true) w0 demo_called) as Hw.
  { etrans; [exact Hr|]. eapply rtc_l; [apply (q_accept true demo_server 0 []); reflexivity|].
    eapply rtc_l; [eapply (q_stream true _ 0); reflexivity|].
    eapply rtc_l; [apply (q_run true _ 0 (take_stream (set_loops (true, true) (nth 0 (conns demo_server) new_qconn))) 4 [] []); reflexivity|].
    apply rtc_refl. }
  destruct (quic_dispatch w0 demo_called 0 q H0 Hw eq_refl) as (H1 & H2 & _). split; [exact H1|exact H2].
Defined.

End QuicThms.
