(* ===== verification/DnsUpstream.v ===== *)
(** * DNS upstreams: the exchanges of [internal/routing/dns.go]

    An upstream is asked over UDP, over TLS or over HTTPS.  The client of the
    package [dns], the HTTP client and the coding of messages are third-party
    code and fields of [dns_net]; [DNSNetLaws] states their documented
    behaviour.  [Exchange] is the method of the three kinds of upstreams; the
    theorems run the resolver of [Dns.v] over it. *)

From S2P Require Import Prelude GoNet Types Outbound FakeIP Router Dns.

(** ** HTTP *)

Record http_request := { rq_method : bytes; rq_url : bytes; rq_headers : list (bytes * bytes); rq_body : bytes }.

(** The status and what [io.ReadAll] makes of the body. *)
Record http_response := { rs_status : Z; rs_body : res bytes }.

Definition header (k : bytes) (hs : list (bytes * bytes)) : option bytes := snd <$> List.find (λ kv, bool_decide (kv.1 = k)) hs.

Section upstreams.
Context `{DNSMsg Msg}.

(** [m.Pack], [m.Unpack], [http.NewRequest]'s verdict on the URL,
    [client.Do], and [dns.Client.ExchangeContext] for a network and, over
    TLS, a server name. *)
Record dns_net := {
  n_pack : Msg → res bytes;
  n_unpack : bytes → res Msg;
  n_url_error : bytes → option goerr;
  n_do : http_request → res http_response;
  n_exchange : bytes → option bytes → bytes → Msg → res Msg }.

(** They report errors and do not panic; what packs also unpacks, to a message
    with the same identifier and as many answers (fields that only describe
    the coding, such as compression or record lengths, are not kept); a
    network address is host:port. *)
Class DNSNetLaws (n : dns_net) := {
  pack_no_panic m : n_pack n m ≠ Panic;
  unpack_no_panic b : n_unpack n b ≠ Panic;
  do_no_panic r : n_do n r ≠ Panic;
  body_no_panic r rsp : n_do n r = Ok rsp → rs_body rsp ≠ Panic;
  exchange_no_panic net sni addr m : n_exchange n net sni addr m ≠ Panic;
  unpack_pack m b : n_pack n m = Ok b →
    ∃ m', n_unpack n b = Ok m' ∧ msg_Id m' = msg_Id m ∧ length (msg_Answer m') = length (msg_Answer m);
  exchange_needs_port net sni addr m e : SplitHostPort addr = Fail e → ∃ e', n_exchange n net sni addr m = Fail e' }.

Definition dns_message : bytes := "application/dns-message".

Definition doh_request (url body : bytes) : http_request :=
  {| rq_method := "POST"; rq_url := url; rq_headers := [("Content-Type" : bytes, dns_message); ("Accept" : bytes, dns_message)];
     rq_body := body |}.

(** [DoHUpstream.Exchange]. *)
Definition doh_Exchange (n : dns_net) (url : bytes) (m : Msg) : res Msg :=
  let! buf := n_pack n m in
  match n_url_error n url with
  | Some e => Fail e
  | None =>
      let! resp := n_do n (doh_request url buf) in
      if negb (bool_decide (rs_status resp = 200)) then Fail (Errorf "doh status code")
      else
        let! respBuf := rs_body resp in
        n_unpack n respBuf
  end.

(** [UDPUpstream.Exchange] and [DoTUpstream.Exchange]. *)
Definition udp_Exchange (n : dns_net) (addr : bytes) (m : Msg) : res Msg := n_exchange n "udp" None addr m.

Definition dot_Exchange (n : dns_net) (addr serverName : bytes) (m : Msg) : res Msg := n_exchange n "tcp-tls" (Some serverName) addr m.

(** The interface [DNSUpstream]. *)
Definition Exchange (n : dns_net) (m : Msg) (u : upstream) : res Msg :=
  match u with
  | UDPUpstream addr => udp_Exchange n addr m
  | DoHUpstream url => doh_Exchange n url m
  | DoTUpstream addr serverName => dot_Exchange n addr serverName m
  end.

Definition Address (u : upstream) : bytes :=
  match u with UDPUpstream addr => addr | DoHUpstream url => url | DoTUpstream addr _ => addr end.

(** A server of DNS over HTTPS (RFC 8484) at [url] that answers by [answer]. *)
Definition doh_server (n : dns_net) (url : bytes) (answer : Msg → Msg) : Prop :=
  n_url_error n url = None ∧
  ∀ req m, rq_method req = ("POST" : bytes) → rq_url req = url → header "Content-Type" (rq_headers req) = Some dns_message →
    n_unpack n (rq_body req) = Ok m →
    ∃ b, n_pack n (answer m) = Ok b ∧ n_do n req = Ok {| rs_status := 200; rs_body := Ok b |}.

End upstreams.
Arguments dns_net Msg : clear implicits.

Module UpstreamThms.

Section thms.
Context `{DNSLaws Msg} `{OutboundHandler Out} (n : dns_net Msg) `{!DNSNetLaws n}.

(** Over HTTPS a message arrives and its answer comes back. *)
Lemma doh_exchange_ok url answer m b :
  doh_server n url answer → n_pack n m = Ok b →
  ∃ m' r, n_unpack n b = Ok m' ∧ doh_Exchange n url m = Ok r ∧ msg_Id r = msg_Id (answer m').
Proof.
  intros [Hu Hs] Hp. destruct (unpack_pack (n := n) m b Hp) as (m' & Hm' & _).
  destruct (Hs (doh_request url b) m' eq_refl eq_refl eq_refl Hm') as (b' & Hb' & Hdo).
  destruct (unpack_pack (n := n) (answer m') b' Hb') as (r & Hr & Hid & _). exists m', r. split; [done|]. split; [|done].
  unfold doh_Exchange. rewrite Hp. cbn [res_bind]. rewrite Hu, Hdo. cbn [res_bind rs_status rs_body].
  rewrite bool_decide_true by done. exact Hr.
Qed.

Lemma exchange_safe m u : Exchange n m u ≠ Panic.
Proof.
  destruct u as [a|url|a s]; cbn; [apply exchange_no_panic| |apply exchange_no_panic]. unfold doh_Exchange.
  pose proof (pack_no_panic (n := n) m). destruct (n_pack n m) as [b| |]; cbn; [|done|done].
  destruct (n_url_error n url); [done|]. pose proof (do_no_panic (n := n) (doh_request url b)).
  destruct (n_do n (doh_request url b)) as [rsp| |] eqn:Ed; cbn; [|done|done]. case_bool_decide; [|done]. cbn.
  pose proof (body_no_panic (n := n) _ rsp Ed). destruct (rs_body rsp) as [rb| |]; cbn; [|done|done]. apply unpack_no_panic.
Qed.

(** What an error anywhere on the way becomes. *)
Lemma doh_exchange_status url m b rsp :
  n_pack n m = Ok b → n_url_error n url = None → n_do n (doh_request url b) = Ok rsp → rs_status rsp ≠ 200 →
  doh_Exchange n url m = Fail (Errorf "doh status code").
Proof. intros Hp Hu Hd Hs. unfold doh_Exchange. rewrite Hp. cbn [res_bind]. rewrite Hu, Hd. cbn. by rewrite bool_decide_false. Qed.

(** ** Names *)

(** C27: one DNS-over-HTTPS server is enough to resolve a name.  For a host
    that is no address literal and has no trailing dot, with fake addresses
    off, no fresh entry for it in the cache and no end of the context before
    the upstreams have answered: when the group the router selects has a DoH
    upstream whose server follows RFC 8484, then whatever the other upstreams
    do, and in whatever order their answers come in, [LookupIP] returns the
    addresses of the answer one of the upstreams gave to the question for the
    host, and that answer is in the cache, fresh for at least ten seconds. *)
Theorem lookup_resolves (host url : bytes) (answer : Msg → Msg) (b : bytes) (now now' : Z) (router : BaseRouter Out) (order : list Out)
    (route : res Out) (evs : list (race_event Msg)) (sr : SmartResolver Msg) :
  let m := SetQuestion (host ++ ("." : bytes)) TypeA in
  let ups := upstreams_for route sr in
  let key := cacheKey {| q_name := host ++ ("." : bytes); q_type := TypeA |} in
  ParseIP host = None → has_suffix host "." = false → fakeIPEnabled sr = false →
  (∀ msg ex, cache sr !! key = Some (msg, ex) → ex ≤ now) →
  Route order router (with_Target zeroMeta (JoinHostPort host "443")) = route → route ≠ Panic →
  DoHUpstream url ∈ ups → doh_server n url answer → n_pack n m = Ok b →
  evs ≡ₚ (event_of ∘ Exchange n m) <$> ups →
  ∃ u r sr' expiry, u ∈ ups ∧ Exchange n m u = Ok r ∧
    LookupIP host now now' router order (Exchange n m) evs sr = Some (Ok (answer_ips r), sr') ∧
    cache sr' !! key = Some (r, expiry) ∧ now' + 10 * second ≤ expiry.
Proof.
  intros m ups key Hip Hdot Hf Hc Hr Hnp Hu Hs Hp Hev.
  destruct (DnsThms.race_one_suffices ups (Exchange n m) evs Hev) as (u & r & Hin & Hx & Hrace).
  { intros u _. apply exchange_safe. }
  { destruct (doh_exchange_ok url answer m b Hs Hp) as (_ & r & _ & Hrx & _). by exists (DoHUpstream url), r. }
  assert (query_begin m now router order sr = (Ask ups, sr)) as Hb.
  { unfold query_begin, m. rewrite Question_SetQuestion by (unfold TypeA; lia). cbn [q_name q_type].
    rewrite Hf. cbn [andb]. fold key. rewrite DnsThms.trim_dot, Hr.
    destruct (cache sr !! key) as [[msg ex]|] eqn:Ec; [specialize (Hc msg ex eq_refl); rewrite bool_decide_false by lia|];
      by destruct route. }
  exists u, r. eexists _, (now' + ttl_of r * second). split; [done|]. split; [done|].
  unfold LookupIP, Query. rewrite Hip, Hf, Hdot. cbn [negb]. fold m. rewrite Hb, Hrace. cbn [mbind option_bind].
  unfold query_end, m at 1. rewrite Question_SetQuestion by (unfold TypeA; lia). cbn [res_bind].
  split; [done|]. cbn [cache]. split; [apply lookup_insert_eq|]. pose proof (DnsThms.ttl_range r). unfold second. lia.
Qed.

(** ** Ports *)

(** An upstream over TLS needs its port spelled out.  A configured
    [tls://host] without a port makes an upstream that fails every exchange,
    because its address is no host:port; the same host configured for UDP
    gets port 53, and with [:853] the TLS upstream dials that port and checks
    the name of the host. *)
Theorem dot_needs_port (host : bytes) (m : Msg) :
  colon ∉ host → lbrack ∉ host → rbrack ∉ host → has_prefix host "https://" = false → has_prefix host "tls://" = false →
  (∃ e, Exchange n m (parse_upstream (("tls://" : bytes) ++ host)) = Fail e) ∧
  (parse_upstream host = UDPUpstream (host ++ (":53" : bytes)) ∧ SplitHostPort (host ++ (":53" : bytes)) = Ok (host, "53" : bytes)) ∧
  Exchange n m (parse_upstream (("tls://" : bytes) ++ host ++ (":853" : bytes))) =
    n_exchange n "tcp-tls" (Some host) (host ++ (":853" : bytes)) m.
Proof.
  intros Hc Hl Hr Hh Ht. assert (∀ x, has_prefix (("tls://" : bytes) ++ x) "https://" = false) as Hx by (by intros x).
  assert (∀ p : bytes, colon ∉ p → lbrack ∉ p → rbrack ∉ p → SplitHostPort (host ++ colon :: p) = Ok (host, p)) as Hsp
    by (intros p ???; by apply SplitHostPort_plain).
  split; [|split].
  - unfold parse_upstream. rewrite Hx, has_prefix_app, trim_prefix_app. cbn [Exchange]. unfold dot_Exchange.
    eapply exchange_needs_port. unfold SplitHostPort. by rewrite last_index_byte_None.
  - split; [|by apply Hsp; apply contains_byte_false]. unfold parse_upstream. by rewrite Hh, Ht, (proj2 (contains_byte_false _ _)).
  - unfold parse_upstream. rewrite Hx, has_prefix_app, trim_prefix_app.
    change (host ++ (":853" : bytes)) with (host ++ colon :: ("853" : bytes)).
    by rewrite Hsp by (by apply contains_byte_false).
Qed.

End thms.

(** ** Concrete runs *)

#[local] Existing Instances DnsThms.demo_dns DnsThms.demo_dns_laws.

#[local] Instance rdata_eq_dec : EqDecision rdata.
Proof. solve_decision. Defined.

#[local] Instance RR_eq_dec : EqDecision RR.
Proof. solve_decision. Defined.

#[local] Instance demo_msg_eq_dec : EqDecision DnsThms.demo_msg.
Proof. solve_decision. Defined.

Definition demo_ask : DnsThms.demo_msg := SetQuestion "www.example." TypeA.

(** A coding of two messages, a server of DNS over HTTPS, and no other network. *)
Definition demo_net : dns_net DnsThms.demo_msg :=
  {| n_pack := λ m, if bool_decide (m = demo_ask) then Ok [Byte.x00] else if bool_decide (m = DnsThms.demo_resp) then Ok [Byte.x01]
                    else Fail (Errorf "pack");
     n_unpack := λ b, if bool_decide (b = [Byte.x00]) then Ok demo_ask else if bool_decide (b = [Byte.x01]) then Ok DnsThms.demo_resp
                      else Fail (Errorf "unpack");
     n_url_error := λ _, None;
     n_do := λ r, if bool_decide (rq_method r = ("POST" : bytes)) then Ok {| rs_status := 200; rs_body := Ok [Byte.x01] |}
                  else Fail (Errorf "method");
     n_exchange := λ _ _ _ _, Fail (Errorf "no network") |}.

#[local] Instance demo_net_laws : DNSNetLaws demo_net.
Proof.
  split.
  - intros m. cbn. by repeat case_bool_decide.
  - intros b. cbn. by repeat case_bool_decide.
  - intros r. cbn. by case_bool_decide.
  - intros r rsp. cbn. case_bool_decide; [|done]. by intros [= <-].
  - done.
  - intros m b. cbn. case_bool_decide as H1; [intros [= <-]; subst; by eexists|].
    case_bool_decide as H2; [intros [= <-]; subst; by eexists|done].
  - intros. cbn. eauto.
Qed.

Lemma demo_doh : doh_server demo_net "https://dns.example/q" (λ _, DnsThms.demo_resp).
Proof. split; [done|]. intros req m Hm _ _ _. exists [Byte.x01]. split; [by vm_compute|]. cbn. by rewrite Hm. Qed.

Definition demo_doh_sr : SmartResolver DnsThms.demo_msg :=
  AddUpstreamByString "local" "https://dns.example/q" (AddUpstreamByString "local" "tls://dns.example" NewSmartResolver).

Lemma lookup_resolves_witness :
  ∃ sr', LookupIP "www.example" 0 second (AddOutbound RouterThms.demo_direct NewRouter) [RouterThms.demo_direct] (Exchange demo_net demo_ask)
      [GotErr (Errorf "no network"); GotResp DnsThms.demo_resp] demo_doh_sr =
    Some (Ok [[Byte.xc0; Byte.x00; Byte.x02; Byte.x01]], sr').
Proof.
  destruct (lookup_resolves demo_net "www.example" "https://dns.example/q" (λ _, DnsThms.demo_resp) [Byte.x00] 0 second
    (AddOutbound RouterThms.demo_direct NewRouter) [RouterThms.demo_direct] (Fail ErrNoAvailableOutbound)
    [GotErr (Errorf "no network"); GotResp DnsThms.demo_resp] demo_doh_sr) as (u & r & sr' & ex & Hu & Hx & HL & _);
    [vm_compute; reflexivity|vm_compute; reflexivity|reflexivity|vm_compute; discriminate|vm_compute; reflexivity|discriminate
    |vm_compute; right; left|exact demo_doh|vm_compute; reflexivity|vm_compute; reflexivity|].
  exists sr'. etrans; [exact HL|]. apply list_elem_of_In in Hu. vm_compute in Hu.
  destruct Hu as [<-|[<-|[]]]; vm_compute in Hx; [discriminate|]. injection Hx as <-. reflexivity.
Defined.

Lemma dot_needs_port_witness :
  (∃ e, Exchange demo_net demo_ask (parse_upstream "tls://dns.example") = Fail e) ∧ parse_upstream "dns.example" = UDPUpstream "dns.example:53".
Proof.
  destruct (dot_needs_port demo_net "dns.example" demo_ask) as (He & [Hu _] & _);
    [apply contains_byte_false; reflexivity|apply contains_byte_false; reflexivity|apply contains_byte_false; reflexivity
    |reflexivity|reflexivity|].
  split; [exact He|exact Hu].
Defined.

End UpstreamThms.
