(* ===== verification/GeoIP.v ===== *)
(** * GeoIP databases: [NewGeoIPMatcher] and [downloadFile] of
    [internal/routing/geoip.go]

    The databases are files, fetched from the network when they are not
    there.  The file system is the one of [Config.v]; a download is what the
    server sent before the body ended or broke off; reading a database is
    third-party code, the argument [Open] of a section.  Matching addresses
    against a loaded database is in [Router.v]. *)

From S2P Require Import Prelude GoNet Types Outbound Router Config.

(** [os.Stat]: a file or a directory is there. *)
Definition exists_path (path : bytes) (f : fs) : bool :=
  bool_decide (is_Some (files f !! Clean path) ∨ Clean path ∈ dirs f).

(** What [http.Get] returns: an error, or a status, the bytes of the body that
    come and the error behind them. *)
Record download := { dl_status : Z; dl_body : bytes; dl_err : option goerr }.

Definition can_create (path : bytes) (f : fs) : bool := bool_decide (Dir path ∈ dirs f ∧ Clean path ∉ dirs f).

(** [downloadFile]: the status is not looked at, and the file stays whatever
    [io.Copy] returns. *)
Definition downloadFile (path : bytes) (get : download + goerr) (f : fs) : option goerr * fs :=
  match get with
  | inl d =>
      if can_create path f
      then (dl_err d, {| files := <[Clean path := dl_body d]> (files f); dirs := dirs f |})
      else (Some (Errorf "create"), f)
  | inr e => (Some e, f)
  end.

Section geoip.
(** [geoip2.Open] on the contents of a file, as the lookups of the reader. *)
Context (OpenCountry : bytes → res (bytes → option bytes)) (OpenASN : bytes → res (bytes → option Z)).

Definition open_file {A} (open : bytes → res A) (path : bytes) (f : fs) : res A :=
  match files f !! Clean path with Some b => open b | None => Fail (Errorf "no such file") end.

(** The network: what a URL gives. *)
Definition network : Type := bytes → download + goerr.

Definition city_url : bytes := "https://github.com/P3TERX/GeoLite2-City-v2ray/raw/gh-pages/GeoLite2-City.mmdb".
Definition asn_url : bytes := "https://github.com/P3TERX/GeoLite2-City-v2ray/raw/gh-pages/GeoLite2-ASN.mmdb".

(** The second database, whose errors are dropped. *)
Definition load_asn (asnPath : bytes) (net : network) (f : fs) : res (option (bytes → option Z)) * fs :=
  if negb (bool_decide (asnPath = [])) then
    let f1 := if negb (exists_path asnPath f) then (downloadFile asnPath (net asn_url) f).2 else f in
    if exists_path asnPath f1 then
      (match open_file OpenASN asnPath f1 with Ok db => Ok (Some db) | Fail _ => Ok None | Panic => Panic end, f1)
    else (Ok None, f1)
  else (Ok None, f).

Definition NewGeoIPMatcher (dbPath asnPath : bytes) (net : network) (f : fs) : res GeoIPMatcher * fs :=
  let '(err, f1) := if negb (exists_path dbPath f) then downloadFile dbPath (net city_url) f else (None, f) in
  match err with
  | Some e => (Fail e, f1)
  | None =>
      match open_file OpenCountry dbPath f1 with
      | Ok db =>
          let '(asn, f2) := load_asn asnPath net f1 in
          (match asn with Ok a => Ok {| geo_db := Some db; geo_asnDB := a |} | Fail e => Fail e | Panic => Panic end, f2)
      | Fail e => (Fail e, f1)
      | Panic => (Panic, f1)
      end
  end.

End geoip.

Module GeoIPThms.

Section thms.
Context (OpenCountry : bytes → res (bytes → option bytes)) (OpenASN : bytes → res (bytes → option Z)).

Abbreviation new := (NewGeoIPMatcher OpenCountry OpenASN).

Lemma downloaded path d f e f' :
  can_create path f = true → downloadFile path (inl d) f = (e, f') →
  e = dl_err d ∧ files f' = <[Clean path := dl_body d]> (files f) ∧ exists_path path f' = true.
Proof.
  intros Hc. unfold downloadFile. rewrite Hc. intros [= <- <-]. split; [done|]. split; [done|].
  unfold exists_path. cbn. rewrite lookup_insert_eq. apply bool_decide_eq_true_2. left. eauto.
Qed.

(** Without a second path the second database is absent and nothing is read. *)
Lemma load_asn_none net f : load_asn OpenASN [] net f = (Ok None, f).
Proof. unfold load_asn. by rewrite bool_decide_true. Qed.

(** A database that is there is opened and the network is not asked. *)
Lemma load_present dbPath net f b :
  exists_path dbPath f = true → files f !! Clean dbPath = Some b →
  new dbPath [] net f =
  (match OpenCountry b with Ok db => Ok {| geo_db := Some db; geo_asnDB := None |} | Fail e => Fail e | Panic => Panic end, f).
Proof.
  intros He Hb. unfold NewGeoIPMatcher. rewrite He. cbn [negb]. unfold open_file. rewrite Hb.
  by destruct (OpenCountry b).
Qed.

(** A database is fetched once, and a bad one is never fetched again.
    When the file is missing and can be created, the matcher is built from
    what the server sent, if the transfer was complete and the bytes are a
    database.  Whatever the server sent, an error page or the beginning of a
    file included, is left under the path: every later start uses it and
    does not look at the network again, so that after a broken or refused
    download every start fails. *)
Theorem geoip_fetched_once (dbPath : bytes) (net : network) (d : download) (f : fs) :
  exists_path dbPath f = false → can_create dbPath f = true → net city_url = inl d →
  ∃ f', new dbPath [] net f =
      (match dl_err d with
       | Some e => Fail e
       | None => match OpenCountry (dl_body d) with Ok db => Ok {| geo_db := Some db; geo_asnDB := None |} | Fail e => Fail e | Panic => Panic end
       end, f') ∧
    files f' !! Clean dbPath = Some (dl_body d) ∧
    (∀ net', new dbPath [] net' f' =
       (match OpenCountry (dl_body d) with Ok db => Ok {| geo_db := Some db; geo_asnDB := None |} | Fail e => Fail e | Panic => Panic end, f')).
Proof.
  intros Hx Hc Hn. destruct (downloadFile dbPath (inl d) f) as [e f'] eqn:Ed.
  destruct (downloaded _ _ _ _ _ Hc Ed) as (-> & Hf & Hx'). exists f'.
  assert (files f' !! Clean dbPath = Some (dl_body d)) as Hb by (rewrite Hf; apply lookup_insert_eq).
  split; [|split; [done|intros net'; by apply load_present]].
  unfold NewGeoIPMatcher. rewrite Hx, Hn, Ed. cbn [negb]. destruct (dl_err d); [done|]. unfold open_file. rewrite Hb.
  by destruct (OpenCountry (dl_body d)).
Qed.

(** The second database never stops the first: whatever happens to it, the
    matcher has the first one. *)
Theorem asn_optional (dbPath asnPath : bytes) (net : network) (f : fs) (b : bytes) (db : bytes → option bytes) :
  exists_path dbPath f = true → files f !! Clean dbPath = Some b → OpenCountry b = Ok db → (∀ x, OpenASN x ≠ Panic) →
  ∃ m f', new dbPath asnPath net f = (Ok m, f') ∧ geo_db m = Some db.
Proof.
  intros He Hb Ho Hp. unfold NewGeoIPMatcher. rewrite He. cbn [negb]. unfold open_file. rewrite Hb, Ho.
  destruct (load_asn OpenASN asnPath net f) as [asn f2] eqn:El.
  assert (∃ a, asn = Ok a) as [a ->]; [|by eexists _, _].
  unfold load_asn in El. destruct (negb (bool_decide (asnPath = []))); [|injection El as <- <-; eauto].
  destruct (exists_path asnPath _); [|injection El as <- <-; eauto]. injection El as <- <-. unfold open_file.
  clear Hb. destruct (files _ !! _) as [x|]; [|eauto]. specialize (Hp x). destruct (OpenASN x); [eauto|eauto|done].
Qed.

End thms.

(** ** Concrete runs *)

(** A database is a file that starts with a mark; it knows one country. *)
Definition demo_open (b : bytes) : res (bytes → option bytes) :=
  if has_prefix b "MMDB" then Ok (λ _, Some ("CN" : bytes)) else Fail (Errorf "invalid database").

Definition demo_asn (b : bytes) : res (bytes → option Z) := Fail (Errorf "invalid database").

Definition demo_fs : fs := {| files := ∅; dirs := {[ [dot] ]} |}.

Definition error_page : download := {| dl_status := 404; dl_body := "Not Found"; dl_err := None |}.

Definition full_file : download := {| dl_status := 200; dl_body := "MMDB..."; dl_err := None |}.

Lemma geoip_fetched_once_witness :
  ∃ f', NewGeoIPMatcher demo_open demo_asn "geo.mmdb" [] (λ _, inl error_page) demo_fs = (Fail (Errorf "invalid database"), f') ∧
    NewGeoIPMatcher demo_open demo_asn "geo.mmdb" [] (λ _, inl full_file) f' = (Fail (Errorf "invalid database"), f').
Proof.
  destruct (geoip_fetched_once demo_open demo_asn "geo.mmdb" (λ _, inl error_page) error_page demo_fs) as (f' & E & _ & Hn);
    [vm_compute; reflexivity|vm_compute; reflexivity|reflexivity|].
  exists f'. split; [exact E|apply Hn].
Defined.

End GeoIPThms.
