(* ===== verification/Datagrams.v ===== *)
(** * Chain datagrams: UDP inbounds, the agent's registry and the QUIC server

    The UDP forwarders tell the agent about every session they create
    ([onNewSession]); the agent keeps them in a registry, and the datagram
    callback of its QUIC server hands a datagram from another node to the
    client registered under the identifier in front of it.  [dstep]
    interleaves the UDP inbound of [UdpSession.v], the callbacks it has still
    to make and the datagrams other nodes send.  [forward_wire] is the last
    part of [ForwardPacket]: how a client's datagram leaves the node. *)

From S2P Require Import Prelude GoNet Types Limits Stream NPChain Obfs Outbound Router UdpSession Dns Config Agent.
Import Quota.

Section datagrams.
Context `{UUID} `{OutboundHandler Out}.

(** The inbound, the sessions whose callback has not run yet, the registry
    and what the datagram callback has written: socket, address, payload. *)
Record node := {
  d_udp : UdpSession.world Out;
  d_pending : list nat;
  d_reg : gmap bytes UDPSession;
  d_out : list (nat * bytes * bytes) }.

Definition start_node (t : Z) (q : option QuotaManager) : node :=
  {| d_udp := UdpSession.start_world t q; d_pending := []; d_reg := ∅; d_out := [] |}.

(** The sessions a step of the inbound has created. *)
Definition created (w w' : UdpSession.world Out) : list nat :=
  seq (length (heap (w_mgr w))) (length (heap (w_mgr w')) - length (heap (w_mgr w))).

(** [onNewSession(s.sessionID, raddr, conn)] and the agent's callback. *)
Definition onNewSession (s : udpSession Out) (reg : gmap bytes UDPSession) : gmap bytes UDPSession :=
  udp_Add (us_sessionID s) {| u_Conn := us_inbound s; u_ClientAddr := us_clientAddr s |} reg.

Inductive dstep : node → node → Prop :=
| d_inbound d w' :
    UdpSession.step (d_udp d) w' →
    dstep d {| d_udp := w'; d_pending := d_pending d ++ created (d_udp d) w'; d_reg := d_reg d; d_out := d_out d |}
| d_register d p1 p p2 s :
    d_pending d = p1 ++ p :: p2 → heap (w_mgr (d_udp d)) !! p = Some s →
    dstep d {| d_udp := d_udp d; d_pending := p1 ++ p2; d_reg := onNewSession s (d_reg d); d_out := d_out d |}
| d_datagram d data r :
    on_datagram data (d_reg d) = Ok r →
    dstep d {| d_udp := d_udp d; d_pending := d_pending d; d_reg := d_reg d;
               d_out := match r with Some o => d_out d ++ [o] | None => d_out d end |}.

End datagrams.
Arguments node Out : clear implicits.

(** How [ForwardPacket] writes on a chain connection: a [StreamConn] sends a
    QUIC datagram, an obfuscated connection writes to its stream. *)
Inductive wire := AsDatagram (d : bytes) | OnStream (d : bytes).

Definition forward_wire (c : np_conn) (data : bytes) : wire :=
  match nc_obfs c with None => AsDatagram data | Some _ => OnStream data end.

Module DatagramThms.

Section thms.
Context `{UUIDLaws} `{OutboundHandler Out}.

(** ** What never changes of a session *)

Definition static (s : udpSession Out) : bytes * nat * bytes := (us_sessionID s, us_inbound s, us_clientAddr s).

Definition statics (w : UdpSession.world Out) : list (bytes * nat * bytes) := static <$> heap (w_mgr w).

Lemma statics_on p f (m : UDPSessionManager Out) :
  (∀ s, static (f s) = static s) → static <$> heap (on_session p f m) = static <$> heap m.
Proof.
  intros Hf. apply list_eq. intros i. unfold on_session. cbn. rewrite !list_lookup_fmap.
  destruct (decide (p = i)) as [->|Hn]; [rewrite list_lookup_alter_eq|by rewrite list_lookup_alter_ne].
  destruct (heap m !! i); cbn; [by rewrite Hf|done].
Qed.

(** A step of the inbound keeps the sessions and may add one, made from a
    packet that was received. *)
Lemma step_statics w w' :
  UdpSessionThms.inv w → UdpSession.step w w' →
  (∀ pk, pk ∈ received w → pk ∈ received w') ∧
  (statics w' = statics w ∨
   ∃ id pk, statics w' = statics w ++ [(id, p_inbound pk, p_client pk)] ∧ pk ∈ received w).
Proof.
  intros (_ & _ & Hj0 & _). destruct 1 as [w pk now p m' Hg|w pk Hm|w j1 pk j2 id now route p m' Hj Hc|w j1 p pk j2 dialed q' c m' cs' Hj Hq Hl
    |w j1 c pk j2 Hj|w j1 pk j2 id now route e Hj Hc|w j1 p pk j2 q' Hj Hq|w j1 p pk j2 q' Hj Hq Hl|w now|w p now];
    (split; [set_solver|]).
  - left. unfold get_existing in Hg. destruct (sessions _ !! _); [|done]. injection Hg as <- <-. by apply statics_on.
  - by left.
  - right. unfold create in Hc. destruct (route _) as [out| |]; [|done|done]. injection Hc as <- <-. exists id, pk.
    unfold statics. cbn. rewrite fmap_app. split; [done|].
    by destruct (UdpSessionThms.jobs_split _ _ _ _ Hj Hj0) as [Hpk _].
  - left. unfold lock_conn in Hl. destruct (heap _ !! p) as [s|]; [|done]. cbn in Hl.
    destruct (us_conn s); [by injection Hl as <- <- <-|]. destruct dialed; [|done]. injection Hl as <- <- <-. by apply statics_on.
  - by left.
  - by left.
  - by left.
  - by left.
  - by left.
  - left. by apply statics_on.
Qed.

(** ** The invariant *)

(** A client that has sent something to the socket [c] from [a]. *)
Definition known_client (w : UdpSession.world Out) (c : nat) (a : bytes) : Prop :=
  ∃ pk, pk ∈ received w ∧ c = p_inbound pk ∧ a = p_client pk.

Definition node_inv (d : node Out) : Prop :=
  let w := d_udp d in
  UdpSessionThms.inv w ∧
  (∀ id c a, (id, c, a) ∈ statics w → known_client w c a) ∧
  (∀ id u, d_reg d !! id = Some u → (id, u_Conn u, u_ClientAddr u) ∈ statics w) ∧
  (∀ p x, statics w !! p = Some x → p ∈ d_pending d ∨ is_Some (d_reg d !! x.1.1)) ∧
  (∀ c a payload, (c, a, payload) ∈ d_out d → known_client w c a).

Lemma known_client_mono w w' c a :
  (∀ pk, pk ∈ received w → pk ∈ received w') → known_client w c a → known_client w' c a.
Proof. intros Hr (pk & Hpk & Hc & Ha). exists pk. auto. Qed.

Lemma length_statics w : length (statics w) = length (heap (w_mgr w)).
Proof. apply length_fmap. Qed.

Lemma node_inv_inbound d w' :
  node_inv d → UdpSession.step (d_udp d) w' →
  node_inv {| d_udp := w'; d_pending := d_pending d ++ created (d_udp d) w'; d_reg := d_reg d; d_out := d_out d |}.
Proof.
  intros (Hi & Hk & Hr & Hp & Ho) Hs. destruct (step_statics _ _ Hi Hs) as [Hrec Hst].
  assert (UdpSessionThms.inv w') as Hi' by (by eapply UdpSessionThms.udp_inv_step).
  assert (∀ c a, known_client (d_udp d) c a → known_client w' c a) as Hm by (intros c a; by apply known_client_mono).
  split; [done|]. cbn [d_udp d_reg d_pending d_out]. unfold created. rewrite <-!length_statics.
  destruct Hst as [E|(id & pk & E & Hpk)]; rewrite E.
  - rewrite Nat.sub_diag. cbn [seq]. rewrite app_nil_r. naive_solver.
  - rewrite length_app, Nat.add_comm, Nat.add_sub. cbn [length seq]. split; [|split; [|split]].
    + intros id' c a [Hin|[= -> -> ->]%list_elem_of_singleton]%elem_of_app; [eauto|]. exists pk. auto.
    + intros id' u Hu. apply elem_of_app. left. auto.
    + intros p x [Hx|[Hge Hx]]%lookup_app_Some; [destruct (Hp p x Hx); [left; set_solver|by right]|].
      left. apply lookup_lt_Some in Hx. cbn in Hx. apply elem_of_app. right.
      apply list_elem_of_singleton. lia.
    + eauto.
Qed.

Lemma on_datagram_out (data : bytes) (reg : gmap bytes UDPSession) (o : nat * bytes * bytes) :
  on_datagram data reg = Ok (Some o) → ∃ id u, reg !! id = Some u ∧ o.1 = (u_Conn u, u_ClientAddr u).
Proof.
  unfold on_datagram. destruct (UnpackDatagram data) as [[sid payload]| |]; [|done|done]. unfold udp_Get.
  destruct (reg !! sid) as [u|] eqn:Eu; [|done]. intros [= <-]. by exists sid, u.
Qed.

Lemma node_inv_step d d' : node_inv d → dstep d d' → node_inv d'.
Proof.
  intros Hi. destruct 1 as [d w' Hs|d p1 p p2 s Hp Hs|d data r Hd]; [by apply node_inv_inbound| |];
    destruct Hi as (Hi & Hk & Hr & Hb & Ho).
  - split; [done|]. split; [done|]. cbn [d_udp d_reg d_pending d_out]. unfold onNewSession, udp_Add.
    assert (statics (d_udp d) !! p = Some (static s)) as Hst by (unfold statics; by rewrite list_lookup_fmap, Hs).
    split; [|split; [|done]].
    + intros id u. destruct (decide (us_sessionID s = id)) as [<-|Hne].
      * rewrite lookup_insert_eq. intros [= <-]. by apply list_elem_of_lookup_2 in Hst.
      * rewrite lookup_insert_ne by done. apply Hr.
    + intros p' x Hx. destruct (decide (us_sessionID s = x.1.1)) as [<-|Hne]; [right; rewrite lookup_insert_eq; eauto|].
      rewrite lookup_insert_ne by done. destruct (Hb p' x Hx) as [Hin|Hin]; [|by right]. left. rewrite Hp in Hin.
      destruct (decide (p' = p)) as [->|Hpp]; [|set_solver]. rewrite Hst in Hx. injection Hx as <-. done.
  - split; [done|]. split; [done|]. split; [done|]. split; [done|]. cbn [d_udp d_out]. destruct r as [o|]; [|exact Ho].
    intros c a payload [Hin|Hin]%elem_of_app; [eauto|]. apply list_elem_of_singleton in Hin as <-.
    apply on_datagram_out in Hd as (id & u & Hu & [= -> ->]). apply (Hk id). by apply Hr.
Qed.

Lemma node_inv_reachable t q d : rtc dstep (start_node t q) d → node_inv d.
Proof.
  intros Hr. eapply rtc_invariant; [apply node_inv_step|exact Hr|]. split; [apply UdpSessionThms.inv_start|].
  split; [intros ??? Hx; by apply elem_of_nil in Hx|]. split; [intros id u Hu; cbn in Hu; by apply lookup_empty_Some in Hu|].
  split; [done|]. intros ??? Hx. by apply elem_of_nil in Hx.
Qed.

(** ** Replies *)

Lemma packed_datagram (u payload : bytes) (reg : gmap bytes UDPSession) :
  length u = 16%nat →
  ∃ dg, PackDatagram (uuid_String u) payload = Ok dg ∧
    on_datagram dg reg = Ok match reg !! uuid_String u with Some x => Some (u_Conn x, u_ClientAddr x, payload) | None => None end.
Proof.
  intros Hu. pose proof (NPThms.datagram_packs (uuid_String u) payload) as Hd. rewrite uuid_Parse_String in Hd by done.
  destruct Hd as (dg & E & _ & Eu & _). exists dg. split; [done|]. unfold on_datagram, udp_Get. by rewrite Eu.
Qed.

(** C17: a datagram that another node sends back reaches the client of its
    session and no one else.  In every reachable state of a node, for every
    session its UDP inbound ever created and whose callback has run, with an
    identifier of its own: a payload packed with that identifier is written,
    unchanged, to the client of the session on the socket the client uses.
    This still holds when the session has expired, for the registry forgets
    nothing.  Whatever arrives, nothing is ever written to an address from
    which the node has received nothing. *)
Theorem reply_delivered (t : Z) (q : option QuotaManager) (d : node Out) (p : nat) (s : udpSession Out) (u payload : bytes) :
  rtc dstep (start_node t q) d → heap (w_mgr (d_udp d)) !! p = Some s → p ∉ d_pending d →
  NoDup (us_sessionID <$> heap (w_mgr (d_udp d))) → length u = 16%nat → us_sessionID s = uuid_String u →
  (∃ dg d', PackDatagram (us_sessionID s) payload = Ok dg ∧
     on_datagram dg (d_reg d) = Ok (Some (us_inbound s, us_clientAddr s, payload)) ∧
     dstep d d' ∧ d_out d' = d_out d ++ [(us_inbound s, us_clientAddr s, payload)]) ∧
  (∀ c a x, (c, a, x) ∈ d_out d → known_client (d_udp d) c a).
Proof.
  intros Hr Hs Hp Hnd Hu Hid. destruct (node_inv_reachable _ _ _ Hr) as (_ & _ & Hreg & Hb & Ho). split; [|exact Ho].
  assert (statics (d_udp d) !! p = Some (static s)) as Hst by (unfold statics; by rewrite list_lookup_fmap, Hs).
  destruct (Hb p _ Hst) as [?|[x Hx]]; [done|]. cbn in Hx.
  assert (x = {| u_Conn := us_inbound s; u_ClientAddr := us_clientAddr s |}) as ->.
  { apply Hreg, list_elem_of_lookup_1 in Hx as [p' Hp']. unfold statics in Hp'. rewrite list_lookup_fmap in Hp'.
    destruct (heap _ !! p') as [s'|] eqn:Hs'; [|done]. injection Hp' as Hid' Hc Ha.
    assert (p' = p) as ->.
    { eapply (NoDup_lookup _ _ _ _ Hnd); rewrite list_lookup_fmap; [by rewrite Hs'|rewrite Hs; cbn; by rewrite Hid']. }
    assert (s' = s) as -> by congruence. by destruct x; cbn in *; subst. }
  destruct (packed_datagram u payload (d_reg d) Hu) as (dg & Epk & Eod). rewrite <-Hid, Hx in Eod. rewrite Hid.
  eexists dg, _. split; [done|]. split; [exact Eod|]. split; [by eapply d_datagram|done].
Qed.

(** ** Requests *)

(** UDP datagrams lose their way in a chain.  On a chain connection
    without obfuscation [ForwardPacket] sends the client's datagram as it is,
    while the next node takes the first sixteen bytes of every datagram for a
    session identifier: whatever the client sends, that node writes nothing,
    or writes the rest of it to one of its own clients, namely the one whose
    session the client's bytes name; and any client of any node can so write
    to the client of a session whose identifier it knows. *)
Theorem datagrams_unmarked (c : np_conn) (data : bytes) (reg : gmap bytes UDPSession) :
  nc_obfs c = None →
  ∃ dg, forward_wire c data = AsDatagram dg ∧
    ((length data < 16)%nat → on_datagram dg reg = Ok None) ∧
    (∀ id16 rest, data = id16 ++ rest → length id16 = 16%nat →
       on_datagram dg reg =
         Ok match reg !! uuid_String id16 with Some x => Some (u_Conn x, u_ClientAddr x, rest) | None => None end).
Proof.
  intros Hc. exists data. unfold forward_wire. rewrite Hc. split; [done|]. unfold on_datagram, UnpackDatagram. split.
  - intros Hl. by rewrite bool_decide_true by done.
  - intros id16 rest -> Hl. rewrite bool_decide_false by len. rewrite slice_ok, slice_from_ok by len. cbn [res_bind].
    rewrite drop_0, Nat.sub_0_r, take_app_mid, drop_app_mid by done. done.
Qed.

End thms.

(** ** Concrete runs *)
Import DemoUUID.

Definition demo_uid : bytes := replicate 16 Byte.x2a.

Definition demo_pk : packet := forward_packet "192.0.2.9:53" "198.51.100.7:4000" 0 "query".

(** A client's first datagram, its session, and the callback. *)
Lemma demo_node_run :
  ∃ d s, rtc (dstep (Out := handler)) (start_node 0 None) d ∧ heap (w_mgr (d_udp d)) = [s] ∧ d_pending d = [] ∧
    us_sessionID s = uuid_String demo_uid ∧ us_inbound s = 0%nat ∧ us_clientAddr s = ("198.51.100.7:4000" : bytes).
Proof.
  eexists _, _. split; [|split; [|split]].
  - eapply rtc_l; [apply d_inbound; apply (StMiss _ demo_pk); apply lookup_empty|].
    eapply rtc_l; [apply d_inbound; apply (StCreate _ [] demo_pk [] (uuid_String demo_uid) 0 (λ _, Ok RouterThms.demo_direct)); reflexivity|].
    eapply rtc_l; [apply (d_register _ [] 0 []); reflexivity|]. apply rtc_refl.
  - reflexivity.
  - reflexivity.
  - split; [reflexivity|]. split; reflexivity.
Qed.

Lemma reply_delivered_witness :
  ∃ d dg, rtc (dstep (Out := handler)) (start_node 0 None) d ∧ PackDatagram (uuid_String demo_uid) ("answer" : bytes) = Ok dg ∧
    on_datagram dg (d_reg d) = Ok (Some (0%nat, "198.51.100.7:4000" : bytes, "answer" : bytes)).
Proof.
  destruct demo_node_run as (d & s & Hr & Hh & Hp & Hid & Hin & Ha). exists d.
  destruct (reply_delivered 0 None d 0 s demo_uid "answer" Hr) as [(dg & d' & E & Eo & _) _];
    [by rewrite Hh|rewrite Hp; by apply not_elem_of_nil|rewrite Hh; apply NoDup_singleton|reflexivity|exact Hid|].
  exists dg. rewrite Hid in E. rewrite Hin, Ha in Eo. split; [exact Hr|]. split; [exact E|exact Eo].
Defined.

Lemma datagrams_unmarked_witness :
  let c := {| nc_peer := ("quic" : bytes, "192.0.2.1:443" : bytes); nc_obfs := None; nc_sink := open_sink |} in
  let reg := udp_Add (uuid_String demo_uid) {| u_Conn := 3; u_ClientAddr := "203.0.113.5:9" |} ∅ in
  ∃ dg, forward_wire c (demo_uid ++ ("forged" : bytes)) = AsDatagram dg ∧
    on_datagram dg reg = Ok (Some (3%nat, "203.0.113.5:9" : bytes, "forged" : bytes)).
Proof.
  intros c reg. destruct (datagrams_unmarked c (demo_uid ++ ("forged" : bytes)) reg eq_refl) as (dg & E & _ & Hd).
  exists dg. split; [exact E|]. rewrite (Hd demo_uid "forged" eq_refl eq_refl). unfold reg, udp_Add. by rewrite lookup_insert_eq.
Defined.

End DatagramThms.
