(* ===== verification/Serve.v ===== *)
(** * Serving: the [Start] and [Stop] of the inbounds and the handlers behind

    [Listener.v] models the accept loop the TCP inbounds share.  This file
    adds what differs: how each inbound listens and stops, the HTTP inbound,
    whose loop is the one of [net/http], the receive loops of the UDP
    forwarders, and the composition of [Accept] with a connection handler,
    with and without the PROXY protocol. *)

From S2P Require Import Prelude GoNet Stream Types ProxyProto NPChain Obfs Limits Sniffer Outbound Router Config Inbound Listener.

(** ** TCP inbounds *)

(** The methods of an inbound: [Start] up to its loop (the argument is the
    error of [net.Listen]), a turn of the loop, [Stop] and [Addr] on the
    listener, which is nil before [Start]. *)
Record InboundHandler := {
  ih_Start : option goerr → bool → res listener;
  ih_turn : listener → option listener;
  ih_Stop : option listener → option listener;
  ih_Addr : option listener → res (option listener) }.

Definition close_listener (l : option listener) : option listener := listener_Stop <$> l.

(** [h.listener.Addr()], without a test for nil. *)
Definition listener_Addr (l : option listener) : res (option listener) := match l with None => Panic | Some _ => Ok l end.

Definition socks5_Start (bind : option goerr) (useProxyProto : bool) : res listener :=
  match Listen bind useProxyProto with
  | Fail _ => Fail (Errorf "socks5 listen failed")
  | r => r
  end.

Definition socks5_inbound : InboundHandler :=
  {| ih_Start := socks5_Start; ih_turn := accept_turn; ih_Stop := close_listener; ih_Addr := λ l, Ok l |}.

Definition forward_inbound : InboundHandler :=
  {| ih_Start := Listen; ih_turn := accept_turn; ih_Stop := close_listener; ih_Addr := listener_Addr |}.

Definition redirect_inbound : InboundHandler :=
  {| ih_Start := Listen; ih_turn := accept_turn; ih_Stop := close_listener; ih_Addr := listener_Addr |}.

(** The balancer also starts its health checks ([balance_check] of
    [Inbound.v]). *)
Definition balance_inbound : InboundHandler :=
  {| ih_Start := Listen; ih_turn := accept_turn; ih_Stop := close_listener; ih_Addr := listener_Addr |}.

(** The listener of [ListenConfig.Listen], with the transparent socket option,
    is wrapped here and not in [common.Listen]. *)
Definition tproxy_Start (bind : option goerr) (useProxyProto : bool) : res listener :=
  match bind with
  | Some _ => Fail (Errorf "failed to listen tproxy")
  | None => Ok {| proxy := useProxyProto; is_open := true; queue := []; ctx_done := false; looping := true; served := []; errs := 0 |}
  end.

Definition tproxy_inbound : InboundHandler :=
  {| ih_Start := tproxy_Start; ih_turn := accept_turn; ih_Stop := close_listener; ih_Addr := listener_Addr |}.

(** ** The HTTP inbound *)

(** [net/http] retries after a temporary network error, a deadline here. *)
Definition temporary (e : goerr) : bool := bool_decide (e = ErrTimeout).

(** A turn of [server.Serve], which returns any other error of [Accept] and
    then closes the listener. *)
Definition http_turn (l : listener) : option listener :=
  match listener_Accept l with
  | Some (Ok c) =>
      Some {| proxy := proxy l; is_open := is_open l; queue := tail (queue l); ctx_done := ctx_done l; looping := looping l;
              served := served l ++ [c]; errs := errs l |}
  | Some (Fail e) =>
      Some {| proxy := proxy l; is_open := is_open l && temporary e; queue := if temporary e then tail (queue l) else [];
              ctx_done := ctx_done l; looping := temporary e; served := served l; errs := S (errs l) |}
  | _ => None
  end.

Definition http_inbound : InboundHandler :=
  {| ih_Start := Listen; ih_turn := http_turn; ih_Stop := close_listener; ih_Addr := listener_Addr |}.

(** What the agent relies on in every inbound: it starts with nobody waiting
    and fails when the address cannot be bound; without the PROXY protocol a
    turn serves the client who has waited longest and the loop goes on. *)
Class InboundLaws (h : InboundHandler) := {
  start_fresh pp : ih_Start h None pp =
    Ok {| proxy := pp; is_open := true; queue := []; ctx_done := false; looping := true; served := []; errs := 0 |};
  start_error e pp : ∃ e', ih_Start h (Some e) pp = Fail e';
  turn_serves l c d q : queue l = (c, d) :: q → proxy l = false →
    ih_turn h l = Some {| proxy := false; is_open := is_open l; queue := q; ctx_done := ctx_done l; looping := looping l;
                          served := served l ++ [c]; errs := errs l |};
  stop_closes l : ih_Stop h (Some l) = Some (listener_Stop l);
  stop_before : ih_Stop h None = None }.

(** The steps of the HTTP inbound: those of a listener, with the turn above,
    and the goroutine that closes the server when the context is done. *)
Inductive hstep : label → listener → listener → Prop :=
| hs_arrive l c : is_open l = true → hstep (LArrive c) l (enqueue c l)
| hs_speak l i s : hstep (LSpeak i s) l (speak i s l)
| hs_turn l l' : looping l = true → http_turn l = Some l' → hstep LTurn l l'
| hs_stop l : hstep LStop l (listener_Stop l)
| hs_cancel l : hstep LCancel l (cancel_ctx l)
| hs_close l : ctx_done l = true → hstep LStop l (listener_Stop l).

Inductive hrun : list label → listener → listener → Prop :=
| hrun_nil l : hrun [] l l
| hrun_cons x t l l' l'' : hstep x l l' → hrun t l' l'' → hrun (x :: t) l l''.

(** ** UDP inbounds *)

Record udp_sock := {
  u_open : bool; u_queue : list (bytes * bytes); u_ctx_done : bool; u_looping : bool; u_taken : list (bytes * bytes); u_errs : nat }.

(** [net.ResolveUDPAddr] and [net.ListenUDP]. *)
Definition udp_Start (resolve bind : option goerr) : res udp_sock :=
  match resolve, bind with
  | Some e, _ => Fail e
  | _, Some e => Fail e
  | None, None => Ok {| u_open := true; u_queue := []; u_ctx_done := false; u_looping := true; u_taken := []; u_errs := 0 |}
  end.

(** [ReadFromUDP]; [None] while it waits. *)
Definition ReadFromUDP (s : udp_sock) : option (res (bytes * bytes)) :=
  match u_open s, u_queue s with
  | false, _ => Some (Fail ErrClosed)
  | true, d :: _ => Some (Ok d)
  | true, [] => None
  end.

Definition udp_take (d : bytes * bytes) (s : udp_sock) : udp_sock :=
  {| u_open := u_open s; u_queue := tail (u_queue s); u_ctx_done := u_ctx_done s; u_looping := u_looping s;
     u_taken := u_taken s ++ [d]; u_errs := u_errs s |}.

(** A turn of [UDPForwardHandler.Start] and one of [servePort]: the datagram
    goes to the session manager ([UdpSession.v]). *)
Definition forward_turn (s : udp_sock) : option udp_sock :=
  match ReadFromUDP s with
  | Some (Ok d) => Some (udp_take d s)
  | Some _ =>
      Some {| u_open := u_open s; u_queue := u_queue s; u_ctx_done := u_ctx_done s; u_looping := negb (u_ctx_done s);
              u_taken := u_taken s; u_errs := if u_ctx_done s then u_errs s else S (u_errs s) |}
  | None => None
  end.

Definition range_turn (s : udp_sock) : option udp_sock :=
  match ReadFromUDP s with
  | Some (Ok d) => Some (udp_take d s)
  | Some _ =>
      Some {| u_open := u_open s; u_queue := u_queue s; u_ctx_done := u_ctx_done s; u_looping := false; u_taken := u_taken s;
              u_errs := u_errs s |}
  | None => None
  end.

(** [Stop] of both. *)
Definition udp_Stop (s : udp_sock) : udp_sock :=
  {| u_open := false; u_queue := []; u_ctx_done := u_ctx_done s; u_looping := u_looping s; u_taken := u_taken s; u_errs := u_errs s |}.

(** ** Connections and their handlers *)

(** [net.TCPAddr.String]. *)
Definition addr_string (a : TCPAddr) : bytes :=
  JoinHostPort (if bool_decide (aIP a = []) then [] else IPString (aIP a)) (Itoa (aPort a)).

(** A client: what it sends and where it connects from. *)
Record tcp_client := { tc_stream : stream; tc_addr : TCPAddr }.

(** The receiving side of a wrapped connection: first what its buffer holds. *)
Definition conn_stream (c : ProxyProtoConn) : stream :=
  {| evs := inl (b_buf (reader c)) :: evs (b_src (reader c)); fin := fin (b_src (reader c)) |}.

(** [Accept] and the handler it is given to: its stream and remote address. *)
Definition serve {R : Type} (useProxyProto : bool) (handle : stream → bytes → R) (cl : tcp_client) : res R :=
  if useProxyProto then
    let! c := Accept (Ok (tc_stream cl)) in Ok (handle (conn_stream c) (addr_string (RemoteAddr (tc_addr cl) c)))
  else Ok (handle (tc_stream cl) (addr_string (tc_addr cl))).

(** The SOCKS5 inbound: the handler with the remote address of the client. *)
Definition with_remote {Out C : Type} (remote : bytes) (e : env Out C) : env Out C :=
  {| e_router := e_router e; e_order := e_order e; e_dial := e_dial e; e_uuid := e_uuid e; e_now := e_now e; e_remote := remote |}.

Definition serve_socks5 `{OutboundHandler Out} {C : Type} (useProxyProto : bool) (auth : AuthConfig) (bcrypt : bytes → bytes → bool)
    (lm : Rate.LimiterManager) (udp_port : option Z) (e : env Out C) :
  tcp_client → res (ctl (socks5_result Out C * Rate.LimiterManager) * conn_state) :=
  serve useProxyProto (λ s remote, handleConnection auth bcrypt lm udp_port (with_remote remote e) (start_conn s)).

Module ServeThms.
Import InboundThms.

(** ** Wrapped connections are readers *)

#[export] Program Instance proxy_spec : ReaderSpec ProxyProtoConn :=
  {| rd_bytes := λ c, bufio_bytes (reader c); rd_err := λ c, fin (b_src (reader c)); rd_ok := λ c, bufio_ok (reader c) |}.
Next Obligation.
  intros n c got e c' Hok Hn E. unfold go_read, proxy_reader in E.
  destruct (go_read n (reader c)) as [[g e0] b] eqn:Eb. injection E as <- <- <-. cbn [reader].
  exact (rd_law n (reader c) g e0 b Hok Hn Eb).
Qed.

Lemma conn_stream_ok c :
  bufio_ok (reader c) → steady (conn_stream c) ∧ stream_bytes (conn_stream c) = bufio_bytes (reader c).
Proof.
  intros (Hs & _ & _). split; [|done]. unfold steady, conn_stream. cbn. constructor; [eauto|exact Hs].
Qed.

(** A handler cannot tell a wrapped connection from its stream: reading in
    full gives the same bytes and the same error, and leaves the same bytes
    to come, whatever the segments were. *)
Lemma reads_alike n c :
  bufio_ok (reader c) →
  ∃ got e c' s', io_ReadFull n c = (got, e, c') ∧ io_ReadFull n (conn_stream c) = (got, e, s') ∧
    bufio_ok (reader c') ∧ steady s' ∧ bufio_bytes (reader c') = stream_bytes s'.
Proof.
  intros Hok. destruct (conn_stream_ok c Hok) as [Hs Hb].
  pose proof (io_ReadFull_spec n c) as Hc. destruct (Hc Hok) as (c' & Ec & Hok' & _ & Hb').
  pose proof (io_ReadFull_spec n (conn_stream c)) as Hcs. destruct (Hcs Hs) as (s' & Es & Hs' & _ & Hb2).
  cbn [rd_bytes rd_err rd_ok proxy_spec stream_spec] in *. rewrite Hb in Es, Hb2.
  eexists _, _, c', s'. split; [exact Ec|]. split; [exact Es|]. split; [done|]. split; [done|]. congruence.
Qed.

(** ** Through the load balancer *)

Section proxied.
Context `{UUIDLaws}.

(** C16: behind a load balancer, from the SOCKS5 client to the end of the
    chain.  With the PROXY protocol on, a client whose load balancer announces
    it by a version 2 header for TCP over IPv4, and who then follows the
    SOCKS5 protocol with valid credentials and asks for a host and port the
    chain can carry, routed to a chain outbound without obfuscation whose QUIC
    dial succeeds, gets a session that carries the address in the header as
    its source; the address of the outbound is dialed, and what the handler
    writes on the chain connection and relays from the client arrives behind
    the chain as a session to the requested host and port with exactly the
    client's data. *)
Theorem proxied_socks5_over_chain (g : rnd) (fg : frnd) (auth : AuthConfig) (bcrypt : bytes → bytes → bool)
    (lm : Rate.LimiterManager) (uport : option Z) (e : env handler np_conn) (cl : tcp_client) (src dst tlvs : bytes)
    (sport dport : Z) (methods user pass payload : bytes) (a : socks_addr) (port : Z) (h : NPChainHandler) :
  let target := JoinHostPort (addr_host a) (Itoa port) in
  let source := addr_string {| aIP := src; aPort := sport |} in
  length src = 4%nat → length dst = 4%nat → 0 ≤ sport < 65536 → Z.of_nat (length tlvs) < 65000 → steady (tc_stream cl) →
  stream_bytes (tc_stream cl) = v2_header Byte.x21 Byte.x11 (v4_block src dst sport dport tlvs) ++
    socks5_client auth methods user pass Byte.x01 a port payload →
  (length methods ≤ 255)%nat → (length user ≤ 255)%nat → (length pass ≤ 255)%nat → addr_ok a → 0 ≤ port < 65536 →
  Enabled auth = false ∨ check_users bcrypt (Users auth) user pass = true → good_hop target →
  e_dial e = chain_dial g fg →
  Route (e_order e) (e_router e) (new_meta (with_remote source e) target (auth_name auth user) [target]) = Ok (HNPChain h) →
  np_transport h = ("quic" : bytes) → obfuscated (oType (np_obfs h)) (Interval (np_obfs h)) = false →
  ∃ sess lm' st', serve_socks5 true auth bcrypt lm uport e cl = Ok (Cont (Connected sess, lm'), st') ∧
    Source (s_meta sess) = Some source ∧ nc_peer (s_conn sess) = ("quic" : bytes, np_address h) ∧
    journey 1 (concat (written (nc_sink (s_conn sess))) ++ client_bytes (s_client sess)) =
      ([], Arrived ("tcp" : bytes) target payload).
Proof.
  intros target source Hs Hd Hsp Ht Hst Hb Hm Hu Hw Ha Hp Hok Hg Hdial Hr Htr Ho.
  destruct (ProxyProtoThms.v2_wraps (tc_stream cl) src dst tlvs _ sport dport Byte.x21 (tc_addr cl) Hs Hd Hsp (or_intror eq_refl) Ht Hst Hb)
    as (c & Ec & Ea & Hbok & Hbb).
  destruct (conn_stream_ok c Hbok) as [Hsteady Hbytes]. rewrite Hbb in Hbytes.
  destruct (InboundThms.socks5_chain_run g fg auth bcrypt lm uport (with_remote source e) (conn_stream c) methods user pass payload a port h
    Hsteady Hbytes Hm Hu Hw Ha Hp Hok Hg Hdial Hr Htr Ho) as (sess & lm' & st' & E & Hmeta & Hpeer & Ej).
  exists sess, lm', st'. split; [|split; [by rewrite Hmeta|split; [exact Hpeer|exact Ej]]].
  unfold serve_socks5, serve, Accept. cbn [res_bind]. rewrite Ec. cbn [res_bind]. rewrite Ea. rewrite bool_decide_false by done.
  f_equal. exact E.
Qed.

End proxied.

(** ** All TCP inbounds *)

#[export] Instance socks5_laws : InboundLaws socks5_inbound.
Proof. split; [done|by eexists| |done|done]. intros l c d q Hq Hp. cbn. unfold accept_turn, listener_Accept. by rewrite Hq, Hp. Qed.

#[export] Instance forward_laws : InboundLaws forward_inbound.
Proof. split; [done|by eexists|exact (turn_serves (h := socks5_inbound))|done|done]. Qed.

#[export] Instance redirect_laws : InboundLaws redirect_inbound.
Proof. split; [done|by eexists|exact (turn_serves (h := socks5_inbound))|done|done]. Qed.

#[export] Instance balance_laws : InboundLaws balance_inbound.
Proof. split; [done|by eexists|exact (turn_serves (h := socks5_inbound))|done|done]. Qed.

#[export] Instance tproxy_laws : InboundLaws tproxy_inbound.
Proof. split; [done|by eexists|exact (turn_serves (h := socks5_inbound))|done|done]. Qed.

#[export] Instance http_laws : InboundLaws http_inbound.
Proof. split; [done|by eexists| |done|done]. intros l c d q Hq Hp. cbn. unfold http_turn, listener_Accept. by rewrite Hq, Hp. Qed.

(** [n] turns of the loop of an inbound. *)
Fixpoint serve_turns (h : InboundHandler) (n : nat) (l : listener) : option listener :=
  match n with
  | O => Some l
  | S n' => l' ← ih_turn h l; serve_turns h n' l'
  end.

(** Every inbound serves its clients: from any state of its listener without
    the PROXY protocol, as many turns as clients are waiting hand all of them
    to handlers, in the order they came, and leave nobody waiting; an inbound
    stopped before its address was bound stays as it is. *)
Theorem inbound_serves_all (h : InboundHandler) `{!InboundLaws h} (l : listener) :
  proxy l = false →
  (∃ l', serve_turns h (length (queue l)) l = Some l' ∧ served l' = served l ++ (queue l).*1 ∧ queue l' = [] ∧
    looping l' = looping l) ∧
  ih_Stop h None = None.
Proof.
  intros Hp. split; [|apply stop_before]. remember (queue l) as q eqn:Eq. revert l Hp Eq.
  induction q as [|[c d] q IH]; intros l Hp Eq; symmetry in Eq.
  - exists l. cbn. by rewrite app_nil_r.
  - cbn [length serve_turns]. rewrite (turn_serves l c d q Eq Hp). cbn [mbind option_bind].
    destruct (IH _ (eq_refl : proxy {| proxy := false; is_open := is_open l; queue := q; ctx_done := ctx_done l;
      looping := looping l; served := served l ++ [c]; errs := errs l |} = false) eq_refl) as (l' & E & Es & Hq & Hl).
    exists l'. split; [exact E|]. split; [|done]. cbn in Es. by rewrite Es, <-app_assoc.
Qed.

(** ** The HTTP inbound *)

Lemma hrun_dead t l l' : hrun t l l' → looping l = false → looping l' = false ∧ served l' = served l.
Proof.
  induction 1 as [l|x t l l1 l2 Hs _ IH]; [done|]. intros Hl.
  assert (looping l1 = false ∧ served l1 = served l) as [Hl1 <-]; [|by apply IH].
  destruct Hs; [done|done|congruence|done|done|done].
Qed.

(** C38: with the PROXY protocol one client ends the HTTP inbound for all.
    A client that closes its connection before it has sent twelve bytes makes
    [Accept] fail with the end of the stream; [server.Serve] returns that
    error, and from then on, whatever clients come, nobody is served, while
    the loop of the other inbounds passes over the same client.  Being
    stopped ends the loop of the HTTP inbound at its next turn. *)
Theorem http_one_client_stops (l : listener) (c : nat) (s : stream) (q : list (nat * option stream)) :
  proxy l = true → queue l = (c, Some s) :: q → ctx_done l = false → looping l = true →
  steady s → (length (stream_bytes s) < 12)%nat → fin s = EOF →
  (∃ l1, http_turn l = Some l1 ∧ ∀ t l', hrun t l1 l' → looping l' = false ∧ served l' = served l) ∧
  (∃ l1, accept_turn l = Some l1 ∧ looping l1 = true ∧ queue l1 = q ∧ served l1 = served l) ∧
  (∃ l1, http_turn (listener_Stop l) = Some l1 ∧ looping l1 = false).
Proof.
  intros Hp Hq Hc Hl Hs Hlen Hf. pose proof (ProxyProtoThms.proxy_short_refused s Hs Hlen) as Ha. rewrite Hf in Ha.
  assert (listener_Accept l = Some (Fail EOF)) as E by (unfold listener_Accept; by rewrite Hq, Hp, Ha).
  split; [|split].
  - unfold http_turn. rewrite E. eexists. split; [done|]. intros t l' Hr. by apply (hrun_dead _ _ _ Hr).
  - unfold accept_turn. rewrite E, Hq, Hc. by eexists.
  - by eexists.
Qed.

(** ** UDP inbounds *)

(** [n] turns of a receive loop that is still running. *)
Fixpoint turns (turn : udp_sock → option udp_sock) (n : nat) (s : udp_sock) : option udp_sock :=
  match n with
  | O => Some s
  | S n' => if u_looping s then s' ← turn s; turns turn n' s' else Some s
  end.

Lemma forward_spin s n :
  u_open s = false → u_ctx_done s = false → u_looping s = true →
  ∃ s', turns forward_turn n s = Some s' ∧ u_looping s' = true ∧ u_taken s' = u_taken s ∧ u_errs s' = (n + u_errs s)%nat.
Proof.
  revert s. induction n as [|n IH]; intros s Ho Hc Hl; [by exists s|]. cbn [turns]. rewrite Hl.
  unfold forward_turn, ReadFromUDP. rewrite Ho, Hc. cbn [mbind option_bind negb].
  destruct (IH {| u_open := false; u_queue := u_queue s; u_ctx_done := false; u_looping := true; u_taken := u_taken s;
                  u_errs := S (u_errs s) |}) as (s' & E & Hl' & Ht & He); [done..|].
  exists s'. split; [exact E|]. cbn in Ht, He. split; [done|]. split; [done|]. lia.
Qed.

(** A UDP forwarder that is removed keeps a goroutine busy.  After [Stop]
    of a running forwarder whose context is alive, every read fails at once
    and is retried: any number of turns is possible, each logs an error, and
    no datagram is taken; a port of a UDP range ends at its first turn. *)
Theorem udp_stop_spins (s : udp_sock) (n : nat) :
  u_ctx_done s = false → u_looping s = true →
  (∃ s', turns forward_turn n (udp_Stop s) = Some s' ∧ u_looping s' = true ∧ u_taken s' = u_taken s ∧ u_errs s' = (n + u_errs s)%nat) ∧
  (∃ s', range_turn (udp_Stop s) = Some s' ∧ u_looping s' = false ∧ ∀ k, turns range_turn k s' = Some s').
Proof.
  intros Hc Hl. split; [by apply (forward_spin (udp_Stop s))|]. eexists. split; [done|]. split; [done|]. by intros [].
Qed.

(** ** Concrete runs *)
Import DemoUUID.

Definition demo_client : tcp_client :=
  {| tc_stream := mk_stream (v2_header Byte.x21 Byte.x11
       (v4_block [Byte.xcb; Byte.x00; Byte.x71; Byte.x09] [Byte.x0a; Byte.x00; Byte.x00; Byte.x01] 40000 1080 []) ++
       socks5_client demo_auth [Byte.x00; Byte.x02] "alice" "secret" Byte.x01 demo_addr 443 "ping") EOF;
     tc_addr := {| aIP := [Byte.x0a; Byte.x00; Byte.x00; Byte.x02]; aPort := 55555 |} |}.

Lemma proxied_socks5_over_chain_witness :
  ∃ sess lm' st', serve_socks5 true demo_auth demo_bcrypt demo_lm None demo_env demo_client = Ok (Cont (Connected sess, lm'), st') ∧
    Source (s_meta sess) = Some ("203.0.113.9:40000" : bytes) ∧ nc_peer (s_conn sess) = ("quic" : bytes, np_address demo_node) ∧
    journey 1 (concat (written (nc_sink (s_conn sess))) ++ client_bytes (s_client sess)) =
      ([], Arrived ("tcp" : bytes) (JoinHostPort (addr_host demo_addr) (Itoa 443)) ("ping" : bytes)).
Proof.
  apply (proxied_socks5_over_chain (NPThms.demo_rnd Byte.x40) demo_frnd demo_auth demo_bcrypt demo_lm None demo_env demo_client
           [Byte.xcb; Byte.x00; Byte.x71; Byte.x09] [Byte.x0a; Byte.x00; Byte.x00; Byte.x01] [] 40000 1080
           [Byte.x00; Byte.x02] "alice" "secret" "ping" demo_addr 443 demo_node);
    [reflexivity|reflexivity|lia|cbn; lia|apply demo_steady|apply mk_stream_bytes|cbn; lia|cbn; lia|cbn; lia|reflexivity|lia
    |right; vm_compute; reflexivity|apply demo_good_hop|reflexivity|vm_compute; reflexivity|reflexivity|reflexivity].
Defined.

Definition short_listener : listener :=
  {| proxy := true; is_open := true; queue := [(0%nat, Some (mk_stream "GET" EOF)); (1%nat, None)]; ctx_done := false; looping := true;
     served := []; errs := 0 |}.

Lemma http_one_client_stops_witness :
  ∃ l1, http_turn short_listener = Some l1 ∧ ∀ t l', hrun t l1 l' → looping l' = false ∧ served l' = [].
Proof.
  destruct (http_one_client_stops short_listener 0 (mk_stream "GET" EOF) [(1%nat, None)]) as [H _];
    [reflexivity|reflexivity|reflexivity|reflexivity|apply demo_steady|cbn; lia|reflexivity|exact H].
Defined.

Definition demo_sock : udp_sock :=
  {| u_open := true; u_queue := []; u_ctx_done := false; u_looping := true; u_taken := []; u_errs := 0 |}.

Lemma udp_stop_spins_witness :
  ∃ s', turns forward_turn 5 (udp_Stop demo_sock) = Some s' ∧ u_looping s' = true ∧ u_taken s' = [] ∧ u_errs s' = 5%nat.
Proof. apply (udp_stop_spins demo_sock 5); reflexivity. Defined.

End ServeThms.
