(* ===== verification/Assoc.v ===== *)
(** * SOCKS5 UDP associations: [handleUDPAssociate] of [internal/inbound/socks5.go]

    [Inbound.v] has the reply of [handleUDPAssociate]; here is what it does
    afterwards.  The control connection is read until it ends, and then the
    socket is closed; a goroutine receives datagrams, takes the SOCKS5 header
    off, looks the session up and starts [ForwardPacket].  The sessions
    ([UdpSession.v]) are shared with other associations and their clean-up,
    which may change them at any time. *)

From S2P Require Import Prelude GoNet Stream Types Socks5Udp Limits NPChain Obfs Outbound Router UdpSession Listener Serve.

Section assoc.
Context {Out : Type}.

(** [as_arrived]: all datagrams that came, with their senders; [as_log]: those
    the loop has taken, with the packet given to [ForwardPacket], if any. *)
Record association := {
  as_control : stream;
  as_done : bool;
  as_sock : udp_sock;
  as_mgr : UDPSessionManager Out;
  as_arrived : list (bytes * bytes);
  as_log : list (bytes * bytes * option packet) }.

Definition start_association (control : stream) (m : UDPSessionManager Out) : association :=
  {| as_control := control; as_done := false;
     as_sock := {| u_open := true; u_queue := []; u_ctx_done := false; u_looping := true; u_taken := []; u_errs := 0 |};
     as_mgr := m; as_arrived := []; as_log := [] |}.

(** The datagram [d] has been dealt with: [o] is what is forwarded. *)
Definition took (d : bytes * bytes) (o : option packet) (m : UDPSessionManager Out) (a : association) : association :=
  {| as_control := as_control a; as_done := as_done a; as_sock := udp_take d (as_sock a); as_mgr := m;
     as_arrived := as_arrived a; as_log := as_log a ++ [(d, o)] |}.

(** The goroutine returns. *)
Definition ended (a : association) : association :=
  {| as_control := as_control a; as_done := as_done a;
     as_sock := {| u_open := u_open (as_sock a); u_queue := u_queue (as_sock a); u_ctx_done := u_ctx_done (as_sock a); u_looping := false;
                   u_taken := u_taken (as_sock a); u_errs := u_errs (as_sock a) |};
     as_mgr := as_mgr a; as_arrived := as_arrived a; as_log := as_log a |}.

(** A turn of the receiving goroutine, [None] while it waits: an error of the
    socket ends it, a datagram that is no SOCKS5 packet and one without a
    session are passed over. *)
Definition assoc_turn (user : bytes) (inb : nat) (id : bytes) (now : Z) (route : SessionMeta → res Out) (a : association) :
  option (res association) :=
  match ReadFromUDP (as_sock a) with
  | None => None
  | Some (Ok d) =>
      Some match socks5_packet user d.1 inb d.2 with
           | None => Ok (took d None (as_mgr a) a)
           | Some pk =>
               match GetOrCreate pk id now route (as_mgr a) with
               | Ok (_, _, m) => Ok (took d (Some pk) m a)
               | Fail _ => Ok (took d None (as_mgr a) a)
               | Panic => Panic
               end
           end
  | Some _ => Some (Ok (ended a))
  end.

Inductive astep (user : bytes) (inb : nat) : association → association → Prop :=
| a_copy a got s :
    as_done a = false → go_read 8192 (as_control a) = (got, None, s) →
    astep user inb a {| as_control := s; as_done := false; as_sock := as_sock a; as_mgr := as_mgr a; as_arrived := as_arrived a;
                        as_log := as_log a |}
| a_end a got e s :
    as_done a = false → go_read 8192 (as_control a) = (got, Some e, s) →
    astep user inb a {| as_control := s; as_done := true; as_sock := udp_Stop (as_sock a); as_mgr := as_mgr a;
                        as_arrived := as_arrived a; as_log := as_log a |}
| a_datagram a d :
    u_open (as_sock a) = true →
    astep user inb a {| as_control := as_control a; as_done := as_done a;
               as_sock := {| u_open := true; u_queue := u_queue (as_sock a) ++ [d]; u_ctx_done := u_ctx_done (as_sock a);
                             u_looping := u_looping (as_sock a); u_taken := u_taken (as_sock a); u_errs := u_errs (as_sock a) |};
               as_mgr := as_mgr a; as_arrived := as_arrived a ++ [d]; as_log := as_log a |}
| a_receive a id now route a' :
    u_looping (as_sock a) = true → assoc_turn user inb id now route a = Some (Ok a') → astep user inb a a'
| a_others a m :          (* other associations and the clean-up *)
    astep user inb a {| as_control := as_control a; as_done := as_done a; as_sock := as_sock a; as_mgr := m;
                        as_arrived := as_arrived a; as_log := as_log a |}.

End assoc.
Arguments association Out : clear implicits.

Module AssocThms.

Section thms.
Context {Out : Type}.
Implicit Types a : association Out.

Record assoc_inv (user : bytes) (inb : nat) a : Prop := {
  ai_open : u_open (as_sock a) = negb (as_done a);
  ai_loop : as_done a = false → u_looping (as_sock a) = true ∧ u_taken (as_sock a) ++ u_queue (as_sock a) = as_arrived a;
  ai_log : (as_log a).*1 = u_taken (as_sock a);
  ai_packets d pk : (d, Some pk) ∈ as_log a → socks5_packet user d.1 inb d.2 = Some pk;
  ai_steady : steady (as_control a);
  ai_control : as_done a = true → stream_bytes (as_control a) = [] }.

(** A turn that succeeds: the socket has failed, or a datagram was taken. *)
Lemma turn_cases user inb id now route a a' :
  assoc_turn user inb id now route a = Some (Ok a') →
  (u_open (as_sock a) = false ∧ a' = ended a) ∨
  (u_open (as_sock a) = true ∧ ∃ d q o m, u_queue (as_sock a) = d :: q ∧ a' = took d o m a ∧
     ∀ pk, o = Some pk → socks5_packet user d.1 inb d.2 = Some pk).
Proof.
  unfold assoc_turn, ReadFromUDP. destruct (u_open (as_sock a)); [|intros E; simplify_eq; by left].
  destruct (u_queue (as_sock a)) as [|d q]; [done|]. intros E. right. split; [done|].
  destruct (socks5_packet user d.1 inb d.2) as [pk|] eqn:Ep; [|simplify_eq; by exists d, q, None, (as_mgr a)].
  destruct (GetOrCreate _ _ _ _ _) as [[[p n] m]| |]; simplify_eq.
  - exists d, q, (Some pk), m. split_and!; [done|done|by intros ? [= <-]].
  - by exists d, q, None, (as_mgr a).
Qed.

Lemma assoc_inv_step user inb a a' : assoc_inv user inb a → astep user inb a a' → assoc_inv user inb a'.
Proof.
  intros [Ho Hl Hg Hk Hs Hd] Hst. revert Ho Hl Hg Hk Hs Hd.
  destruct Hst as [a got s Hn E|a got e s Hn E|a d Hop|a id now route a' Hlo E|a m]; intros Ho Hl Hg Hk Hs Hd.
  - destruct (stream_read_spec _ _ _ _ _ E) as (_ & _ & _ & Hst). rewrite Hn in *. split; cbn; [done|done|done|done|by destruct (Hst Hs)|done].
  - destruct (stream_read_spec _ _ _ _ _ E) as (Hb & _ & _ & Hst). destruct (Hst Hs) as [Hs' [_ Hnil]].
    split; cbn; [done|done|done|done|done|]. intros _. rewrite Hnil in Hb. symmetry in Hb. by apply app_eq_nil in Hb as [_ Hb].
  - rewrite Hop in Ho. split; cbn; [done| |done|done|done|done].
    intros Hn. destruct (Hl Hn) as [? <-]. split; [done|]. by rewrite app_assoc.
  - apply turn_cases in E as [[Eo ->]|(Eo & d & q & o & m & Eq & -> & Hpk)]; rewrite Eo in Ho; destruct (as_done a) eqn:Ed; try done.
    + split; cbn; rewrite ?Eo, ?Ed; done.
    + destruct (Hl eq_refl) as [Hlo' Ha]. split; cbn; rewrite ?Eo, ?Ed, ?Eq; [done| | | |done|done].
      * intros _. split; [done|]. by rewrite <-app_assoc, <-Ha, Eq.
      * by rewrite fmap_app, Hg.
      * intros d' pk. rewrite elem_of_app, list_elem_of_singleton. intros [Hin|[= <- <-]]; [by apply Hk|by apply Hpk].
  - by split.
Qed.

Lemma assoc_inv_reachable user inb c m a : steady c → rtc (astep user inb) (start_association c m) a → assoc_inv user inb a.
Proof.
  intros Hs Hr. assert (assoc_inv user inb (start_association c m)) as H0.
  { split; cbn; try done. intros d pk []%not_elem_of_nil. }
  induction Hr as [a|a1 a2 a3 Hst _ IH]; [done|]. apply IH. by eapply assoc_inv_step.
Qed.

(** After the end nothing is taken any more. *)
Lemma done_frozen user inb a a' :
  u_open (as_sock a) = false → as_done a = true → rtc (astep user inb) a a' → as_log a' = as_log a ∧ as_arrived a' = as_arrived a.
Proof.
  intros Ho Hdone Hr. induction Hr as [a|a1 a2 a3 Hst _ IH]; [done|].
  destruct Hst as [a got s Hn|a got e s Hn|a d Hop|a id now route a' Hlo E|a m]; try congruence.
  - apply turn_cases in E as [[_ ->]|[Eo _]]; [|congruence]. destruct (IH Ho Hdone) as [-> ->]. done.
  - destruct (IH Ho Hdone) as [-> ->]. done.
Qed.

(** C29: a UDP association lives as long as its control connection.  In every
    reachable state of an association, whatever datagrams come and whatever
    else happens to the sessions: the socket is open until the client's TCP
    connection has ended, and not afterwards.  Until then the receiving
    goroutine runs, every datagram that arrived has been taken, in order, or
    waits, and its next turn takes the first one that waits and goes on, be
    it malformed or without a route; a SOCKS5 packet that has a session or a
    route is forwarded.  Only packets that were received are forwarded.
    Afterwards nothing more is taken, and the goroutine ends at its next
    turn. *)
Theorem association_lifetime (user : bytes) (inb : nat) (c : stream) (m : UDPSessionManager Out) (a : association Out)
    (id : bytes) (now : Z) (route : SessionMeta → res Out) :
  steady c → rtc (astep user inb) (start_association c m) a → (∀ meta, route meta ≠ Panic) →
  u_open (as_sock a) = negb (as_done a) ∧
  (as_log a).*1 = u_taken (as_sock a) ∧ (∀ d pk, (d, Some pk) ∈ as_log a → socks5_packet user d.1 inb d.2 = Some pk) ∧
  (as_done a = false →
     u_taken (as_sock a) ++ u_queue (as_sock a) = as_arrived a ∧ u_looping (as_sock a) = true ∧
     ∀ d q, u_queue (as_sock a) = d :: q →
       ∃ a' o, assoc_turn user inb id now route a = Some (Ok a') ∧ u_looping (as_sock a') = true ∧ u_queue (as_sock a') = q ∧
         as_log a' = as_log a ++ [(d, o)] ∧
         ∀ pk, socks5_packet user d.1 inb d.2 = Some pk →
           is_Some (sessions (as_mgr a) !! p_key pk) ∨ (∃ out, route (new_udp_meta id (p_target pk)) = Ok out) → o = Some pk) ∧
  (as_done a = true → stream_bytes (as_control a) = [] ∧
    (∃ a', assoc_turn user inb id now route a = Some (Ok a') ∧ u_looping (as_sock a') = false) ∧
    ∀ a', rtc (astep user inb) a a' → as_log a' = as_log a ∧ as_arrived a' = as_arrived a).
Proof.
  intros Hs Hr Hroute. destruct (assoc_inv_reachable _ _ _ _ _ Hs Hr) as [Ho Hl Hg Hk _ Hd].
  split; [done|]. split; [done|]. split; [done|]. split.
  - intros Hn. destruct (Hl Hn) as [Hloop Ha]. split; [done|]. split; [done|]. intros d q Hq. rewrite Hn in Ho. cbn in Ho.
    unfold assoc_turn, ReadFromUDP. rewrite Ho, Hq. destruct (socks5_packet user d.1 inb d.2) as [pk|] eqn:Ep.
    + unfold GetOrCreate, get_existing, create. destruct (sessions (as_mgr a) !! p_key pk) as [p|] eqn:Es; cbn [mbind option_bind].
      * eexists _, (Some pk). split; [done|]. cbn. rewrite Hq. by split_and!; try (intros ? [= <-]).
      * specialize (Hroute (new_udp_meta id (p_target pk))). destruct (route _) as [out|e|] eqn:Er; cbn [res_bind]; [| |done].
        -- eexists _, (Some pk). split; [done|]. cbn. rewrite Hq. by split_and!; try (intros ? [= <-]).
        -- eexists _, None. split; [done|]. cbn. rewrite Hq. split_and!; [done|done|done|]. intros ? [= <-] [[? ?]|[? ?]]; congruence.
    + eexists _, None. split; [done|]. cbn. rewrite Hq. by split_and!.
  - intros Hdone. rewrite Hdone in Ho. split; [by apply Hd|]. split; [|intros a'; by apply done_frozen].
    unfold assoc_turn, ReadFromUDP. rewrite Ho. by eexists.
Qed.

End thms.

(** A malformed datagram has come and is taken, and the loop goes on; then
    the client goes. *)
Definition demo_route (_ : SessionMeta) : res handler := Ok RouterThms.demo_direct.

Definition demo_assoc : association handler :=
  {| as_control := mk_stream [] EOF; as_done := false;
     as_sock := {| u_open := true; u_queue := [("192.0.2.5:4000" : bytes, "x" : bytes)]; u_ctx_done := false; u_looping := true;
                   u_taken := []; u_errs := 0 |};
     as_mgr := NewUDPSessionManager 0; as_arrived := [("192.0.2.5:4000" : bytes, "x" : bytes)]; as_log := [] |}.

Lemma demo_arrived : rtc (astep "alice" 0) (start_association (mk_stream [] EOF) (NewUDPSessionManager 0)) demo_assoc.
Proof. apply rtc_once. by apply (a_datagram "alice" 0 (start_association _ _) ("192.0.2.5:4000" : bytes, "x" : bytes)). Qed.

Lemma association_lifetime_witness :
  ∃ a', assoc_turn "alice" 0 [] 0 demo_route demo_assoc = Some (Ok a') ∧ u_looping (as_sock a') = true ∧ u_queue (as_sock a') = [].
Proof.
  destruct (association_lifetime "alice" 0 (mk_stream [] EOF) (NewUDPSessionManager 0) demo_assoc [] 0 demo_route)
    as (_ & _ & _ & Hrun & _); [apply mk_stream_ok|exact demo_arrived|by intros|].
  destruct (Hrun eq_refl) as (_ & _ & Hturn). destruct (Hturn _ _ eq_refl) as (a' & o & E & Hl & Hq & _).
  exists a'. split; [exact E|]. split; [exact Hl|exact Hq].
Defined.

End AssocThms.
