(* ===== verification/ChainNode.v ===== *)
(** * A node of a chain: [HandleRelay] of [internal/inbound/npchain.go] in full

    [NPChain.v] models what [HandleRelay] decides from the header; here is the
    whole handler: it unwraps the obfuscation, routes and dials the next hop
    or dials the target, writes the remaining header and starts the relay.
    The router is the one of [Router.v]; what the outbounds and the network
    return are fields of the node.  [travel] sends a byte stream through such
    nodes along the links the code has: the QUIC connection of a chain
    outbound ends at another node, the connection of a direct outbound at a
    plain server. *)

From S2P Require Import Prelude GoNet Stream Types NPChain Obfs Outbound Router Config Inbound.

(** The incoming connection, as it is or behind [NewObfsConn]. *)
Inductive incoming := Plain (s : stream) | Framed (o : obfs).

Definition wrap_incoming (cfg : ObfsConfig) (s : stream) : incoming :=
  if obfuscated (oType cfg) (Interval cfg)
  then match NewObfsConn cfg with Some _ => Framed {| o_inner := s |} | None => Plain s end
  else Plain s.

(** The bytes of the client that are still to be read; behind the obfuscation
    they are frames. *)
Definition incoming_bytes (c : incoming) : bytes :=
  match c with Plain s => stream_bytes s | Framed o => stream_bytes (o_inner o) end.

Record chain_node := {
  n_obfs : ObfsConfig;
  n_router : BaseRouter handler;
  n_order : list handler;
  n_dial : handler → SessionMeta → res np_conn;   (* what [outbound.Dial] returns *)
  n_egress : bytes → bytes → res sink;            (* what [dialer.DialContext] returns *)
  n_frnd : frnd }.

(** [Write] of an outbound connection. *)
Definition conn_Write (fg : frnd) (b : bytes) (c : np_conn) : res (option goerr) * np_conn :=
  match nc_obfs c with
  | Some oc =>
      let '(r, k) := Write oc fg b (nc_sink c) in
      (let! ne := r in Ok ne.2, {| nc_peer := nc_peer c; nc_obfs := nc_obfs c; nc_sink := k |})
  | None => let '(e, k) := sink_write b (nc_sink c) in (Ok e, {| nc_peer := nc_peer c; nc_obfs := None; nc_sink := k |})
  end.

(** Where the session goes on, and how the handler ends: with a return (and
    the error it logged) or with [DualRelay] between the two connections. *)
Inductive leg := ToTarget (net target : bytes) | ToHop (meta : SessionMeta) (out : handler).

Inductive relay_end := Dropped (e : goerr) | Crash | Relaying (l : leg) (c : np_conn) (rest : incoming).

(** Once the header is decoded. *)
Definition relay_on (n : chain_node) (a : res relay_action) (rest : incoming) : relay_end :=
  match a with
  | Panic => Crash
  | Fail e | Ok (RelayDrop e) => Dropped e
  | Ok (RelayEgress net target) =>
      match n_egress n net target with
      | Ok k => Relaying (ToTarget net target) {| nc_peer := (net, target); nc_obfs := None; nc_sink := k |} rest
      | Fail e => Dropped e
      | Panic => Crash
      end
  | Ok (RelayNext meta header) =>
      match Route (n_order n) (n_router n) meta with
      | Fail e => Dropped e
      | Panic => Crash
      | Ok out =>
          match n_dial n out meta with
          | Fail e => Dropped e
          | Panic => Crash
          | Ok c =>
              match conn_Write (n_frnd n) header c with
              | (Ok None, c') => Relaying (ToHop meta out) c' rest
              | (Ok (Some e), _) | (Fail e, _) => Dropped e
              | (Panic, _) => Crash
              end
          end
      end
  end.

Definition node_HandleRelay `{UUID} (n : chain_node) (s : stream) : relay_end :=
  match wrap_incoming (n_obfs n) s with
  | Plain s => let '(a, s') := HandleRelay s in relay_on n a (Plain s')
  | Framed o => let '(a, o') := HandleRelay o in relay_on n a (Framed o')
  end.

(** A stream through nodes: the first node gets it, and [ns] are the nodes the
    chain outbounds reach, in the order they are reached; each gets what the
    one before wrote and relays.  A direct connection ends at a server of its
    address, which gets these bytes.  The result has the hops that were handed
    on and what reaches a server. *)
Fixpoint travel `{UUID} (ns : list chain_node) (data : bytes) : list bytes * arrival :=
  match ns with
  | [] => ([], Lost ErrTimeout)
  | n :: ns' =>
      match node_HandleRelay n (mk_stream data EOF) with
      | Relaying (ToTarget _ _) c rest => ([], Arrived (nc_peer c).1 (nc_peer c).2 (concat (written (nc_sink c)) ++ incoming_bytes rest))
      | Relaying (ToHop _ (HDirect _)) c rest =>
          ([], Arrived (nc_peer c).1 (nc_peer c).2 (concat (written (nc_sink c)) ++ incoming_bytes rest))
      | Relaying (ToHop meta (HNPChain _)) c rest =>
          let '(hops, a) := travel ns' (concat (written (nc_sink c)) ++ incoming_bytes rest) in (Target meta :: hops, a)
      | Dropped e => ([], Lost e)
      | Crash => ([], Crashed)
      end
  end.

Module ChainThms.
Import InboundThms.

(** ** The network of a session *)

Section network.
Context `{UUID} `{GoReader R}.

Definition tcp_or_udp (net : bytes) : Prop := net = ("tcp" : bytes) ∨ net = ("udp" : bytes).

Lemma decode_rest_network h next sid net (r : R) d r' : decode_rest h next sid net r = (Ok d, r') → network d = net.
Proof.
  unfold decode_rest, hop_fail. destruct (if bool_decide _ then _ else _) as [[e|] r1]; [by intros [= <- _]|].
  case_bool_decide; [|by intros [= <- _]]. destruct (io_ReadFull _ r1) as [[hops [e|]] r2]; by intros [= <- _].
Qed.

Lemma decode_entry_network h sid net (r : R) d r' : decode_entry h sid net r = (Ok d, r') → network d = net.
Proof.
  unfold decode_entry, hop_fail. destruct (read_uint 1 r) as [[ty [e|]] r1]; [by intros [= <- _]|].
  destruct (read_uint 2 r1) as [[port [e|]] r2]; [by intros [= <- _]|].
  destruct (read_uint 1 r2) as [[al [e|]] r3]; [by intros [= <- _]|]. case_bool_decide; [by intros [= <- _]|].
  destruct (io_ReadFull 30 r3) as [[addr [e|]] r4]; [by intros [= <- _]|].
  destruct (entry_host _); [apply decode_rest_network|by intros [= <- _]|done].
Qed.

Lemma decode_network (r : R) d r' : DecodeNextHop r = (Ok d, r') → hopErr d = None → tcp_or_udp (network d).
Proof.
  unfold DecodeNextHop, hop_fail. destruct (read_uint 4 r) as [[m [e|]] r0]; [by intros [= <- _]|].
  case_bool_decide; [by intros [= <- _]|]. destruct (read_uint 1 r0) as [[v ?] r1], (read_uint 1 r1) as [[nh ?] r2].
  destruct (read_uint 1 r2) as [[fl ?] r3], (read_uint 1 r3) as [[pl ?] r4].
  destruct (io_ReadFull 16 r4) as [[sid [e|]] r5]; [by intros [= <- _]|].
  case_bool_decide; case_bool_decide; try (by intros [= <- _]); intros ->%decode_entry_network _; [by right|by left].
Qed.

Lemma relay_network (r : R) meta header r' : HandleRelay r = (Ok (RelayNext meta header), r') → tcp_or_udp (Network meta).
Proof.
  unfold HandleRelay. destruct (DecodeNextHop r) as [[d| |] r1] eqn:Ed; [|done|done].
  destruct (hopErr d) eqn:Ee; [done|]. destruct (index _ _); [|done|done]. cbn [res_bind]. case_bool_decide; [done|].
  intros [= <- _ _]. by eapply decode_network.
Qed.

End network.

(** ** Relaying *)

Section thms.
Context `{UUIDLaws}.

Lemma plain_relay n s :
  obfuscated (oType (n_obfs n)) (Interval (n_obfs n)) = false →
  node_HandleRelay n s = let '(a, s') := HandleRelay s in relay_on n a (Plain s').
Proof. intros Ho. unfold node_HandleRelay, wrap_incoming. by rewrite Ho. Qed.

Lemma direct_dial d meta g fg :
  tcp_or_udp (Network meta) →
  chain_dial g fg (HDirect d) meta = Ok {| nc_peer := (Network meta, Target meta); nc_obfs := None; nc_sink := open_sink |}.
Proof. intros [E|E]; unfold chain_dial, DirectDial; by rewrite E. Qed.

(** C6: what a relaying node sends.  A node without obfuscation that gets the
    header of a chain of at least two hops, written without padding, and
    whose router gives the session a direct outbound whose dial succeeds,
    connects to exactly the address of the first hop on the network of the
    session and sends there exactly the header of the rest of the chain,
    followed by what came behind the header: a server that listens on TCP
    there gets them, whatever it makes of them. *)
Theorem node_forwards (n : chain_node) (ns : list chain_node) (g g' : rnd) (fg : frnd) (meta : SessionMeta) (hop : bytes)
    (hops : list bytes) (hdr payload : bytes) (d : DirectHandler) :
  obfuscated (oType (n_obfs n)) (Interval (n_obfs n)) = false → n_dial n = chain_dial g' fg →
  (∀ m, Target m = hop → Route (n_order n) (n_router n) m = Ok (HDirect d)) →
  HopChain meta = hop :: hops → hops ≠ [] → Forall good_hop (hop :: hops) → Z.of_nat (length hops) < 255 →
  pad_len g meta = 0%nat → EncodeHeader g meta = Ok hdr →
  ∃ rest, EncodeHeader g (with_HopChain meta hops) = Ok rest ∧
    travel (n :: ns) (hdr ++ payload) =
      ([], Arrived (if bool_decide (Network meta = ("udp" : bytes)) then ("udp" : bytes) else ("tcp" : bytes)) hop (rest ++ payload)).
Proof.
  intros Hp Hd Hr Hc Hne Hg Hl Hpad Henc. cbn [travel]. rewrite plain_relay by done.
  destruct (NPThms.HandleRelay_encoded g meta hop hops hdr payload Hc Hg Hl (or_intror Hpad) Henc) as (r' & Hb & ->).
  assert (∃ rest, EncodeHeader g (with_HopChain meta hops) = Ok rest) as [rest Erest].
  { apply Forall_cons in Hg as [_ Hg]. destruct (NPFacts.encode_hops_good hops Hg) as (es & Es & _).
    eexists. by apply (NPThms.EncodeHeader_good g (with_HopChain meta hops) es). }
  exists rest. split; [done|]. destruct hops as [|hop2 hops]; [done|]. cbn [relay_on]. rewrite Hr, Hd by done.
  rewrite direct_dial by (case_bool_decide; [by right|by left]). rewrite Erest.
  cbn [conn_Write nc_obfs nc_sink nc_peer sink_write budget open_sink written app concat incoming_bytes Network Target].
  by rewrite app_nil_r, Hb.
Qed.

(** ** Nodes connected by chain outbounds *)

(** C39: a session cannot be relayed over a chain outbound.  When the router of
    a node gives a session it has to relay an outbound to another node, then
    [Dial] first writes a header of its own, for the metadata carry no hops;
    the next node reads that header, finds no hop in it and drops the session.
    Whatever the chain was and whatever came behind the header, no hop after
    the first is ever dialed. *)
Theorem relay_over_chain_lost (n n' : chain_node) (ns : list chain_node) (g g' : rnd) (fg : frnd) (meta : SessionMeta)
    (hop : bytes) (hops : list bytes) (hdr payload : bytes) (h : NPChainHandler) :
  obfuscated (oType (n_obfs n)) (Interval (n_obfs n)) = false → obfuscated (oType (n_obfs n')) (Interval (n_obfs n')) = false →
  n_dial n = chain_dial g' fg → (∀ m, Target m = hop → Route (n_order n) (n_router n) m = Ok (HNPChain h)) →
  np_transport h = ("quic" : bytes) → obfuscated (oType (np_obfs h)) (Interval (np_obfs h)) = false →
  HopChain meta = hop :: hops → hops ≠ [] → Forall good_hop (hop :: hops) → Z.of_nat (length hops) < 255 →
  pad_len g meta = 0%nat → EncodeHeader g meta = Ok hdr →
  travel (n :: n' :: ns) (hdr ++ payload) = ([hop], Lost (Errorf "no more hops")).
Proof.
  intros Hp Hp' Hd Hr Ht Ho Hc Hne Hg Hl Hpad Henc. cbn [travel]. rewrite plain_relay by done.
  destruct (NPThms.HandleRelay_encoded g meta hop hops hdr payload Hc Hg Hl (or_intror Hpad) Henc) as (r' & Hb & ->).
  destruct hops as [|hop2 hops]; [done|]. cbn [relay_on]. rewrite Hr, Hd by done. unfold chain_dial.
  set (m := Build_SessionMeta _ _ _ _ _ _ _ _ _). set (hdr' := match EncodeHeader _ _ with Ok b => b | _ => [] end).
  destruct (OutboundThms.dial_empty_header g' fg m h) as (hdr0 & h' & Ek & Ej); [done|done|done|].
  rewrite Ek. cbn [fst]. unfold conn_Write. cbn [nc_obfs nc_sink sink_write budget written app concat incoming_bytes].
  rewrite plain_relay by done. rewrite Hb, <-app_assoc. specialize (Ej ((hdr' ++ []) ++ payload)).
  destruct (HandleRelay _) as [a s']. cbn [fst] in Ej. by rewrite Ej.
Qed.

End thms.

(** ** Concrete runs *)
Import DemoUUID.

Definition no_obfs : ObfsConfig := {| oType := "none"; MaxPad := 0; Interval := 0; DummySize := 0 |}.

(** A node with a single outbound. *)
Definition single_node (out : handler) : chain_node :=
  {| n_obfs := no_obfs; n_router := AddOutbound out NewRouter; n_order := [out];
     n_dial := chain_dial (NPThms.demo_rnd Byte.x40) demo_frnd; n_egress := λ _ _, Ok open_sink; n_frnd := demo_frnd |}.

Definition default_direct : DirectHandler := NewDirectHandler "default" [].

Definition default_chain : NPChainHandler := NewNPChainHandler "default" [] "203.0.113.5:443" "quic" no_obfs false.

Lemma single_route out meta : Name out = ("default" : bytes) → Route [out] (AddOutbound out NewRouter) meta = Ok out.
Proof.
  intros Hn. unfold Route, restore. destruct (ParseIP _); cbn [res_bind rules AddOutbound NewRouter List.find outbounds resolver];
    by rewrite Hn, lookup_insert_eq.
Qed.

Lemma node_forwards_witness :
  ∃ rest, EncodeHeader (NPThms.demo_rnd Byte.x40) (with_HopChain (NPThms.demo_meta NPThms.demo_chain) (tail NPThms.demo_chain)) = Ok rest ∧
    travel [single_node (HDirect default_direct)]
      (NPThms.encoded (NPThms.demo_rnd Byte.x40) (NPThms.demo_meta NPThms.demo_chain) ++ ("GET /" : bytes)) =
      ([], Arrived ("udp" : bytes) ("node1.example:8443" : bytes) (rest ++ ("GET /" : bytes))).
Proof.
  apply (node_forwards (single_node (HDirect default_direct)) [] (NPThms.demo_rnd Byte.x40) (NPThms.demo_rnd Byte.x40) demo_frnd
           (NPThms.demo_meta NPThms.demo_chain) _ ["[2001:db8::5]:443" : bytes; "192.0.2.7:80" : bytes] _ _ default_direct);
    [reflexivity|reflexivity|intros m _; by apply single_route|reflexivity|discriminate
    |apply NPThms.demo_chain_good|cbn; lia|vm_compute; reflexivity|vm_compute; reflexivity].
Defined.

Lemma relay_over_chain_lost_witness :
  travel [single_node (HNPChain default_chain); single_node (HDirect default_direct)]
    (NPThms.encoded (NPThms.demo_rnd Byte.x40) (NPThms.demo_meta NPThms.demo_chain) ++ ("GET /" : bytes)) =
    (["node1.example:8443" : bytes], Lost (Errorf "no more hops")).
Proof.
  apply (relay_over_chain_lost (single_node (HNPChain default_chain)) (single_node (HDirect default_direct)) []
           (NPThms.demo_rnd Byte.x40) (NPThms.demo_rnd Byte.x40) demo_frnd (NPThms.demo_meta NPThms.demo_chain) _
           ["[2001:db8::5]:443" : bytes; "192.0.2.7:80" : bytes] _ _ default_chain);
    [reflexivity|reflexivity|reflexivity|intros m _; by apply single_route|reflexivity|reflexivity|reflexivity|discriminate
    |apply NPThms.demo_chain_good|cbn; lia|vm_compute; reflexivity|vm_compute; reflexivity].
Defined.

End ChainThms.
