(* ===== verification/Bandwidth.v ===== *)
(** * Bandwidth: relays under the limiters of [internal/common/ratelimit.go], in time

    [Relay.v] takes the answers of a limiter as arguments.  Here they come
    from a token bucket that all sessions of a user share, and time passes: a
    direction of a session (a pump) asks the bucket for what its [Read] passes
    to [Wait], waits until the bucket grants that, and runs the turn of
    [Relay.v] with that answer.  The bucket is
    third-party code (golang.org/x/time/rate): [tb_grants] tells which grants
    it can give, [TokenBucketLaws] states its documentation.  Sessions are
    opened with the limiter [GetOrCreate] returns and the quota manager, or,
    by the forwarding inbounds, with neither; policies replace limiters and
    quotas at any time.  Times are nanoseconds. *)

From S2P Require Import Prelude GoNet Stream Limits Relay.
Import Quota Rate Metrics Pool.

#[export] Instance bucket_eq_dec : EqDecision bucket.
Proof. solve_decision. Defined.

Definition nanos : Z := 1000000000.

(** ** Token buckets *)

(** The bytes of a log, newest entry first, from [t1] to [t2]. *)
Definition in_window (t1 t2 : Z) (log : list (Z * Z)) : Z :=
  foldr (λ e acc, (if bool_decide (t1 ≤ e.1 ≤ t2) then e.2 else 0) + acc) 0 log.

Class TokenBucket := tb_grants : bucket → list (Z * Z) → Prop.

(** [tb_grants b log]: the bucket has let [log] through.  In no interval it
    lets more through than its burst and what its rate adds; it refuses more
    than the burst at once, and less than that it grants in the end. *)
Class TokenBucketLaws `{TokenBucket} := {
  tb_empty b : tb_grants b [];
  tb_bound b log t1 t2 :
    0 < b_rate b → 0 ≤ b_burst b → tb_grants b log → t1 ≤ t2 → in_window t1 t2 log * nanos ≤ b_burst b * nanos + b_rate b * (t2 - t1);
  tb_refuses b log t n : b_burst b < n → ¬ tb_grants b ((t, n) :: log);
  tb_live b log now n :
    0 < b_rate b → 0 ≤ n ≤ b_burst b → tb_grants b log → ∃ t, now ≤ t ∧ tb_grants b ((t, n) :: log) }.

(** [BandwidthLimiter.Wait]: a nil limiter never waits; [waitN] is the result
    of the bucket. *)
Definition Wait (l : option bucket) (waitN : bucket → Z → option goerr) (n : Z) : option goerr :=
  match l with None => None | Some b => waitN b n end.

(** ** Pumps *)

(** [p_answer]: the amount the bucket was asked for, and its answer. *)
Record pump := { p_args : relay_args; p_dir : dir; p_answer : option (Z * option goerr); p_live : bool }.

(** The chunk the next [Read] gives. *)
Definition chunk (p : pump) : Z := Z.of_nat (length (go_read BufferSize (d_src (p_dir p))).1.1).

(** An entry of a log: the pump, its bucket, the time and the bytes. *)
Record entry := { en_pump : nat; en_bucket : bucket; en_time : Z; en_bytes : Z }.

Definition log_of (b : bucket) (l : list entry) : list (Z * Z) :=
  (λ e, (en_time e, en_bytes e)) <$> filter (λ e, en_bucket e = b) l.

Record net := {
  w_now : Z; w_mgr : LimiterManager; w_pumps : list pump; w_shared : shared; w_grants : list entry; w_writes : list entry }.

(** The two pumps of a session: [DualRelay] with the user's limiter. *)
Definition open_pumps (u : bytes) (quota : bool) (l : option bucket) (c1 c2 : stream) (k1 k2 : sink) : list pump :=
  [{| p_args := {| a_upstream := true; a_user := u; a_limiter := l; a_quota := quota |};
      p_dir := {| d_src := c1; d_dst := k2; d_total := 0 |}; p_answer := None; p_live := true |};
   {| p_args := {| a_upstream := false; a_user := u; a_limiter := l; a_quota := quota |};
      p_dir := {| d_src := c2; d_dst := k1; d_total := 0 |}; p_answer := None; p_live := true |}].

Definition answered (n : Z) (ans : option goerr) (p : pump) : pump :=
  {| p_args := p_args p; p_dir := p_dir p; p_answer := Some (n, ans); p_live := p_live p |}.

Definition turned (t : turn) (p : pump) : pump :=
  {| p_args := p_args p; p_dir := RelayThms.turn_dir t; p_answer := None; p_live := negb (RelayThms.turn_ended t) |}.

(** The bytes a turn has written. *)
Definition forwarded (d d' : dir) : Z := Z.of_nat (length (sent d')) - Z.of_nat (length (sent d)).

(** The next [Read] of the pump, when [WaitN] answers by [waitN]. *)
Definition next_read (p : pump) (waitN : bucket → Z → option goerr) : bytes * option goerr * stream :=
  LimitRead (a_limiter (p_args p)) (Wait (a_limiter (p_args p)) waitN) BufferSize (d_src (p_dir p)).

(** That [Read] calls [WaitN] of bucket [b] for [n] bytes: its result depends
    on the answer to that call. *)
Definition asks (p : pump) (b : bucket) (n : Z) : Prop :=
  ∃ w1 w2 : bucket → Z → option goerr,
    (∀ b' k, (b', k) ≠ (b, n) → w1 b' k = w2 b' k) ∧ next_read p w1 ≠ next_read p w2.

(** The answers a turn runs with: the one the bucket gave, or any when the
    bucket is not asked. *)
Definition ready (p : pump) (waitN : bucket → Z → option goerr) : Prop :=
  match p_answer p with
  | Some (n, ans) => ∀ b, a_limiter (p_args p) = Some b → waitN b n = ans
  | None => ∀ b n, ¬ asks p b n
  end.

Section net.
Context `{TokenBucket}.

(** [n_open] is a session of a socks5 or http inbound, [n_open_plain] one of
    an inbound that passes neither limiter nor quota. *)
Inductive nstep : net → net → Prop :=
| n_tick w t :
    w_now w ≤ t →
    nstep w {| w_now := t; w_mgr := w_mgr w; w_pumps := w_pumps w; w_shared := w_shared w; w_grants := w_grants w; w_writes := w_writes w |}
| n_open w u c1 c2 k1 k2 l m :
    GetOrCreate u (w_mgr w) = (l, m) →
    nstep w {| w_now := w_now w; w_mgr := m; w_pumps := w_pumps w ++ open_pumps u true l c1 c2 k1 k2; w_shared := w_shared w;
               w_grants := w_grants w; w_writes := w_writes w |}
| n_open_plain w u c1 c2 k1 k2 :
    nstep w {| w_now := w_now w; w_mgr := w_mgr w; w_pumps := w_pumps w ++ open_pumps u false None c1 c2 k1 k2; w_shared := w_shared w;
               w_grants := w_grants w; w_writes := w_writes w |}
| n_update w u mbps :
    nstep w {| w_now := w_now w; w_mgr := Update u mbps (w_mgr w); w_pumps := w_pumps w; w_shared := w_shared w;
               w_grants := w_grants w; w_writes := w_writes w |}
| n_quota w u limit :
    nstep w {| w_now := w_now w; w_mgr := w_mgr w; w_pumps := w_pumps w;
               w_shared := {| s_quota := SetLimit u limit (s_quota (w_shared w)); s_count := s_count (w_shared w) |};
               w_grants := w_grants w; w_writes := w_writes w |}
| n_grant w i p b n :
    w_pumps w !! i = Some p → p_live p = true → p_answer p = None → asks p b n →
    tb_grants b ((w_now w, n) :: log_of b (w_grants w)) →
    nstep w {| w_now := w_now w; w_mgr := w_mgr w; w_pumps := <[i := answered n None p]> (w_pumps w); w_shared := w_shared w;
               w_grants := {| en_pump := i; en_bucket := b; en_time := w_now w; en_bytes := n |} :: w_grants w;
               w_writes := w_writes w |}
| n_refuse w i p b n e :
    w_pumps w !! i = Some p → p_live p = true → p_answer p = None → asks p b n →
    nstep w {| w_now := w_now w; w_mgr := w_mgr w; w_pumps := <[i := answered n (Some e) p]> (w_pumps w); w_shared := w_shared w;
               w_grants := w_grants w; w_writes := w_writes w |}
| n_turn w i p waitN t :
    w_pumps w !! i = Some p → p_live p = true → ready p waitN →
    relay_iter (p_args p) (Wait (a_limiter (p_args p)) waitN) (p_dir p) (w_shared w) = t →
    nstep w {| w_now := w_now w; w_mgr := w_mgr w; w_pumps := <[i := turned t p]> (w_pumps w); w_shared := RelayThms.turn_shared t;
               w_grants := w_grants w;
               w_writes := match a_limiter (p_args p) with
                           | Some b => {| en_pump := i; en_bucket := b; en_time := w_now w;
                                          en_bytes := forwarded (p_dir p) (RelayThms.turn_dir t) |} :: w_writes w
                           | None => w_writes w
                           end |}.

End net.

Definition start_net (now defaultMBps : Z) (g : shared) : net :=
  {| w_now := now; w_mgr := NewLimiterManager defaultMBps; w_pumps := []; w_shared := g; w_grants := []; w_writes := [] |}.

(** The bytes the sessions of a bucket have written since [t1]. *)
Definition written_since (b : bucket) (t1 : Z) (w : net) : Z := in_window t1 (w_now w) (log_of b (w_writes w)).

Definition pumps_of (b : bucket) (w : net) : Z :=
  Z.of_nat (length (filter (λ p, a_limiter (p_args p) = Some b) (w_pumps w))).

Module BandwidthThms.

(** ** Sums *)

Definition sumZ {A} (f : A → Z) (l : list A) : Z := foldr (λ x acc, f x + acc) 0 l.

Lemma sumZ_cons {A} (f : A → Z) x l : sumZ f (x :: l) = f x + sumZ f l.
Proof. done. Qed.

Lemma sumZ_app {A} (f : A → Z) l1 l2 : sumZ f (l1 ++ l2) = sumZ f l1 + sumZ f l2.
Proof. induction l1 as [|x l1 IH]; [done|]. cbn [app]. rewrite !sumZ_cons. lia. Qed.

Lemma sumZ_insert {A} (f : A → Z) (l : list A) i x y : l !! i = Some x → sumZ f (<[i := y]> l) = sumZ f l - f x + f y.
Proof.
  revert i. induction l as [|z l IH]; intros [|i] Hi; [done|done| |].
  - injection Hi as ->. change (<[0%nat := y]> (x :: l)) with (y :: l). rewrite !sumZ_cons. lia.
  - change (<[S i := y]> (z :: l)) with (z :: <[i := y]> l). rewrite !sumZ_cons, (IH i Hi). lia.
Qed.

Lemma sumZ_nonneg {A} (f : A → Z) (l : list A) : (∀ x, 0 ≤ f x) → 0 ≤ sumZ f l.
Proof. intros Hf. induction l as [|x l IH]; [done|]. rewrite sumZ_cons. specialize (Hf x). lia. Qed.

(** ** Windows *)

Definition past (now : Z) (l : list entry) : Prop := Forall (λ e, en_time e ≤ now) l.

Lemma past_mono now t l : now ≤ t → past now l → past t l.
Proof. intros Ht Hp. eapply Forall_impl; [exact Hp|]. cbn. intros e. lia. Qed.

Lemma window_tick b t1 now t l : past now l → now ≤ t → in_window t1 t (log_of b l) = in_window t1 now (log_of b l).
Proof.
  intros Hp Ht. induction Hp as [|e l He _ IH]; [done|]. unfold log_of in *. rewrite filter_cons.
  case_decide; [|done]. cbn. unfold in_window in IH. rewrite IH. f_equal. by case_bool_decide; case_bool_decide; [|lia|lia|].
Qed.

Lemma window_future b t1 now l : past now l → now < t1 → in_window t1 now (log_of b l) = 0.
Proof.
  intros Hp Ht. induction Hp as [|e l He _ IH]; [done|]. unfold log_of in *. rewrite filter_cons.
  case_decide; [|done]. cbn. unfold in_window in IH. rewrite IH, bool_decide_false by lia. done.
Qed.

Lemma window_cons b t1 e l :
  in_window t1 (en_time e) (log_of b (e :: l)) =
  (if bool_decide (en_bucket e = b ∧ t1 ≤ en_time e) then en_bytes e else 0) + in_window t1 (en_time e) (log_of b l).
Proof.
  unfold log_of. rewrite filter_cons. case_decide as Hb.
  - cbn. f_equal. by case_bool_decide; case_bool_decide; [|naive_solver lia|naive_solver lia|].
  - by rewrite bool_decide_false by naive_solver.
Qed.

(** ** Turns *)

Lemma chunk_range p : 0 ≤ chunk p ≤ Z.of_nat BufferSize.
Proof. unfold chunk. pose proof (read_bounded BufferSize (d_src (p_dir p))). lia. Qed.

Lemma LimitRead_got l wait n (s : stream) : (LimitRead l wait n s).1.1 = (go_read n s).1.1.
Proof.
  unfold LimitRead. destruct (go_read n s) as [[[|x got] e] s']; [done|]. destruct l; [|done]. by destruct (wait _).
Qed.

Lemma turn_forwards p wait g :
  0 ≤ forwarded (p_dir p) (RelayThms.turn_dir (relay_iter (p_args p) wait (p_dir p) g)) ≤ chunk p.
Proof.
  unfold relay_iter, forwarded, chunk, sent. rewrite <-(LimitRead_got (a_limiter (p_args p)) wait).
  destruct (LimitRead _ _ _ _) as [[got e] src]. cbn [fst]. destruct got as [|x got]; [destruct e; cbn [RelayThms.turn_dir d_dst]; cbn [length]; lia|].
  destruct (if a_quota _ && _ then _ else _) as [[] q]; [cbn [RelayThms.turn_dir d_dst]; lia|].
  destruct (sink_write (x :: got) (d_dst (p_dir p))) as [werr dst] eqn:Ew. apply RelayThms.sink_write_sent in Ew.
  destruct werr; [|destruct e]; cbn [RelayThms.turn_dir d_dst]; rewrite Ew, length_app; cbn [length]; lia.
Qed.

(** A [Read] asks for exactly the bytes it has got, and only the limiter it was
    given. *)
Lemma asks_iff p b n : asks p b n ↔ a_limiter (p_args p) = Some b ∧ 0 < chunk p ∧ n = chunk p.
Proof.
  unfold asks, next_read, LimitRead, chunk. destruct (go_read _ _) as [[[|x got] e] s']; cbn [fst].
  { split; [by intros (w1 & w2 & _ & [])|intros (_ & Hlt & _); cbn in Hlt; lia]. }
  destruct (a_limiter (p_args p)) as [b0|]; cbn [Wait]; [|split; [by intros (w1 & w2 & _ & [])|by intros [? _]]].
  split.
  - intros (w1 & w2 & Hw & Hne). destruct (decide ((b0, Z.of_nat (length (x :: got))) = (b, n))) as [[= <- <-]|Hd].
    + split; [done|]. split; [cbn; lia|done].
    + destruct Hne. by rewrite (Hw _ _ Hd).
  - intros ([= ->] & _ & ->). set (k := Z.of_nat _).
    exists (λ _ _, Some EOF), (λ b' k', if decide ((b', k') = (b, k)) then Some ErrClosed else Some EOF).
    split; [intros b' k' Hd; by rewrite decide_False|]. by rewrite decide_True by done.
Qed.

Lemma refused_ends p b e waitN g :
  a_limiter (p_args p) = Some b → 0 < chunk p → waitN b (chunk p) = Some e →
  RelayThms.turn_ended (relay_iter (p_args p) (Wait (a_limiter (p_args p)) waitN) (p_dir p) g) = true.
Proof.
  intros Hb Hc Hw. unfold chunk in Hc, Hw. unfold relay_iter, LimitRead. rewrite Hb.
  destruct (go_read _ _) as [[[|x got] e0] src]; [done|]. cbn [Wait]. cbn [fst] in Hw. rewrite Hw.
  destruct (if a_quota _ && _ then _ else _) as [[] q]; [done|]. by destruct (sink_write _ _) as [[] ?].
Qed.

(** ** The account of a bucket *)

Notation B := (Z.of_nat BufferSize).

(** How much the pump has not yet used of two buffers: one it may have held
    since before the interval, and one for a last chunk without a grant. *)
Definition slack (b : bucket) (p : pump) : Z :=
  if bool_decide (a_limiter (p_args p) = Some b) then
    if p_live p then match p_answer p with Some (_, None) => B - chunk p | _ => B end else 2 * B
  else 0.

Lemma slack_range b p : 0 ≤ slack b p ≤ 2 * B.
Proof. unfold slack. pose proof (chunk_range p). repeat case_match; case_bool_decide; lia. Qed.

Lemma slack_other b p : a_limiter (p_args p) ≠ Some b → slack b p = 0.
Proof. intros Hb. unfold slack. by rewrite bool_decide_false by done. Qed.

(** What was asked for is the chunk that was read. *)
Definition pump_ok (p : pump) : Prop := ∀ n ans, p_answer p = Some (n, ans) → 0 < chunk p ∧ n = chunk p.

Section thms.
Context `{TokenBucketLaws}.

Record net_inv (w : net) : Prop := {
  ni_grants : past (w_now w) (w_grants w);
  ni_writes : past (w_now w) (w_writes w);
  ni_pumps : Forall pump_ok (w_pumps w);
  ni_bucket b : tb_grants b (log_of b (w_grants w));
  ni_account b t1 :
    in_window t1 (w_now w) (log_of b (w_writes w)) ≤ in_window t1 (w_now w) (log_of b (w_grants w)) + sumZ (slack b) (w_pumps w) }.

Lemma slack_sum b l : 0 ≤ sumZ (slack b) l.
Proof. apply sumZ_nonneg. intros p. apply slack_range. Qed.

Lemma log_of_cons b e l :
  log_of b (e :: l) = if bool_decide (en_bucket e = b) then (en_time e, en_bytes e) :: log_of b l else log_of b l.
Proof. unfold log_of. rewrite filter_cons. by case_decide; [rewrite bool_decide_true by done|rewrite bool_decide_false by done]. Qed.

Lemma grant_inv w i p b n :
  net_inv w → w_pumps w !! i = Some p → p_live p = true → p_answer p = None → asks p b n →
  tb_grants b ((w_now w, n) :: log_of b (w_grants w)) →
  net_inv {| w_now := w_now w; w_mgr := w_mgr w; w_pumps := <[i := answered n None p]> (w_pumps w); w_shared := w_shared w;
             w_grants := {| en_pump := i; en_bucket := b; en_time := w_now w; en_bytes := n |} :: w_grants w;
             w_writes := w_writes w |}.
Proof.
  intros [Hg Hw Hp Hb Ha] Hi Hl Hn (Hlim & Hc & ->)%asks_iff Hgr. split; cbn [w_now w_grants w_writes w_pumps].
  - by constructor.
  - done.
  - apply Forall_insert; [done|]. by intros ? ? [= <- <-].
  - intros b'. rewrite log_of_cons. cbn. case_bool_decide as Heq; [by subst b'|done].
  - intros b' t1. set (e := {| en_pump := i |}). pose proof (window_cons b' t1 e (w_grants w)) as Ew. cbn [en_time e] in Ew.
    rewrite Ew. cbn [en_bucket en_bytes e]. rewrite (sumZ_insert _ _ _ _ _ Hi).
    specialize (Ha b' t1). pose proof (slack_sum b' (<[i := answered (chunk p) None p]> (w_pumps w))) as Hs.
    rewrite (sumZ_insert _ _ _ _ _ Hi) in Hs. unfold slack in *. cbn [answered p_args p_live p_answer] in *. rewrite Hl, Hn in *.
    change (chunk (answered (chunk p) None p)) with (chunk p) in *. rewrite Hlim in *.
    destruct (decide (t1 ≤ w_now w)) as [Ht|Ht].
    + destruct (decide (b = b')) as [<-|Hne].
      * rewrite !(bool_decide_true (Some b = Some b)), (bool_decide_true (b = b ∧ _)) in * by done. lia.
      * rewrite !(bool_decide_false (Some b = Some b')), (bool_decide_false (b = b' ∧ _)) in * by naive_solver. lia.
    + rewrite (window_future b' t1 (w_now w) (w_writes w)), (window_future b' t1 (w_now w) (w_grants w)) in * by (done || lia).
      rewrite (bool_decide_false (b = b' ∧ _)) by lia. lia.
Qed.

Lemma turn_slack w p waitN t b :
  p_live p = true → pump_ok p → ready p waitN → a_limiter (p_args p) = Some b →
  relay_iter (p_args p) (Wait (a_limiter (p_args p)) waitN) (p_dir p) (w_shared w) = t →
  forwarded (p_dir p) (RelayThms.turn_dir t) + slack b p ≤ slack b (turned t p).
Proof.
  intros Hl Hok Hr Hb <-. pose proof (turn_forwards p (Wait (a_limiter (p_args p)) waitN) (w_shared w)) as Hf.
  pose proof (chunk_range p) as Hc. set (t := relay_iter _ _ _ _) in *. unfold slack. cbn [turned p_args p_live p_answer].
  rewrite Hl, Hb, bool_decide_true by done. unfold ready in Hr. destruct (p_answer p) as [[n ans]|] eqn:E.
  - destruct (Hok n ans E) as [Hpos ->]. destruct ans as [e|]; [|destruct (RelayThms.turn_ended t); cbn; lia].
    assert (RelayThms.turn_ended t = true) as -> by (apply (refused_ends p b e); [done|done|by apply Hr]). cbn. lia.
  - assert (chunk p = 0) as Hz.
    { destruct (decide (0 < chunk p)); [|lia]. destruct (Hr b (chunk p)). by apply asks_iff. }
    destruct (RelayThms.turn_ended t); cbn; lia.
Qed.

Lemma turn_inv w i p waitN t :
  net_inv w → w_pumps w !! i = Some p → p_live p = true → ready p waitN →
  relay_iter (p_args p) (Wait (a_limiter (p_args p)) waitN) (p_dir p) (w_shared w) = t →
  net_inv {| w_now := w_now w; w_mgr := w_mgr w; w_pumps := <[i := turned t p]> (w_pumps w); w_shared := RelayThms.turn_shared t;
             w_grants := w_grants w;
             w_writes := match a_limiter (p_args p) with
                         | Some b => {| en_pump := i; en_bucket := b; en_time := w_now w;
                                        en_bytes := forwarded (p_dir p) (RelayThms.turn_dir t) |} :: w_writes w
                         | None => w_writes w
                         end |}.
Proof.
  intros [Hg Hw Hp Hb Ha] Hi Hl Hr Et. pose proof (Forall_lookup_1 _ _ _ _ Hp Hi) as Hok.
  split; cbn [w_now w_grants w_writes w_pumps]; [done| |apply Forall_insert; [done|by intros ? ?]|done|].
  - destruct (a_limiter (p_args p)); [by constructor|done].
  - intros b' t1. specialize (Ha b' t1). rewrite (sumZ_insert _ _ _ _ _ Hi).
    destruct (a_limiter (p_args p)) as [b|] eqn:Elim.
    + pose proof (turn_slack w p waitN t b Hl Hok Hr Elim ltac:(by rewrite Elim)) as Hs.
      assert (0 ≤ forwarded (p_dir p) (RelayThms.turn_dir t)) as Hf by (rewrite <-Et; apply turn_forwards).
      set (e := {| en_pump := i |}). pose proof (window_cons b' t1 e (w_writes w)) as Ew. cbn [en_time e] in Ew. rewrite Ew. clear Ew.
      cbn [en_bucket en_bytes e]. destruct (decide (b = b')) as [<-|Hne]; [case_bool_decide; lia|].
      rewrite bool_decide_false, (slack_other b' p), (slack_other b' (turned t p)) by (cbn; naive_solver). lia.
    + rewrite (slack_other b' p), (slack_other b' (turned t p)) by (cbn; congruence). lia.
Qed.

Lemma open_inv w m ps :
  net_inv w → Forall pump_ok ps →
  net_inv {| w_now := w_now w; w_mgr := m; w_pumps := w_pumps w ++ ps; w_shared := w_shared w;
             w_grants := w_grants w; w_writes := w_writes w |}.
Proof.
  intros [Hg Hw Hp Hb Ha] Hps. split; cbn [w_now w_grants w_writes w_pumps]; [done|done| |done|].
  - by apply Forall_app.
  - intros b t1. rewrite sumZ_app. specialize (Ha b t1). pose proof (slack_sum b ps). lia.
Qed.

Lemma open_pumps_ok u q l c1 c2 k1 k2 : Forall pump_ok (open_pumps u q l c1 c2 k1 k2).
Proof. by repeat constructor. Qed.

Lemma net_inv_step w w' : net_inv w → nstep w w' → net_inv w'.
Proof.
  intros Hi Hs. destruct Hs as [w t Ht|w u c1 c2 k1 k2 l m Hm|w u c1 c2 k1 k2|w u mbps|w u limit|w i p b n H1 H2 H3 H4 H5
    |w i p b n e H1 H2 H3 H4|w i p waitN t H1 H2 H3 H4].
  - destruct Hi as [Hg Hw Hp Hb Ha]. split; cbn [w_now w_grants w_writes w_pumps]; [by eapply past_mono|by eapply past_mono|done|done|].
    intros b t1. rewrite !(window_tick b t1 (w_now w) t) by done. apply Ha.
  - apply open_inv; [done|apply open_pumps_ok].
  - apply open_inv; [done|apply open_pumps_ok].
  - by destruct Hi.
  - by destruct Hi.
  - by apply grant_inv.
  - destruct Hi as [Hg Hw Hp Hb Ha]. apply asks_iff in H4 as (H4 & H5 & ->).
    split; cbn [w_now w_grants w_writes w_pumps]; [done|done| |done|].
    + apply Forall_insert; [done|]. by intros ? ? [= <- <-].
    + intros b' t1. rewrite (sumZ_insert _ _ _ _ _ H1). specialize (Ha b' t1).
      assert (slack b' (answered (chunk p) (Some e) p) = slack b' p) as -> by (unfold slack; cbn; by rewrite H2, H3). lia.
  - by apply (turn_inv w i p waitN t).
Qed.

Lemma net_inv_reachable now mb g w : rtc nstep (start_net now mb g) w → net_inv w.
Proof.
  intros Hr. assert (net_inv (start_net now mb g)) as Hstart.
  { split; [constructor|constructor|constructor|intros b; apply tb_empty|done]. }
  induction Hr as [w|w1 w2 w3 Hs _ IH]; [done|]. apply IH. by eapply net_inv_step.
Qed.

(** ** Progress *)

(** A limiter the manager makes: its burst holds a whole buffer, so that the
    bucket never refuses a chunk for its size. *)
Definition good_limiter (l : option bucket) : Prop := ∀ b, l = Some b → 0 < b_rate b ∧ B ≤ b_burst b.

Lemma made_good id r : r < 2 ^ 63 → good_limiter (NewBandwidthLimiter id r).
Proof.
  intros Hr b. unfold NewBandwidthLimiter. case_bool_decide as Hp; [done|]. intros [= <-]. cbn [b_rate b_burst].
  rewrite i64_id by (Z.to_euclidean_division_equations; lia). unfold BufferSize. Z.to_euclidean_division_equations. lia.
Qed.

Record mgr_good (m : LimiterManager) : Prop := {
  mg_limiters u l : limiters m !! u = Some l → good_limiter l;
  mg_default : defaultRate m < 2 ^ 63 }.

Lemma get_good u m l m' : mgr_good m → GetOrCreate u m = (l, m') → good_limiter l ∧ mgr_good m'.
Proof.
  intros [Hl Hd]. unfold GetOrCreate, create_locked. case_bool_decide; [by intros [= <- <-]|].
  destruct (limiters m !! u) as [l0|] eqn:E; intros [= <- <-]; [split; [by eapply Hl|done]|].
  pose proof (made_good (fresh m) (defaultRate m) Hd) as Hm. split; [done|]. split; [|done]. cbn. intros u' l'.
  rewrite lookup_insert_Some. intros [[_ <-]|[_ Hu]]; [done|by eapply Hl].
Qed.

Definition net_good (w : net) : Prop := mgr_good (w_mgr w) ∧ Forall (λ p, good_limiter (a_limiter (p_args p))) (w_pumps w).

Lemma net_good_step w w' : net_good w → nstep w w' → net_good w'.
Proof.
  intros [Hm Hp] Hs.
  destruct Hs as [w t Ht|w u c1 c2 k1 k2 l m E|w u c1 c2 k1 k2|w u mbps|w u limit|w i p b n H1|w i p b n e H1|w i p waitN t H1];
    try (split; [done|]; apply Forall_insert; [done|]; by apply (Forall_lookup_1 _ _ _ _ Hp H1)).
  - done.
  - destruct (get_good _ _ _ _ Hm E) as [Hl Hm']. split; [done|]. apply Forall_app. split; [done|]. do 2 (constructor; [exact Hl|]). constructor.
  - split; [done|]. apply Forall_app. split; [done|]. by repeat constructor.
  - split; [|done]. destruct Hm as [Hl Hd]. split; [|done]. cbn. intros u' l'. rewrite lookup_insert_Some.
    intros [[_ <-]|[_ Hu]]; [|by eapply Hl]. apply made_good. apply i64_range.
  - done.
Qed.

Lemma net_good_reachable now mb g w : rtc nstep (start_net now mb g) w → net_good w.
Proof.
  intros Hr. assert (net_good (start_net now mb g)) as Hstart.
  { split; [|constructor]. split; [done|]. cbn. apply i64_range. }
  induction Hr as [w|w1 w2 w3 Hs _ IH]; [done|]. apply IH. by eapply net_good_step.
Qed.

(** C13: the bandwidth of a user is bounded.  In every reachable state, however
    many sessions share a limiter and however their goroutines interleave,
    the bytes all of them together have written in the time since [t1] are at
    most the burst of the limiter, what its rate allows in that time, and two
    buffers for each direction: one chunk that was granted before [t1], and
    one that a relay still forwards when waiting for the limiter fails. *)
Theorem bandwidth_bounded (now mb : Z) (g : shared) (w : net) (i : nat) (p : pump) (b : bucket) (t1 : Z) :
  rtc nstep (start_net now mb g) w → w_pumps w !! i = Some p → a_limiter (p_args p) = Some b → t1 ≤ w_now w →
  written_since b t1 w * nanos ≤
    b_burst b * nanos + b_rate b * (w_now w - t1) + 2 * B * pumps_of b w * nanos.
Proof.
  intros Hr Hi Hlim Ht. destruct (net_good_reachable _ _ _ _ Hr) as [_ Hgood].
  destruct (Forall_lookup_1 _ _ _ _ Hgood Hi b Hlim) as [Hrate Hburst]. destruct (net_inv_reachable _ _ _ _ Hr) as [_ _ _ Hb Ha]. specialize (Ha b t1).
  pose proof (tb_bound b _ t1 (w_now w) Hrate ltac:(lia) (Hb b) Ht) as Hg. unfold written_since, pumps_of.
  assert (sumZ (slack b) (w_pumps w) ≤ 2 * B * Z.of_nat (length (filter (λ p, a_limiter (p_args p) = Some b) (w_pumps w)))) as Hs.
  { clear. induction (w_pumps w) as [|p l IH]; [cbn; lia|]. rewrite sumZ_cons, filter_cons. pose proof (slack_range b p).
    case_decide as Hp; [cbn [length]; lia|]. unfold slack at 1. rewrite bool_decide_false by done. lia. }
  unfold nanos in *. nia.
Qed.

(** The quota of a user lets [k] more bytes through: no limit is set, or the
    limit leaves that much. *)
Definition quota_room (q : QuotaManager) (u : bytes) (k : Z) : Prop :=
  limit_of q u ≤ 0 ∨ (0 ≤ used_of q u ∧ used_of q u + k ≤ limit_of q u < 2 ^ 63).

Lemma AddUsage_room u n k q :
  0 ≤ n ≤ k → quota_room q u k → ∃ q', AddUsage u n q = (false, q') ∧ quota_room q' u (k - n).
Proof.
  intros Hn Hr. unfold AddUsage, counter_add. assert (limit_of (load_counter u q) u = limit_of q u) as Hlim.
  { unfold limit_of, load_counter. by destruct (used q !! u). }
  assert (used_of (load_counter u q) u = used_of q u) as Hused.
  { unfold used_of, load_counter. destruct (used q !! u) eqn:E; [by rewrite E|]. cbn. by rewrite lookup_insert_eq. }
  rewrite Hlim, Hused. eexists. unfold exceeded. rewrite bool_decide_false.
  2:{ destruct Hr as [Hr|Hr]; [lia|]. rewrite i64_id by lia. lia. }
  split; [reflexivity|]. set (q' := {| used := _; limits := _ |}).
  assert (limit_of q' u = limit_of q u) as Hl' by exact Hlim.
  assert (used_of q' u = i64 (used_of q u + n)) as Hu' by (unfold used_of, q'; cbn [used]; by rewrite lookup_insert_eq).
  unfold quota_room. rewrite Hl', Hu'. destruct Hr as [Hr|Hr]; [by left|right]. rewrite i64_id by lia. lia.
Qed.

(** A pump that forwards all that its source has sent: it runs, its wait was
    not refused, its connections are up and the quota has room. *)
Definition flowing (g : shared) (p : pump) : Prop :=
  p_live p = true ∧ (∀ n e, p_answer p ≠ Some (n, Some e)) ∧ steady (d_src (p_dir p)) ∧ budget (d_dst (p_dir p)) = None ∧
  (a_quota (p_args p) = true → a_user (p_args p) ≠ [] →
   quota_room (s_quota g) (a_user (p_args p)) (Z.of_nat (length (stream_bytes (d_src (p_dir p)))))).

Lemma flowing_quota p g (n : Z) :
  flowing g p → 0 ≤ n ≤ Z.of_nat (length (stream_bytes (d_src (p_dir p)))) →
  ∃ q, (if a_quota (p_args p) && negb (bool_decide (a_user (p_args p) = []))
        then AddUsage (a_user (p_args p)) n (s_quota g) else (false, s_quota g)) = (false, q) ∧
    (a_quota (p_args p) = true → a_user (p_args p) ≠ [] →
     quota_room q (a_user (p_args p)) (Z.of_nat (length (stream_bytes (d_src (p_dir p)))) - n)).
Proof.
  intros (_ & _ & _ & _ & Hq) Hn. destruct (a_quota (p_args p)); [|by exists (s_quota g)].
  case_bool_decide as Hu; [by exists (s_quota g)|]. cbn [andb negb]. destruct (AddUsage_room (a_user (p_args p)) n _ _ Hn (Hq eq_refl Hu)) as (q & -> & Hr).
  by exists q.
Qed.

Lemma flowing_turn p g waitN :
  flowing g p → stream_bytes (d_src (p_dir p)) ≠ [] → (∀ b, waitN b (chunk p) = None) →
  0 < chunk p ∧
  ∃ d g', relay_iter (p_args p) (Wait (a_limiter (p_args p)) waitN) (p_dir p) g = Again d g' ∧
    flowing g' (turned (Again d g') p) ∧ sent d ++ stream_bytes (d_src d) = sent (p_dir p) ++ stream_bytes (d_src (p_dir p)) ∧
    (length (stream_bytes (d_src d)) < length (stream_bytes (d_src (p_dir p))))%nat.
Proof.
  intros Hf Hne Hw. pose proof Hf as (Hl & Ha & Hs & Hk & _). unfold chunk, relay_iter, LimitRead in *.
  destruct (go_read BufferSize (d_src (p_dir p))) as [[got e] s'] eqn:E.
  destruct (stream_read_spec _ _ _ _ _ E) as (Hb & _ & _ & Hst). destruct (Hst Hs) as [Hs' He].
  destruct e as [e|]; [by destruct He|]. specialize (He RelayThms.buffer_pos). destruct got as [|x got]; [done|].
  cbn [fst] in *. split; [cbn; lia|].
  destruct (flowing_quota p g (Z.of_nat (length (x :: got))) Hf) as (q & Eq & Hq); [rewrite Hb, length_app; lia|].
  assert (match a_limiter (p_args p) with
          | Some _ => match Wait (a_limiter (p_args p)) waitN (Z.of_nat (length (x :: got))) with
                      | Some werr => (x :: got, Some werr, s') | None => (x :: got, None, s') end
          | None => (x :: got, None, s') end = (x :: got, None, s')) as ->.
  { destruct (a_limiter (p_args p)) as [b|]; [|done]. cbn [Wait]. by rewrite Hw. }
  cbv beta iota zeta. rewrite Eq. unfold sink_write. rewrite Hk. eexists _, _. split; [reflexivity|].
  split; [|split].
  - repeat split; [by cbn|done|]. intros Hqt Hu. specialize (Hq Hqt Hu). cbn in Hq |- *.
    rewrite Hb, length_app in Hq. cbn [length] in Hq. eapply eq_ind; [exact Hq|lia].
  - cbn [d_src]. unfold sent. cbn [d_dst written]. rewrite concat_app. cbn [concat]. by rewrite Hb, app_nil_r, <-app_assoc.
  - cbn [d_src]. rewrite Hb, length_app. cbn [length]. lia.
Qed.

(** One turn of such a pump, after waiting for the bucket. *)
Lemma flowing_step w i p :
  net_inv w → net_good w → w_pumps w !! i = Some p → flowing (w_shared w) p → stream_bytes (d_src (p_dir p)) ≠ [] →
  ∃ w' p', rtc nstep w w' ∧ w_pumps w' !! i = Some p' ∧ flowing (w_shared w') p' ∧
    sent (p_dir p') ++ stream_bytes (d_src (p_dir p')) = sent (p_dir p) ++ stream_bytes (d_src (p_dir p)) ∧
    (length (stream_bytes (d_src (p_dir p'))) < length (stream_bytes (d_src (p_dir p))))%nat.
Proof.
  intros Hi [_ Hg] Hp Hf Hne. destruct (flowing_turn p (w_shared w) (λ _ _, None) Hf Hne ltac:(done)) as (Hc & d & g' & Et & Hf' & Hs & Hl).
  pose proof (lookup_lt_Some _ _ _ Hp) as Hlt. pose proof Hf as (Hlive & Hans & _).
  destruct (p_answer p) as [[n [e|]]|] eqn:Ea; [by destruct (Hans n e)| |destruct (a_limiter (p_args p)) as [b|] eqn:Elim].
  - eexists _, (turned (Again d g') p). split.
    + eapply rtc_l; [|apply rtc_refl]. eapply (n_turn _ i p (λ _ _, None) (Again d g')); [done|done|by (unfold ready; rewrite Ea)|done].
    + cbn [w_pumps w_shared]. by rewrite list_lookup_insert_eq by done.
  - destruct (Forall_lookup_1 _ _ _ _ Hg Hp b Elim) as [Hr Hb]. pose proof (chunk_range p) as Hcr.
    destruct (tb_live b (log_of b (w_grants w)) (w_now w) (chunk p) Hr ltac:(lia) (ni_bucket w Hi b)) as (t & Ht & Hgr).
    eexists _, (turned (Again d g') (answered (chunk p) None p)). split.
    + eapply rtc_l; [by apply (n_tick w t)|].
      eapply rtc_l; [apply (n_grant _ i p b (chunk p)); [done|done|done|by apply asks_iff|done]|].
      eapply rtc_l; [|apply rtc_refl]. eapply (n_turn _ i (answered (chunk p) None p) (λ _ _, None) (Again d g'));
        [by apply list_lookup_insert_eq|done|done|]. cbn [answered p_args p_dir w_shared]. by rewrite Elim.
    + cbn [w_pumps w_shared]. rewrite list_lookup_insert_eq by (by rewrite length_insert). by repeat split; try apply Hf'.
  - eexists _, (turned (Again d g') p). split.
    + eapply rtc_l; [|apply rtc_refl]. eapply (n_turn _ i p (λ _ _, None) (Again d g')); [done|done| |by rewrite Elim].
      unfold ready. rewrite Ea. intros b n [Hb _]%asks_iff. congruence.
    + cbn [w_pumps w_shared]. by rewrite list_lookup_insert_eq by done.
Qed.

(** C28: a limiter delays and loses nothing.  From every reachable state, a
    direction of a session that still runs, whose wait for the limiter was
    not refused, whose connections are up and whose user has no quota limit,
    or one that leaves room for all its source has sent, can be run until all
    of that is written, unchanged and in order, whatever limiter the user has
    and whatever the other sessions took of it: the burst of every limiter
    holds a buffer, so that each chunk is granted in the end. *)
Theorem limited_relay_delivers (now mb : Z) (g : shared) (w : net) (i : nat) (p : pump) :
  rtc nstep (start_net now mb g) w → w_pumps w !! i = Some p → flowing (w_shared w) p →
  ∃ w' p', rtc nstep w w' ∧ w_pumps w' !! i = Some p' ∧
    sent (p_dir p') = sent (p_dir p) ++ stream_bytes (d_src (p_dir p)).
Proof.
  intros Hr. pose proof (net_inv_reachable _ _ _ _ Hr) as Hi. pose proof (net_good_reachable _ _ _ _ Hr) as Hg. clear Hr.
  remember (length (stream_bytes (d_src (p_dir p)))) as n eqn:En. revert w p En Hi Hg.
  induction (lt_wf n) as [n _ IH]. intros w p -> Hi Hg Hp Hf.
  destruct (decide (stream_bytes (d_src (p_dir p)) = [])) as [E|Hne].
  - exists w, p. rewrite E, app_nil_r. done.
  - destruct (flowing_step w i p Hi Hg Hp Hf Hne) as (w1 & p1 & Hr & Hp1 & Hf1 & Hs & Hl).
    assert (net_inv w1 ∧ net_good w1) as [Hi1 Hg1].
    { split.
      - clear -Hi Hr H0. induction Hr as [|x y z Hs _ IHr]; [done|]. apply IHr. by eapply net_inv_step.
      - clear -Hg Hr. induction Hr as [|x y z Hs _ IHr]; [done|]. apply IHr. by eapply net_good_step. }
    destruct (IH _ Hl w1 p1 eq_refl Hi1 Hg1 Hp1 Hf1) as (w' & p' & Hr' & Hp' & Hs').
    exists w', p'. split; [by etrans|]. split; [done|]. by rewrite Hs', Hs.
Qed.

(** A new rate reaches new sessions only: whatever policies come, a direction
    that runs keeps the limiter its session was opened with, while the next
    session of the user gets a limiter of the new rate. *)
Theorem policy_misses_sessions (w w' : net) (i : nat) (p : pump) (u : bytes) (mbps : Z) :
  rtc nstep w w' → w_pumps w !! i = Some p →
  (∃ p', w_pumps w' !! i = Some p' ∧ a_limiter (p_args p') = a_limiter (p_args p)) ∧
  (u ≠ [] → (GetOrCreate u (Update u mbps (w_mgr w'))).1 =
    NewBandwidthLimiter (fresh (w_mgr w')) (i64 (i64 (mbps * 1024) * 1024))).
Proof.
  intros Hr Hp. split.
  - revert p Hp. induction Hr as [w|w1 w2 w3 Hs _ IH]; intros p Hp; [eauto|].
    assert (∃ p', w_pumps w2 !! i = Some p' ∧ a_limiter (p_args p') = a_limiter (p_args p)) as (p1 & Hp1 & <-); [|by apply IH].
    destruct Hs as [w t _|w u' c1 c2 k1 k2 l m _|w u' c1 c2 k1 k2|w u' mb|w u' limit|w j q b n Hj|w j q b n e Hj|w j q waitN t Hj];
      cbn [w_pumps]; eauto.
    1-2: exists p; split; [by apply lookup_app_l_Some|done].
    all: destruct (decide (j = i)) as [->|Hne]; [|rewrite list_lookup_insert_ne by done; eauto];
      rewrite list_lookup_insert_eq by (by eapply lookup_lt_Some); assert (q = p) as -> by congruence; eauto.
  - intros Hu. unfold GetOrCreate, Update. rewrite bool_decide_false by done. cbn. by rewrite lookup_insert_eq.
Qed.

End thms.

(** ** A bucket *)

(** Every log that keeps to the bound, as an instance of the laws. *)
Definition total (log : list (Z * Z)) : Z := foldr (λ e acc, e.2 + acc) 0 log.

Definition latest (now : Z) (log : list (Z * Z)) : Z := foldr (λ e acc, Z.max e.1 acc) now log.

Lemma window_total t1 t2 log : Forall (λ e, 0 ≤ e.2) log → 0 ≤ in_window t1 t2 log ≤ total log.
Proof.
  induction 1 as [|e log He _ IH]; [done|]. unfold in_window, total in *. cbn [foldr]. case_bool_decide; lia.
Qed.

Lemma window_late now t1 t2 log : latest now log < t1 → in_window t1 t2 log = 0.
Proof.
  induction log as [|e log IH]; [done|]. unfold in_window, latest in *. cbn [foldr]. intros Hl. rewrite IH by lia.
  by rewrite bool_decide_false by lia.
Qed.

Lemma latest_now now log : now ≤ latest now log.
Proof. induction log as [|e log IH]; [done|]. unfold latest in *. cbn [foldr]. lia. Qed.

#[local] Instance ideal_bucket : TokenBucket := λ b log,
  Forall (λ e, 0 ≤ e.2) log ∧
  (0 < b_rate b → 0 ≤ b_burst b →
   ∀ t1 t2, t1 ≤ t2 → in_window t1 t2 log * nanos ≤ b_burst b * nanos + b_rate b * (t2 - t1)) ∧
  Forall (λ e, e.2 ≤ b_burst b) log.

#[local] Instance ideal_laws : TokenBucketLaws.
Proof.
  split.
  - intros b. split; [constructor|]. split; [|constructor]. intros Hr Hb t1 t2 Ht. cbn. unfold nanos. nia.
  - intros b log t1 t2 Hr Hb (_ & Hg & _). by apply Hg.
  - intros b log t n Hn (_ & _ & Hf). apply Forall_cons in Hf as [Hf _]. cbn in Hf. lia.
  - intros b log now n Hr Hn (Hp & Hg & Hf). pose proof (latest_now now log) as Hl. pose proof (window_total 0 0 log Hp) as Ht0.
    exists (latest now log + total log * nanos). split; [unfold nanos in *; lia|]. split; [by constructor; [cbn; lia|]|].
    split; [|by constructor; [cbn; lia|]]. intros Hr' Hb t1 t2 Ht. specialize (Hg Hr' Hb t1 t2 Ht).
    pose proof (window_total t1 t2 log Hp) as Htot. cbn [in_window foldr fst snd]. fold (in_window t1 t2 log).
    case_bool_decide as Hin; [|lia]. destruct (decide (latest now log < t1)) as [Hlate|Hearly].
    + rewrite (window_late now) by done. unfold nanos in *. nia.
    + assert (total log * nanos ≤ b_rate b * (t2 - t1)) by nia. unfold nanos in *. nia.
Qed.

(** ** Concrete runs *)

Definition idle_shared : shared :=
  {| s_quota := SetLimit "alice" 1048576 NewQuotaManager; s_count := {| activeCount := 0; totalBytesIn := 0; totalBytesOut := 0 |} |}.

Definition demo_bucket : bucket := {| b_id := 0; b_rate := 8 * 1024 * 1024; b_burst := 3 * 1024 * 1024 |}.

Definition demo_pumps : list pump :=
  open_pumps "alice" true (Some demo_bucket) (mk_stream "hello" EOF) (mk_stream "world" EOF) open_sink open_sink.

(** A session of a user of the default rate, 8 MB a second. *)
Lemma demo_session :
  rtc nstep (start_net 0 8 idle_shared)
    {| w_now := 0; w_mgr := (GetOrCreate "alice" (NewLimiterManager 8)).2; w_pumps := demo_pumps; w_shared := idle_shared;
       w_grants := []; w_writes := [] |}.
Proof.
  apply rtc_once.
  exact (n_open (start_net 0 8 idle_shared) "alice" (mk_stream "hello" EOF) (mk_stream "world" EOF) open_sink open_sink
           (Some demo_bucket) (GetOrCreate "alice" (NewLimiterManager 8)).2 eq_refl).
Qed.

(** Its first chunk is granted and written. *)
Lemma demo_sent :
  ∃ w p, rtc nstep (start_net 0 8 idle_shared) w ∧ w_pumps w !! 0%nat = Some p ∧ a_limiter (p_args p) = Some demo_bucket ∧
    w_now w = 0 ∧ written_since demo_bucket 0 w = 5 ∧ pumps_of demo_bucket w = 2.
Proof.
  eexists _, _. split; [|split; [|split; [|split; [|split]]]].
  - eapply rtc_r; [eapply rtc_r; [exact demo_session|]|].
    + eapply (n_grant _ 0 _ demo_bucket 5); [reflexivity|reflexivity|reflexivity|by apply asks_iff|].
      split; [by repeat constructor|]. split; [|by repeat constructor]. intros _ _ t1 t2 Ht.
      cbn [in_window foldr log_of w_grants filter list_filter fmap list_fmap w_now fst snd].
      unfold nanos. cbn [demo_bucket b_burst b_rate]. case_bool_decide; nia.
    + eapply (n_turn _ 0 _ (λ _ _, None)); [reflexivity|reflexivity|by intros b|reflexivity].
  - reflexivity.
  - reflexivity.
  - reflexivity.
  - vm_compute. reflexivity.
  - vm_compute. reflexivity.
Qed.

Lemma bandwidth_bounded_witness :
  ∃ w, rtc nstep (start_net 0 8 idle_shared) w ∧ written_since demo_bucket 0 w = 5 ∧
    written_since demo_bucket 0 w * nanos ≤ 3 * 1024 * 1024 * nanos + 2 * 32768 * 2 * nanos.
Proof.
  destruct demo_sent as (w & p & Hr & Hp & Hl & Hnow & Hw & Hk). exists w. split; [exact Hr|]. split; [exact Hw|].
  pose proof (bandwidth_bounded 0 8 idle_shared w 0 p demo_bucket 0 Hr Hp Hl ltac:(lia)) as Hb.
  rewrite Hnow, Hk in Hb. change (Z.of_nat BufferSize) with 32768 in Hb. cbn [demo_bucket b_burst b_rate] in Hb. lia.
Defined.

Lemma limited_relay_delivers_witness :
  ∃ w' p', rtc nstep (start_net 0 8 idle_shared) w' ∧ w_pumps w' !! 0%nat = Some p' ∧ sent (p_dir p') = ("hello" : bytes).
Proof.
  destruct (limited_relay_delivers 0 8 idle_shared _ 0 _ demo_session eq_refl) as (w' & p' & Hr & Hp & Hs).
  - split; [reflexivity|]. split; [done|]. split; [repeat constructor; eauto|]. split; [reflexivity|].
    intros _ _. right. vm_compute. split_and!; congruence.
  - exists w', p'. split; [etrans; [exact demo_session|exact Hr]|]. split; [exact Hp|]. rewrite Hs. vm_compute. reflexivity.
Defined.

End BandwidthThms.
