(* ===== verification/Setup.v ===== *)
(** * Setting up: logging, auditing and tracing ([internal/observability]) and
    ACME certificates ([internal/transport/acme.go])

    These functions configure third-party packages (zap, lumberjack,
    OpenTelemetry, autocert).  Modelled is what they decide: levels, encoders,
    paths, what is recorded and in which order.  What the packages do with it
    is an argument: the level a text stands for, the results of creating the
    exporter and the resource. *)

From S2P Require Import Prelude GoNet Config.

(** ** Rotated files *)

Record rotation := { Filename : bytes; MaxSize : Z; MaxBackups : Z; MaxAge : Z; Compress : bool }.

Definition or_default (path dflt : bytes) : bytes := if bool_decide (path = []) then dflt else path.

(** ** Logging *)

Inductive encoder := JSONEncoder | ConsoleEncoder.

Inductive output := ToFile (r : rotation) | ToStdout.

(** A core of zap: encoder, output and the lowest level it writes. *)
Record log_core := { lc_encoder : encoder; lc_output : output; lc_level : Z }.

Definition InfoLevel : Z := 0.

(** [level.UnmarshalText] is an argument; [zap.New] with [NewTee]: the cores. *)
Definition NewLogger (unmarshal : bytes → res Z) (levelStr format logPath : bytes) : res (list log_core) :=
  let! level := match unmarshal levelStr with Fail _ => Ok InfoLevel | r => r end in
  let enc := if bool_decide (format = ("json" : bytes)) then JSONEncoder else ConsoleEncoder in
  let writer := ToFile {| Filename := or_default logPath "logs/agent.log"; MaxSize := 100; MaxBackups := 3; MaxAge := 28; Compress := true |} in
  Ok [{| lc_encoder := enc; lc_output := writer; lc_level := level |}; {| lc_encoder := enc; lc_output := ToStdout; lc_level := level |}].

(** Where a message of a level goes. *)
Definition written_to (l : Z) (cores : list log_core) : list output := lc_output <$> filter (λ c, lc_level c ≤ l) cores.

(** ** Auditing *)

Inductive field := FString (s : bytes) | FBool (b : bool) | FTime (t : Z) | FAny (v : any).

Record audit_event := { ae_message : bytes; ae_fields : list (bytes * field) }.

(** The global [auditLogger]: nil, or its file and what it has written. *)
Record audit_log := { al_core : log_core; al_events : list audit_event }.

Definition InitAuditLogger (path : bytes) : option audit_log :=
  Some {| al_core := {| lc_encoder := JSONEncoder;
                        lc_output := ToFile {| Filename := or_default path "logs/audit.log"; MaxSize := 50; MaxBackups := 5; MaxAge := 90;
                                               Compress := true |};
                        lc_level := InfoLevel |};
          al_events := [] |}.

(** [details] in the order of the map iteration. *)
Definition Audit (action : bytes) (success : bool) (now : Z) (details : list (bytes * any)) (l : option audit_log) : option audit_log :=
  match l with
  | None => None
  | Some l =>
      let fields := [("action" : bytes, FString action); ("success" : bytes, FBool success); ("timestamp" : bytes, FTime now)] ++
                    ((λ kv, (kv.1, FAny kv.2)) <$> details) in
      Some {| al_core := al_core l; al_events := al_events l ++ [{| ae_message := "audit_event"; ae_fields := fields |}] |}
  end.

(** ** Tracing *)

Record tracer_provider := { tp_endpoint : bytes; tp_insecure : bool; tp_service : bytes; tp_batch : Z; tp_always : bool }.

(** [exporter] and [resource]: the errors of [otlptracegrpc.New] and
    [resource.New]. *)
Definition InitTracing (exporter resource : option goerr) (endpoint serviceName : bytes) : res tracer_provider :=
  match exporter, resource with
  | Some e, _ => Fail e
  | None, Some e => Fail e
  | None, None =>
      Ok {| tp_endpoint := endpoint; tp_insecure := true; tp_service := serviceName; tp_batch := 5 * 1000000000; tp_always := true |}
  end.

(** ** ACME *)

Record acme_manager := { am_domains : list bytes; am_cache : bytes }.

(** The result of [os.MkdirAll] is dropped: [made] tells whether it worked. *)
Definition NewACMECertManager (made : bool) (cacheDir : bytes) (domains : list bytes) (f : fs) : acme_manager * fs :=
  let dir := or_default cacheDir "configs/certs/acme" in
  ({| am_domains := domains; am_cache := dir |}, if made then MkdirAll dir f else f).

Module SetupThms.

(** A logger writes to its file and to the terminal alike: a message goes to
    both or to neither, to both exactly when its level is not below the
    configured one, and an unknown level means information. *)
Theorem logger_tees (unmarshal : bytes → res Z) (levelStr format logPath : bytes) (cores : list log_core) (l : Z) :
  NewLogger unmarshal levelStr format logPath = Ok cores →
  ∃ r level, Filename r = or_default logPath "logs/agent.log" ∧
    (unmarshal levelStr = Ok level ∨ ((∃ e, unmarshal levelStr = Fail e) ∧ level = InfoLevel)) ∧
    written_to l cores = if bool_decide (level ≤ l) then [ToFile r; ToStdout] else [].
Proof.
  unfold NewLogger. set (r := {| Filename := _ |}). set (enc := if bool_decide _ then _ else _).
  assert (∀ level, written_to l [{| lc_encoder := enc; lc_output := ToFile r; lc_level := level |};
            {| lc_encoder := enc; lc_output := ToStdout; lc_level := level |}] = if bool_decide (level ≤ l) then [ToFile r; ToStdout] else []) as Hw.
  { intros level. unfold written_to. rewrite !filter_cons, filter_nil. cbn [lc_level]. case_decide; by case_bool_decide. }
  destruct (unmarshal levelStr) as [level|e|] eqn:E; [| |done]; intros [= <-]; exists r.
  - exists level. split; [done|]. split; [by left|apply Hw].
  - exists InfoLevel. split; [done|]. split; [right; eauto|apply Hw].
Qed.

(** The calls of [Audit]. *)
Record audit_call := { c_action : bytes; c_success : bool; c_now : Z; c_details : list (bytes * any) }.

Definition audit_all (cs : list audit_call) (l : option audit_log) : option audit_log :=
  fold_left (λ l c, Audit (c_action c) (c_success c) (c_now c) (c_details c) l) cs l.

(** The audit log records every call once it is set up: one event for each,
    in order, with its action, its result, its time and all its details; a
    call before that is lost. *)
Theorem audit_complete (path : bytes) (before cs : list audit_call) :
  audit_all before None = None ∧
  ∃ l, audit_all cs (InitAuditLogger path) = Some l ∧ length (al_events l) = length cs ∧
    ∀ i c, cs !! i = Some c → ∃ ev, al_events l !! i = Some ev ∧
      ("action" : bytes, FString (c_action c)) ∈ ae_fields ev ∧ ("success" : bytes, FBool (c_success c)) ∈ ae_fields ev ∧
      ("timestamp" : bytes, FTime (c_now c)) ∈ ae_fields ev ∧ ∀ k v, (k, v) ∈ c_details c → (k, FAny v) ∈ ae_fields ev.
Proof.
  split; [by induction before|]. induction cs as [|c cs IH] using rev_ind; [by eexists|].
  destruct IH as (l & E & Hlen & IH). unfold audit_all in *. rewrite fold_left_app, E. cbn [fold_left Audit].
  eexists. split; [done|]. cbn [al_events]. rewrite !length_app, Hlen. split; [done|].
  intros i c' [Hi|[Hi Hc]]%lookup_app_Some.
  - destruct (IH i c' Hi) as (ev & Hev & H). exists ev. split; [by apply lookup_app_l_Some|done].
  - destruct (i - length cs)%nat eqn:En; [|done]. injection Hc as <-. assert (i = length (al_events l)) as -> by lia.
    eexists. split; [apply list_lookup_middle; done|]. cbn. split_and!; try set_solver.
    intros k v Hkv. do 3 right. apply list_elem_of_fmap. by exists (k, v).
Qed.

End SetupThms.
