(* ===== verification/Running.v ===== *)
(** * Running inbounds: [syncInbounds] of [internal/agent/agent.go] over the handlers

    [Agent.v] describes which inbounds a configuration asks for; here they
    run.  Every handler the agent ever started is a process with the
    addresses it has still to bind and the sockets it holds ([Start] runs on
    a goroutine of its own, so a configuration may come before it has bound
    anything); the agent's table maps the key of an inbound to its process.
    The steps are configurations, binds, whatever happens on a socket, and
    the cancellation of the context.  An address is bound only while no open
    socket holds it; binding may always fail. *)

From S2P Require Import Prelude GoNet Stream Types Socks5Udp NPChain Obfs Limits Outbound Router UdpSession UdpRange Dns Config Inbound Agent Listener Serve.

(** ** Handlers *)

(** The methods of the TCP handlers. *)
Definition methods (h : inbound_handler) : option InboundHandler :=
  match h with
  | ISocks5 _ _ _ => Some socks5_inbound
  | IHTTP _ _ _ => Some http_inbound
  | ITCPForward _ _ _ => Some forward_inbound
  | ITCPBalance _ _ _ => Some balance_inbound
  | IRedirect _ _ => Some redirect_inbound
  | ITProxy _ _ => Some tproxy_inbound
  | IUDPForward _ _ | IUDPRange _ _ => None
  end.

Definition uses_proxy (h : inbound_handler) : bool :=
  match h with
  | ISocks5 _ p _ | IHTTP _ p _ | ITCPForward _ p _ | ITCPBalance _ p _ | IRedirect _ p | ITProxy _ p => p
  | IUDPForward _ _ | IUDPRange _ _ => false
  end.

Definition listen_of (h : inbound_handler) : bytes :=
  match h with
  | ISocks5 a _ _ | IHTTP a _ _ | ITCPForward a _ _ | ITCPBalance a _ _ | IRedirect a _ | ITProxy a _ | IUDPForward a _ | IUDPRange a _ => a
  end.

Definition is_http (h : inbound_handler) : bool := match h with IHTTP _ _ _ => true | _ => false end.

(** The addresses [UDPRangeHandler.Start] binds, none when the range is not
    one. *)
Definition range_addrs (listenAddr : bytes) : list bytes :=
  match SplitHostPort listenAddr with
  | Ok (host, portRange) =>
      match split_byte hyphen portRange with
      | [p0; p1] => (λ p, JoinHostPort host (Itoa p)) <$> seqZ (Atoi p0).1 ((Atoi p1).1 - (Atoi p0).1 + 1)
      | _ => []
      end
  | _ => []
  end.

Definition bind_addrs (h : inbound_handler) : list bytes :=
  match h with IUDPRange a _ => range_addrs a | _ => [listen_of h] end.

(** ** Sockets and processes *)

Inductive socket := Tcp (l : listener) | Udp (s : udp_sock).

Definition sock_open (s : socket) : bool := match s with Tcp l => is_open l | Udp u => u_open u end.

Record proc := { p_handler : inbound_handler; p_todo : list bytes; p_socks : list (bytes * socket) }.

Definition new_proc (h : inbound_handler) : proc := {| p_handler := h; p_todo := bind_addrs h; p_socks := [] |}.

(** [Start] binds the next address: with an error [Start] returns, but a port
    of a range is passed over. *)
Definition bind_sock (h : inbound_handler) (e : option goerr) : res socket :=
  match methods h with
  | Some m => let! l := ih_Start m e (uses_proxy h) in Ok (Tcp l)
  | None => let! u := udp_Start None e in Ok (Udp u)
  end.

Definition proc_bind (e : option goerr) (p : proc) : proc :=
  match p_todo p with
  | [] => p
  | a :: rest =>
      match bind_sock (p_handler p) e with
      | Ok s => {| p_handler := p_handler p; p_todo := rest; p_socks := p_socks p ++ [(a, s)] |}
      | _ => {| p_handler := p_handler p; p_todo := rest; p_socks := p_socks p |}
      end
  end.

(** [Stop] closes the sockets there are. *)
Definition sock_Stop (h : inbound_handler) (s : socket) : socket :=
  match s, methods h with
  | Tcp l, Some m => match ih_Stop m (Some l) with Some l' => Tcp l' | None => s end
  | Udp u, _ => Udp (udp_Stop u)
  | _, None => s
  end.

Definition proc_Stop (p : proc) : proc :=
  {| p_handler := p_handler p; p_todo := p_todo p; p_socks := (λ x, (x.1, sock_Stop (p_handler p) x.2)) <$> p_socks p |}.

(** What clients do, and the turns of the loops. *)
Inductive sock_step (h : inbound_handler) : socket → socket → Prop :=
| so_arrive l c : is_open l = true → sock_step h (Tcp l) (Tcp (enqueue c l))
| so_speak l i s : sock_step h (Tcp l) (Tcp (speak i s l))
| so_turn m l l' : methods h = Some m → looping l = true → ih_turn m l = Some l' → sock_step h (Tcp l) (Tcp l')
| so_datagram u d :
    u_open u = true →
    sock_step h (Udp u) (Udp {| u_open := u_open u; u_queue := u_queue u ++ [d]; u_ctx_done := u_ctx_done u; u_looping := u_looping u;
                                u_taken := u_taken u; u_errs := u_errs u |})
| so_receive u u' :
    u_looping u = true → (match h with IUDPRange _ _ => range_turn | _ => forward_turn end) u = Some u' → sock_step h (Udp u) (Udp u').

Definition sock_cancel (s : socket) : socket :=
  match s with
  | Tcp l => Tcp (cancel_ctx l)
  | Udp u => Udp {| u_open := u_open u; u_queue := u_queue u; u_ctx_done := true; u_looping := u_looping u; u_taken := u_taken u; u_errs := u_errs u |}
  end.

(** ** The agent and its processes *)

Record running := { r_active : gmap bytes nat; r_procs : list proc; r_done : bool }.

Definition start_running : running := {| r_active := ∅; r_procs := []; r_done := false |}.

(** The handlers in the agent's table. *)
Definition handlers (w : running) : gmap bytes inbound_handler := omap (λ i, p_handler <$> r_procs w !! i) (r_active w).

Definition configured (cfg : Config) (key : bytes) : bool := bool_decide (is_Some (inbound_map (Inbounds cfg) !! key)).

(** The processes whose inbound the configuration has no more. *)
Definition removed (cfg : Config) (w : running) (i : nat) : Prop := ∃ key, r_active w !! key = Some i ∧ configured cfg key = false.

Definition removed_list (cfg : Config) (w : running) : list nat :=
  (map_to_list (filter (λ ki, configured cfg ki.1 = false) (r_active w))).*2.

(** [syncInbounds]; [order] lists the inbounds to start in the order of the
    map iteration. *)
Definition run_sync (cfg : Config) (order : list (bytes * inbound_handler)) (w : running) : running :=
  {| r_active := filter (λ ki, configured cfg ki.1 = true) (r_active w) ∪
                 list_to_map (zip order.*1 (seq (length (r_procs w)) (length order)));
     r_procs := imap (λ i p, if bool_decide (i ∈ removed_list cfg w) then proc_Stop p else p) (r_procs w) ++ (new_proc <$> order.*2);
     r_done := r_done w |}.

Definition is_udp (h : inbound_handler) : bool := match methods h with Some _ => false | None => true end.

(** An open socket of a process holds the address. *)
Definition holds (p : proc) (udp : bool) (a : bytes) : Prop :=
  is_udp (p_handler p) = udp ∧ ∃ s, (a, s) ∈ p_socks p ∧ sock_open s = true.

Definition set_proc (i : nat) (p : proc) (w : running) : running :=
  {| r_active := r_active w; r_procs := <[i := p]> (r_procs w); r_done := r_done w |}.

Definition with_sock (k : nat) (x : bytes * socket) (p : proc) : proc :=
  {| p_handler := p_handler p; p_todo := p_todo p; p_socks := <[k := x]> (p_socks p) |}.

Definition cancel_proc (p : proc) : proc :=
  {| p_handler := p_handler p; p_todo := p_todo p; p_socks := (λ x, (x.1, sock_cancel x.2)) <$> p_socks p |}.

Inductive rlabel := RSync (cfg : Config) | RBind (i : nat) | ROther.

Inductive rstep : rlabel → running → running → Prop :=
| rs_sync w cfg order :
    order ≡ₚ map_to_list (sr_started (syncInbounds cfg (handlers w))) →
    rstep (RSync cfg) w (run_sync cfg order w)
| rs_bind w i p e :
    r_procs w !! i = Some p → p_todo p ≠ [] →
    (e = None → ∀ a j q, head (p_todo p) = Some a → r_procs w !! j = Some q → ¬ holds q (is_udp (p_handler p)) a) →
    rstep (RBind i) w (set_proc i (let p' := proc_bind e p in if r_done w then cancel_proc p' else p') w)
| rs_sock w i p k a s s' :
    r_procs w !! i = Some p → p_socks p !! k = Some (a, s) → sock_step (p_handler p) s s' →
    rstep ROther w (set_proc i (with_sock k (a, s') p) w)
| rs_cancel w :
    rstep ROther w {| r_active := r_active w; r_procs := cancel_proc <$> r_procs w; r_done := true |}
| rs_http_close w i p k a l :   (* the goroutine of the HTTP inbound that closes its server *)
    r_procs w !! i = Some p → is_http (p_handler p) = true → r_done w = true →
    p_socks p !! k = Some (a, Tcp l) →
    rstep ROther w (set_proc i (with_sock k (a, Tcp (listener_Stop l)) p) w).

Definition any_step (w w' : running) : Prop := ∃ x, rstep x w w'.

(** A configuration comes only when the inbounds it removes have finished
    starting. *)
Definition settled (x : rlabel) (w : running) : Prop :=
  match x with
  | RSync cfg => ∀ i p, removed cfg w i → r_procs w !! i = Some p → p_todo p = []
  | _ => True
  end.

Inductive careful : running → running → Prop :=
| careful_step x w w' : settled x w → rstep x w w' → careful w w'.

(** An open socket: the process, its position, the network and the address. *)
Definition opened (w : running) (i k : nat) (udp : bool) (a : bytes) : Prop :=
  ∃ p s, r_procs w !! i = Some p ∧ p_socks p !! k = Some (a, s) ∧ sock_open s = true ∧ is_udp (p_handler p) = udp.

Module RunningThms.

(** ** Sockets *)

Lemma turn_open h m l l' :
  methods h = Some m → ih_turn m l = Some l' →
  (is_open l' = true → is_open l = true) ∧ (is_http h = false → is_open l' = is_open l).
Proof.
  assert (accept_turn l = Some l' → is_open l' = is_open l) as Ha.
  { unfold accept_turn. destruct (listener_Accept l) as [[]|]; intros [= <-]; done. }
  assert (http_turn l = Some l' → is_open l' = true → is_open l = true) as Hh.
  { unfold http_turn. destruct (listener_Accept l) as [[]|]; intros [= <-]; [done|]. cbn. by intros [? _]%andb_true_iff. }
  destruct h; intros [= <-]; cbn [ih_turn is_http]; intros Ht; (split; [|try done]); try (by rewrite (Ha Ht)); by apply Hh.
Qed.

(** A step opens no socket, and closes none but of an HTTP inbound. *)
Lemma sock_step_open h s s' :
  sock_step h s s' → (sock_open s' = true → sock_open s = true) ∧ (is_http h = false → sock_open s' = sock_open s).
Proof.
  destruct 1 as [l c|l i b|m l l' Hm _ Ht|u d|u u' _ Ht]; [done|done|by eapply turn_open|done|].
  assert (∀ f, f = range_turn ∨ f = forward_turn → f u = Some u' → u_open u' = u_open u) as Hf.
  { intros f [->| ->]; unfold range_turn, forward_turn; destruct (ReadFromUDP u) as [[]|]; intros [= <-]; done. }
  assert (u_open u' = u_open u) as E by (destruct h; (exact (Hf _ (or_intror eq_refl) Ht) || exact (Hf _ (or_introl eq_refl) Ht))).
  cbn. by rewrite E.
Qed.

Lemma sock_cancel_open s : sock_open (sock_cancel s) = sock_open s.
Proof. by destruct s. Qed.

(** A socket of the kind its handler uses. *)
Definition typed (h : inbound_handler) (s : socket) : Prop := match s with Tcp _ => is_udp h = false | Udp _ => is_udp h = true end.

Lemma sock_Stop_closed h s : typed h s → sock_open (sock_Stop h s) = false ∧ typed h (sock_Stop h s).
Proof. destruct s as [l|u], h; done. Qed.

Lemma sock_step_typed h s s' : sock_step h s s' → typed h s → typed h s'.
Proof. by destruct 1. Qed.

Lemma bind_sock_typed h e s : bind_sock h e = Ok s → e = None ∧ typed h s ∧ sock_open s = true.
Proof. destruct h, e as [e|]; intros [= <-]; done. Qed.

Lemma bind_sock_free h : ∃ s, bind_sock h None = Ok s ∧ typed h s ∧ sock_open s = true.
Proof. destruct h; by eexists. Qed.

(** ** Processes *)

(** What every step but a bind does to a process. *)
Record evolves (p p' : proc) : Prop := {
  ev_handler : p_handler p' = p_handler p;
  ev_todo : p_todo p' = p_todo p;
  ev_socks : Forall2 (λ x y, y.1 = x.1 ∧ (sock_open y.2 = true → sock_open x.2 = true) ∧ (typed (p_handler p) x.2 → typed (p_handler p) y.2))
               (p_socks p) (p_socks p') }.

Lemma evolves_refl p : evolves p p.
Proof. split; [done|done|]. apply Forall2_same_length_lookup_2; [done|]. intros k x y Hx Hy. by simplify_eq. Qed.

Lemma evolves_map p f :
  (∀ s, (sock_open (f s) = true → sock_open s = true) ∧ (typed (p_handler p) s → typed (p_handler p) (f s))) →
  evolves p {| p_handler := p_handler p; p_todo := p_todo p; p_socks := (λ x, (x.1, f x.2)) <$> p_socks p |}.
Proof. intros Hf. split; [done|done|]. apply Forall2_fmap_r. apply Forall_Forall2_diag, Forall_true. intros [a s]. cbn. split; [done|apply Hf]. Qed.

Lemma evolves_cancel p : evolves p (cancel_proc p).
Proof. apply evolves_map. intros s. by rewrite sock_cancel_open; destruct s. Qed.

Lemma evolves_stop p : evolves p (proc_Stop p).
Proof.
  apply evolves_map. intros s. split; [|by intros Ht; apply sock_Stop_closed].
  destruct s as [l|u]; unfold sock_Stop; destruct (p_handler p); done.
Qed.

Lemma evolves_sock p k a s s' :
  p_socks p !! k = Some (a, s) → (sock_open s' = true → sock_open s = true) → (typed (p_handler p) s → typed (p_handler p) s') →
  evolves p (with_sock k (a, s') p).
Proof.
  intros Hk Ho Ht. split; [done|done|]. cbn. apply Forall2_same_length_lookup_2; [by rewrite length_insert|].
  intros j x y Hx Hy. destruct (decide (j = k)) as [->|Hne].
  - rewrite list_lookup_insert_eq in Hy by (by eapply lookup_lt_Some). by simplify_eq.
  - rewrite list_lookup_insert_ne in Hy by done. by simplify_eq.
Qed.

(** ** Steps *)

Lemma evolves_insert l i p p' : l !! i = Some p → evolves p p' → Forall2 evolves l (<[i := p']> l).
Proof.
  intros Hi He. apply Forall2_same_length_lookup_2; [by rewrite length_insert|]. intros j x y Hx Hy.
  destruct (decide (j = i)) as [->|Hne].
  - rewrite list_lookup_insert_eq in Hy by (by eapply lookup_lt_Some). by simplify_eq.
  - rewrite list_lookup_insert_ne in Hy by done. simplify_eq. apply evolves_refl.
Qed.

(** A step moves all processes on and may add new ones, or it binds. *)
Definition moves (w w' : running) : Prop :=
  ∃ l hs, r_procs w' = l ++ (new_proc <$> hs) ∧ Forall2 evolves (r_procs w) l.

Definition binds (i : nat) (w w' : running) : Prop :=
  ∃ p e q, r_procs w !! i = Some p ∧ p_todo p ≠ [] ∧ r_procs w' = <[i := q]> (r_procs w) ∧ r_active w' = r_active w ∧
    evolves (proc_bind e p) q ∧
    (e = None → ∀ a j q, head (p_todo p) = Some a → r_procs w !! j = Some q → ¬ holds q (is_udp (p_handler p)) a).

Lemma moves_insert w w' i p p' : r_procs w !! i = Some p → evolves p p' → r_procs w' = <[i := p']> (r_procs w) → moves w w'.
Proof. intros Hi He E. exists (<[i := p']> (r_procs w)), []. rewrite E, app_nil_r. split; [done|]. by eapply evolves_insert. Qed.

Lemma rstep_shape x w w' : rstep x w w' → moves w w' ∨ ∃ i, x = RBind i ∧ binds i w w'.
Proof.
  destruct 1 as [w cfg order Ho|w i p e Hp Ht Hfree|w i p k a s s' Hp Hk Hs|w|w i p k a l Hp Hh Hd Hk].
  - left. eexists _, order.*2. split; [reflexivity|]. apply Forall2_same_length_lookup_2; [by rewrite length_imap|].
    intros i p q Hp Hq. rewrite list_lookup_imap, Hp in Hq. cbn in Hq. injection Hq as <-.
    case_bool_decide; [apply evolves_stop|apply evolves_refl].
  - right. exists i. split; [done|]. eexists p, e, _. split; [done|]. split; [done|]. split; [reflexivity|]. split; [done|].
    split; [|done]. destruct (r_done w); [apply evolves_cancel|apply evolves_refl].
  - left. eapply moves_insert; [exact Hp| |reflexivity].
    eapply evolves_sock; [exact Hk|by apply (sock_step_open _ _ _ Hs)|by apply sock_step_typed].
  - left. exists (cancel_proc <$> r_procs w), []. split; [by rewrite app_nil_r|]. apply Forall2_fmap_r.
    apply Forall_Forall2_diag, Forall_true. apply evolves_cancel.
  - left. eapply moves_insert; [exact Hp| |reflexivity]. by eapply evolves_sock.
Qed.

Lemma moves_lookup w w' i q :
  moves w w' → r_procs w' !! i = Some q →
  (∃ p, r_procs w !! i = Some p ∧ evolves p q) ∨ (length (r_procs w) ≤ i)%nat ∧ ∃ h, q = new_proc h.
Proof.
  intros (l & hs & E & Hl) Hq. rewrite E in Hq. apply lookup_app_Some in Hq as [Hq|[Hlen Hq]].
  - left. eapply Forall2_lookup_r in Hl as (p & Hp & He); [|exact Hq]. eauto.
  - right. split; [by rewrite (Forall2_length _ _ _ Hl)|]. apply list_lookup_fmap_Some in Hq as (h & -> & _). eauto.
Qed.

Lemma evolves_lookup p q k a s :
  evolves p q → p_socks q !! k = Some (a, s) →
  ∃ s0, p_socks p !! k = Some (a, s0) ∧ (sock_open s = true → sock_open s0 = true) ∧ (typed (p_handler p) s0 → typed (p_handler p) s).
Proof.
  intros [_ _ Hs] Hk. eapply Forall2_lookup_r in Hs as ([a0 s0] & Hx & E & Ho & Ht); [|exact Hk]. cbn in E. subst a0. eauto.
Qed.

Lemma opened_moves w w' i k u a : moves w w' → opened w' i k u a → opened w i k u a.
Proof.
  intros Hm (q & s & Hq & Hk & Ho & Hu). destruct (moves_lookup _ _ _ _ Hm Hq) as [(p & Hp & He)|(_ & h & ->)]; [|done].
  destruct (evolves_lookup _ _ _ _ _ He Hk) as (s0 & Hs0 & Ho0 & _). exists p, s0.
  split; [done|]. split; [done|]. split; [by apply Ho0|]. by rewrite <-(ev_handler _ _ He).
Qed.

(** The new socket of a bind. *)
Lemma bind_lookup e p k a s :
  p_socks (proc_bind e p) !! k = Some (a, s) →
  p_socks p !! k = Some (a, s) ∨
  (e = None ∧ k = length (p_socks p) ∧ head (p_todo p) = Some a ∧ typed (p_handler p) s).
Proof.
  unfold proc_bind. destruct (p_todo p) as [|a0 rest] eqn:E; [by left|].
  destruct (bind_sock (p_handler p) e) as [s0| |] eqn:Eb; [|by left|by left]. apply bind_sock_typed in Eb as (-> & Ht & _). cbn.
  intros [Hk|[Hl Hk]]%lookup_app_Some; [by left|]. destruct (k - length (p_socks p))%nat eqn:Ek; [|done]. cbn in Hk.
  simplify_eq. right. split; [done|]. split; [lia|done].
Qed.

Lemma bind_handler e p : p_handler (proc_bind e p) = p_handler p.
Proof. unfold proc_bind. destruct (p_todo p); [done|]. by destruct (bind_sock _ _). Qed.

Lemma opened_binds w w' i0 i k u a :
  binds i0 w w' → opened w' i k u a →
  opened w i k u a ∨
  (i = i0 ∧ (∃ p, r_procs w !! i0 = Some p ∧ k = length (p_socks p)) ∧ ∀ j k', ¬ opened w j k' u a).
Proof.
  intros (p & e & q & Hp & Ht & E & _ & He & Hfree) (q' & s & Hq & Hk & Ho & Hu). rewrite E in Hq.
  destruct (decide (i = i0)) as [->|Hne]; [|rewrite list_lookup_insert_ne in Hq by done; left; by exists q', s].
  rewrite list_lookup_insert_eq in Hq by (by eapply lookup_lt_Some). injection Hq as <-.
  destruct (evolves_lookup _ _ _ _ _ He Hk) as (s0 & Hs0 & Ho0 & _).
  assert (is_udp (p_handler p) = u) as Hpu by (by rewrite <-Hu, (ev_handler _ _ He), bind_handler).
  destruct (bind_lookup _ _ _ _ _ Hs0) as [Hold|(-> & -> & Hh & _)].
  - left. exists p, s0. split; [done|]. split; [done|]. split; [by apply Ho0|done].
  - right. split; [done|]. split; [by exists p|]. intros j k' (pj & sj & Hpj & Hkj & Hoj & Huj).
    apply (Hfree eq_refl a j pj Hh Hpj). split; [by rewrite Huj|]. exists sj. split; [by eapply list_elem_of_lookup_2|done].
Qed.

(** ** One socket for an address *)

Definition exclusive (w : running) : Prop :=
  ∀ i k j k' u a, opened w i k u a → opened w j k' u a → i = j ∧ k = k'.

Lemma exclusive_step x w w' : exclusive w → rstep x w w' → exclusive w'.
Proof.
  intros Hx Hs i k j k' u a H1 H2. destruct (rstep_shape _ _ _ Hs) as [Hm|(i0 & _ & Hb)].
  - eapply Hx; by eapply opened_moves.
  - destruct (opened_binds _ _ _ _ _ _ _ Hb H1) as [O1|(-> & (p & Hp & ->) & N1)],
      (opened_binds _ _ _ _ _ _ _ Hb H2) as [O2|(-> & (p' & Hp' & ->) & N2)]; [by eapply Hx|by destruct (N2 _ _ O1)|by destruct (N1 _ _ O2)|].
    split; [done|]. by simplify_eq.
Qed.

Lemma exclusive_reachable w w' : exclusive w → rtc any_step w w' → exclusive w'.
Proof. intros Hx Hr. induction Hr as [w|w1 w2 w3 [x Hs] _ IH]; [done|]. apply IH. by eapply exclusive_step. Qed.

Lemma exclusive_start : exclusive start_running.
Proof. intros i k j k' u a (p & s & Hp & _). done. Qed.

(** ** The table *)

Lemma sync_started cfg active key :
  sr_started (syncInbounds cfg active) !! key =
  match inbound_map (Inbounds cfg) !! key with
  | None => None
  | Some c => match active !! key with Some _ => None | None => new_inbound c end
  end.
Proof.
  unfold syncInbounds. cbn [sr_started]. rewrite lookup_omap.
  destruct (inbound_map (Inbounds cfg) !! key) as [c|] eqn:E; [|by rewrite (proj2 (map_lookup_filter_None _ _ _)) by (by left)].
  destruct (active !! key) as [h|] eqn:Ea.
  - rewrite (proj2 (map_lookup_filter_None _ _ _)); [done|]. right. intros c' _. cbn.
    rewrite (proj2 (map_lookup_filter_Some _ _ _ h)); [done|]. split; [done|]. cbn. by rewrite E.
  - rewrite (proj2 (map_lookup_filter_Some _ _ _ c)); [cbn; by destruct (new_inbound c)|]. split; [done|]. cbn.
    apply map_lookup_filter_None. by left.
Qed.

(** Where the new inbounds go. *)
Lemma zip_seq_lookup (order : list (bytes * inbound_handler)) n key j :
  NoDup order.*1 →
  (list_to_map (zip order.*1 (seq n (length order))) : gmap bytes nat) !! key = Some j ↔
  ∃ m h, order !! m = Some (key, h) ∧ j = (n + m)%nat.
Proof.
  intros Hnd. rewrite <-elem_of_list_to_map by (rewrite fst_zip; [done|]; rewrite length_seq, length_fmap; lia).
  rewrite list_elem_of_lookup. split.
  - intros (m & (k & j' & [= -> ->] & Hk & Hj)%lookup_zip_with_Some). apply lookup_seq in Hj as [-> _].
    apply list_lookup_fmap_Some in Hk as ([k' h] & -> & Hm). eauto.
  - intros (m & h & Hm & ->). exists m. apply lookup_zip_with_Some. exists key, (n + m)%nat. split; [done|].
    rewrite list_lookup_fmap, Hm. split; [done|]. apply lookup_seq. split; [done|]. by eapply lookup_lt_Some.
Qed.

(** The table points to processes under their keys. *)
Definition table_ok (w : running) : Prop :=
  ∀ key i, r_active w !! key = Some i → ∃ p, r_procs w !! i = Some p ∧ AgentThms.handler_key (p_handler p) = key.

Lemma handlers_lookup w key : handlers w !! key = r_active w !! key ≫= λ i, p_handler <$> r_procs w !! i.
Proof. unfold handlers. by rewrite lookup_omap. Qed.

Lemma handlers_None w key : table_ok w → handlers w !! key = None ↔ r_active w !! key = None.
Proof.
  intros Hw. rewrite handlers_lookup. destruct (r_active w !! key) as [i|] eqn:E; cbn; [|done].
  destruct (Hw _ _ E) as (p & -> & _). done.
Qed.

Section sync.
Context (cfg : Config) (order : list (bytes * inbound_handler)) (w : running).
Hypothesis Hw : table_ok w.
Hypothesis Ho : order ≡ₚ map_to_list (sr_started (syncInbounds cfg (handlers w))).

Lemma order_nodup : NoDup order.*1.
Proof. rewrite Ho. apply NoDup_fst_map_to_list. Qed.

Lemma order_elem key h :
  (key, h) ∈ order ↔ ∃ c, inbound_map (Inbounds cfg) !! key = Some c ∧ r_active w !! key = None ∧ new_inbound c = Some h.
Proof.
  rewrite Ho, elem_of_map_to_list, sync_started. setoid_rewrite <-(handlers_None w key Hw).
  destruct (inbound_map _ !! key) as [c|]; [|naive_solver]. destruct (handlers w !! key); naive_solver.
Qed.

(** The table afterwards: a configured inbound that was there, or a new one. *)
Lemma sync_active key i :
  r_active (run_sync cfg order w) !! key = Some i ↔
  (configured cfg key = true ∧ r_active w !! key = Some i) ∨
  (∃ m h, order !! m = Some (key, h) ∧ i = (length (r_procs w) + m)%nat).
Proof.
  cbn [run_sync r_active]. rewrite lookup_union_Some_raw, map_lookup_filter_Some, map_lookup_filter_None, (zip_seq_lookup _ _ _ _ order_nodup).
  split; [naive_solver|]. intros [[Hc Ha]|(m & h & Hm & ->)]; [by left|right]. split; [|eauto]. left.
  apply list_elem_of_lookup_2, order_elem in Hm as (c & _ & Ha & _). done.
Qed.

(** The processes afterwards. *)
Lemma sync_procs i q :
  r_procs (run_sync cfg order w) !! i = Some q ↔
  (∃ p, r_procs w !! i = Some p ∧ q = if bool_decide (i ∈ removed_list cfg w) then proc_Stop p else p) ∨
  (∃ m key h, order !! m = Some (key, h) ∧ i = (length (r_procs w) + m)%nat ∧ q = new_proc h).
Proof.
  cbn [run_sync r_procs]. rewrite lookup_app_Some, length_imap, list_lookup_imap_Some. split.
  - intros [(p & Hp & ->)|[Hl Hq]]; [left; eauto|]. right. rewrite !list_lookup_fmap in Hq.
    destruct (order !! (i - length (r_procs w))%nat) as [[key h]|] eqn:E; [|done]. injection Hq as <-.
    exists (i - length (r_procs w))%nat, key, h. split; [done|]. split; [lia|done].
  - intros [(p & Hp & ->)|(m & key & h & Hm & -> & ->)]; [left; eauto|]. right. split; [lia|].
    replace (length (r_procs w) + m - length (r_procs w))%nat with m by lia. by rewrite !list_lookup_fmap, Hm.
Qed.

Lemma sync_table : table_ok (run_sync cfg order w).
Proof.
  intros key i [[_ Ha]|(m & h & Hm & ->)]%sync_active.
  - destruct (Hw _ _ Ha) as (p & Hp & Hk). eexists. split; [apply sync_procs; left; by exists p|]. by case_bool_decide.
  - exists (new_proc h). split; [apply sync_procs; right; by exists m, key, h|]. cbn.
    apply list_elem_of_lookup_2, order_elem in Hm as (c & Hc & _ & Hn).
    by rewrite (AgentThms.new_inbound_key _ _ Hn), (AgentThms.inbound_map_key _ _ _ Hc).
Qed.

(** The table shows the agent's handlers. *)
Lemma sync_handlers : handlers (run_sync cfg order w) = sr_active (syncInbounds cfg (handlers w)).
Proof.
  apply map_eq. intros key. rewrite AgentThms.sync_lookup, handlers_lookup.
  destruct (r_active (run_sync cfg order w) !! key) as [i|] eqn:E; cbn [mbind option_bind].
  - apply sync_active in E as [[Hc Ha]|(m & h & Hm & ->)].
    + apply bool_decide_eq_true in Hc as [c Hc]. rewrite Hc. destruct (Hw _ _ Ha) as (p & Hp & _).
      assert (handlers w !! key = Some (p_handler p)) as -> by (rewrite handlers_lookup, Ha; cbn; by rewrite Hp).
      rewrite (proj2 (sync_procs i (if bool_decide (i ∈ removed_list cfg w) then proc_Stop p else p))); [|left; by exists p]. cbn. by case_bool_decide.
    + rewrite (proj2 (sync_procs _ (new_proc h))); [|right; by exists m, key, h].
      apply list_elem_of_lookup_2, order_elem in Hm as (c & -> & Ha & Hn). by rewrite (proj2 (handlers_None w key Hw) Ha).
  - destruct (inbound_map (Inbounds cfg) !! key) as [c|] eqn:Ec; [|done].
    assert (r_active w !! key = None) as Ha.
    { destruct (r_active w !! key) as [i|] eqn:Ha; [|done]. rewrite (proj2 (sync_active key i)) in E; [done|].
      left. split; [|done]. apply bool_decide_eq_true. by rewrite Ec. }
    rewrite (proj2 (handlers_None w key Hw) Ha). destruct (new_inbound c) as [h|] eqn:Hn; [|done].
    assert ((key, h) ∈ order) as [m Hm]%list_elem_of_lookup by (apply order_elem; eauto).
    rewrite (proj2 (sync_active key (length (r_procs w) + m))) in E; [done|]. right. eauto.
Qed.

End sync.

Lemma removed_elem cfg w i : i ∈ removed_list cfg w ↔ removed cfg w i.
Proof.
  unfold removed_list, removed. rewrite list_elem_of_fmap. split.
  - intros ([key j] & -> & [Ha Hc]%elem_of_map_to_list%map_lookup_filter_Some). eauto.
  - intros (key & Ha & Hc). exists (key, i). split; [done|]. by apply elem_of_map_to_list, map_lookup_filter_Some.
Qed.

(** Sockets have the kind of their handler. *)
Definition socks_typed (w : running) : Prop :=
  ∀ i p k a s, r_procs w !! i = Some p → p_socks p !! k = Some (a, s) → typed (p_handler p) s.

Record run_inv (w : running) : Prop := { ri_table : table_ok w; ri_typed : socks_typed w; ri_excl : exclusive w }.

Lemma moves_table w w' : moves w w' → table_ok w → r_active w' = r_active w → table_ok w'.
Proof.
  intros (l & hs & E & Hl) Hw Ha key i Hk. rewrite Ha in Hk. destruct (Hw _ _ Hk) as (p & Hp & <-).
  eapply Forall2_lookup_l in Hl as (q & Hq & He); [|exact Hp]. exists q. rewrite E. split; [by apply lookup_app_l_Some|].
  by rewrite (ev_handler _ _ He).
Qed.

Lemma binds_table i w w' : binds i w w' → table_ok w → table_ok w'.
Proof.
  intros (p & e & q & Hp & _ & E & Ea & He & _) Hw key j Hk. rewrite Ea in Hk. destruct (Hw _ _ Hk) as (pj & Hj & <-). rewrite E.
  destruct (decide (i = j)) as [->|Hne]; [|rewrite list_lookup_insert_ne by done; eauto].
  rewrite list_lookup_insert_eq by (by eapply lookup_lt_Some). exists q. split; [done|]. simplify_eq.
  by rewrite (ev_handler _ _ He), bind_handler.
Qed.

Lemma run_inv_step x w w' : run_inv w → rstep x w w' → run_inv w'.
Proof.
  intros [Hw Ht Hx] Hs. split; [| |by eapply exclusive_step].
  - pose proof (rstep_shape _ _ _ Hs) as [Hm|(i & _ & Hb)]; [|by eapply binds_table].
    destruct Hs; [by apply sync_table|by eapply moves_table..].
  - intros i q k a s Hq Hk. destruct (rstep_shape _ _ _ Hs) as [Hm|(i0 & _ & Hb)].
    + destruct (moves_lookup _ _ _ _ Hm Hq) as [(p & Hp & He)|(_ & h & ->)]; [|done].
      destruct (evolves_lookup _ _ _ _ _ He Hk) as (s0 & Hs0 & _ & Hty). rewrite (ev_handler _ _ He). by eapply Hty, Ht.
    + destruct Hb as (p & e & q' & Hp & _ & E & _ & He & _). rewrite E in Hq.
      destruct (decide (i0 = i)) as [->|Hne]; [|rewrite list_lookup_insert_ne in Hq by done; by eapply Ht].
      rewrite list_lookup_insert_eq in Hq by (by eapply lookup_lt_Some). simplify_eq.
      destruct (evolves_lookup _ _ _ _ _ He Hk) as (s0 & Hs0 & _ & Hty). rewrite (ev_handler _ _ He). apply Hty. rewrite bind_handler.
      destruct (bind_lookup _ _ _ _ _ Hs0) as [Hold|(_ & _ & _ & Hs1)]; [by eapply Ht|done].
Qed.

Lemma run_inv_start : run_inv start_running.
Proof. split; [by intros key i ?|by intros i p k a s ?|apply exclusive_start]. Qed.

Lemma run_inv_rtc w w' : run_inv w → rtc any_step w w' → run_inv w'.
Proof. intros Hi Hr. induction Hr as [w|w1 w2 w3 [x Hs] _ IH]; [done|]. apply IH. by eapply run_inv_step. Qed.

(** ** No inbound without an entry *)

Definition alive (p : proc) : Prop := p_todo p ≠ [] ∨ ∃ k a s, p_socks p !! k = Some (a, s) ∧ sock_open s = true.

Lemma alive_evolves p q : evolves p q → alive q → alive p.
Proof.
  intros He [Ht|(k & a & s & Hk & Ho)]; [left; by rewrite <-(ev_todo _ _ He)|].
  destruct (evolves_lookup _ _ _ _ _ He Hk) as (s0 & Hs0 & Ho0 & _). right. exists k, a, s0. auto.
Qed.

Lemma stopped_dead p :
  (∀ k a s, p_socks p !! k = Some (a, s) → typed (p_handler p) s) → p_todo p = [] → ¬ alive (proc_Stop p).
Proof.
  intros Hty Ht [Ha|(k & a & s & Hk & Ho)]; [done|]. cbn in Hk. rewrite list_lookup_fmap in Hk.
  destruct (p_socks p !! k) as [[a0 s0]|] eqn:E; [|done]. injection Hk as -> <-.
  destruct (sock_Stop_closed _ _ (Hty _ _ _ E)) as [Hc _]. congruence.
Qed.

Lemma other_keeps w w' : rstep ROther w w' → r_active w' = r_active w ∧ length (r_procs w') = length (r_procs w).
Proof. inversion 1; subst; cbn; by rewrite ?length_insert, ?length_fmap. Qed.

Definition tracked (w : running) : Prop := ∀ i p, r_procs w !! i = Some p → alive p → ∃ key, r_active w !! key = Some i.

Lemma tracked_sync cfg order w :
  run_inv w → order ≡ₚ map_to_list (sr_started (syncInbounds cfg (handlers w))) → settled (RSync cfg) w → tracked w →
  tracked (run_sync cfg order w).
Proof.
  intros [Hw Hty _] Ho Hset Ht i q [(p & Hp & ->)|(m & key & h & Hm & -> & ->)]%(sync_procs cfg order w) Ha.
  - case_bool_decide as Hr.
    + apply removed_elem in Hr. destruct (stopped_dead p); [intros; by eapply Hty|by eapply Hset|done].
    + destruct (Ht i p Hp Ha) as [key Hk]. exists key. apply (sync_active cfg order w Hw Ho). left. split; [|done].
      destruct (configured cfg key) eqn:Hc; [done|]. destruct Hr. apply removed_elem. by exists key.
  - exists key. apply (sync_active cfg order w Hw Ho). right. eauto.
Qed.

Lemma careful_any w w' : careful w w' → any_step w w'.
Proof. destruct 1 as [x w w' _ Hs]. by exists x. Qed.

Lemma tracked_careful w w' : run_inv w → tracked w → careful w w' → tracked w'.
Proof.
  intros Hi Ht Hc. revert Hi Ht. destruct Hc as [x w0 w1 Hset Hs]. intros Hi Ht. destruct x as [cfg|i0|].
  - inversion Hs as [w2 cfg2 order Hord| | | |]; subst. exact (tracked_sync cfg order w0 Hi Hord Hset Ht).
  - intros i q Hq Ha. destruct (rstep_shape _ _ _ Hs) as [Hm|(j & [= <-] & (p & e & q' & Hp & Htodo & E & Ea & He & _))].
    { inversion Hs; subst. cbn in Hq |- *. destruct (decide (i = i0)) as [->|Hne];
        [apply (Ht _ _ ltac:(eassumption)); by left|]. rewrite list_lookup_insert_ne in Hq by done. by eapply Ht. }
    rewrite Ea. rewrite E in Hq. destruct (decide (i = i0)) as [->|Hne]; [|rewrite list_lookup_insert_ne in Hq by done; by eapply Ht].
    apply (Ht i0 p Hp). by left.
  - destruct (other_keeps _ _ Hs) as [Ea El]. intros i q Hq Ha. rewrite Ea.
    destruct (rstep_shape _ _ _ Hs) as [Hm|(j & ? & _)]; [|done].
    destruct (moves_lookup _ _ _ _ Hm Hq) as [(p & Hp & He)|(Hl & _)].
    + eapply Ht; [exact Hp|]. by eapply alive_evolves.
    + apply lookup_lt_Some in Hq. lia.
Qed.

(** C14: nothing listens that the agent does not know of.  As long as
    configurations come when the inbounds they remove have finished starting,
    in every state the handler of every open socket, and every handler that
    has still to bind, is the one in the agent's table under its own key; and
    at any time at most one open socket of a network holds an address. *)
Theorem inbounds_tracked (w : running) :
  rtc careful start_running w →
  (∀ i k udp a, opened w i k udp a →
     (∃ p, r_procs w !! i = Some p ∧ r_active w !! AgentThms.handler_key (p_handler p) = Some i) ∧
     ∀ j k', opened w j k' udp a → j = i ∧ k' = k) ∧
  (∀ i p, r_procs w !! i = Some p → p_todo p ≠ [] → r_active w !! AgentThms.handler_key (p_handler p) = Some i).
Proof.
  intros Hr. assert (run_inv w ∧ tracked w) as [[Hw _ Hx] Ht].
  { assert (run_inv start_running ∧ tracked start_running) as H0 by (split; [apply run_inv_start|by intros ???]).
    induction Hr as [w|w1 w2 w3 Hs _ IH]; [done|]. apply IH. destruct H0 as [Hi Ht].
    split; [|by eapply tracked_careful]. apply careful_any in Hs as [x Hs]. by eapply run_inv_step. }
  assert (∀ i p, r_procs w !! i = Some p → (∃ key, r_active w !! key = Some i) →
    r_active w !! AgentThms.handler_key (p_handler p) = Some i) as Hkey.
  { intros i p Hp [key Hk]. destruct (Hw _ _ Hk) as (p' & Hp' & Hh). by simplify_eq. }
  split.
  - intros i k udp a Ho. split; [|intros j k' Hj; by destruct (Hx _ _ _ _ _ _ Hj Ho)].
    destruct Ho as (p & s & Hp & Hk & Hop & _). exists p. split; [done|]. apply Hkey; [done|]. apply (Ht i p Hp). right. eauto.
  - intros i p Hp Htodo. apply Hkey; [done|]. apply (Ht i p Hp). by left.
Qed.

Lemma sync_removed cfg order w i p :
  run_inv w → order ≡ₚ map_to_list (sr_started (syncInbounds cfg (handlers w))) → r_procs w !! i = Some p → removed cfg w i →
  (∀ key, r_active (run_sync cfg order w) !! key ≠ Some i) ∧ ∀ k udp a, ¬ opened (run_sync cfg order w) i k udp a.
Proof.
  intros [Hw Hty _] Ho Hp Hrem. split.
  - intros key [[Hc Ha]|(m & h & _ & ->)]%(sync_active cfg order w Hw Ho).
    + destruct Hrem as (key' & Ha' & Hc'). destruct (Hw _ _ Ha) as (q & Hq & <-), (Hw _ _ Ha') as (q' & Hq' & <-).
      simplify_eq. congruence.
    + apply lookup_lt_Some in Hp. lia.
  - intros k udp a (q & s & Hq & Hk & Hop & _). apply (sync_procs cfg order w) in Hq as [(p' & Hp' & ->)|(m & key & h & _ & -> & _)].
    + rewrite bool_decide_true in Hk by (by apply removed_elem). cbn in Hk. rewrite list_lookup_fmap in Hk.
      destruct (p_socks p' !! k) as [[a0 s0]|] eqn:E; [|done]. injection Hk as -> <-.
      destruct (sock_Stop_closed _ _ (Hty _ _ _ _ _ Hp' E)) as [Hc _]. congruence.
    + apply lookup_lt_Some in Hp. lia.
Qed.

(** C15: the running inbounds implement the agent's table.  In every reachable
    state a configuration changes the handlers the table points to exactly as
    [syncInbounds] says; the inbounds it keeps are not touched, neither their
    sockets nor their waiting clients, and of those it removes every socket
    is closed. *)
Theorem running_refines_agent (w : running) (cfg : Config) (order : list (bytes * inbound_handler)) (i : nat) (p : proc) :
  rtc any_step start_running w → order ≡ₚ map_to_list (sr_started (syncInbounds cfg (handlers w))) →
  r_procs w !! i = Some p →
  let w' := run_sync cfg order w in
  handlers w' = sr_active (syncInbounds cfg (handlers w)) ∧
  (¬ removed cfg w i → r_procs w' !! i = Some p) ∧
  (removed cfg w i → (∀ key, r_active w' !! key ≠ Some i) ∧ ∀ k udp a, ¬ opened w' i k udp a).
Proof.
  intros Hr Ho Hp w'. pose proof (run_inv_rtc _ _ run_inv_start Hr) as Hi. split; [apply sync_handlers; [apply Hi|done]|].
  split; intros Hrem; [|by eapply sync_removed].
  apply (sync_procs cfg order w). left. exists p. split; [done|]. rewrite bool_decide_false; [done|]. by rewrite removed_elem.
Qed.

(** ** An inbound stopped too early *)

(** A process outside the table with an open listener. *)
Definition orphan (i k : nat) (a : bytes) (w : running) : Prop :=
  ∃ p l, r_procs w !! i = Some p ∧ is_udp (p_handler p) = false ∧ is_http (p_handler p) = false ∧
    p_socks p !! k = Some (a, Tcp l) ∧ is_open l = true ∧ ∀ key, r_active w !! key ≠ Some i.

Lemma orphan_set i k a w j p q :
  orphan i k a w → r_procs w !! j = Some p → p_handler q = p_handler p →
  (∀ l, is_http (p_handler p) = false → p_socks p !! k = Some (a, Tcp l) → is_open l = true → ∃ l', p_socks q !! k = Some (a, Tcp l') ∧ is_open l' = true) →
  orphan i k a (set_proc j q w).
Proof.
  intros (pi & l & Hp & Hu & Hh & Hk & Ho & Hn) Hj Hq Hs. unfold orphan. cbn [set_proc r_procs r_active].
  destruct (decide (i = j)) as [<-|Hne].
  - simplify_eq. destruct (Hs l Hh Hk Ho) as (l' & Hk' & Ho'). exists q, l'. rewrite list_lookup_insert_eq by (by eapply lookup_lt_Some).
    by rewrite Hq.
  - exists pi, l. by rewrite list_lookup_insert_ne by done.
Qed.

Lemma bind_keeps e p k x : p_socks p !! k = Some x → p_socks (proc_bind e p) !! k = Some x.
Proof.
  intros Hk. unfold proc_bind. destruct (p_todo p); [done|]. destruct (bind_sock _ _); [|done|done]. by apply lookup_app_l_Some.
Qed.

Lemma cancel_keeps p k a l :
  p_socks p !! k = Some (a, Tcp l) → ∃ l', p_socks (cancel_proc p) !! k = Some (a, Tcp l') ∧ is_open l' = is_open l.
Proof. intros Hk. exists (cancel_ctx l). cbn. by rewrite list_lookup_fmap, Hk. Qed.

Lemma orphan_step i k a x w w' : run_inv w → orphan i k a w → rstep x w w' → orphan i k a w'.
Proof.
  intros [Hw _ _] Ho Hs. revert Hw Ho.
  destruct Hs as [w cfg order Hord|w j p e Hp Ht Hfree|w j p k' a' s s' Hp Hk' Hs|w|w j p k' a' l' Hp Hh' Hd Hk']; intros Hw Ho.
  - destruct Ho as (p & l & Hp & Hu & Hh & Hk & Hop & Hn). exists p, l. split; [|repeat split; try done].
    + apply (sync_procs cfg order w). left. exists p. split; [done|]. rewrite bool_decide_false; [done|].
      rewrite removed_elem. intros (key & Ha & _). by destruct (Hn key).
    + intros key [[_ Ha]|(m & h & _ & ->)]%(sync_active cfg order w Hw Hord); [by destruct (Hn key)|].
      apply lookup_lt_Some in Hp. lia.
  - eapply orphan_set; [done|exact Hp| |].
    + destruct (r_done w); [by rewrite <-(bind_handler e p)|apply bind_handler].
    + intros l _ Hk Hop. pose proof (bind_keeps e p k _ Hk) as Hk'. destruct (r_done w); [|eauto].
      destruct (cancel_keeps _ _ _ _ Hk') as (l1 & ? & E). exists l1. by rewrite E.
  - eapply orphan_set; [done|exact Hp|done|]. intros l Hh Hk Hop. cbn. destruct (decide (k' = k)) as [->|Hne].
    + rewrite list_lookup_insert_eq by (by eapply lookup_lt_Some). simplify_eq.
      destruct (sock_step_open _ _ _ Hs) as [_ E]. specialize (E Hh). inversion Hs; subst; eexists; (split; [reflexivity|]); cbn in E |- *; congruence.
    + rewrite list_lookup_insert_ne by done. eauto.
  - destruct Ho as (p & l & Hp & Hu & Hh & Hk & Hop & Hn). destruct (cancel_keeps _ _ _ _ Hk) as (l' & Hk' & E).
    exists (cancel_proc p), l'. cbn [r_procs r_active]. rewrite list_lookup_fmap, Hp, E. done.
  - destruct Ho as (pi & l & Hpi & Hu & Hh & Hk & Hop & Hn). exists pi, l. cbn [set_proc r_procs r_active].
    rewrite list_lookup_insert_ne; [done|]. intros ->. simplify_eq. congruence.
Qed.

Lemma orphan_rtc i k a w w' : run_inv w → orphan i k a w → rtc any_step w w' → orphan i k a w'.
Proof.
  intros Hi Ho Hr. induction Hr as [w|w1 w2 w3 [x Hs] _ IH]; [done|]. apply IH; [by eapply run_inv_step|by eapply orphan_step].
Qed.

(** C40: a TCP inbound, other than the HTTP one, that is removed before it has
    bound its address, which nobody else holds, can never be stopped.  [Stop]
    finds no listener and does nothing; when [Start] then binds the address,
    the listener is in no table: whatever configurations come, and even when
    the agent stops, it stays open, and no inbound configured later can
    listen on its address. *)
Theorem early_stop_leaks (w : running) (cfg : Config) (order : list (bytes * inbound_handler)) (i : nat) (p : proc) (a : bytes) :
  rtc any_step start_running w → order ≡ₚ map_to_list (sr_started (syncInbounds cfg (handlers w))) →
  r_procs w !! i = Some p → p_todo p = [a] → p_socks p = [] → is_udp (p_handler p) = false → is_http (p_handler p) = false →
  removed cfg w i → (∀ j q, r_procs w !! j = Some q → ¬ holds q false a) →
  ∃ w2, rstep (RBind i) (run_sync cfg order w) w2 ∧
    ∀ w', rtc any_step w2 w' →
      (∃ p' l, r_procs w' !! i = Some p' ∧ p_socks p' !! 0%nat = Some (a, Tcp l) ∧ is_open l = true) ∧
      (∀ key, r_active w' !! key ≠ Some i) ∧ (∀ j k, opened w' j k false a → j = i).
Proof.
  intros Hr Hord Hp Htodo Hsocks Hu Hh Hrem Hfree.
  pose proof (run_inv_rtc _ _ run_inv_start Hr) as Hi. set (w1 := run_sync cfg order w).
  assert (rstep (RSync cfg) w w1) as Hs1 by (by apply rs_sync). pose proof (run_inv_step _ _ _ Hi Hs1) as Hi1.
  assert (r_procs w1 !! i = Some p) as Hp1.
  { apply (sync_procs cfg order w). left. exists p. split; [done|]. rewrite bool_decide_true by (by apply removed_elem).
    destruct p as [h todo socks]. cbn in *. by subst socks. }
  eexists. assert (rstep (RBind i) w1 (set_proc i (let p' := proc_bind None p in if r_done w1 then cancel_proc p' else p') w1)) as Hs2.
  { apply rs_bind; [done|by rewrite Htodo|]. intros _ a' j q. rewrite Htodo, Hu. intros [= <-] Hq (Hq1 & s & Hs & Hop).
    apply list_elem_of_lookup in Hs as [k Hk].
    destruct (opened_moves w w1 j k false a) as (q' & s' & Hq' & Hk' & Hop' & Hu').
    - destruct (rstep_shape _ _ _ Hs1) as [Hm|(? & ? & _)]; [exact Hm|done].
    - exists q, s. done.
    - apply (Hfree j q' Hq'). split; [done|]. exists s'. split; [by eapply list_elem_of_lookup_2|done]. }
  split; [exact Hs2|]. set (w2 := set_proc _ _ _) in *. pose proof (run_inv_step _ _ _ Hi1 Hs2) as Hi2.
  assert (orphan i 0 a w2) as Ho2.
  { unfold orphan, w2. cbn [set_proc r_procs r_active]. rewrite list_lookup_insert_eq by (by eapply lookup_lt_Some).
    assert (∃ l, p_socks (proc_bind None p) !! 0%nat = Some (a, Tcp l) ∧ is_open l = true) as (l & Hl & Hop).
    { unfold proc_bind. rewrite Htodo. destruct (bind_sock_free (p_handler p)) as (s & -> & Hty & Hop). cbn. rewrite Hsocks. cbn.
      destruct s as [l|u]; [by exists l|]. cbn in Hty. congruence. }
    destruct (cancel_keeps _ _ _ _ Hl) as (l' & Hl' & E). eexists _, (if r_done w1 then l' else l). split; [reflexivity|].
    assert (∀ key, r_active w1 !! key ≠ Some i) as Hn.
    { destruct (sync_removed cfg order w i p Hi Hord Hp Hrem) as [Hn _]. exact Hn. }
    destruct (r_done w1); cbn [cancel_proc p_handler]; rewrite bind_handler; split_and!; try done. by rewrite E. }
  intros w' Hr'. destruct (orphan_rtc _ _ _ _ _ Hi2 Ho2 Hr') as (p' & l & Hp' & Hu' & _ & Hk' & Hop' & Hn').
  split; [eauto|]. split; [done|]. intros j k Hj. destruct (run_inv_rtc _ _ Hi2 Hr') as [_ _ Hx].
  destruct (Hx _ _ i 0%nat _ _ Hj) as [-> _]; [|done]. exists p', (Tcp l). done.
Qed.

(** ** Concrete runs *)

Definition demo_in : InboundConfig :=
  {| in_Protocol := "redirect"; in_Listen := "0.0.0.0:12345"; in_Transport := []; in_ProxyProtocol := false;
     in_Obfuscation := zeroObfs; in_Auth := {| Enabled := false; Users := [] |}; in_WSPath := []; in_WSHeader := ∅; in_Settings := ∅ |}.

Definition demo_cfg : Config := with_inbounds zeroConfig [demo_in].

Definition demo_order : list (bytes * inbound_handler) := [("redirect-0.0.0.0:12345" : bytes, IRedirect "0.0.0.0:12345" false)].

(** The inbound is configured; its [Start] has not run yet. *)
Definition demo_starting : running := run_sync demo_cfg demo_order start_running.

Lemma demo_first : rstep (RSync demo_cfg) start_running demo_starting.
Proof. apply rs_sync. vm_compute. reflexivity. Qed.

Definition demo_bound : running :=
  set_proc 0 (proc_bind None (new_proc (IRedirect "0.0.0.0:12345" false))) demo_starting.

Lemma demo_bind : rstep (RBind 0) demo_starting demo_bound.
Proof.
  apply (rs_bind demo_starting 0 (new_proc (IRedirect "0.0.0.0:12345" false)) None); [reflexivity|discriminate|].
  intros _ a [|[|j]] q _ [= <-] (_ & s & Hs & _); by apply not_elem_of_nil in Hs.
Qed.

Lemma demo_opened : opened demo_bound 0 0 false "0.0.0.0:12345".
Proof. eexists _, _. split; [reflexivity|]. split; [reflexivity|]. split; reflexivity. Qed.

Lemma inbounds_tracked_witness :
  opened demo_bound 0 0 false "0.0.0.0:12345" ∧
  ∃ p, r_procs demo_bound !! 0%nat = Some p ∧ r_active demo_bound !! AgentThms.handler_key (p_handler p) = Some 0%nat.
Proof.
  split; [exact demo_opened|]. destruct (inbounds_tracked demo_bound) as [H _]; [|exact (proj1 (H _ _ _ _ demo_opened))].
  eapply rtc_l; [apply (careful_step (RSync demo_cfg)); [|exact demo_first]; intros i p (key & Hk & _); done|].
  apply rtc_once. apply (careful_step (RBind 0)); [exact I|exact demo_bind].
Defined.

Lemma demo_reach : rtc any_step start_running demo_bound.
Proof. eapply rtc_l; [by eexists; exact demo_first|]. apply rtc_once. by eexists; exact demo_bind. Qed.

(** Removing the inbound closes its socket. *)
Lemma running_refines_agent_witness :
  (∀ k udp a, ¬ opened (run_sync zeroConfig [] demo_bound) 0 k udp a) ∧ handlers (run_sync zeroConfig [] demo_bound) = ∅.
Proof.
  destruct (running_refines_agent demo_bound zeroConfig [] 0 (proc_bind None (new_proc (IRedirect "0.0.0.0:12345" false))) demo_reach)
    as (Hh & _ & Hr); [vm_compute; reflexivity|reflexivity|].
  split; [|rewrite Hh; vm_compute; reflexivity]. apply Hr. exists "redirect-0.0.0.0:12345". split; vm_compute; reflexivity.
Defined.

(** Removing it before it has bound leaves it behind for good. *)
Lemma early_stop_leaks_witness :
  ∃ w2, rstep (RBind 0) (run_sync zeroConfig [] demo_starting) w2 ∧
    ∀ w', rtc any_step w2 w' → ∀ key, r_active w' !! key ≠ Some 0%nat.
Proof.
  destruct (early_stop_leaks demo_starting zeroConfig [] 0 (new_proc (IRedirect "0.0.0.0:12345" false)) "0.0.0.0:12345") as (w2 & Hs & H);
    [apply rtc_once; by eexists; exact demo_first|vm_compute; reflexivity|reflexivity|reflexivity|reflexivity|reflexivity|reflexivity
    |exists "redirect-0.0.0.0:12345"; split; vm_compute; reflexivity
    |intros [|[|j]] q [= <-] (_ & s & Hin & _); by apply not_elem_of_nil in Hin|].
  exists w2. split; [exact Hs|]. intros w' Hr. by destruct (H w' Hr) as (_ & Hn & _).
Defined.

End RunningThms.
