(* ===== verification/Deployment.v ===== *)
(** * A deployed node: from the configuration to the end of the chain

    The composition of the parts: a configuration starts the agent
    ([Agent.v]), which fills the router ([Router.v]) and starts the inbounds
    ([Running.v]); a client of the SOCKS5 inbound ([Inbound.v]) is routed to
    the configured chain outbound ([Outbound.v]), and its session arrives
    behind the chain ([NPChain.v]). *)

From S2P Require Import Prelude GoNet Stream Types NPChain Obfs Limits Outbound Router Dns Config Inbound Transport Agent Running.

(** A configuration of a proxy node on a machine with the files [d]: SOCKS5
    clients on [c], everything over the chain outbound [o] by a default rule
    in the first place, no obfuscation and no fake addresses, and certificate
    files that load. *)
Record proxy_config (d : disk) (cfg : Config) (c : InboundConfig) (o : OutboundConfig) : Prop := {
  pc_certs : ∃ cm, NewCertManager (cert_files_of d (Controller cfg)) (ct_Insecure (Controller cfg)) = Ok cm;
  pc_inbound : c ∈ Inbounds cfg;
  pc_keys : NoDup (inbound_key <$> Inbounds cfg);
  pc_socks : in_Protocol c = ("socks5" : bytes);
  pc_outbound : o ∈ Outbounds cfg;
  pc_names : NoDup (out_Name <$> Outbounds cfg);
  pc_chain : out_Protocol o = ("npchain" : bytes);
  pc_quic : out_Transport o = ("quic" : bytes);
  pc_plain : obfuscated (oType (out_Obfuscation o)) (Interval (out_Obfuscation o)) = false;
  pc_named : out_Name o ≠ [];
  pc_rule : ∃ r rs, rt_Rules (Routing cfg) = r :: rs ∧ rr_Type r = ("default" : bytes) ∧ rr_Outbound r = out_Name o;
  pc_nofake : fk_Enabled (rt_FakeIP (Routing cfg)) = false }.

(** The handler the agent makes of [o]. *)
Definition chain_of (o : OutboundConfig) : NPChainHandler :=
  NewNPChainHandler (out_Name o) (out_Group o) (out_Address o) (out_Transport o) (out_Obfuscation o) (out_MultiPath o).

Module DeploymentThms.
Import InboundThms.

(** ** Starting *)

Lemma new_outbound_cert c : new_outbound true c ≠ Panic.
Proof. unfold new_outbound. by repeat case_bool_decide. Qed.

Lemma new_outbound_name cert c h : new_outbound cert c = Ok (Some h) → Name h = out_Name c.
Proof. unfold new_outbound. repeat case_bool_decide; destruct cert; intros E; by simplify_eq/=. Qed.

(** With distinct names the outbound of a name is the one configured. *)
Lemma last_named_unique cert cs o h :
  NoDup (out_Name <$> cs) → o ∈ cs → new_outbound cert o = Ok (Some h) →
  AgentThms.last_named (out_Name o) (AgentThms.handlers cert cs) = Some h.
Proof.
  intros Hnd Hin Ho.
  assert (∀ cs', out_Name o ∉ out_Name <$> cs' → AgentThms.last_named (out_Name o) (AgentThms.handlers cert cs') = None) as Hnone.
  { induction cs' as [|c cs' IH]; intros Hn; [done|]. cbn [fmap list_fmap] in Hn. apply not_elem_of_cons in Hn as [Hne Hn].
    unfold AgentThms.handlers. cbn [flat_map]. fold (AgentThms.handlers cert cs').
    destruct (new_outbound cert c) as [[h0|]| |] eqn:E; [|by apply IH..]. cbn [app].
    rewrite AgentThms.last_named_cons, IH by done. rewrite bool_decide_false; [done|]. by rewrite (new_outbound_name _ _ _ E). }
  induction cs as [|c cs IH]; [by apply not_elem_of_nil in Hin|]. cbn [fmap list_fmap] in Hnd. apply NoDup_cons in Hnd as [Hc Hnd].
  unfold AgentThms.handlers. cbn [flat_map]. fold (AgentThms.handlers cert cs). apply elem_of_cons in Hin as [->|Hin].
  - rewrite Ho. cbn [app]. rewrite AgentThms.last_named_cons, Hnone by done.
    by rewrite bool_decide_true by (by eapply new_outbound_name).
  - destruct (new_outbound cert c) as [[h0|]| |]; [|by apply IH..]. cbn [app]. rewrite AgentThms.last_named_cons. by rewrite IH.
Qed.

Lemma nofake_dns `{DNSMsg Msg} cfg :
  fk_Enabled (rt_FakeIP (Routing cfg)) = false → ∃ sr : SmartResolver Msg, start_dns cfg = Ok sr ∧ fakeIPEnabled sr = false.
Proof.
  intros Hf. unfold start_dns. rewrite Hf. cbn [res_bind]. eexists. split; [done|]. cbn [AddUpstreamByString fakeIPEnabled].
  assert (∀ l (sr : SmartResolver Msg), fakeIPEnabled (fold_left (λ sr u, AddUpstreamByString "local" u sr) l sr) = fakeIPEnabled sr) as Hl
    by (induction l as [|u l IH]; intros sr; cbn; [done|]; by rewrite IH).
  by rewrite Hl.
Qed.

Section deployed.
Context `{DNSMsg Msg} (d : disk) (cfg : Config) (c : InboundConfig) (o : OutboundConfig).
Hypothesis Hcfg : proxy_config d cfg c o.

Lemma chain_made : new_outbound true o = Ok (Some (HNPChain (chain_of o))).
Proof. destruct Hcfg. unfold new_outbound, chain_of. rewrite pc_chain0, pc_quic0. reflexivity. Qed.

Lemma deployed_start :
  ∃ a : Agent Msg, Start d (New cfg) = Ok a ∧
    a_inbounds a !! inbound_key c = Some (ISocks5 (in_Listen c) (in_ProxyProtocol c) (in_Auth c)) ∧
    a_inbounds a = sr_active (syncInbounds cfg ∅) ∧
    ∀ order meta, Route order (agent_router a) meta = Ok (HNPChain (chain_of o)).
Proof.
  pose proof chain_made as Hm. destruct Hcfg as [[cm Hcm] Hin Hkeys Hsocks Hout Hnames _ _ _ Hname (r & rs & Hrules & Hty & Hro) Hfake].
  assert (cert_loaded d (Controller cfg) = true) as Hcert by (unfold cert_loaded; by rewrite Hcm).
  destruct (nofake_dns (Msg := Msg) cfg Hfake) as (sr & Edns & Hsr).
  destruct (AgentThms.apply_config_exact true cfg NewRouter) as (r' & Er & Hrul & _ & Hob); [intros; apply new_outbound_cert|].
  eexists. split; [|split; [|split]].
  - unfold Start. cbn [a_state New a_cfg]. rewrite bool_decide_true by done. cbn [negb]. rewrite Hcert, Edns. cbn [res_bind]. rewrite Er.
    cbn [res_bind]. by rewrite andb_false_r.
  - cbn [a_inbounds New]. rewrite AgentThms.sync_lookup, lookup_empty.
    assert (inbound_map (Inbounds cfg) !! inbound_key c = Some c) as ->; [|unfold new_inbound; by rewrite Hsocks].
    clear -Hin Hkeys. induction (Inbounds cfg) as [|d l IH] using rev_ind; [by apply not_elem_of_nil in Hin|].
    rewrite AgentThms.inbound_map_snoc. rewrite fmap_app in Hkeys. apply NoDup_app in Hkeys as (Hl & Hd & _).
    apply elem_of_app in Hin as [Hin|Hin]; [|apply list_elem_of_singleton in Hin as ->; by rewrite lookup_insert_eq].
    rewrite lookup_insert_ne; [by apply IH|]. intros E. apply (Hd (inbound_key c)); [by apply list_elem_of_fmap_2|].
    cbn [fmap list_fmap]. rewrite E. by apply list_elem_of_singleton.
  - done.
  - intros order meta. unfold Route, restore. cbn [agent_router a_router a_dns SetResolver resolver rules outbounds as_resolver ResolveFakeIP].
    unfold sr_ResolveFakeIP. rewrite Hsr. cbn [negb].
    assert (∀ m, List.find (λ rule, match_rule (SetResolver (as_resolver sr) r') rule m) (rules r') = Some (rule_of r)) as Hfind.
    { intros m. rewrite Hrul, Hrules. cbn [fmap list_fmap List.find]. unfold match_rule at 1. cbn [rule_of Type_]. rewrite Hty. reflexivity. }
    destruct (ParseIP _); cbn [res_bind]; rewrite Hfind; cbn [rule_of Types.Outbound]; rewrite Hro, bool_decide_false by done; cbn [negb];
      by rewrite Hob, (last_named_unique true _ o _ Hnames Hout Hm).
Qed.

End deployed.

(** C3: a configured node proxies.  For every configuration of a proxy node
    (certificate files that load, a SOCKS5 inbound, a QUIC chain outbound
    without obfuscation, a default rule to it in the first place, no fake
    addresses) the agent starts; the SOCKS5 inbound runs with the configured
    address and users, and the processes of the running node are the handlers
    in the agent's table; when the dial of the chain succeeds, a client who
    follows the SOCKS5 protocol, with credentials of one of these users if
    they are asked for, and requests a host and port the chain can carry, is
    given a session; the address of the outbound is dialed, and what is
    written on the chain connection arrives behind it as a session to that
    host and port with exactly the client's data. *)
Theorem configured_node_proxies `{UUIDLaws} `{DNSMsg Msg} (d : disk) (cfg : Config) (c : InboundConfig) (o : OutboundConfig) :
  proxy_config d cfg c o →
  ∃ a : Agent Msg, Start d (New cfg) = Ok a ∧
    a_inbounds a !! inbound_key c = Some (ISocks5 (in_Listen c) (in_ProxyProtocol c) (in_Auth c)) ∧
    (∀ order, order ≡ₚ map_to_list (sr_started (syncInbounds cfg ∅)) →
       Running.handlers (run_sync cfg order start_running) = a_inbounds a) ∧
    ∀ (g : rnd) (fg : frnd) (bcrypt : bytes → bytes → bool) (uport : option Z) (e : env handler np_conn) (s : stream)
      (methods user pass payload : bytes) (addr : socks_addr) (port : Z),
      let target := JoinHostPort (addr_host addr) (Itoa port) in
      e_router e = agent_router a → e_dial e = chain_dial g fg →
      steady s → stream_bytes s = socks5_client (in_Auth c) methods user pass Byte.x01 addr port payload →
      (length methods ≤ 255)%nat → (length user ≤ 255)%nat → (length pass ≤ 255)%nat → addr_ok addr → 0 ≤ port < 65536 →
      Enabled (in_Auth c) = false ∨ check_users bcrypt (Users (in_Auth c)) user pass = true → good_hop target →
      ∃ sess lm' st', handleConnection (in_Auth c) bcrypt (a_lm a) uport e (start_conn s) = (Cont (Connected sess, lm'), st') ∧
        nc_peer (s_conn sess) = ("quic" : bytes, out_Address o) ∧
        journey 1 (concat (written (nc_sink (s_conn sess))) ++ client_bytes (s_client sess)) =
          ([], Arrived ("tcp" : bytes) target payload).
Proof.
  intros Hcfg. destruct (deployed_start (Msg := Msg) d cfg c o Hcfg) as (a & Ea & Hin & Hact & Hroute). exists a.
  split; [done|]. split; [done|]. split.
  - intros order Ho. rewrite Hact. apply (RunningThms.sync_handlers cfg order start_running); [by intros ???|exact Ho].
  - intros g fg bcrypt uport e s methods user pass payload addr port target Her Hed Hs Hb Hm Hu Hw Ha Hp Hok Hg.
    destruct (socks5_chain_run g fg (in_Auth c) bcrypt (a_lm a) uport e s methods user pass payload addr port (chain_of o)
      Hs Hb Hm Hu Hw Ha Hp Hok Hg Hed) as (sess & lm' & st' & E & _ & Ep & Ej);
      [rewrite Her; apply Hroute|apply Hcfg|apply Hcfg|]. by exists sess, lm', st'.
Qed.

(** ** A concrete node *)

Import DemoUUID.
#[local] Existing Instance DnsThms.demo_dns.

Definition demo_inbound : InboundConfig :=
  {| in_Protocol := "socks5"; in_Listen := "127.0.0.1:1080"; in_Transport := []; in_ProxyProtocol := false;
     in_Obfuscation := zeroObfs; in_Auth := demo_auth; in_WSPath := []; in_WSHeader := ∅; in_Settings := ∅ |}.

Definition demo_outbound : OutboundConfig :=
  {| out_Name := "exit"; out_Protocol := "npchain"; out_Group := "g"; out_Address := "192.0.2.1:443"; out_Transport := "quic";
     out_Obfuscation := zeroObfs; out_MultiPath := false; out_TLSSNI := []; out_WSPath := []; out_WSHeader := ∅;
     out_Settings := ∅ |}.

Definition demo_rule : RoutingRuleConfig :=
  {| rr_Type := "default"; rr_Pattern := []; rr_Outbound := "exit"; rr_OutboundGroup := []; rr_Strategy := [] |}.

Definition demo_config : Config :=
  {| Version := []; Node := Node zeroConfig;
     Controller := {| ct_Enabled := false; ct_Address := []; ct_Insecure := false; ct_CertFile := "node.crt"; ct_KeyFile := "node.key";
                      ct_CAFile := "ca.crt" |};
     Inbounds := [demo_inbound];
     Outbounds := [demo_outbound];
     Routing := {| rt_Rules := [demo_rule]; rt_DNSUpstreams := rt_DNSUpstreams (Routing zeroConfig);
                   rt_DNSIsolationThreshold := 0; rt_FakeIP := rt_FakeIP (Routing zeroConfig) |};
     Observability := Observability zeroConfig; Config.Limits := Config.Limits zeroConfig |}.

(** A machine with the three files, whose key belongs to the certificate. *)
Definition demo_disk : disk :=
  {| d_files := {| files := {["node.crt" : bytes := "N" : bytes; "node.key" : bytes := "N" : bytes; "ca.crt" : bytes := "A" : bytes]}; dirs := ∅ |};
     d_pair := λ cert key, if bool_decide (cert = key) then Ok cert else Fail (Errorf "private key does not match") |}.

Lemma demo_proxy : proxy_config demo_disk demo_config demo_inbound demo_outbound.
Proof.
  split; try done; [by eexists; vm_compute|by left|by apply NoDup_singleton|by left|by apply NoDup_singleton|by exists demo_rule, []].
Qed.

Definition agent_env {Msg} `{DNSMsg Msg} (a : Agent Msg) : env handler np_conn :=
  {| e_router := agent_router a; e_order := []; e_dial := chain_dial (NPThms.demo_rnd Byte.x40) demo_frnd;
     e_uuid := "s1"; e_now := 0; e_remote := "198.51.100.1:5000" |}.

Lemma configured_node_proxies_witness :
  ∃ a : Agent DnsThms.demo_msg, Start demo_disk (New demo_config) = Ok a ∧
    ∃ sess lm' st', handleConnection demo_auth demo_bcrypt (a_lm a) None (agent_env a) (start_conn (demo_stream "secret")) =
        (Cont (Connected sess, lm'), st') ∧
      nc_peer (s_conn sess) = ("quic" : bytes, "192.0.2.1:443" : bytes) ∧
      journey 1 (concat (written (nc_sink (s_conn sess))) ++ client_bytes (s_client sess)) =
        ([], Arrived ("tcp" : bytes) (JoinHostPort (addr_host demo_addr) (Itoa 443)) ("ping" : bytes)).
Proof.
  destruct (configured_node_proxies (Msg := DnsThms.demo_msg) demo_disk demo_config demo_inbound demo_outbound demo_proxy)
    as (a & Ea & _ & _ & Hrun).
  exists a. split; [exact Ea|].
  apply (Hrun (NPThms.demo_rnd Byte.x40) demo_frnd demo_bcrypt None (agent_env a) (demo_stream "secret")
           [Byte.x00; Byte.x02] "alice" "secret" "ping" demo_addr 443);
    [reflexivity|reflexivity|apply demo_steady|apply mk_stream_bytes|cbn; lia|cbn; lia|cbn; lia|reflexivity|lia
    |right; vm_compute; reflexivity|apply demo_good_hop].
Defined.

End DeploymentThms.
